(* ===== verification/_CoqProject ===== *)
-Q . S2P
Prelude.v
GoStrings.v
Sha256.v
Json.v
GoTime.v
Manifest.v
GoIO.v
Bufio.v
GoRegexp.v
OciUtil.v
Registry.v
Tar.v
Zstd.v
Snapshot.v
SnapshotPush.v
PushSpec.v
PushSafe.v
PushPool.v
SnapshotPull.v
Pipeline.v
PullSpec.v
PullPipeline.v
RoundTrip.v
Samples.v
PushRun.v
Oci.v
OciProps.v
PushProps.v
PullSink.v
PullProps.v
Envelope.v
Concurrent.v
Healthy.v
Progress.v
Bodies.v
CloudImg.v
K8s.v
Heap.v
Certs.v
Api.v
ApiMem.v
Patch.v
Ctx.v
Clients.v
Setup.v
Meta.v
MetaProps.v
VmName.v
Httpx.v
Admission.v
AdmissionCodec.v
