(* ===== verification/Prelude.v ===== *)
(** * cocoon-common: a verification library

    cocoon-common is the Go module the cocoonstack projects share.  It moves
    VM snapshots between a [cocoon snapshot export] stream, an OCI registry
    and an import tar (snapshot/), streams cloud images (cloudimg/), names and
    classifies what is stored (manifest/, ociutil/), talks to registries
    (oci/), and keeps the contracts between the Kubernetes operator and its
    nodes: annotations and VM names (meta/), CRD types (apis/v1/), helpers
    (k8s/, k8s/admission/) and server lifecycles (httpx/).

    ** How Go is modelled

    A [[]byte] is a [list byte], a Go string a [string] of bytes.  Integers
    are [Z]; where the source can leave its 64 bits the operation says so
    ([wrap64], [shl20], [godiv], [in_int64]).  A function returning
    [(A, error)] returns a [result A]: a value, an error or a panic.  Errors
    keep the sentinels and the HTTP statuses the source tests for
    ([errors_Is], [errors_AsTransport]); the text of a message that nothing
    reads is approximate.  An [io.Reader] is a script of partial reads ending
    in an error, so that a theorem about every script is about every way a
    body can arrive.  Calls on the registry are functions of its state
    ([Registry.M]); goroutines are step relations, one step per blocking
    operation, with theorems about every interleaving.  Maps are [gmap]s; JSON
    is text, parsed and printed.

    ** The files, in order of dependency

    - [Prelude]: results, errors, machine integers, stable sorting, sums, step
      relations.  [GoStrings]: the parts of strings and strconv the source
      uses.  [Sha256]: FIPS 180-4, executable.  [Json]: encoding/json on a
      JSON value: reading back what was printed gives the value, its strings
      coerced to UTF-8 ([parse_json_render], [parse_marshal]).  [GoTime]: what
      it accepts as a time.  [GoIO]: io.Copy, io.ReadFull, io.ReadAll,
      io.LimitReader over scripted readers.
      [Bufio]: bufio.Writer, and how late it reports a failing writer.
      [GoRegexp]: the regular expressions of ociutil by derivatives.
    - [Manifest]: manifest/media.go and types.go, the wire structs with their
      JSON, Parse and Classify.  [OciUtil]: ociutil.go, the size-checking
      reader, CopyBlobSized, references.
    - [Registry]: the interfaces Uploader and Downloader of
      snapshot/snapshot.go, the contract [RegistryOk] of a content-addressed
      registry, [Serving] for one that is up, and an in-memory instance.
      [Tar], [Zstd]: archive/tar (the size of every header, body, padding and
      trailer, over a writer that may fail anywhere) and zstd as the source
      sees them.
      [Snapshot]: the export envelope of snapshot.go.
    - [SnapshotPush]: push.go and pushpipeline.go, from [Push] down.
      [PushSpec]: the reference [plan_push] (which blobs, config and manifest
      an export becomes) and the refinement lemmas.  [PushSafe]: what a push
      may do to a registry however it ends.  [PushPool]: the same pipeline
      with its goroutines and buffer pools interleaved.
    - [SnapshotPull]: pull.go and pullencoded.go, from [Stream] down.
      [Pipeline]: the concurrent chunk reader (newChunkSource, WriteTo, drain,
      fetch, bufPool).  [PullSpec]: the sequential and windowed readers
      against one delivery specification.  [PullPipeline]: the concurrent
      reader refines the sequential one.
    - [RoundTrip]: push then pull.  [Samples]: a concrete export and its
      witnesses.  [PushRun]: a schedule of [PushPool].  [PushProps],
      [PullProps]: the other theorems on push and pull.  [PullSink]: what a
      stream that succeeds has handed to its writer.  [Envelope]: the
      snapshot.json of an import stream.  [Bodies]: the response bodies a
      sequential file stream opens and closes.
    - [Concurrent]: whole pushes and whole streams with their goroutines.
      [Push_runs] is [Push] over any run of [PushPool], cancelled at any
      moment; a stream takes its schedule as the [copy] argument of the
      functions ending in [_by] ([streamFile_by] to [Stream_by]), and
      [scheduled] says which are schedules.  [Healthy]: concurrent pushes over
      a registry that is up.  [Progress]: the lines a push and a stream report,
      read off their runs.
    - [Oci], [OciProps]: oci.go.  go-containerregistry is the class [Remote]
      and what the client relies on the class [RemoteOk]; [oci_registry_ok]
      discharges [RegistryOk], so that the push and pull theorems hold through
      the client; [InMemory] is an instance.
    - [CloudImg]: cloudimg.go.  [K8s]: patch.go, env.go, netip.go,
      condition.go.  [Certs]: tls.go.  [Ctx]: ctx.go.  [Clients]: config.go,
      clientset.go.  [Meta], [MetaProps]: the annotation contracts of meta/.
      [VmName]: vmname.go.  [Httpx]: httpx.go.  [Admission]: k8s/admission;
      [AdmissionCodec] is a review's JSON form.
    - [Heap]: Go memory where aliasing matters, and the contract [DeepCopyOk]
      of a deep copy.  [Api]: apis/v1 enumerations, and the specs as values.
      [ApiMem]: the structs of apis/v1 in memory and zz_generated.deepcopy.go,
      over the class [KubeTypes] of the types they embed; every type is shown
      to meet the contract.  [Patch]: clientpatch.go, whose theorems use that
      contract only, and event.go.  [Setup]: log.go and groupversion_info.go.

    ** What the theorems show

    - Push and pull: a successful push is restored by a stream, file by
      file (over any registry that meets the contract, through the OCI
      client over any remote that keeps its promises, and for every
      schedule of the goroutines of both); a push succeeds when the
      machine and the registry do, and adds what it planned and nothing
      else; a manifest is published last and names only stored blobs,
      however the push ends and whenever it is cancelled; nothing is
      written before a manifest has been validated; a stream that returns
      no error has handed every byte to its writer, a cancelled one never
      passes for whole, and none leaks a response body; artifacts without
      compression and chunking are v1.
    - Concurrency: every interleaving of the upload goroutines and of the
      prefetching reader does what the sequential run does, ends within a
      bound, never deadlocks, never waits for a buffer and gives every
      buffer back; no interleaving of a push fails over a registry that is
      up; a push reports a blob once, and only when it is stored; a server
      group returns when every server has stopped, with their joined
      errors, and cannot hang once it is told to stop.
    - Bounds: worker counts and buffers fit the memory budgets, no chunk
      exceeds its buffer, the config read is capped, a body is copied exactly
      or refused.
    - Round trips and agreement: the JSON of manifests and configs, Classify
      and Parse, sparse maps, engine configs, the annotation contracts, the
      lifecycle patch and its Apply, CRD specs to annotations and back, VM
      names and agent slots, references and their grammar.
    - Memory: a deep copy shares nothing with its original, so that the merge
      patch [Patch] sends goes from what the object was to what it became.
    - Kubernetes helpers: what an admission webhook answers, where a
      certificate comes from, which node address is found, when a ticker loop
      calls and returns, how clients are configured and their errors reported.

    ** Fuel and bounds

    Loops over readers take fuel, and lemmas show that the fuel given is
    enough for every script: [2 + weight r] or [3 + weight r] reads for a
    reader [r] ([weight] counts its pieces and bytes), [checker_fuel] and
    [stream_fuel] for the size checker and the chunk stream.  The JSON scanner
    takes the length of its input.  Step relations need none: their runs are
    at most [14 n + 3] (chunk reader), [12 n + 7] (concurrent push) and
    [3 n + 4] ([Run]) steps long.

    ** Not modelled

    Log lines; the bytes of a tar header beyond its size, which only tar
    readers see; hack/ (blank imports).  The sequential
    functions of [SnapshotPush] take a context that is done or not for the
    whole push: one cancelled during it is in [PushPool] and [Concurrent], as
    are requests that fail for it.  What the API server does with a patch, or
    with the markers of a CRD, is not this module's. *)

From Stdlib Require Import ZArith Lia Ascii String.
From Stdlib Require Import Strings.Byte Sorting.Sorted.
From stdpp Require Import base gmap strings list fin_maps relations.

Declare Scope go_scope.
Delimit Scope go_scope with go.

(** ** Bytes and strings

    A Go [string] is a sequence of bytes: Stdlib's [string].  A [[]byte] is a
    [list byte].  The two conversions are inverse to each other. *)

(** [length] is the length of lists, whatever else is imported. *)
Abbreviation length := Datatypes.length.

#[global] Arguments String.append _ _ : simpl nomatch.

Abbreviation bytes := (list byte).

Definition bytes_of (s : string) : bytes := list_byte_of_string s.
Definition string_of (b : bytes) : string := string_of_list_byte b.

Lemma bytes_of_string_of b : bytes_of (string_of b) = b.
Proof. apply list_byte_of_string_of_list_byte. Qed.

Lemma string_of_bytes_of s : string_of (bytes_of s) = s.
Proof. apply string_of_list_byte_of_string. Qed.

Lemma bytes_of_append s t : bytes_of (s +:+ t) = (bytes_of s ++ bytes_of t)%list.
Proof.
  unfold bytes_of, list_byte_of_string. induction s as [|c s IH]; [done|]. cbn [String.append list_ascii_of_string List.map app]. by rewrite IH.
Qed.

#[global] Instance bytes_of_inj : Inj (=) (=) bytes_of.
Proof. intros s t H. by rewrite <- (string_of_bytes_of s), H, string_of_bytes_of. Qed.

#[global] Instance byte_eq_dec : EqDecision byte.
Proof. intros x y. destruct (Byte.byte_eq_dec x y); [by left | by right]. Defined.

(** ** Errors

    [Enew] is [errors.New] / [fmt.Errorf] without [%w]; [Ewrap m e] is
    [fmt.Errorf("m: %w", e)]; the sentinels are the error values the source
    compares with [errors.Is]; [Etransport status] is a registry's answer with
    an HTTP status (the third-party [*transport.Error]). *)

Inductive sentinel :=
  | IoEOF
  | IoErrUnexpectedEOF
  | IoErrShortWrite
  | CtxCanceled
  | ErrManifestNotFound
  | ErrMissingSnapshotJSON
  | HttpErrServerClosed
  | FsErrNotExist.

#[global] Instance sentinel_eq_dec : EqDecision sentinel.
Proof. solve_decision. Defined.

Inductive error :=
  | Enew (msg : string)
  | Ewrap (msg : string) (e : error)
  | Esent (s : sentinel)
  | Etransport (status : Z).

#[global] Instance error_eq_dec : EqDecision error.
Proof. solve_decision. Defined.

(** [errors.Is(err, target)] for the sentinels. *)
Fixpoint errors_Is (e : error) (s : sentinel) : bool :=
  match e with
  | Enew _ => false
  | Ewrap _ e' => errors_Is e' s
  | Esent s' => bool_decide (s' = s)
  | Etransport _ => false
  end.

(** [errors.AsType[*transport.Error](err)]: its status code. *)
Fixpoint errors_AsTransport (e : error) : option Z :=
  match e with
  | Ewrap _ e' => errors_AsTransport e'
  | Etransport status => Some status
  | _ => None
  end.

(** ** Results

    What a Go function returning [(A, error)] does: it returns a value, an
    error, or panics (the runtime's checks: a nil map written, a slice made
    with a negative length). *)

Inductive result (A : Type) :=
  | Ok (a : A)
  | Err (e : error)
  | Panic (msg : string).
Arguments Ok {A} a.
Arguments Err {A} e.
Arguments Panic {A} msg.

#[global] Instance result_ret : MRet result := fun A a => Ok a.
#[global] Instance result_bind : MBind result := fun A B f r =>
  match r with
  | Ok a => f a
  | Err e => Err e
  | Panic m => Panic m
  end.
#[global] Instance result_fmap : FMap result := fun A B f r =>
  match r with
  | Ok a => Ok (f a)
  | Err e => Err e
  | Panic m => Panic m
  end.

(** [if err != nil { return fmt.Errorf("msg: %w", err) }] *)
Definition wrap {A} (msg : string) (r : result A) : result A :=
  match r with
  | Err e => Err (Ewrap msg e)
  | _ => r
  end.

Definition is_ok {A} (r : result A) : bool :=
  match r with Ok _ => true | _ => false end.

Lemma bind_Ok {A B} (r : result A) (f : A -> result B) b :
  (r ≫= f) = Ok b <-> exists a, r = Ok a /\ f a = Ok b.
Proof.
  destruct r; cbn; split; [eauto | by intros (? & [= ->] & ?) | done
  | by intros (? & ? & ?) | done | by intros (? & ? & ?)].
Qed.

Lemma wrap_Ok {A} msg (r : result A) a : wrap msg r = Ok a <-> r = Ok a.
Proof. by destruct r. Qed.

Lemma fmap_Ok {A B} (f : A -> B) (r : result A) b :
  (f <$> r) = Ok b <-> exists a, r = Ok a /\ b = f a.
Proof.
  destruct r; cbn; split; [by intros [= <-]; eauto | by intros (? & [= ->] & ->) | done
  | by intros (? & ? & ?) | done | by intros (? & ? & ?)].
Qed.

Create HintDb go discriminated.
Create Rewrite HintDb go_rw.
#[export] Hint Rewrite @bind_Ok @wrap_Ok @fmap_Ok : go_rw.

(** [inv_ok] decomposes hypotheses [_ = Ok _] built by the monad. *)
Ltac inv_ok :=
  repeat match goal with
  | H : (_ ≫= _) = Ok _ |- _ => apply bind_Ok in H; destruct H as (? & ? & ?)
  | H : wrap _ _ = Ok _ |- _ => apply wrap_Ok in H
  | H : (_ <$> _) = Ok _ |- _ => apply fmap_Ok in H; destruct H as (? & ? & ?)
  | H : mret _ = Ok _ |- _ => injection H as H
  | H : Ok _ = Ok _ |- _ => injection H as H
  | H : Err _ = Ok _ |- _ => discriminate H
  | H : Panic _ = Ok _ |- _ => discriminate H
  end; simplify_eq.

Lemma pair_fst {A B} (x : A * B) a : x.1 = a -> x = (a, x.2).
Proof. destruct x. cbn. by intros ->. Qed.

(** [traverse f l]: run [f] over a list, stopping at the first failure. *)
Fixpoint traverse {A B} (f : A -> result B) (l : list A) : result (list B) :=
  match l with
  | [] => Ok []
  | a :: l' => b ← f a; bs ← traverse f l'; Ok (b :: bs)
  end.

Lemma traverse_Ok {A B} (f : A -> result B) l bs :
  traverse f l = Ok bs <-> Forall2 (fun a b => f a = Ok b) l bs.
Proof.
  revert bs. induction l as [|a l IH]; intros bs; cbn.
  - split; [intros [= <-]; constructor | by inversion 1].
  - split.
    + intros H. inv_ok. constructor; [done | by apply IH].
    + inversion 1 as [|? b ? bs' Hab Hr]; subst. rewrite Hab. cbn.
      apply IH in Hr. by rewrite Hr.
Qed.

(** The same with the position, counted from [i]. *)
Fixpoint traversei {A B} (f : nat -> A -> result B) (i : nat) (l : list A) : result (list B) :=
  match l with
  | [] => Ok []
  | a :: l' => b ← f i a; bs ← traversei f (S i) l'; Ok (b :: bs)
  end.

(** When the position only shows in failures. *)
Lemma traversei_Ok {A B} (P : A -> B -> Prop) (f : nat -> A -> result B) i l bs :
  (forall i a b, f i a = Ok b <-> P a b) -> traversei f i l = Ok bs <-> Forall2 P l bs.
Proof.
  intros HP. revert i bs. induction l as [|a l IH]; intros i bs; cbn.
  - split; [intros [= <-]; constructor | by inversion 1].
  - split.
    + intros H. inv_ok. constructor; [by eapply HP | by eapply IH].
    + inversion 1 as [|? b ? bs' Hab Hr]; subst. apply (HP i) in Hab as ->. cbn.
      apply (IH (S i)) in Hr. by rewrite Hr.
Qed.

(** ** Machine integers

    [int] and [int64] are 64-bit two's complement; [int32] is 32-bit. *)

Section ints.
Local Open Scope Z_scope.

Definition minInt64 : Z := - 2 ^ 63.
Definition maxInt64 : Z := 2 ^ 63 - 1.
Definition wrap64 (z : Z) : Z := (z + 2 ^ 63) mod 2 ^ 64 - 2 ^ 63.
Definition in_int64 (z : Z) : bool := (minInt64 <=? z) && (z <=? maxInt64).
Definition in_int32 (z : Z) : bool := (- 2 ^ 31 <=? z) && (z <=? 2 ^ 31 - 1).

Lemma in_int64_spec z : in_int64 z = true <-> - 2 ^ 63 <= z < 2 ^ 63.
Proof. unfold in_int64, minInt64, maxInt64. lia. Qed.

Lemma in_int32_spec z : in_int32 z = true <-> - 2 ^ 31 <= z < 2 ^ 31.
Proof. unfold in_int32. lia. Qed.

Lemma wrap64_id z : in_int64 z = true -> wrap64 z = z.
Proof.
  rewrite in_int64_spec. unfold wrap64. intros H.
  rewrite Z.mod_small; lia.
Qed.

Lemma wrap64_range z : in_int64 (wrap64 z) = true.
Proof.
  apply in_int64_spec. unfold wrap64.
  pose proof (Z.mod_pos_bound (z + 2 ^ 63) (2 ^ 64)). lia.
Qed.

(** [x << 20] on an [int64]. *)
Definition shl20 (z : Z) : Z := wrap64 (z * 2 ^ 20).

Lemma shl20_small z : 0 <= z <= 2 ^ 42 -> shl20 z = z * 2 ^ 20.
Proof. intros H. unfold shl20. apply wrap64_id, in_int64_spec. lia. Qed.

End ints.

(** Go's [/] truncates toward zero. *)
Definition godiv (a b : Z) : Z := Z.quot a b.

(** ** Lists *)

(** [concat] of a list of byte strings, and its length. *)
Lemma length_concat_sum {A} (l : list (list A)) :
  length (concat l) = sum_list (length <$> l).
Proof. induction l as [|x l IH]; cbn; [done|]. rewrite length_app, IH. done. Qed.

(** A stable insertion sort by a Boolean order, [slices.SortStableFunc]. *)
Section sort.
Context {A : Type} (leb : A -> A -> bool).

Fixpoint insert_sorted (x : A) (l : list A) : list A :=
  match l with
  | [] => [x]
  | y :: l' => if leb x y then x :: l else y :: insert_sorted x l'
  end.

Fixpoint sort_stable (l : list A) : list A :=
  match l with
  | [] => []
  | x :: l' => insert_sorted x (sort_stable l')
  end.

Lemma insert_sorted_perm x l : insert_sorted x l ≡ₚ x :: l.
Proof.
  induction l as [|y l IH]; cbn; [done|]. destruct (leb x y); [done|].
  rewrite IH. apply Permutation_swap.
Qed.

Lemma sort_stable_perm l : sort_stable l ≡ₚ l.
Proof. induction l as [|x l IH]; cbn; [done|]. by rewrite insert_sorted_perm, IH. Qed.

Context (leb_total : forall x y, leb x y = false -> leb y x = true).
Context (leb_trans : forall x y z, leb x y = true -> leb y z = true -> leb x z = true).

Lemma insert_sorted_sorted x l :
  StronglySorted (fun a b => leb a b = true) l ->
  StronglySorted (fun a b => leb a b = true) (insert_sorted x l).
Proof.
  induction 1 as [|y l Hs IH Hy]; cbn; [by repeat constructor|].
  destruct (leb x y) eqn:E.
  - constructor; [by constructor|]. constructor; [done|].
    eapply Forall_impl; [exact Hy|]. cbn. eauto.
  - constructor; [done|]. rewrite insert_sorted_perm. constructor; [by apply leb_total|done].
Qed.

Lemma sort_stable_sorted l :
  StronglySorted (fun a b => leb a b = true) (sort_stable l).
Proof. induction l as [|x l IH]; cbn; [constructor|]. by apply insert_sorted_sorted. Qed.

(** Stability: elements of one key class keep their order. *)
Lemma insert_sorted_filter (P : A -> bool) x l :
  StronglySorted (fun a b => leb a b = true) l ->
  (forall a b, P a = true -> P b = true -> leb a b = true) ->
  List.filter P (insert_sorted x l) = List.filter P (x :: l).
Proof.
  intros Hs HP. induction Hs as [|y l Hs IH Hy]; cbn; [done|].
  destruct (leb x y) eqn:E; cbn; [done|]. rewrite IH. cbn.
  destruct (P x) eqn:Px, (P y) eqn:Py; try done.
  rewrite HP in E by done. discriminate.
Qed.

Lemma sort_stable_filter (P : A -> bool) l :
  (forall a b, P a = true -> P b = true -> leb a b = true) ->
  List.filter P (sort_stable l) = List.filter P l.
Proof.
  intros HP. induction l as [|x l IH]; [done|]. cbn [sort_stable].
  rewrite insert_sorted_filter; [|apply sort_stable_sorted|done]. cbn. by rewrite IH.
Qed.

End sort.

(** ** Sums and step relations *)

Lemma sum_insert {A} (g : A -> nat) l i x y :
  l !! i = Some x -> sum_list (g <$> <[i := y]> l) + g x = sum_list (g <$> l) + g y.
Proof.
  revert i. induction l as [|z l IH]; intros [|i] H; cbn in *; [done..| |].
  - injection H as ->. lia.
  - specialize (IH i H). rewrite <- Nat.add_assoc. etransitivity; [apply (f_equal (Nat.add (g z))), IH|apply Nat.add_assoc].
Qed.

Lemma sum_replicate {A} (g : A -> nat) m x : sum_list (g <$> replicate m x) = m * g x.
Proof. induction m as [|m IH]; cbn; lia. Qed.

Lemma sum_zero {A} (g : A -> nat) l : (forall i x, l !! i = Some x -> g x = 0) -> sum_list (g <$> l) = 0.
Proof.
  induction l as [|x l IH]; intros Hl; cbn; [done|]. rewrite (Hl 0 x eq_refl), IH; [done|]. intros i. exact (Hl (S i)).
Qed.

(** A sum of which one term is not zero. *)
Lemma sum_pos {A} (g : A -> nat) l i x : l !! i = Some x -> g x <= sum_list (g <$> l).
Proof.
  revert i. induction l as [|y l IH]; intros [|i] H; cbn in *; [done..| |].
  - injection H as ->. lia.
  - etransitivity; [by apply (IH i)|apply Nat.le_add_l].
Qed.

Lemma sum_le {A} (f g : A -> nat) l : (forall x, f x <= g x) -> sum_list (f <$> l) <= sum_list (g <$> l).
Proof. intros Hfg. induction l as [|x l IH]; cbn; [done|]. by apply Nat.add_le_mono. Qed.

Lemma sum_lt {A} (f g : A -> nat) l i x :
  (forall x, f x <= g x) -> l !! i = Some x -> f x < g x -> sum_list (f <$> l) < sum_list (g <$> l).
Proof.
  intros Hfg. revert i. induction l as [|y l IH]; intros [|i] Hi Hx; cbn in *; [done..| |].
  - injection Hi as ->. apply Nat.add_lt_le_mono; [done|]. by apply sum_le.
  - apply Nat.add_le_lt_mono; [done|]. by apply (IH i).
Qed.

Section steps.
Context {S : Type} (step : S -> S -> Prop) (inv : S -> Prop).
Context (Hstep : forall s s', inv s -> step s s' -> inv s').

(** Rule induction: what holds at the start and is kept by every step. *)
Lemma inv_rtc s s' : inv s -> rtc step s s' -> inv s'.
Proof. intros Hs Hr. apply (rtc_ind_r inv s) in Hr; eauto. Qed.

(** A measure that every step decreases bounds the length of every run. *)
Lemma nsteps_measure (measure : S -> nat) m s s' :
  (forall x y, inv x -> step x y -> measure y < measure x) ->
  inv s -> nsteps step m s s' -> m + measure s' <= measure s.
Proof.
  intros Hm Hi Hr. induction Hr as [s|m s t u Hst Hr IH]; [lia|].
  pose proof (Hm _ _ Hi Hst). specialize (IH (Hstep _ _ Hi Hst)). lia.
Qed.

End steps.
