(* ===== verification/GoStrings.v ===== *)
(** * GoStrings: the parts of Go's [strings], [strconv] and [cmp] the program uses

    [strings.HasPrefix]/[HasSuffix]/[TrimSuffix]/[Cut]/[CutPrefix]/[Contains]
    /[ReplaceAll] (with one-byte separators, the only ones the program
    passes), [strconv.FormatInt]/[ParseInt]/[Atoi] in base 10, and [cmp.Or] on
    strings.  The lemmas are the ones every component shares. *)

From Stdlib Require Import ZArith Lia Ascii String.
From stdpp Require Import base strings list.
From S2P Require Import Prelude.

Local Open Scope string_scope.

(** ** Appending strings *)

Lemma sapp_nil_r s : s +:+ "" = s.
Proof. induction s as [|c s IH]; [done|]. change (String c (s +:+ "") = String c s). by rewrite IH. Qed.

Lemma sapp_assoc s t u : s +:+ (t +:+ u) = (s +:+ t) +:+ u.
Proof. induction s as [|c s IH]; [done|]. change (String c (s +:+ (t +:+ u)) = String c ((s +:+ t) +:+ u)). by rewrite IH. Qed.

Lemma sapp_cons c s t : String c s +:+ t = String c (s +:+ t).
Proof. done. Qed.

#[global] Instance sapp_inj_l s : Inj (=) (=) (String.append s).
Proof. induction s as [|c s IH]; intros t u H; [done|]. injection H as H. by apply IH. Qed.

Lemma sapp_length s t : String.length (s +:+ t) = (String.length s + String.length t)%nat.
Proof. induction s as [|c s IH]; [done|]. cbn. by rewrite IH. Qed.

Lemma sapp_inv_length s1 s2 t1 t2 :
  String.length s1 = String.length s2 -> s1 +:+ t1 = s2 +:+ t2 -> s1 = s2 /\ t1 = t2.
Proof.
  revert s2. induction s1 as [|c s1 IH]; intros [|d s2]; cbn; try discriminate.
  - done.
  - intros [= Hl] [= -> H]. destruct (IH _ Hl H) as [-> ->]. done.
Qed.

#[export] Hint Rewrite sapp_nil_r sapp_cons sapp_length : go_rw.

(** ** cmp.Or on strings *)

Definition cmpOr (a b : string) : string := if String.eqb a "" then b else a.

Lemma cmpOr_nonempty a b : a <> "" -> cmpOr a b = a.
Proof. unfold cmpOr. by destruct (String.eqb_spec a ""). Qed.

(** [%q] in the text of an error, for printable text without quotes or
    backslashes: only such texts use it. *)
Definition quoted (s : string) : string := String "034" (s +:+ String "034" "").

(** ** Prefixes and suffixes *)

Definition hasPrefix (s p : string) : bool := String.prefix p s.

(** [strings.CutPrefix]: [Some rest] when found. *)
Fixpoint cutPrefix (s p : string) {struct p} : option string :=
  match p, s with
  | "", _ => Some s
  | String c p', String d s' => if Ascii.eqb c d then cutPrefix s' p' else None
  | String _ _, "" => None
  end.

Lemma cutPrefix_Some s p r : cutPrefix s p = Some r <-> s = p +:+ r.
Proof.
  revert s. induction p as [|c p IH]; intros s; cbn; [split; congruence|].
  destruct s as [|d s]; [split; discriminate|].
  destruct (Ascii.eqb_spec c d) as [->|Hne].
  - rewrite IH. split; [by intros -> | by intros [= ->]].
  - split; [done|]. intros [= H]. congruence.
Qed.

Lemma cutPrefix_app p r : cutPrefix (p +:+ r) p = Some r.
Proof. by apply cutPrefix_Some. Qed.

Lemma hasPrefix_spec s p : hasPrefix s p = true <-> exists r, s = p +:+ r.
Proof.
  unfold hasPrefix. revert s. induction p as [|c p IH]; intros [|d s]; cbn.
  - split; [by exists "" | done].
  - split; [by exists (String d s) | done].
  - split; [done | by intros [? ?]].
  - destruct (ascii_dec c d) as [->|Hne].
    + rewrite IH. split; [intros [r ->]; eauto | intros [r [= ->]]; eauto].
    + split; [done|]. intros [r [= H]]. congruence.
Qed.

Fixpoint hasSuffix (s suf : string) : bool :=
  String.eqb s suf || match s with "" => false | String _ s' => hasSuffix s' suf end.

Lemma hasSuffix_spec s suf : hasSuffix s suf = true <-> exists p, s = p +:+ suf.
Proof.
  induction s as [|c s IH]; cbn [hasSuffix].
  - rewrite orb_false_r, String.eqb_eq. split; [intros <-; by exists ""|].
    intros [[|d p] H]; [exact H | discriminate].
  - rewrite orb_true_iff, String.eqb_eq, IH. split.
    + intros [<-|[p ->]]; [by exists "" | by exists (String c p)].
    + intros [[|d p] H]; [by left|]. injection H as -> ->. right. by exists p.
Qed.

Lemma hasSuffix_app p suf : hasSuffix (p +:+ suf) suf = true.
Proof. apply hasSuffix_spec. eauto. Qed.

(** [strings.TrimSuffix] *)
Fixpoint trimSuffix (s suf : string) : string :=
  if String.eqb s suf then ""
  else match s with "" => "" | String c s' => String c (trimSuffix s' suf) end.

Lemma trimSuffix_app p suf : trimSuffix (p +:+ suf) suf = p.
Proof.
  induction p as [|c p IH].
  - destruct suf; cbn; [done|]. by rewrite Ascii.eqb_refl, String.eqb_refl.
  - cbn [trimSuffix String.append]. destruct (String.eqb_spec (String c (p +:+ suf)) suf) as [H|_].
    + exfalso. apply (f_equal String.length) in H. cbn in H. rewrite sapp_length in H. lia.
    + by rewrite IH.
Qed.

Lemma trimSuffix_no s suf : hasSuffix s suf = false -> trimSuffix s suf = s.
Proof.
  induction s as [|c s IH]; cbn [hasSuffix trimSuffix]; intros H; apply orb_false_iff in H as [H1 H2].
  - by rewrite H1.
  - by rewrite H1, IH.
Qed.

(** ** Single-byte searches *)

Fixpoint containsByte (s : string) (c : ascii) : bool :=
  match s with "" => false | String d s' => Ascii.eqb d c || containsByte s' c end.

(** [strings.Cut(s, c)]: [Some (before, after)] when found, else [None]. *)
Fixpoint cut (s : string) (c : ascii) : option (string * string) :=
  match s with
  | "" => None
  | String d s' =>
      if Ascii.eqb d c then Some ("", s')
      else match cut s' c with
           | Some (b, a) => Some (String d b, a)
           | None => None
           end
  end.

Lemma cut_None s c : cut s c = None <-> containsByte s c = false.
Proof.
  induction s as [|d s IH]; cbn; [done|]. destruct (Ascii.eqb d c); cbn; [done|].
  rewrite <- IH. by destruct (cut s c) as [[]|].
Qed.

Lemma cut_Some s c b a :
  cut s c = Some (b, a) <-> s = b +:+ String c a /\ containsByte b c = false.
Proof.
  revert b. induction s as [|d s IH]; intros b; cbn.
  - split; [done|]. intros [H _]. destruct b; discriminate.
  - destruct (Ascii.eqb_spec d c) as [->|Hne].
    + split; [by intros [= <- <-]|]. intros [H Hb]. destruct b as [|e b]; [by injection H as ->|].
      injection H as -> ->. cbn in Hb. by rewrite Ascii.eqb_refl in Hb.
    + split.
      * destruct (cut s c) as [[b' a']|] eqn:E; [|done]. intros [= <- <-].
        destruct (proj1 (IH b') eq_refl) as [-> Hb]. split; [done|]. cbn.
        destruct (Ascii.eqb_spec d c); [done|]. done.
      * intros [H Hb]. destruct b as [|e b]; [by injection H as -> ->|].
        injection H as -> ->. cbn in Hb. apply orb_false_iff in Hb as [_ Hb].
        destruct (proj2 (IH b) (conj eq_refl Hb)). by rewrite (proj2 (IH b) (conj eq_refl Hb)).
Qed.

Lemma containsByte_app s t c : containsByte (s +:+ t) c = containsByte s c || containsByte t c.
Proof. induction s as [|d s IH]; cbn; [done|]. by rewrite IH, orb_assoc. Qed.

(** [strings.ReplaceAll(s, c, d)] for one-byte [c] and [d]. *)
Fixpoint replaceAllByte (s : string) (c d : ascii) : string :=
  match s with
  | "" => ""
  | String e s' => String (if Ascii.eqb e c then d else e) (replaceAllByte s' c d)
  end.

Lemma replaceAllByte_app s t c d :
  replaceAllByte (s +:+ t) c d = replaceAllByte s c d +:+ replaceAllByte t c d.
Proof. induction s as [|e s IH]; cbn; [done|]. by rewrite IH. Qed.

Lemma replaceAllByte_no s c d : containsByte s c = false -> replaceAllByte s c d = s.
Proof.
  induction s as [|e s IH]; cbn; [done|]. intros H. apply orb_false_iff in H as [-> H].
  by rewrite IH.
Qed.

Lemma replaceAllByte_gone s c d : c <> d -> containsByte (replaceAllByte s c d) c = false.
Proof.
  intros Hne. induction s as [|e s IH]; cbn; [done|]. rewrite IH, orb_false_r.
  destruct (Ascii.eqb_spec e c) as [->|He].
  - destruct (Ascii.eqb_spec d c); congruence.
  - by destruct (Ascii.eqb_spec e c).
Qed.

#[export] Hint Rewrite containsByte_app replaceAllByte_app : go_rw.

(** ** strconv, base 10 *)

Section strconv.
Local Open Scope Z_scope.

Definition digit_char (d : Z) : ascii := ascii_of_nat (48 + Z.to_nat d).
Definition digit_val (c : ascii) : option Z :=
  let n := Z.of_nat (nat_of_ascii c) in
  if (48 <=? n) && (n <=? 57) then Some (n - 48) else None.

(** Decimal digits of [n >= 0]; [log2 n + 1] steps are enough. *)
Fixpoint format_digits (fuel : nat) (n : Z) (acc : string) : string :=
  match fuel with
  | O => acc
  | S f =>
      let acc' := String (digit_char (n mod 10)) acc in
      if n / 10 =? 0 then acc' else format_digits f (n / 10) acc'
  end.

Definition formatUint (n : Z) : string := format_digits (S (Z.to_nat (Z.log2 n))) n "".

(** [strconv.FormatInt(n, 10)], [strconv.Itoa] *)
Definition formatInt (n : Z) : string :=
  if n <? 0 then String "-" (formatUint (- n)) else formatUint n.

Fixpoint parse_digits (acc : Z) (s : string) : option Z :=
  match s with
  | "" => Some acc
  | String c s' =>
      match digit_val c with
      | Some d => parse_digits (10 * acc + d) s'
      | None => None
      end
  end.

Definition parseUint (s : string) : option Z :=
  match s with "" => None | _ => parse_digits 0 s end.

Definition parseSigned (s : string) : option Z :=
  match s with
  | String "-" s' => Z.opp <$> parseUint s'
  | String "+" s' => parseUint s'
  | _ => parseUint s
  end.

(** [strconv.ParseInt(s, 10, 64)] and [strconv.Atoi]: [None] is the error. *)
Definition parseInt64 (s : string) : option Z :=
  match parseSigned s with
  | Some n => if in_int64 n then Some n else None
  | None => None
  end.

(** [strconv.ParseInt(s, 10, 32)] *)
Definition parseInt32 (s : string) : option Z :=
  match parseSigned s with
  | Some n => if in_int32 n then Some n else None
  | None => None
  end.

Lemma digit_val_char d : 0 <= d < 10 -> digit_val (digit_char d) = Some d.
Proof.
  intros Hd. assert (d = 0 \/ d = 1 \/ d = 2 \/ d = 3 \/ d = 4 \/ d = 5 \/ d = 6 \/ d = 7 \/ d = 8 \/ d = 9) as H by lia.
  by destruct H as [->|[->|[->|[->|[->|[->|[->|[->|[->| ->]]]]]]]]].
Qed.

Lemma parse_digits_app a s t :
  parse_digits a (s +:+ t) = parse_digits a s ≫= fun b => parse_digits b t.
Proof.
  revert a. induction s as [|c s IH]; intros a; cbn; [done|].
  destruct (digit_val c); [apply IH | done].
Qed.

Lemma format_digits_acc fuel n acc :
  format_digits fuel n acc = format_digits fuel n "" +:+ acc.
Proof.
  revert n acc. induction fuel as [|f IH]; intros n acc; cbn; [done|].
  destruct (n / 10 =? 0); [done|]. rewrite IH. rewrite (IH _ (String _ "")).
  by rewrite <- sapp_assoc.
Qed.

Lemma parse_format_digits fuel n :
  0 <= n < 2 ^ Z.of_nat fuel -> parse_digits 0 (format_digits fuel n "") = Some n.
Proof.
  revert n. induction fuel as [|f IH]; intros n Hn.
  - cbn in *. f_equal. lia.
  - cbn [format_digits]. pose proof (Z.mod_pos_bound n 10 ltac:(lia)) as Hm.
    pose proof (Z.div_mod n 10 ltac:(lia)) as Hdm.
    destruct (Z.eqb_spec (n / 10) 0) as [Hz|Hz].
    + cbn [parse_digits]. rewrite digit_val_char by lia. cbn. f_equal. lia.
    + rewrite format_digits_acc, parse_digits_app, IH.
      * cbn [mbind option_bind parse_digits]. rewrite digit_val_char by lia. cbn. f_equal. lia.
      * rewrite Nat2Z.inj_succ, Z.pow_succ_r in Hn by lia. split; [apply Z.div_pos; lia|].
        apply Z.div_lt_upper_bound; lia.
Qed.

Lemma format_digits_cons fuel n : exists c s d,
  format_digits (S fuel) n "" = String c s /\ digit_val c = Some d.
Proof.
  revert n. induction fuel as [|f IH]; intros n.
  - cbn. exists (digit_char (n mod 10)), "", (n mod 10).
    rewrite digit_val_char by (apply Z.mod_pos_bound; lia). by destruct (n / 10 =? 0).
  - change (format_digits (S (S f)) n "") with
      (let acc' := String (digit_char (n mod 10)) "" in
       if n / 10 =? 0 then acc' else format_digits (S f) (n / 10) acc').
    cbn zeta. destruct (n / 10 =? 0).
    + exists (digit_char (n mod 10)), "", (n mod 10).
      rewrite digit_val_char by (apply Z.mod_pos_bound; lia). done.
    + rewrite format_digits_acc. destruct (IH (n / 10)) as (c & s & d & -> & Hd).
      exists c, (s +:+ String (digit_char (n mod 10)) ""), d. done.
Qed.

Lemma formatUint_cons n : exists c s d, formatUint n = String c s /\ digit_val c = Some d.
Proof. apply format_digits_cons. Qed.

Lemma parseUint_formatUint n : 0 <= n -> parseUint (formatUint n) = Some n.
Proof.
  intros Hn. destruct (formatUint_cons n) as (c & s & d & E & _).
  unfold parseUint. rewrite E, <- E. unfold formatUint. apply parse_format_digits.
  rewrite Nat2Z.inj_succ, Z2Nat.id by apply Z.log2_nonneg.
  destruct (Z.eq_dec n 0) as [->|]; [cbn; lia|]. pose proof (Z.log2_spec n). lia.
Qed.

Lemma parseSigned_formatInt n : parseSigned (formatInt n) = Some n.
Proof.
  unfold formatInt. destruct (Z.ltb_spec n 0).
  - change (Z.opp <$> parseUint (formatUint (- n)) = Some n).
    rewrite parseUint_formatUint by lia. cbn. f_equal. lia.
  - destruct (formatUint_cons n) as (c & s & d & E & Hd).
    assert (parseSigned (formatUint n) = parseUint (formatUint n)) as ->.
    { rewrite E. destruct c as [[] [] [] [] [] [] [] []]; done. }
    by apply parseUint_formatUint.
Qed.

Lemma parseInt64_formatInt n : in_int64 n = true -> parseInt64 (formatInt n) = Some n.
Proof. intros H. unfold parseInt64. by rewrite parseSigned_formatInt, H. Qed.

Lemma parseInt32_formatInt n : in_int32 n = true -> parseInt32 (formatInt n) = Some n.
Proof. intros H. unfold parseInt32. by rewrite parseSigned_formatInt, H. Qed.

#[global] Instance formatInt_inj : Inj (=) (=) formatInt.
Proof.
  intros n m H. apply (f_equal parseSigned) in H. rewrite !parseSigned_formatInt in H.
  by injection H.
Qed.

Lemma formatInt_nonempty n : formatInt n <> "".
Proof.
  unfold formatInt. destruct (n <? 0); [done|].
  by destruct (formatUint_cons n) as (c & s & d & -> & _).
Qed.

Lemma parseInt64_range s n : parseInt64 s = Some n -> in_int64 n = true.
Proof.
  unfold parseInt64. destruct (parseSigned s); [|done]. destruct (in_int64 z) eqn:E; [|done].
  by intros [= <-].
Qed.

(** The digits contain nothing but digits. *)
Fixpoint all_digits (s : string) : bool :=
  match s with
  | "" => true
  | String c s' => bool_decide (is_Some (digit_val c)) && all_digits s'
  end.

Lemma format_digits_all fuel n acc :
  all_digits acc = true -> all_digits (format_digits fuel n acc) = true.
Proof.
  revert n acc. induction fuel as [|f IH]; intros n acc H; cbn; [done|].
  assert (all_digits (String (digit_char (n mod 10)) acc) = true) as H'.
  { cbn [all_digits]. rewrite H, digit_val_char by (apply Z.mod_pos_bound; lia). done. }
  destruct (n / 10 =? 0); [done|]. by apply IH.
Qed.

Lemma formatUint_all n : all_digits (formatUint n) = true.
Proof. by apply format_digits_all. Qed.

Lemma all_digits_no_byte s c :
  digit_val c = None -> all_digits s = true -> containsByte s c = false.
Proof.
  intros Hc. induction s as [|e s IH]; cbn; [done|].
  intros H. apply andb_true_iff in H as [H1 H2]. rewrite IH, orb_false_r by done.
  apply bool_decide_eq_true in H1 as [d Hd]. destruct (Ascii.eqb_spec e c); congruence.
Qed.

Lemma formatInt_no_byte n c :
  c <> "-"%char -> digit_val c = None -> containsByte (formatInt n) c = false.
Proof.
  intros Hm Hc. unfold formatInt. pose proof (all_digits_no_byte _ _ Hc (formatUint_all n)).
  pose proof (all_digits_no_byte _ _ Hc (formatUint_all (- n))).
  destruct (n <? 0); [|done]. cbn [containsByte].
  destruct (Ascii.eqb_spec "-" c) as [<-|_]; [congruence | done].
Qed.

End strconv.

Example formatInt_ex : (formatInt 0, formatInt (-1205), formatInt 9223372036854775807)
  = ("0", "-1205", "9223372036854775807").
Proof. reflexivity. Qed.

Example parseInt_ex : (parseInt64 "+07", parseInt64 "", parseInt64 "-", parseInt64 "9223372036854775808")
  = (Some 7%Z, None, None, None).
Proof. reflexivity. Qed.
