(* ===== verification/Sha256.v ===== *)
(** * Sha256: [crypto/sha256] and [encoding/hex], executable

    The program derives VM names and blob digests from SHA-256, so the
    functions are defined outright (FIPS 180-4 on 32-bit words held in [Z])
    and evaluated by [vm_compute].  No theorem of the development assumes
    that SHA-256 is injective; where a statement needs two given blobs not to
    collide it says so. *)

From Stdlib Require Import ZArith Lia Ascii String.
From Stdlib Require Import Strings.Byte.
From stdpp Require Import base strings list.
From S2P Require Import Prelude GoStrings.

Local Open Scope Z_scope.

(** ** 32-bit words *)

Definition w32 (z : Z) : Z := Z.land z 4294967295.
Definition rotr (n x : Z) : Z := Z.lor (Z.shiftr x n) (w32 (Z.shiftl x (32 - n))).
Definition shr (n x : Z) : Z := Z.shiftr x n.
Definition not32 (x : Z) : Z := Z.lxor x 4294967295.

Definition ch (x y z : Z) : Z := Z.lxor (Z.land x y) (Z.land (not32 x) z).
Definition maj (x y z : Z) : Z := Z.lxor (Z.lxor (Z.land x y) (Z.land x z)) (Z.land y z).
Definition bsig0 (x : Z) : Z := Z.lxor (Z.lxor (rotr 2 x) (rotr 13 x)) (rotr 22 x).
Definition bsig1 (x : Z) : Z := Z.lxor (Z.lxor (rotr 6 x) (rotr 11 x)) (rotr 25 x).
Definition ssig0 (x : Z) : Z := Z.lxor (Z.lxor (rotr 7 x) (rotr 18 x)) (shr 3 x).
Definition ssig1 (x : Z) : Z := Z.lxor (Z.lxor (rotr 17 x) (rotr 19 x)) (shr 10 x).

(** The constants are the first 32 bits of the fractional parts of the cube
    roots of the first 64 primes, and of the square roots of the first 8. *)
Definition is_prime (n : Z) : bool :=
  forallb (fun d => negb (n mod d =? 0)) (seqZ 2 (n - 2)).

Definition primes64 : list Z := Eval vm_compute in List.filter is_prime (seqZ 2 310).

(** The integer cube root, one bit at a time. *)
Fixpoint cbrt_bits (k : nat) (acc n : Z) : Z :=
  match k with
  | O => acc
  | S k' =>
      let acc' := acc + 2 ^ Z.of_nat k' in
      cbrt_bits k' (if acc' * acc' * acc' <=? n then acc' else acc) n
  end.

Definition sha_k : list Z :=
  Eval vm_compute in map (fun p => w32 (cbrt_bits 36 0 (p * 2 ^ 96))) primes64.

Record sha_state := ShaState { hA : Z; hB : Z; hC : Z; hD : Z; hE : Z; hF : Z; hG : Z; hH : Z }.

Definition sqrt_frac (p : Z) : Z := w32 (Z.sqrt (p * 2 ^ 64)).

Definition sha_init : sha_state :=
  Eval vm_compute in
  ShaState (sqrt_frac 2) (sqrt_frac 3) (sqrt_frac 5) (sqrt_frac 7)
           (sqrt_frac 11) (sqrt_frac 13) (sqrt_frac 17) (sqrt_frac 19).

(** ** Padding and words *)

Definition byte_of_Z (z : Z) : byte :=
  match Byte.of_N (Z.to_N (z mod 256)) with Some b => b | None => x00 end.
Definition Z_of_byte (b : byte) : Z := Z.of_N (Byte.to_N b).

(** [n] big-endian bytes of [z]. *)
Fixpoint be_bytes (n : nat) (z : Z) : bytes :=
  match n with
  | O => []
  | S k => byte_of_Z (Z.shiftr z (8 * Z.of_nat k)) :: be_bytes k z
  end.

Definition sha_pad (m : bytes) : bytes :=
  let len := Z.of_nat (length m) in
  m ++ x80 :: replicate (Z.to_nat ((55 - len) mod 64)) x00 ++ be_bytes 8 (8 * len).

Fixpoint words (m : bytes) : list Z :=
  match m with
  | a :: b :: c :: d :: m' =>
      (Z_of_byte a * 16777216 + Z_of_byte b * 65536 + Z_of_byte c * 256 + Z_of_byte d) :: words m'
  | _ => []
  end.

(** ** Compression *)

(** [sched n w]: [w] holds the last 16 words, most recent first. *)
Fixpoint sched (n : nat) (w : list Z) : list Z :=
  match n with
  | O => []
  | S n' =>
      let at_ i := nth i w 0 in
      let x := w32 (ssig1 (at_ 1%nat) + at_ 6%nat + ssig0 (at_ 14%nat) + at_ 15%nat) in
      x :: sched n' (x :: take 15 w)
  end.

Definition sha_round (s : sha_state) (kw : Z * Z) : sha_state :=
  let '(k, w) := kw in
  let t1 := w32 (hH s + bsig1 (hE s) + ch (hE s) (hF s) (hG s) + k + w) in
  let t2 := w32 (bsig0 (hA s) + maj (hA s) (hB s) (hC s)) in
  ShaState (w32 (t1 + t2)) (hA s) (hB s) (hC s) (w32 (hD s + t1)) (hE s) (hF s) (hG s).

Definition sha_block (s : sha_state) (blk : list Z) : sha_state :=
  let s' := fold_left sha_round (combine sha_k (blk ++ sched 48 (rev blk))) s in
  ShaState (w32 (hA s + hA s')) (w32 (hB s + hB s')) (w32 (hC s + hC s')) (w32 (hD s + hD s'))
           (w32 (hE s + hE s')) (w32 (hF s + hF s')) (w32 (hG s + hG s')) (w32 (hH s + hH s')).

Fixpoint sha_blocks (fuel : nat) (s : sha_state) (ws : list Z) : sha_state :=
  match fuel with
  | O => s
  | S f => match ws with [] => s | _ => sha_blocks f (sha_block s (take 16 ws)) (drop 16 ws) end
  end.

(** [sha256.Sum256] *)
Definition sha256 (m : bytes) : bytes :=
  let ws := words (sha_pad m) in
  let s := sha_blocks (length ws) sha_init ws in
  be_bytes 4 (hA s) ++ be_bytes 4 (hB s) ++ be_bytes 4 (hC s) ++ be_bytes 4 (hD s)
  ++ be_bytes 4 (hE s) ++ be_bytes 4 (hF s) ++ be_bytes 4 (hG s) ++ be_bytes 4 (hH s).

Lemma length_be_bytes n z : length (be_bytes n z) = n.
Proof. induction n as [|n IH]; cbn; [done|]. by rewrite IH. Qed.

Lemma length_sha256 m : length (sha256 m) = 32%nat.
Proof. unfold sha256. by rewrite !length_app, !length_be_bytes. Qed.

(** ** hex.EncodeToString *)

Definition hex_digit (n : Z) : ascii :=
  if n <? 10 then ascii_of_nat (48 + Z.to_nat n) else ascii_of_nat (87 + Z.to_nat n).

Fixpoint hex_encode (b : bytes) : string :=
  match b with
  | [] => ""
  | x :: b' =>
      String (hex_digit (Z_of_byte x / 16)) (String (hex_digit (Z_of_byte x mod 16)) (hex_encode b'))
  end.

Lemma length_hex_encode b : String.length (hex_encode b) = (2 * length b)%nat.
Proof. induction b as [|x b IH]; cbn; [done|]. rewrite IH. lia. Qed.

(** A lower-case hex digit. *)
Definition is_hex (c : ascii) : bool :=
  let n := Z.of_nat (nat_of_ascii c) in
  ((48 <=? n) && (n <=? 57)) || ((97 <=? n) && (n <=? 102)).

Fixpoint all_hex (s : string) : bool :=
  match s with "" => true | String c s' => is_hex c && all_hex s' end.

Lemma hex_digits_byte b :
  is_hex (hex_digit (Z_of_byte b / 16)) && is_hex (hex_digit (Z_of_byte b mod 16)) = true.
Proof. by destruct b. Qed.

Lemma all_hex_encode b : all_hex (hex_encode b) = true.
Proof.
  induction b as [|x b IH]; cbn [hex_encode all_hex]; [done|].
  pose proof (hex_digits_byte x) as H. apply andb_true_iff in H as [-> ->]. done.
Qed.

Lemma all_hex_no_byte s c : is_hex c = false -> all_hex s = true -> containsByte s c = false.
Proof.
  intros Hc. induction s as [|d s IH]; cbn; [done|]. intros H.
  apply andb_true_iff in H as [Hd Hs]. rewrite (IH Hs), orb_false_r.
  destruct (Ascii.eqb_spec d c); congruence.
Qed.

Lemma hex_encode_no_byte b c : is_hex c = false -> containsByte (hex_encode b) c = false.
Proof. intros Hc. apply all_hex_no_byte; [done | apply all_hex_encode]. Qed.

(** ** Test vectors *)

Example sha256_empty : hex_encode (sha256 [])
  = "e3b0c44298fc1c149afbf4c8996fb92427ae41e4649b934ca495991b7852b855"%string.
Proof. vm_compute. reflexivity. Qed.

Example sha256_abc : hex_encode (sha256 (bytes_of "abc"))
  = "ba7816bf8f01cfea414140de5dae2223b00361a396177a9cb410ff61f20015ad"%string.
Proof. vm_compute. reflexivity. Qed.

Example sha256_two_blocks :
  hex_encode (sha256 (bytes_of "abcdbcdecdefdefgefghfghighijhijkijkljklmklmnlmnomnopnopq"))
  = "248d6a61d20638b8e5c026930c3e6039a33ce45964ff2167f6ecedd419db06c1"%string.
Proof. vm_compute. reflexivity. Qed.
