(* ===== verification/Json.v ===== *)
(** * Json: the parts of [encoding/json] the wire formats rely on

    JSON values, [Marshal] and [MarshalIndent(v, "", "  ")] (with Go's HTML
    escaping and its treatment of invalid UTF-8), and [Unmarshal]'s reader: a
    scanner for numbers with Go's automaton, strings with escapes and
    surrogates, arrays and objects by recursive descent on fuel.  The struct
    codecs of the wire types are built on the field helpers at the end.

    Abstractions: Go's nesting limit (10000) is not modelled; a
    [json.RawMessage] is the JSON value it denotes, so the spelling of its
    insignificant white space and string escapes is not kept; when an object
    repeats a member the last one counts. *)

From Stdlib Require Import ZArith Lia Ascii String.
From stdpp Require Import base gmap strings list.
From S2P Require Import Prelude GoStrings.

Local Open Scope string_scope.

#[warnings="-register-all"]
Inductive json :=
  | JNull
  | JBool (b : bool)
  | JNum (lit : string)
  | JStr (s : string)
  | JArr (l : list json)
  | JObj (l : list (string * json)).

(** Induction over JSON values, with [Forall] for the nested lists. *)
Section json_ind.
Variable P : json -> Prop.
Hypothesis HNull : P JNull.
Hypothesis HBool : forall b, P (JBool b).
Hypothesis HNum : forall l, P (JNum l).
Hypothesis HStr : forall s, P (JStr s).
Hypothesis HArr : forall l, Forall P l -> P (JArr l).
Hypothesis HObj : forall l, Forall (fun kv => P (snd kv)) l -> P (JObj l).

Fixpoint json_rect_nested (j : json) : P j :=
  match j with
  | JNull => HNull
  | JBool b => HBool b
  | JNum l => HNum l
  | JStr s => HStr s
  | JArr l =>
      HArr l ((fix go l : Forall P l :=
        match l with
        | [] => Forall_nil_2 _
        | x :: l' => Forall_cons_2 _ _ _ (json_rect_nested x) (go l')
        end) l)
  | JObj l =>
      HObj l ((fix go l : Forall (fun kv => P (snd kv)) l :=
        match l with
        | [] => Forall_nil_2 _
        | x :: l' => Forall_cons_2 _ _ _ (json_rect_nested (snd x)) (go l')
        end) l)
  end.
End json_ind.

(** ** UTF-8 *)

Definition cval (c : ascii) : Z := Z.of_nat (nat_of_ascii c).
Definition in_range (lo hi : Z) (c : ascii) : bool := (lo <=? cval c)%Z && (cval c <=? hi)%Z.
Definition is_cont (c : ascii) : bool := in_range 128 191 c.
Definition is_ascii (c : ascii) : bool := (cval c <? 128)%Z.

(** The number of bytes after the first of a well-formed multi-byte
    sequence at the head of [String c s], as [utf8.DecodeRune] accepts it. *)
Definition utf8_more (c : ascii) (s : string) : option nat :=
  match s with
  | String b1 s1 =>
      if in_range 194 223 c then if is_cont b1 then Some 1 else None
      else match s1 with
      | String b2 s2 =>
          let second :=
            if (cval c =? 224)%Z then in_range 160 191 b1
            else if (cval c =? 237)%Z then in_range 128 159 b1
            else in_range 225 239 c && is_cont b1 in
          if in_range 224 239 c then if second && is_cont b2 then Some 2 else None
          else match s2 with
          | String b3 _ =>
              let second4 :=
                if (cval c =? 240)%Z then in_range 144 191 b1
                else if (cval c =? 244)%Z then in_range 128 143 b1
                else in_range 241 243 c && is_cont b1 in
              if second4 && is_cont b2 && is_cont b3 then Some 3 else None
          | _ => None
          end
      | _ => None
      end
  | _ => None
  end%nat.

(** UTF-8 encoding of a rune of the basic plane or above. *)
Definition utf8_encode (r : Z) : string :=
  let ch z := String (ascii_of_nat (Z.to_nat z)) "" in
  (if r <? 128 then ch r
   else if r <? 2048 then ch (192 + r / 64) +:+ ch (128 + r mod 64)
   else if r <? 65536 then ch (224 + r / 4096) +:+ ch (128 + (r / 64) mod 64) +:+ ch (128 + r mod 64)
   else ch (240 + r / 262144) +:+ ch (128 + (r / 4096) mod 64)
          +:+ ch (128 + (r / 64) mod 64) +:+ ch (128 + r mod 64))%Z.

Definition replacement_char : string := utf8_encode 65533.

(** ** Printing *)

Definition hexd (n : Z) : ascii :=
  ascii_of_nat (Z.to_nat (if (n <? 10)%Z then 48 + n else 87 + n)%Z).

(** One ASCII byte of a string literal, HTML escaping on. *)
Definition escape_ascii (c : ascii) : string :=
  if Ascii.eqb c "034" then String "\" (String "034" "")
  else if Ascii.eqb c "\" then "\\"
  else if Ascii.eqb c "008" then "\b"
  else if Ascii.eqb c "012" then "\f"
  else if Ascii.eqb c "010" then "\n"
  else if Ascii.eqb c "013" then "\r"
  else if Ascii.eqb c "009" then "\t"
  else if (cval c <? 32)%Z || Ascii.eqb c "<" || Ascii.eqb c ">" || Ascii.eqb c "&"
  then "\u00" +:+ String (hexd (cval c / 16)) (String (hexd (cval c mod 16)) "")
  else String c "".

(** The body of a string literal; [skip] counts bytes of the current
    multi-byte sequence still to copy. *)
Fixpoint escape (skip : nat) (s : string) : string :=
  match s with
  | "" => ""
  | String c s' =>
      match skip with
      | S k => String c (escape k s')
      | O =>
          if is_ascii c then escape_ascii c +:+ escape 0 s'
          else match s' with
          | String "128" (String "168" s'') =>
              if Ascii.eqb c "226" then "\u2028" +:+ escape 0 s''
              else match utf8_more c s' with
                   | Some k => String c (escape k s')
                   | None => "\ufffd" +:+ escape 0 s'
                   end
          | String "128" (String "169" s'') =>
              if Ascii.eqb c "226" then "\u2029" +:+ escape 0 s''
              else match utf8_more c s' with
                   | Some k => String c (escape k s')
                   | None => "\ufffd" +:+ escape 0 s'
                   end
          | _ =>
              match utf8_more c s' with
              | Some k => String c (escape k s')
              | None => "\ufffd" +:+ escape 0 s'
              end
          end
      end
  end.

Definition quote (s : string) : string := String "034" (escape 0 s +:+ String "034" "").

Fixpoint spaces (d : nat) : string :=
  match d with O => "" | S d' => "  " +:+ spaces d' end.

(** A line break of [MarshalIndent] at depth [d]; nothing for [Marshal]. *)
Definition brk (ind : bool) (d : nat) : string :=
  if ind then String "010" (spaces d) else "".

Definition colon (ind : bool) : string := if ind then ": " else ":".

Fixpoint render (ind : bool) (d : nat) (j : json) {struct j} : string :=
  match j with
  | JNull => "null"
  | JBool true => "true"
  | JBool false => "false"
  | JNum lit => lit
  | JStr s => quote s
  | JArr l =>
      match l with
      | [] => "[]"
      | _ :: _ =>
          "[" +:+ (fix elems l :=
            match l with
            | [] => ""
            | [x] => brk ind (S d) +:+ render ind (S d) x
            | x :: l' => brk ind (S d) +:+ render ind (S d) x +:+ "," +:+ elems l'
            end) l +:+ brk ind d +:+ "]"
      end
  | JObj l =>
      match l with
      | [] => "{}"
      | _ :: _ =>
          "{" +:+ (fix members l :=
            match l with
            | [] => ""
            | [(k, x)] => brk ind (S d) +:+ quote k +:+ colon ind +:+ render ind (S d) x
            | (k, x) :: l' =>
                brk ind (S d) +:+ quote k +:+ colon ind +:+ render ind (S d) x +:+ "," +:+ members l'
            end) l +:+ brk ind d +:+ "}"
      end
  end.

(** [json.Marshal] and [json.MarshalIndent(_, "", "  ")] of a value tree. *)
Definition marshal (j : json) : string := render false 0 j.
Definition marshal_indent (j : json) : string := render true 0 j.

(** ** Scanning *)

Definition is_ws (c : ascii) : bool :=
  Ascii.eqb c " " || Ascii.eqb c "009" || Ascii.eqb c "013" || Ascii.eqb c "010".

Fixpoint skip_ws (s : string) : string :=
  match s with "" => "" | String c s' => if is_ws c then skip_ws s' else s end.

(** The number states of the scanner. *)
Inductive nstate := NBeg | NNeg | NZero | NInt | NDot | NFrac | NE | NESign | NExp.

Definition is_digit (c : ascii) : bool := in_range 48 57 c.
Definition is_e (c : ascii) : bool := Ascii.eqb c "e" || Ascii.eqb c "E".

Definition nstep (st : nstate) (c : ascii) : option nstate :=
  match st with
  | NBeg => if Ascii.eqb c "-" then Some NNeg else if Ascii.eqb c "0" then Some NZero
            else if is_digit c then Some NInt else None
  | NNeg => if Ascii.eqb c "0" then Some NZero else if is_digit c then Some NInt else None
  | NZero => if Ascii.eqb c "." then Some NDot else if is_e c then Some NE else None
  | NInt => if is_digit c then Some NInt else if Ascii.eqb c "." then Some NDot
            else if is_e c then Some NE else None
  | NDot => if is_digit c then Some NFrac else None
  | NFrac => if is_digit c then Some NFrac else if is_e c then Some NE else None
  | NE => if Ascii.eqb c "+" || Ascii.eqb c "-" then Some NESign
          else if is_digit c then Some NExp else None
  | NESign | NExp => if is_digit c then Some NExp else None
  end.

Definition naccept (st : nstate) : bool :=
  match st with NZero | NInt | NFrac | NExp => true | _ => false end.

(** The longest number literal, and what follows it. *)
Fixpoint lex_num (st : nstate) (s : string) : option (string * string) :=
  match s with
  | "" => if naccept st then Some ("", "") else None
  | String c s' =>
      match nstep st c with
      | Some st' => match lex_num st' s' with
                    | Some (lit, rest) => Some (String c lit, rest)
                    | None => None
                    end
      | None => if naccept st then Some ("", s) else None
      end
  end.

Definition hex_val (c : ascii) : option Z :=
  (if in_range 48 57 c then Some (cval c - 48)
   else if in_range 97 102 c then Some (cval c - 87)
   else if in_range 65 70 c then Some (cval c - 55) else None)%Z.

Definition hex4 (a b c d : ascii) : option Z :=
  match hex_val a, hex_val b, hex_val c, hex_val d with
  | Some x, Some y, Some z, Some w => Some (x * 4096 + y * 256 + z * 16 + w)%Z
  | _, _, _, _ => None
  end.

Definition simple_escape (c : ascii) : option ascii :=
  if Ascii.eqb c "034" || Ascii.eqb c "\" || Ascii.eqb c "/" then Some c
  else if Ascii.eqb c "b" then Some "008"%char
  else if Ascii.eqb c "f" then Some "012"%char
  else if Ascii.eqb c "n" then Some "010"%char
  else if Ascii.eqb c "r" then Some "013"%char
  else if Ascii.eqb c "t" then Some "009"%char
  else None.

Definition onto (p : string) (r : option (string * string)) : option (string * string) :=
  match r with Some (s, rest) => Some (p +:+ s, rest) | None => None end.

(** The body of a string literal up to its closing quote. *)
Fixpoint unescape (skip : nat) (s : string) : option (string * string) :=
  match s with
  | "" => None
  | String c s' =>
      match skip with
      | S k => onto (String c "") (unescape k s')
      | O =>
          if Ascii.eqb c "034" then Some ("", s')
          else if Ascii.eqb c "\" then
            match s' with
            | "" => None
            | String x t =>
                if Ascii.eqb x "u" then
                  match t with
                  | String a (String b (String d (String e t4))) =>
                      match hex4 a b d e with
                      | None => None
                      | Some r =>
                          if (55296 <=? r)%Z && (r <? 56320)%Z then
                            match t4 with
                            | String y (String z (String a' (String b' (String d' (String e' t10))))) =>
                                match hex4 a' b' d' e' with
                                | Some r2 =>
                                    if Ascii.eqb y "\" && Ascii.eqb z "u"
                                       && (56320 <=? r2)%Z && (r2 <? 57344)%Z
                                    then onto (utf8_encode (65536 + (r - 55296) * 1024 + (r2 - 56320)))
                                           (unescape 0 t10)
                                    else onto replacement_char (unescape 0 t4)
                                | None => onto replacement_char (unescape 0 t4)
                                end
                            | _ => onto replacement_char (unescape 0 t4)
                            end
                          else if (56320 <=? r)%Z && (r <? 57344)%Z
                          then onto replacement_char (unescape 0 t4)
                          else onto (utf8_encode r) (unescape 0 t4)
                      end
                  | _ => None
                  end
                else match simple_escape x with
                     | Some y => onto (String y "") (unescape 0 t)
                     | None => None
                     end
            end
          else if (cval c <? 32)%Z then None
          else if is_ascii c then onto (String c "") (unescape 0 s')
          else match utf8_more c s' with
               | Some k => onto (String c "") (unescape k s')
               | None => onto replacement_char (unescape 0 s')
               end
      end
  end.

(** ** Parsing *)

Fixpoint parse_value (fuel : nat) (s : string) {struct fuel} : option (json * string) :=
  match fuel with
  | O => None
  | S f =>
      match s with
      | "" => None
      | String c t =>
          if Ascii.eqb c "034" then
            match unescape 0 t with Some (x, r) => Some (JStr x, r) | None => None end
          else if Ascii.eqb c "[" then
            match skip_ws t with
            | "" => None
            | String c' r =>
                if Ascii.eqb c' "]" then Some (JArr [], r)
                else match parse_elems f (String c' r) with
                     | Some (l, r') => Some (JArr l, r')
                     | None => None
                     end
            end
          else if Ascii.eqb c "{" then
            match skip_ws t with
            | "" => None
            | String c' r =>
                if Ascii.eqb c' "}" then Some (JObj [], r)
                else match parse_members f (String c' r) with
                     | Some (l, r') => Some (JObj l, r')
                     | None => None
                     end
            end
          else if Ascii.eqb c "t" then
            match cutPrefix t "rue" with Some r => Some (JBool true, r) | None => None end
          else if Ascii.eqb c "f" then
            match cutPrefix t "alse" with Some r => Some (JBool false, r) | None => None end
          else if Ascii.eqb c "n" then
            match cutPrefix t "ull" with Some r => Some (JNull, r) | None => None end
          else match lex_num NBeg s with Some (lit, r) => Some (JNum lit, r) | None => None end
      end
  end
with parse_elems (fuel : nat) (s : string) {struct fuel} : option (list json * string) :=
  match fuel with
  | O => None
  | S f =>
      match parse_value f s with
      | None => None
      | Some (x, r) =>
          match skip_ws r with
          | "" => None
          | String c r' =>
              if Ascii.eqb c "," then
                match parse_elems f (skip_ws r') with
                | Some (l, r'') => Some (x :: l, r'')
                | None => None
                end
              else if Ascii.eqb c "]" then Some ([x], r') else None
          end
      end
  end
with parse_members (fuel : nat) (s : string) {struct fuel} : option (list (string * json) * string) :=
  match fuel with
  | O => None
  | S f =>
      match s with
      | "" => None
      | String q t =>
          if Ascii.eqb q "034" then
            match unescape 0 t with
            | None => None
            | Some (k, r) =>
                match skip_ws r with
                | "" => None
                | String col r1 =>
                    if Ascii.eqb col ":" then
                      match parse_value f (skip_ws r1) with
                      | None => None
                      | Some (x, r2) =>
                          match skip_ws r2 with
                          | "" => None
                          | String c r3 =>
                              if Ascii.eqb c "," then
                                match parse_members f (skip_ws r3) with
                                | Some (l, r4) => Some ((k, x) :: l, r4)
                                | None => None
                                end
                              else if Ascii.eqb c "}" then Some ([(k, x)], r3) else None
                          end
                      end
                    else None
                end
            end
          else None
      end
  end.

(** [json.Unmarshal]'s syntax check and tree: the whole input is one value. *)
Definition parse_json (s : string) : option json :=
  let s0 := skip_ws s in
  match parse_value (S (String.length s0)) s0 with
  | Some (j, r) => match skip_ws r with "" => Some j | _ => None end
  | None => None
  end.

(** [json.NewDecoder(r).Decode]: the first value of the input. *)
Definition decode_first (s : string) : option json :=
  let s0 := skip_ws s in
  match parse_value (S (String.length s0)) s0 with
  | Some (j, _) => Some j
  | None => None
  end.

(** ** Printing and parsing are inverse *)

(** Well-formed UTF-8, [skip] bytes into a sequence. *)
Fixpoint utf8_ok (skip : nat) (s : string) : bool :=
  match s with
  | "" => match skip with O => true | _ => false end
  | String c s' =>
      match skip with
      | S k => utf8_ok k s'
      | O => if is_ascii c then utf8_ok 0 s'
             else match utf8_more c s' with Some k => utf8_ok k s' | None => false end
      end
  end.

Definition num_ok (lit : string) : bool :=
  match lex_num NBeg lit with Some (_, "") => true | _ => false end.

(** A value [Marshal] can print faithfully: valid UTF-8 and number literals. *)
Fixpoint json_ok (j : json) : bool :=
  match j with
  | JNull | JBool _ => true
  | JNum lit => num_ok lit
  | JStr s => utf8_ok 0 s
  | JArr l => forallb json_ok l
  | JObj l => forallb (fun kv => utf8_ok 0 (fst kv) && json_ok (snd kv)) l
  end.

(** What a reader makes of what [Marshal] prints: invalid UTF-8 is replaced by
    U+FFFD, byte by byte, [skip] bytes into a sequence. *)
Fixpoint coerce (skip : nat) (s : string) : string :=
  match s with
  | "" => ""
  | String c s' =>
      match skip with
      | S k => String c (coerce k s')
      | O => if is_ascii c then String c (coerce 0 s')
             else match utf8_more c s' with
                  | Some k => String c (coerce k s')
                  | None => replacement_char +:+ coerce 0 s'
                  end
      end
  end.

Definition to_utf8 (s : string) : string := coerce 0 s.

Fixpoint coerced (j : json) : json :=
  match j with
  | JNull | JBool _ | JNum _ => j
  | JStr s => JStr (to_utf8 s)
  | JArr l => JArr (map coerced l)
  | JObj l => JObj (map (fun kv => (to_utf8 (fst kv), coerced (snd kv))) l)
  end.

(** A value [Marshal] can print: valid number literals. *)
Fixpoint nums_ok (j : json) : bool :=
  match j with
  | JNum lit => num_ok lit
  | JArr l => forallb nums_ok l
  | JObj l => forallb (fun kv => nums_ok (snd kv)) l
  | _ => true
  end.

Lemma coerce_valid k s : utf8_ok k s = true -> coerce k s = s.
Proof.
  revert k. induction s as [|c s IH]; intros [|k]; cbn; [done|done| |].
  - destruct (is_ascii c); [by intros ->%IH|]. destruct (utf8_more c s); [by intros ->%IH|done].
  - by intros ->%IH.
Qed.

Lemma to_utf8_valid s : utf8_ok 0 s = true -> to_utf8 s = s.
Proof. apply coerce_valid. Qed.

Lemma json_ok_nums j : json_ok j = true -> nums_ok j = true.
Proof.
  induction j as [|b|lit|s|l HF|l HF] using json_rect_nested; [done..| |]; cbn; rewrite !forallb_forall; intros Hok x Hx.
  - rewrite Forall_forall in HF. apply HF; [by apply list_elem_of_In|auto].
  - rewrite Forall_forall in HF. apply HF; [by apply list_elem_of_In|]. apply Hok, andb_true_iff in Hx. by destruct Hx.
Qed.

Lemma coerced_valid j : json_ok j = true -> coerced j = j.
Proof.
  induction j as [|b|lit|s|l HF|l HF] using json_rect_nested; [done..| | |]; cbn.
  - by intros ->%to_utf8_valid.
  - intros Hok. f_equal. induction HF as [|x l Hx HF IH]; [done|]. cbn in *. apply andb_true_iff in Hok as [H1 H2].
    by rewrite Hx, IH.
  - intros Hok. f_equal. induction HF as [|[k x] l Hx HF IH]; [done|]. cbn in *.
    apply andb_true_iff in Hok as [[H0 H1]%andb_true_iff H2]. by rewrite to_utf8_valid, Hx, IH.
Qed.

Definition num_delim (rest : string) : bool :=
  match rest with
  | "" => true
  | String c _ => negb (is_digit c || is_e c || Ascii.eqb c "." || Ascii.eqb c "+" || Ascii.eqb c "-")
  end.

Lemma lex_num_delim st rest :
  naccept st = true -> num_delim rest = true -> lex_num st rest = Some ("", rest).
Proof.
  intros Ha Hd. destruct rest as [|c rest]; cbn; [by rewrite Ha|].
  cbn in Hd. apply negb_true_iff in Hd. repeat (apply orb_false_iff in Hd as [Hd ?]).
  assert (nstep st c = None) as ->; [|by rewrite Ha].
  destruct st; try discriminate; cbn; repeat case_match; congruence.
Qed.

Lemma lex_num_app st lit rest l :
  lex_num st lit = Some (l, "") -> num_delim rest = true ->
  lex_num st (lit +:+ rest) = Some (lit, rest).
Proof.
  revert st l. induction lit as [|c lit IH]; intros st l; cbn.
  - destruct (naccept st) eqn:E; [|done]. intros _ Hd. by apply lex_num_delim.
  - destruct (nstep st c) as [st'|].
    + destruct (lex_num st' lit) as [[l' r']|] eqn:E; [|done]. intros [= <- ->] Hd.
      by rewrite (IH _ _ E Hd).
    + by destruct (naccept st).
Qed.

Lemma utf8_more_cases c s k :
  utf8_more c s = Some k ->
  (exists b1 t, s = String b1 t /\ k = 1) \/ (exists b1 b2 t, s = String b1 (String b2 t) /\ k = 2)
  \/ (exists b1 b2 b3 t, s = String b1 (String b2 (String b3 t)) /\ k = 3).
Proof.
  destruct s as [|b1 [|b2 [|b3 t]]]; cbn; [done|..].
  - destruct (in_range 194 223 c); [|done]. destruct (is_cont b1); [|done].
    intros [= <-]. left; eauto.
  - destruct (in_range 194 223 c).
    + destruct (is_cont b1); [|done]. intros [= <-]. left; eauto.
    + destruct (in_range 224 239 c); [|done]. destruct (_ && is_cont b2); [|done].
      intros [= <-]. right; left; eauto.
  - destruct (in_range 194 223 c).
    + destruct (is_cont b1); [|done]. intros [= <-]. left; eauto.
    + destruct (in_range 224 239 c).
      * destruct (_ && is_cont b2); [|done]. intros [= <-]. right; left; eauto 6.
      * destruct (_ && is_cont b3); [|done]. intros [= <-]. right; right; eauto 8.
Qed.

(** [utf8_more] only looks at the bytes it accepts. *)
Lemma utf8_more_escape c s k r :
  utf8_more c s = Some k -> utf8_more c (escape k s +:+ r) = Some k.
Proof.
  intros H. pose proof (utf8_more_cases _ _ _ H) as
    [(b1 & t & -> & ->)|[(b1 & b2 & t & -> & ->)|(b1 & b2 & b3 & t & -> & ->)]].
  - cbn in *. destruct (in_range 194 223 c); [by destruct (is_cont b1)|].
    destruct t as [|b2 t]; [done|]. destruct (in_range 224 239 c); [by case_match|].
    destruct t as [|b3 t]; [done|]. by case_match.
  - cbn in *. destruct (in_range 194 223 c); [by destruct (is_cont b1)|].
    destruct (in_range 224 239 c); [done|]. destruct t as [|b3 t]; [done|]. by case_match.
  - cbn in *. destruct (in_range 194 223 c); [by destruct (is_cont b1)|].
    by destruct (in_range 224 239 c).
Qed.

Lemma unescape_ascii c r :
  is_ascii c = true -> unescape 0 (escape_ascii c +:+ r) = onto (String c "") (unescape 0 r).
Proof. by destruct c as [[] [] [] [] [] [] [] []]. Qed.

Lemma unescape_copy c s k r :
  is_ascii c = false -> utf8_more c s = Some k ->
  unescape 0 (String c (escape k s +:+ r)) = onto (String c "") (unescape k (escape k s +:+ r)).
Proof.
  intros Hc Hm. cbn [unescape]. rewrite (utf8_more_escape _ _ _ r Hm), Hc.
  assert (Ascii.eqb c "034" = false /\ Ascii.eqb c "\" = false /\ (cval c <? 32)%Z = false)
    as (-> & -> & ->); [|done].
  unfold is_ascii in Hc. apply Z.ltb_ge in Hc. repeat split.
  - destruct (Ascii.eqb_spec c "034"); [subst; by cbn in Hc | done].
  - destruct (Ascii.eqb_spec c "\"); [subst; by cbn in Hc | done].
  - lia.
Qed.

(** The escaped body after one non-ASCII lead byte. *)
Lemma escape_lead c s' :
  is_ascii c = false ->
  (exists s'', s' = String "128" (String "168" s'') /\ c = "226"%char
     /\ escape 0 (String c s') = "\u2028" +:+ escape 0 s'')
  \/ (exists s'', s' = String "128" (String "169" s'') /\ c = "226"%char
     /\ escape 0 (String c s') = "\u2029" +:+ escape 0 s'')
  \/ escape 0 (String c s') = match utf8_more c s' with
       | Some k => String c (escape k s') | None => "\ufffd" +:+ escape 0 s' end.
Proof.
  intros Hc. cbn [escape]. rewrite Hc.
  destruct s' as [|b1 [|b2 s'']]; [by right; right | by destruct b1 as [[] [] [] [] [] [] [] []]; right; right |].
  destruct (ascii_dec b1 "128") as [->|H1];
    [|right; right; destruct b1 as [[] [] [] [] [] [] [] []]; congruence].
  destruct (ascii_dec b2 "168") as [->|H2].
  { destruct (Ascii.eqb_spec c "226") as [->|]; [left; eauto | by right; right]. }
  destruct (ascii_dec b2 "169") as [->|H3].
  { destruct (Ascii.eqb_spec c "226") as [->|]; [right; left; eauto | by right; right]. }
  right; right. destruct b2 as [[] [] [] [] [] [] [] []]; congruence.
Qed.

Lemma utf8_more_length c s k : utf8_more c s = Some k -> k <= String.length s.
Proof.
  intros [(b1 & t & -> & ->)|[(b1 & b2 & t & -> & ->)|(b1 & b2 & b3 & t & -> & ->)]]%utf8_more_cases; cbn; lia.
Qed.

(** Printing a string and reading it back coerces it. *)
Lemma unescape_escape n k s rest :
  String.length s <= n -> k <= String.length s ->
  unescape k (escape k s +:+ String "034" rest) = Some (coerce k s, rest).
Proof.
  revert k s. induction n as [|n IH]; intros k s Hn Hk.
  { destruct s; [|by cbn in Hn; lia]. destruct k; [done|cbn in Hk; lia]. }
  destruct s as [|c s]; [destruct k; [done|cbn in Hk; lia]|]. cbn in Hn, Hk. destruct k as [|k].
  - destruct (is_ascii c) eqn:Hc.
    + assert (escape 0 (String c s) = escape_ascii c +:+ escape 0 s) as -> by (cbn; by rewrite Hc).
      rewrite <- sapp_assoc, unescape_ascii by done. cbn [coerce]. rewrite Hc. rewrite IH; [done | lia | lia].
    + destruct (escape_lead c s Hc) as [(s'' & -> & -> & ->)|[(s'' & -> & -> & ->)| ->]].
      * rewrite <- sapp_assoc.
        change (unescape 0 ("\u2028" +:+ escape 0 s'' +:+ String "034" rest)) with
          (onto (utf8_encode 8232) (unescape 0 (escape 0 s'' +:+ String "034" rest))).
        rewrite IH; [done | cbn in Hn; lia | lia].
      * rewrite <- sapp_assoc.
        change (unescape 0 ("\u2029" +:+ escape 0 s'' +:+ String "034" rest)) with
          (onto (utf8_encode 8233) (unescape 0 (escape 0 s'' +:+ String "034" rest))).
        rewrite IH; [done | cbn in Hn; lia | lia].
      * cbn [coerce]. rewrite Hc. destruct (utf8_more c s) as [k|] eqn:Hm.
        -- apply utf8_more_length in Hm as Hl. rewrite sapp_cons, unescape_copy by done. rewrite IH; [done | lia | lia].
        -- rewrite <- sapp_assoc.
           change (unescape 0 ("\ufffd" +:+ escape 0 s +:+ String "034" rest)) with
             (onto replacement_char (unescape 0 (escape 0 s +:+ String "034" rest))).
           rewrite IH; [done | lia | lia].
  - cbn in *. rewrite IH; [done | lia | lia].
Qed.

Lemma unescape_quote s rest : unescape 0 (escape 0 s +:+ String "034" rest) = Some (to_utf8 s, rest).
Proof. apply (unescape_escape (String.length s)); lia. Qed.

Lemma quote_app s r : quote s +:+ r = String "034" (escape 0 s +:+ String "034" r).
Proof. unfold quote. by rewrite sapp_cons, <- sapp_assoc. Qed.

(** The loops inside [render], named. *)
Definition render_elems (ind : bool) (d : nat) : list json -> string :=
  fix elems l :=
    match l with
    | [] => ""
    | [x] => brk ind (S d) +:+ render ind (S d) x
    | x :: l' => brk ind (S d) +:+ render ind (S d) x +:+ "," +:+ elems l'
    end.

Definition render_members (ind : bool) (d : nat) : list (string * json) -> string :=
  fix members l :=
    match l with
    | [] => ""
    | [(k, x)] => brk ind (S d) +:+ quote k +:+ colon ind +:+ render ind (S d) x
    | (k, x) :: l' =>
        brk ind (S d) +:+ quote k +:+ colon ind +:+ render ind (S d) x +:+ "," +:+ members l'
    end.

Lemma render_arr ind d x l :
  render ind d (JArr (x :: l)) = "[" +:+ render_elems ind d (x :: l) +:+ brk ind d +:+ "]".
Proof. reflexivity. Qed.

Lemma render_obj ind d x l :
  render ind d (JObj (x :: l)) = "{" +:+ render_members ind d (x :: l) +:+ brk ind d +:+ "}".
Proof. reflexivity. Qed.

(** Fuel a value needs, bounded by the length of its text. *)
Fixpoint json_size (j : json) : nat :=
  match j with
  | JNull | JBool _ | JNum _ | JStr _ => 1
  | JArr l => S ((fix go l := match l with [] => 0 | x :: l' => S (json_size x + go l') end) l)
  | JObj l => S ((fix go l := match l with [] => 0 | x :: l' => S (json_size (snd x) + go l') end) l)
  end.

Definition elems_size : list json -> nat :=
  fix go l := match l with [] => 0 | x :: l' => S (json_size x + go l') end.
Definition members_size : list (string * json) -> nat :=
  fix go l := match l with [] => 0 | x :: l' => S (json_size (snd x) + go l') end.

(** Texts that do not start with white space. *)
Definition head_ok (s : string) : bool :=
  match s with "" => false | String c _ => negb (is_ws c) end.

Lemma skip_ws_head s r : head_ok s = true -> skip_ws (s +:+ r) = s +:+ r.
Proof. destruct s as [|c s]; cbn; [done|]. by destruct (is_ws c). Qed.

Lemma skip_ws_brk ind d r : skip_ws (brk ind d +:+ r) = skip_ws r.
Proof.
  destruct ind; [|done]. cbn. induction d as [|d IH]; [done|]. cbn. exact IH.
Qed.

Lemma num_ok_head lit : num_ok lit = true -> exists c s,
  lit = String c s /\ (is_digit c || Ascii.eqb c "-") = true.
Proof.
  unfold num_ok. destruct lit as [|c s]; [done|]. intros H. exists c, s. split; [done|].
  cbn in H. destruct (Ascii.eqb c "-"); [by rewrite orb_true_r|].
  destruct (Ascii.eqb_spec c "0") as [->|_]; [done|]. by destruct (is_digit c).
Qed.

Lemma digit_dispatch c :
  is_digit c || Ascii.eqb c "-" = true ->
  is_ws c = false /\ Ascii.eqb c "034" = false /\ Ascii.eqb c "[" = false /\ Ascii.eqb c "{" = false
  /\ Ascii.eqb c "t" = false /\ Ascii.eqb c "f" = false /\ Ascii.eqb c "n" = false
  /\ Ascii.eqb c "]" = false.
Proof. destruct c as [[] [] [] [] [] [] [] []]; cbn; try discriminate; by repeat split. Qed.

Lemma render_head ind d j : nums_ok j = true -> head_ok (render ind d j) = true.
Proof.
  destruct j as [| [] | lit | s | [|x l] | [|x l]]; cbn; try done.
  intros H. destruct (num_ok_head _ H) as (c & s & -> & Hc). cbn.
  by destruct (digit_dispatch _ Hc) as [-> _].
Qed.

Lemma render_not_close ind d j c r :
  nums_ok j = true -> render ind d j = String c r -> Ascii.eqb c "]" = false.
Proof.
  destruct j as [| [] | lit | s | [|x l] | [|x l]]; cbn; try (by intros _ [= <- _]).
  intros H ->. destruct (num_ok_head _ H) as (c' & s & [= -> _] & Hc).
  by destruct (digit_dispatch _ Hc) as (_ & _ & _ & _ & _ & _ & _ & ->).
Qed.

Lemma num_delim_brk ind d c r :
  num_delim (String c r) = true -> num_delim (brk ind d +:+ String c r) = true.
Proof. by destruct ind. Qed.

(** The statement of the round trip at one value. *)
Definition reads_back (j : json) : Prop :=
  nums_ok j = true -> forall ind d fuel rest,
  json_size j <= fuel -> num_delim rest = true ->
  parse_value fuel (render ind d j +:+ rest) = Some (coerced j, rest).

Lemma reads_back_num lit : reads_back (JNum lit).
Proof.
  intros Hok ind d fuel rest Hf Hd. destruct fuel as [|f]; [cbn in Hf; lia|].
  cbn in Hok. destruct (num_ok_head _ Hok) as (c & s & E & Hc).
  destruct (digit_dispatch _ Hc) as (_ & H1 & H2 & H3 & H4 & H5 & H6 & _).
  cbn [render]. unfold num_ok in Hok.
  destruct (lex_num NBeg lit) as [[l' [|]]|] eqn:El; [|done|done].
  pose proof (lex_num_app _ _ rest _ El Hd) as Hl. rewrite E in Hl |- *.
  cbn [String.append] in Hl |- *. cbn [parse_value]. rewrite H1, H2, H3, H4, H5, H6. by rewrite Hl.
Qed.

(** Elements up to the closing bracket. *)
Lemma parse_elems_render ind d x l fuel rest :
  Forall reads_back (x :: l) -> forallb nums_ok (x :: l) = true ->
  elems_size (x :: l) <= fuel ->
  parse_elems fuel (skip_ws (render_elems ind d (x :: l) +:+ brk ind d +:+ String "]" rest))
  = Some (map coerced (x :: l), rest).
Proof.
  revert x fuel. induction l as [|y l IH]; intros x fuel HF Hok Hsz;
    apply Forall_cons in HF as [Hx HF]; cbn [forallb] in Hok; apply andb_true_iff in Hok as [Hokx Hok];
    destruct fuel as [|f]; cbn in Hsz; try lia.
  - cbn [render_elems]. rewrite <- sapp_assoc, skip_ws_brk, skip_ws_head by (by apply render_head).
    cbn [parse_elems]. rewrite Hx; [|done|lia|by apply num_delim_brk].
    rewrite skip_ws_brk. done.
  - change (render_elems ind d (x :: y :: l)) with
      (brk ind (S d) +:+ render ind (S d) x +:+ "," +:+ render_elems ind d (y :: l)).
    rewrite <- !sapp_assoc, skip_ws_brk, skip_ws_head by (by apply render_head).
    cbn [parse_elems]. rewrite Hx; [|done|lia|done].
    cbn [String.append skip_ws is_ws Ascii.eqb Bool.eqb andb orb]. 
    rewrite (IH y f); [done|done|done|cbn; lia].
Qed.

Lemma parse_members_render ind d x l fuel rest :
  Forall (fun kv => reads_back (snd kv)) (x :: l) ->
  forallb (fun kv => nums_ok (snd kv)) (x :: l) = true ->
  members_size (x :: l) <= fuel ->
  parse_members fuel (skip_ws (render_members ind d (x :: l) +:+ brk ind d +:+ String "}" rest))
  = Some (map (fun kv => (to_utf8 (fst kv), coerced (snd kv))) (x :: l), rest).
Proof.
  revert x fuel. induction l as [|y l IH]; intros [k x] fuel HF Hok Hsz;
    apply Forall_cons in HF as [Hx HF]; cbn [forallb fst snd] in Hok, Hx;
    apply andb_true_iff in Hok as [Hokx Hok];
    destruct fuel as [|f]; cbn [members_size snd] in Hsz; try lia.
  - cbn [render_members]. rewrite <- !sapp_assoc, skip_ws_brk, quote_app.
    cbn [String.append skip_ws is_ws Ascii.eqb Bool.eqb andb orb parse_members].
    rewrite unescape_quote.
    assert (exists r, colon ind = String ":" r /\ forall t, skip_ws (r +:+ t) = skip_ws t)
      as (r & -> & Hr) by (destruct ind; by eexists).
    cbn [String.append skip_ws is_ws Ascii.eqb Bool.eqb andb orb]. rewrite Hr.
    rewrite skip_ws_head by (by apply render_head).
    rewrite Hx; [|done|lia|by apply num_delim_brk]. by rewrite skip_ws_brk.
  - change (render_members ind d ((k, x) :: y :: l)) with
      (brk ind (S d) +:+ quote k +:+ colon ind +:+ render ind (S d) x +:+ "," +:+ render_members ind d (y :: l)).
    rewrite <- !sapp_assoc, skip_ws_brk, quote_app.
    cbn [String.append skip_ws is_ws Ascii.eqb Bool.eqb andb orb parse_members].
    rewrite unescape_quote.
    assert (exists r, colon ind = String ":" r /\ forall t, skip_ws (r +:+ t) = skip_ws t)
      as (r & -> & Hr) by (destruct ind; by eexists).
    cbn [String.append skip_ws is_ws Ascii.eqb Bool.eqb andb orb]. rewrite Hr.
    rewrite skip_ws_head by (by apply render_head).
    rewrite Hx; [|done|lia|done].
    cbn [String.append skip_ws is_ws Ascii.eqb Bool.eqb andb orb].
    rewrite (IH y f); [done|done|done|cbn in *; lia].
Qed.

Lemma parse_value_render j : reads_back j.
Proof.
  induction j as [|b|lit|s|l HF|l HF] using json_rect_nested; [..|apply reads_back_num| | |];
    intros Hok ind d fuel rest Hf Hd; (destruct fuel as [|f]; [cbn in Hf; lia|]).
  - done.
  - by destruct b.
  - cbn [render]. rewrite quote_app.
    cbn [parse_value String.append Ascii.eqb Bool.eqb andb]. by rewrite unescape_quote.
  - destruct l as [|x l]; [done|]. rewrite render_arr, <- !sapp_assoc.
    change (json_size (JArr (x :: l))) with (S (elems_size (x :: l))) in Hf.
    pose proof (parse_elems_render ind d x l f rest HF Hok ltac:(lia)) as HP.
    cbn [String.append] in HP |- *. cbn [parse_value Ascii.eqb Bool.eqb andb].
    destruct (skip_ws _) as [|c r] eqn:E.
    { destruct f; [discriminate HP|]. destruct f; discriminate HP. }
    enough (Ascii.eqb c "]" = false) as ->; [by rewrite HP|].
    assert (render_elems ind d (x :: l) = brk ind (S d) +:+ render ind (S d) x
      +:+ match l with [] => "" | _ => "," +:+ render_elems ind d l end) as Er
      by (destruct l; cbn [render_elems]; by rewrite ?sapp_nil_r).
    cbn in Hok. apply andb_true_iff in Hok as [Hokx _].
    rewrite Er, <- !sapp_assoc, skip_ws_brk, skip_ws_head in E by (by apply render_head).
    pose proof (render_head ind (S d) x Hokx) as Hh.
    destruct (render ind (S d) x) as [|c0 r0] eqn:Ex; [done|]. injection E as -> _.
    by apply (render_not_close ind (S d) x c r0).
  - destruct l as [|[k x] l]; [done|]. rewrite render_obj, <- !sapp_assoc.
    change (json_size (JObj ((k, x) :: l))) with (S (members_size ((k, x) :: l))) in Hf.
    pose proof (parse_members_render ind d (k, x) l f rest HF Hok ltac:(lia)) as HP.
    cbn [String.append] in HP |- *. cbn [parse_value Ascii.eqb Bool.eqb andb].
    assert (exists t, skip_ws (render_members ind d ((k, x) :: l) +:+ brk ind d +:+ String "}" rest)
      = String "034" t) as [t Ht].
    { destruct l; cbn [render_members]; rewrite <- !sapp_assoc, skip_ws_brk, quote_app; by eexists. }
    rewrite Ht in HP |- *. cbn [Ascii.eqb Bool.eqb andb]. by rewrite HP.
Qed.

Lemma elems_length ind d x l :
  Forall (fun x => forall ind d, nums_ok x = true -> json_size x <= String.length (render ind d x)) (x :: l) ->
  forallb nums_ok (x :: l) = true ->
  elems_size (x :: l) <= S (String.length (render_elems ind d (x :: l))).
Proof.
  revert x. induction l as [|y l IH]; intros x HF Hok; apply Forall_cons in HF as [Hx HF];
    cbn [forallb] in Hok; apply andb_true_iff in Hok as [Hokx Hok].
  - cbn [render_elems elems_size]. rewrite sapp_length. pose proof (Hx ind (S d) Hokx). lia.
  - change (render_elems ind d (x :: y :: l)) with
      (brk ind (S d) +:+ render ind (S d) x +:+ "," +:+ render_elems ind d (y :: l)).
    change (elems_size (x :: y :: l)) with (S (json_size x + elems_size (y :: l))).
    rewrite !sapp_length. pose proof (Hx ind (S d) Hokx). pose proof (IH y HF Hok).
    change (String.length ",") with 1. lia.
Qed.

Lemma members_length ind d x l :
  Forall (fun kv => forall ind d, nums_ok (snd kv) = true ->
    json_size (snd kv) <= String.length (render ind d (snd kv))) (x :: l) ->
  forallb (fun kv => nums_ok (snd kv)) (x :: l) = true ->
  members_size (x :: l) <= S (String.length (render_members ind d (x :: l))).
Proof.
  revert x. induction l as [|y l IH]; intros [k x] HF Hok; apply Forall_cons in HF as [Hx HF];
    cbn [forallb fst snd] in Hok, Hx; apply andb_true_iff in Hok as [Hokx Hok].
  - cbn [render_members members_size snd]. rewrite !sapp_length. pose proof (Hx ind (S d) Hokx). lia.
  - change (render_members ind d ((k, x) :: y :: l)) with
      (brk ind (S d) +:+ quote k +:+ colon ind +:+ render ind (S d) x +:+ "," +:+ render_members ind d (y :: l)).
    change (members_size ((k, x) :: y :: l)) with (S (json_size x + members_size (y :: l))).
    rewrite !sapp_length. pose proof (Hx ind (S d) Hokx). pose proof (IH y HF Hok).
    change (String.length ",") with 1. lia.
Qed.

(** The reader's fuel, the length of the text, is enough for every text the
    writer produces. *)
Lemma json_size_length j :
  forall ind d, nums_ok j = true -> json_size j <= String.length (render ind d j).
Proof.
  induction j as [|b|lit|s|l HF|l HF] using json_rect_nested; intros ind d Hok.
  - cbn; lia.
  - destruct b; cbn; lia.
  - destruct (num_ok_head _ Hok) as (c & s & -> & _). cbn; lia.
  - cbn; lia.
  - destruct l as [|x l]; [cbn; lia|]. rewrite render_arr, !sapp_length.
    change (json_size (JArr (x :: l))) with (S (elems_size (x :: l))).
    pose proof (elems_length ind d x l HF Hok). cbn [String.length]. lia.
  - destruct l as [|x l]; [cbn; lia|]. rewrite render_obj, !sapp_length.
    change (json_size (JObj (x :: l))) with (S (members_size (x :: l))).
    pose proof (members_length ind d x l HF Hok). cbn [String.length]. lia.
Qed.

(** A value, and white space after it. *)
Lemma parse_json_space ind j rest :
  nums_ok j = true -> num_delim rest = true -> skip_ws rest = "" -> parse_json (render ind 0 j +:+ rest) = Some (coerced j).
Proof.
  intros Hok Hd Hw. unfold parse_json. rewrite (skip_ws_head _ rest (render_head ind 0 _ Hok)).
  rewrite (parse_value_render j Hok ind 0 _ rest); [by rewrite Hw| |done].
  pose proof (json_size_length j ind 0 Hok). rewrite sapp_length. lia.
Qed.

Lemma parse_json_render ind j : nums_ok j = true -> parse_json (render ind 0 j) = Some (coerced j).
Proof. intros Hok. rewrite <- (sapp_nil_r (render ind 0 j)). by apply parse_json_space. Qed.

(** The decoder of a stream reads a value whatever follows it. *)
Lemma decode_first_render ind j rest :
  nums_ok j = true -> num_delim rest = true -> decode_first (render ind 0 j +:+ rest) = Some (coerced j).
Proof.
  intros Hok Hd. unfold decode_first. rewrite (skip_ws_head _ rest (render_head ind 0 _ Hok)).
  rewrite (parse_value_render j Hok ind 0 _ rest); [done| |done].
  pose proof (json_size_length j ind 0 Hok). rewrite sapp_length. lia.
Qed.

Lemma parse_json_ok ind j : json_ok j = true -> parse_json (render ind 0 j) = Some j.
Proof. intros Hok. rewrite parse_json_render, coerced_valid by (done || by apply json_ok_nums). done. Qed.

Lemma parse_marshal j : json_ok j = true -> parse_json (marshal j) = Some j.
Proof. apply parse_json_ok. Qed.

Lemma parse_marshal_indent j : json_ok j = true -> parse_json (marshal_indent j) = Some j.
Proof. apply parse_json_ok. Qed.

#[export] Hint Resolve parse_marshal parse_marshal_indent : go.

(** ** Struct fields

    A struct is encoded as the list of its tagged fields in declaration
    order; [None] is a field [omitempty] drops. *)

Definition lower_byte (c : ascii) : ascii :=
  if in_range 65 90 c then ascii_of_nat (nat_of_ascii c + 32) else c.

Fixpoint lower (s : string) : string :=
  match s with "" => "" | String c s' => String (lower_byte c) (lower s') end.

(** A member name selects a field by its tag, ASCII case ignored. *)
Definition keq (a b : string) : bool := String.eqb (lower a) (lower b).

Fixpoint obj_members (fs : list (string * option json)) : list (string * json) :=
  match fs with
  | [] => []
  | (k, Some j) :: fs' => (k, j) :: obj_members fs'
  | (_, None) :: fs' => obj_members fs'
  end.

Definition obj (fs : list (string * option json)) : json := JObj (obj_members fs).

Fixpoint get_member (k : string) (l : list (string * json)) : option json :=
  match l with
  | [] => None
  | (k', j) :: l' =>
      match get_member k l' with
      | Some j' => Some j'
      | None => if keq k k' then Some j else None
      end
  end.

Fixpoint lookup_field (k : string) (fs : list (string * option json)) : option json :=
  match fs with
  | [] => None
  | (k', o) :: fs' => if keq k k' then o else lookup_field k fs'
  end.

Fixpoint keys_distinct (ks : list string) : bool :=
  match ks with
  | [] => true
  | k :: ks' => forallb (fun k' => negb (keq k k')) ks' && keys_distinct ks'
  end.

Lemma lower_keq a b c : keq a b = true -> keq a c = keq b c.
Proof. unfold keq. intros H%String.eqb_eq. by rewrite H. Qed.

Lemma get_member_absent k fs :
  forallb (fun k' => negb (keq k k')) (fst <$> fs) = true -> get_member k (obj_members fs) = None.
Proof.
  induction fs as [|[k' o] fs IH]; cbn; [done|]. intros H.
  apply andb_true_iff in H as [H1 H2]. apply negb_true_iff in H1.
  destruct o; cbn; rewrite (IH H2); [by rewrite H1|done].
Qed.

Lemma get_member_obj k fs :
  keys_distinct (fst <$> fs) = true -> get_member k (obj_members fs) = lookup_field k fs.
Proof.
  induction fs as [|[k' o] fs IH]; cbn; [done|]. intros H.
  apply andb_true_iff in H as [H1 H2]. destruct (keq k k') eqn:E.
  - assert (get_member k (obj_members fs) = None) as Hn.
    { apply get_member_absent. revert H1. clear -E. induction (fst <$> fs) as [|x l IH]; cbn; [done|].
      intros H. apply andb_true_iff in H as [H1 H2]. rewrite (IH H2), andb_true_r.
      by rewrite (lower_keq _ _ _ E). }
    destruct o; cbn; rewrite Hn; [by rewrite E|done].
  - specialize (IH H2).
    destruct o; cbn; rewrite IH; [|done]. rewrite E. by destruct (lookup_field k fs).
Qed.

(** Field encoders: [e_*] always present, [o_*] for [omitempty]. *)
Definition e_str (s : string) : option json := Some (JStr s).
Definition e_int (n : Z) : option json := Some (JNum (formatInt n)).
Definition o_str (s : string) : option json := if String.eqb s "" then None else Some (JStr s).
Definition o_int (n : Z) : option json := if (n =? 0)%Z then None else Some (JNum (formatInt n)).
Definition o_bool (b : bool) : option json := if b then Some (JBool true) else None.

(** Maps are printed with their keys in byte order. *)
Definition sorted_entries {A} (m : gmap string A) : list (string * A) :=
  sort_stable (fun a b => String.leb (fst a) (fst b)) (map_to_list m).

Definition e_map {A} (f : A -> json) (m : gmap string A) : json :=
  JObj ((fun kv => (fst kv, f (snd kv))) <$> sorted_entries m).

Definition o_map {A} (f : A -> json) (m : gmap string A) : option json :=
  if bool_decide (m = ∅) then None else Some (e_map f m).

(** Decoders: an absent or [null] member leaves the zero value. *)
Definition type_error {A} : result A := Err (Enew "json: cannot unmarshal").

Definition u_obj (j : json) : result (list (string * json)) :=
  match j with JObj l => Ok l | JNull => Ok [] | _ => type_error end.

Definition u_str (o : option json) : result string :=
  match o with None | Some JNull => Ok "" | Some (JStr s) => Ok s | _ => type_error end.

Definition u_int (o : option json) : result Z :=
  match o with
  | None | Some JNull => Ok 0%Z
  | Some (JNum lit) => match parseInt64 lit with Some n => Ok n | None => type_error end
  | _ => type_error
  end.

Definition u_bool (o : option json) : result bool :=
  match o with None | Some JNull => Ok false | Some (JBool b) => Ok b | _ => type_error end.

Definition u_list {A} (f : json -> result A) (o : option json) : result (list A) :=
  match o with None | Some JNull => Ok [] | Some (JArr l) => traverse f l | _ => type_error end.

Fixpoint u_entries {A} (f : json -> result A) (l : list (string * json)) (m : gmap string A)
  : result (gmap string A) :=
  match l with
  | [] => Ok m
  | (k, j) :: l' => a ← f j; u_entries f l' (<[k := a]> m)
  end.

Definition u_map {A} (f : json -> result A) (o : option json) : result (gmap string A) :=
  match o with None | Some JNull => Ok ∅ | Some (JObj l) => u_entries f l ∅ | _ => type_error end.

Lemma u_str_e s : u_str (e_str s) = Ok s.
Proof. done. Qed.

Lemma u_str_o s : u_str (o_str s) = Ok s.
Proof. unfold o_str. by destruct (String.eqb_spec s "") as [->|]. Qed.

Lemma u_int_e n : in_int64 n = true -> u_int (e_int n) = Ok n.
Proof. intros H. unfold e_int, u_int. by rewrite parseInt64_formatInt. Qed.

Lemma u_int_o n : in_int64 n = true -> u_int (o_int n) = Ok n.
Proof. intros H. unfold o_int. destruct (Z.eqb_spec n 0) as [->|]; [done|]. by apply u_int_e. Qed.

Lemma u_bool_o b : u_bool (o_bool b) = Ok b.
Proof. by destruct b. Qed.

Lemma u_entries_insert {A} (f : json -> result A) (g : A -> json) l (m : gmap string A) :
  (forall k a, (k, a) ∈ l -> f (g a) = Ok a) ->
  u_entries f ((fun kv => (fst kv, g (snd kv))) <$> l) m = Ok (foldl (fun m kv => <[kv.1 := kv.2]> m) m l).
Proof.
  revert m. induction l as [|[k a] l IH]; intros m H; cbn; [done|].
  rewrite (H k a) by constructor. cbn. apply IH. intros k' a' Hin. apply (H k' a'). by constructor.
Qed.

Lemma foldl_insert_lookup {A} (l : list (string * A)) (m : gmap string A) :
  NoDup (l.*1) -> (forall k, k ∈ l.*1 -> m !! k = None) ->
  foldl (fun m kv => <[kv.1 := kv.2]> m) m l = list_to_map l ∪ m.
Proof.
  revert m. induction l as [|[k a] l IH]; intros m Hnd Hm; cbn.
  - by rewrite (left_id_L ∅ (∪)).
  - cbn in Hnd. apply NoDup_cons in Hnd as [Hk Hnd].
    assert (m !! k = None) by (apply Hm; left).
    rewrite IH; [|done|].
    + rewrite <- insert_union_l, <- insert_union_r; [done|].
      by apply not_elem_of_list_to_map_1.
    + intros k' Hk'. rewrite lookup_insert_ne; [|by intros <-]. apply Hm. by right.
Qed.

Lemma sorted_entries_perm {A} (m : gmap string A) : sorted_entries m ≡ₚ map_to_list m.
Proof. apply sort_stable_perm. Qed.

Lemma u_map_e {A} (f : json -> result A) (g : A -> json) (m : gmap string A) :
  (forall k a, m !! k = Some a -> f (g a) = Ok a) -> u_map f (Some (e_map g m)) = Ok m.
Proof.
  intros H. unfold e_map, u_map. pose proof (sorted_entries_perm m) as Hp.
  rewrite u_entries_insert.
  2:{ intros k a Hin. apply (H k). rewrite Hp in Hin. by apply elem_of_map_to_list. }
  assert (NoDup ((sorted_entries m).*1)) as Hnd by (rewrite Hp; apply NoDup_fst_map_to_list).
  rewrite foldl_insert_lookup; [|done|intros; apply lookup_empty].
  rewrite (right_id_L ∅ (∪)), (list_to_map_proper _ (map_to_list m)) by done.
  by rewrite list_to_map_to_list.
Qed.

Lemma u_map_o {A} (f : json -> result A) (g : A -> json) (m : gmap string A) :
  (forall k a, m !! k = Some a -> f (g a) = Ok a) -> u_map f (o_map g m) = Ok m.
Proof.
  intros H. unfold o_map. case_bool_decide as E; [by rewrite E|]. by apply u_map_e.
Qed.

Lemma u_list_map {A} (f : json -> result A) (g : A -> json) l :
  Forall (fun a => f (g a) = Ok a) l -> u_list f (Some (JArr (g <$> l))) = Ok l.
Proof.
  intros H. cbn. apply traverse_Ok. apply Forall2_fmap_l. by apply Forall_Forall2_diag.
Qed.

(** What the encoders need to print faithfully. *)
Definition opt_ok (o : option json) : bool :=
  match o with Some j => json_ok j | None => true end.

Lemma json_ok_obj fs :
  forallb (fun ko => utf8_ok 0 (fst ko)) fs = true ->
  Forall (fun o => opt_ok o = true) (snd <$> fs) ->
  json_ok (obj fs) = true.
Proof.
  cbn. induction fs as [|[k o] fs IH]; cbn; [done|]. intros H HF.
  apply andb_true_iff in H as [H1 H2]. apply Forall_cons in HF as [Ho HF].
  destruct o as [j|]; cbn in *; [|by apply IH]. by rewrite H1, Ho, IH.
Qed.

(** Integer literals are number literals. *)
Definition starts_zero (s : string) : bool :=
  match s with String c _ => Ascii.eqb c "0" | "" => true end.

Lemma digits_lex st s :
  (st = NInt \/ st = NBeg /\ starts_zero s = false \/ st = NNeg /\ starts_zero s = false) ->
  all_digits s = true -> lex_num st s = Some (s, "").
Proof.
  revert st. induction s as [|c s IH]; intros st Hst Hd; cbn in *.
  - by destruct Hst as [->|[(-> & ?)|(-> & ?)]].
  - apply andb_true_iff in Hd as [Hc Hs]. apply bool_decide_eq_true in Hc as [d Hc].
    assert (is_digit c = true) as Hdig.
    { unfold is_digit, in_range, cval. unfold digit_val in Hc. by destruct (_ && _). }
    assert (Ascii.eqb c "-" = false) as Hm by by destruct c as [[] [] [] [] [] [] [] []].
    destruct Hst as [->|[(-> & Hz)|(-> & Hz)]]; cbn; rewrite ?Hm, ?Hz, Hdig, IH; auto.
Qed.

Lemma format_digits_nonzero fuel n :
  (0 < n < 2 ^ Z.of_nat fuel)%Z -> starts_zero (format_digits fuel n "") = false.
Proof.
  revert n. induction fuel as [|f IH]; intros n Hn; [cbn in Hn; lia|]. cbn [format_digits].
  pose proof (Z.mod_pos_bound n 10 ltac:(lia)) as Hm.
  pose proof (Z.div_mod n 10 ltac:(lia)) as Hdm.
  destruct (Z.eqb_spec (n / 10) 0) as [Hz|Hz].
  - assert (n mod 10 <> 0)%Z by lia. cbn.
    assert (n mod 10 = 1 \/ n mod 10 = 2 \/ n mod 10 = 3 \/ n mod 10 = 4 \/ n mod 10 = 5 \/ n mod 10 = 6
      \/ n mod 10 = 7 \/ n mod 10 = 8 \/ n mod 10 = 9)%Z as H9 by lia.
    by destruct H9 as [->|[->|[->|[->|[->|[->|[->|[->| ->]]]]]]]].
  - rewrite format_digits_acc. assert (0 < n / 10)%Z by (pose proof (Z.div_pos n 10); lia).
    assert (starts_zero (format_digits f (n / 10) "") = false) as H0.
    { apply IH. split; [done|]. rewrite Nat2Z.inj_succ, Z.pow_succ_r in Hn by lia.
      apply Z.div_lt_upper_bound; lia. }
    by destruct (format_digits f (n / 10) "").
Qed.

Lemma formatUint_lex st n :
  (0 < n)%Z -> st = NBeg \/ st = NNeg -> lex_num st (formatUint n) = Some (formatUint n, "").
Proof.
  intros Hn Hst. apply digits_lex; [|apply formatUint_all].
  assert (starts_zero (formatUint n) = false).
  { apply format_digits_nonzero. rewrite Nat2Z.inj_succ, Z2Nat.id by apply Z.log2_nonneg.
    pose proof (Z.log2_spec n Hn). lia. }
  destruct Hst; auto.
Qed.

Lemma num_ok_formatInt n : num_ok (formatInt n) = true.
Proof.
  unfold num_ok, formatInt. destruct (Z.ltb_spec n 0).
  - change (lex_num NBeg (String "-" (formatUint (- n)))) with
      (match lex_num NNeg (formatUint (- n)) with
       | Some (lit, rest) => Some (String "-" lit, rest) | None => None end).
    by rewrite formatUint_lex by (auto; lia).
  - destruct (Z.eq_dec n 0%Z) as [->|]; [done|]. by rewrite formatUint_lex by (auto; lia).
Qed.

Lemma json_ok_map {A} (g : A -> json) (m : gmap string A) :
  (forall k a, m !! k = Some a -> utf8_ok 0 k = true /\ json_ok (g a) = true) -> json_ok (e_map g m) = true.
Proof.
  intros H. unfold e_map. cbn. apply forallb_forall. intros [k j] Hin.
  apply list_elem_of_In, list_elem_of_fmap in Hin as ([k' a] & [= -> ->] & Hin).
  rewrite sorted_entries_perm in Hin. apply elem_of_map_to_list in Hin. cbn.
  by destruct (H _ _ Hin) as [-> ->].
Qed.

Lemma opt_ok_e_str s : utf8_ok 0 s = true -> opt_ok (e_str s) = true.
Proof. done. Qed.
Lemma opt_ok_o_str s : utf8_ok 0 s = true -> opt_ok (o_str s) = true.
Proof. intros H. unfold o_str. by destruct (String.eqb s ""). Qed.
Lemma opt_ok_e_int n : opt_ok (e_int n) = true.
Proof. apply num_ok_formatInt. Qed.
Lemma opt_ok_o_int n : opt_ok (o_int n) = true.
Proof. unfold o_int. destruct (n =? 0)%Z; [done|]. apply num_ok_formatInt. Qed.
Lemma opt_ok_o_bool b : opt_ok (o_bool b) = true.
Proof. by destruct b. Qed.
Lemma opt_ok_o_map {A} (g : A -> json) (m : gmap string A) :
  (forall k a, m !! k = Some a -> utf8_ok 0 k = true /\ json_ok (g a) = true) -> opt_ok (o_map g m) = true.
Proof. intros H. unfold o_map. case_bool_decide; [done|]. by apply json_ok_map. Qed.

#[export] Hint Resolve opt_ok_e_str opt_ok_o_str opt_ok_e_int opt_ok_o_int opt_ok_o_bool opt_ok_o_map : go.

Lemma lookup_field_here k k' o fs : keq k k' = true -> lookup_field k ((k', o) :: fs) = o.
Proof. cbn. by intros ->. Qed.

Lemma lookup_field_next k k' o fs :
  keq k k' = false -> lookup_field k ((k', o) :: fs) = lookup_field k fs.
Proof. cbn. by intros ->. Qed.

(** Resolve [get_member "name" (obj_members fields)] for literal field lists. *)
Ltac read_fields :=
  rewrite ?get_member_obj by reflexivity;
  repeat first [ rewrite lookup_field_here by reflexivity
               | rewrite lookup_field_next by reflexivity ].

Ltac fields_ok :=
  apply json_ok_obj; [reflexivity|];
  repeat (apply Forall_cons_2; [solve [cbn [snd]; auto with go]|]); apply Forall_nil_2.
