(* ===== verification/GoTime.v ===== *)
(** * GoTime: what [encoding/json] accepts as a [time.Time]

    [Time.UnmarshalJSON] takes [null], which leaves the zero time, or a string
    that [time.Parse] accepts for the layout [time.RFC3339].  That is RFC 3339
    and a little more: an hour of one digit, a comma before the fraction of a
    second, zone offsets up to 24:60.  Days are checked against their month.
    A time is kept as its text, [""] for the zero time. *)

From Stdlib Require Import ZArith Lia Ascii String.
From stdpp Require Import base strings list option.
From S2P Require Import Prelude GoStrings Json.

Local Open Scope string_scope.

(** [getnum]: two digits, or one when [fixed] is not set. *)
Definition getnum (fixed : bool) (s : string) : option (Z * string) :=
  let digit c := (cval c - 48)%Z in
  match s with
  | String a (String b r) =>
      if negb (is_digit a) then None
      else if is_digit b then Some (10 * digit a + digit b, r)%Z
      else if fixed then None else Some (digit a, String b r)
  | String a "" => if is_digit a && negb fixed then Some (digit a, "") else None
  | "" => None
  end.

Definition number (fixed : bool) (lo hi : Z) (s : string) : option (Z * string) :=
  '(n, r) ← getnum fixed s;
  if (lo <=? n)%Z && (n <=? hi)%Z then Some (n, r) else None.

Definition isLeap (year : Z) : bool :=
  (year mod 4 =? 0)%Z && (negb (year mod 100 =? 0)%Z || (year mod 400 =? 0)%Z).

Definition daysIn (month year : Z) : Z :=
  if (month =? 2)%Z then if isLeap year then 29 else 28
  else if existsb (Z.eqb month) [4; 6; 9; 11]%Z then 30 else 31.

Fixpoint skip_digits (s : string) : string :=
  match s with String c r => if is_digit c then skip_digits r else s | "" => "" end.

(** A fraction of a second the layout does not have. *)
Definition skip_fraction (s : string) : string :=
  match s with
  | String c (String d r) =>
      if (Ascii.eqb c "." || Ascii.eqb c ",") && is_digit d then skip_digits r else s
  | _ => s
  end.

(** [Z07:00] *)
Definition zone (s : string) : option string :=
  match s with
  | String "Z" r => Some r
  | String c r =>
      if Ascii.eqb c "+" || Ascii.eqb c "-" then
        '(_, r) ← number true 0 24 r; r ← cutPrefix r ":"; '(_, r) ← number true 0 60 r; Some r
      else None
  | "" => None
  end.

(** [time.Parse(time.RFC3339, s)] succeeds. *)
Definition rfc3339 (s : string) : option unit :=
  '(c, r) ← number true 0 99 s; '(y, r) ← number true 0 99 r; r ← cutPrefix r "-";
  '(month, r) ← number true 1 12 r; r ← cutPrefix r "-";
  '(day, r) ← number true 0 99 r; r ← cutPrefix r "T";
  '(_, r) ← number false 0 23 r; r ← cutPrefix r ":";
  '(_, r) ← number true 0 59 r; r ← cutPrefix r ":";
  '(_, r) ← number true 0 59 r; r ← zone (skip_fraction r);
  if String.eqb r "" && (1 <=? day)%Z && (day <=? daysIn month (100 * c + y))%Z then Some () else None.

Definition rfc3339_ok (s : string) : bool := bool_decide (rfc3339 s = Some ()).

(** The text of a [time.Time] field with [omitzero]. *)
Definition time_ok (s : string) : bool := String.eqb s "" || rfc3339_ok s.

(** [Time.UnmarshalJSON] *)
Definition u_time (o : option json) : result string :=
  match o with
  | None | Some JNull => Ok ""
  | Some (JStr s) => if rfc3339_ok s then Ok s else Err (Enew ("parsing time " +:+ s))
  | Some _ => Err (Enew "Time.UnmarshalJSON: input is not a JSON string")
  end.

Lemma u_time_o s : time_ok s = true -> u_time (o_str s) = Ok s.
Proof.
  unfold time_ok, o_str. destruct (String.eqb_spec s "") as [->|]; [done|]. cbn. by intros ->.
Qed.

(** What is read is a time, or nothing. *)
Lemma u_time_Ok o s : u_time o = Ok s -> time_ok s = true.
Proof.
  destruct o as [[]|]; cbn; try discriminate; try by intros [= <-].
  destruct (rfc3339_ok _) eqn:E; [|discriminate]. intros [= <-]. unfold time_ok. by rewrite E, orb_true_r.
Qed.

Example rfc3339_samples :
  rfc3339_ok <$> ["2026-01-02T03:04:05Z"; "2026-01-02T03:04:05.123456789+02:00"; "2024-02-29T00:00:00Z"; "2023-02-29T00:00:00Z";
                  "2026-13-01T00:00:00Z"; "yesterday"; "2026-01-02"; "2026-01-02T3:04:05,5-24:60"; "2026-01-02T24:00:00Z"]
  = [true; true; true; false; false; false; false; true; false].
Proof. vm_compute. reflexivity. Qed.
