(* ===== verification/Manifest.v ===== *)
(** * Manifest: package [manifest] (src/manifest/)

    The media-type vocabulary and its predicates ([media.go]), the OCI
    manifest, descriptor and snapshot-config types with their JSON form, and
    artifact classification ([types.go]). *)

From Stdlib Require Import ZArith Lia Ascii String.
From stdpp Require Import base gmap strings list.
From S2P Require Import Prelude GoStrings Json GoTime.

Local Open Scope string_scope.

(** ** media.go *)

Definition MediaTypeOCIManifest := "application/vnd.oci.image.manifest.v1+json".
Definition MediaTypeOCIIndex := "application/vnd.oci.image.index.v1+json".
Definition MediaTypeDockerIndex := "application/vnd.docker.distribution.manifest.list.v2+json".
Definition MediaTypeOCIImageConfig := "application/vnd.oci.image.config.v1+json".
Definition MediaTypeDockerConfig := "application/vnd.docker.container.image.v1+json".
Definition ArtifactTypeOSImage := "application/vnd.cocoonstack.os-image.v1+json".
Definition ArtifactTypeWindowsImage := "application/vnd.cocoonstack.windows-image.v1+json".
Definition ArtifactTypeSnapshot := "application/vnd.cocoonstack.snapshot.v1+json".
Definition ArtifactTypeSnapshotV2 := "application/vnd.cocoonstack.snapshot.v2+json".
Definition MediaTypeSnapshotConfig := "application/vnd.cocoonstack.snapshot.config.v1+json".
Definition MediaTypeDiskQcow2 := "application/vnd.cocoonstack.disk.qcow2".
Definition MediaTypeDiskQcow2Part := "application/vnd.cocoonstack.disk.qcow2.part".
Definition MediaTypeDiskRaw := "application/vnd.cocoonstack.disk.raw".
Definition MediaTypeDiskRawPart := "application/vnd.cocoonstack.disk.raw.part".
Definition MediaTypeWindowsDiskQcow2 := "application/vnd.cocoonstack.windows.disk.qcow2".
Definition MediaTypeWindowsDiskQcow2Part := "application/vnd.cocoonstack.windows.disk.qcow2.part".
Definition MediaTypeWindowsDiskRaw := "application/vnd.cocoonstack.windows.disk.raw".
Definition MediaTypeWindowsDiskRawPart := "application/vnd.cocoonstack.windows.disk.raw.part".
Definition MediaTypeVMConfig := "application/vnd.cocoonstack.vm.config+json".
Definition MediaTypeVMState := "application/vnd.cocoonstack.vm.state+json".
Definition MediaTypeVMMemory := "application/vnd.cocoonstack.vm.memory".
Definition MediaTypeVMCidata := "application/vnd.cocoonstack.vm.cidata".
Definition MediaTypeGeneric := "application/octet-stream".
Definition MediaTypeTar := "application/x-tar".
Definition AnnotationTitle := "org.opencontainers.image.title".
Definition AnnotationCreated := "org.opencontainers.image.created".
Definition AnnotationSource := "org.opencontainers.image.source".
Definition AnnotationRevision := "org.opencontainers.image.revision".
Definition AnnotationSnapshotBaseImage := "cocoonstack.snapshot.baseimage".
Definition AnnotationChunkIndex := "cocoonstack.chunk.index".
Definition AnnotationChunkCount := "cocoonstack.chunk.count".
Definition zstdSuffix := "+zstd".

Definition snapshotFilenameMediaType : gmap string string :=
  list_to_map
    [ ("config.json", MediaTypeVMConfig);
      ("state.json", MediaTypeVMState);
      ("memory-ranges", MediaTypeVMMemory);
      ("cidata.img", MediaTypeVMCidata);
      ("overlay.qcow2", MediaTypeDiskQcow2) ].

Definition ZstdMediaType (mt : string) : string := mt +:+ zstdSuffix.
Definition IsZstdMediaType (mt : string) : bool := hasSuffix mt zstdSuffix.
Definition StripZstd (mt : string) : string := trimSuffix mt zstdSuffix.

(** Membership in a [switch] case list. *)
Definition str_in (s : string) (l : list string) : bool := existsb (String.eqb s) l.

Definition IsSnapshotLayerMediaType (mt : string) : bool :=
  str_in (StripZstd mt)
    [ MediaTypeVMConfig; MediaTypeVMState; MediaTypeVMMemory; MediaTypeVMCidata;
      MediaTypeDiskQcow2; MediaTypeDiskRaw; MediaTypeGeneric ].

Definition MediaTypeForCocoonFile (name : string) : string :=
  match snapshotFilenameMediaType !! name with
  | Some mt => mt
  | None =>
      if hasSuffix name ".qcow2" then MediaTypeDiskQcow2
      else if hasSuffix name ".raw" then MediaTypeDiskRaw
      else MediaTypeGeneric
  end.

Definition IsDiskMediaType (mt : string) : bool :=
  str_in mt
    [ MediaTypeDiskQcow2; MediaTypeDiskQcow2Part;
      MediaTypeDiskRaw; MediaTypeDiskRawPart;
      MediaTypeWindowsDiskQcow2; MediaTypeWindowsDiskQcow2Part;
      MediaTypeWindowsDiskRaw; MediaTypeWindowsDiskRawPart ].

(** ** types.go: data *)

Inductive Kind := KindUnknown | KindContainerImage | KindCloudImage | KindSnapshot | KindImageIndex.

#[global] Instance Kind_eq_dec : EqDecision Kind.
Proof. solve_decision. Defined.

Definition Kind_String (k : Kind) : string :=
  match k with
  | KindContainerImage => "container-image"
  | KindCloudImage => "cloud-image"
  | KindSnapshot => "snapshot"
  | KindImageIndex => "image-index"
  | KindUnknown => "unknown"
  end.

Record Descriptor := {
  d_MediaType : string;
  d_Digest : string;
  d_Size : Z;
  d_Annotations : gmap string string;
  d_ArtifactType : string
}.

#[global] Instance Descriptor_eq_dec : EqDecision Descriptor.
Proof. solve_decision. Defined.

(** Reading a missing key of a map gives the zero value. *)
Definition map_get (m : gmap string string) (k : string) : string :=
  match m !! k with Some v => v | None => "" end.

Definition Title (d : Descriptor) : string := map_get (d_Annotations d) AnnotationTitle.

Record Platform := {
  pf_Architecture : string;
  pf_OS : string;
  pf_OSVersion : string;
  pf_Variant : string
}.

Record IndexManifest := {
  im_MediaType : string;
  im_Digest : string;
  im_Size : Z;
  im_Platform : option Platform
}.

#[global] Instance Platform_eq_dec : EqDecision Platform.
Proof. solve_decision. Defined.

#[global] Instance IndexManifest_eq_dec : EqDecision IndexManifest.
Proof. solve_decision. Defined.

Record OCIManifest := {
  m_SchemaVersion : Z;
  m_MediaType : string;
  m_ArtifactType : string;
  m_Config : Descriptor;
  m_Layers : list Descriptor;
  m_Manifests : list IndexManifest;
  m_Subject : option Descriptor;
  m_Annotations : gmap string string
}.

Record SnapshotFile := {
  sf_Mode : Z;
  sf_SparseMap : string;
  sf_SparseSize : Z;
  sf_Size : Z;
  sf_Chunks : list string
}.

(** The zero value [cfg.Files[title]] yields for an unknown title. *)
Definition SnapshotFile_zero : SnapshotFile :=
  {| sf_Mode := 0; sf_SparseMap := ""; sf_SparseSize := 0; sf_Size := 0; sf_Chunks := [] |}.

(** [Engine] is the raw object ([None] when absent); [CreatedAt] is the
    RFC 3339 text of the time, [""] for the zero time [omitzero] drops. *)
Record SnapshotConfig := {
  sc_SchemaVersion : string;
  sc_SnapshotID : string;
  sc_Description : string;
  sc_Image : string;
  sc_ImageDigest : string;
  sc_ImageType : string;
  sc_ImageBlobIDs : gmap string unit;
  sc_Hypervisor : string;
  sc_CPU : Z;
  sc_Memory : Z;
  sc_Storage : Z;
  sc_NICs : Z;
  sc_Network : string;
  sc_Windows : bool;
  sc_Files : gmap string SnapshotFile;
  sc_Engine : option json;
  sc_CreatedAt : string
}.

(** ** JSON form of the types (their struct tags) *)

Definition Descriptor_fields (d : Descriptor) : list (string * option json) :=
  [ ("mediaType", e_str (d_MediaType d));
    ("digest", e_str (d_Digest d));
    ("size", e_int (d_Size d));
    ("annotations", o_map JStr (d_Annotations d));
    ("artifactType", o_str (d_ArtifactType d)) ].
Definition Descriptor_json (d : Descriptor) : json := obj (Descriptor_fields d).

Definition str_value (j : json) : result string := u_str (Some j).

Definition Descriptor_unmarshal (j : json) : result Descriptor :=
  l ← u_obj j;
  mt ← u_str (get_member "mediaType" l);
  dg ← u_str (get_member "digest" l);
  sz ← u_int (get_member "size" l);
  an ← u_map str_value (get_member "annotations" l);
  at_ ← u_str (get_member "artifactType" l);
  Ok {| d_MediaType := mt; d_Digest := dg; d_Size := sz; d_Annotations := an; d_ArtifactType := at_ |}.

(** An absent or [null] struct member leaves the zero struct. *)
Definition struct_member {A} (f : json -> result A) (o : option json) : result A :=
  f (match o with Some j => j | None => JNull end).

(** A pointer member: [nil] when absent or [null]. *)
Definition ptr_member {A} (f : json -> result A) (o : option json) : result (option A) :=
  match o with None | Some JNull => Ok None | Some j => Some <$> f j end.

Definition Platform_json (p : Platform) : json :=
  obj [ ("architecture", o_str (pf_Architecture p));
        ("os", o_str (pf_OS p));
        ("os.version", o_str (pf_OSVersion p));
        ("variant", o_str (pf_Variant p)) ].

Definition Platform_unmarshal (j : json) : result Platform :=
  l ← u_obj j;
  ar ← u_str (get_member "architecture" l);
  os ← u_str (get_member "os" l);
  ov ← u_str (get_member "os.version" l);
  va ← u_str (get_member "variant" l);
  Ok {| pf_Architecture := ar; pf_OS := os; pf_OSVersion := ov; pf_Variant := va |}.

Definition IndexManifest_json (i : IndexManifest) : json :=
  obj [ ("mediaType", e_str (im_MediaType i));
        ("digest", e_str (im_Digest i));
        ("size", e_int (im_Size i));
        ("platform", Platform_json <$> im_Platform i) ].

Definition IndexManifest_unmarshal (j : json) : result IndexManifest :=
  l ← u_obj j;
  mt ← u_str (get_member "mediaType" l);
  dg ← u_str (get_member "digest" l);
  sz ← u_int (get_member "size" l);
  pf ← ptr_member Platform_unmarshal (get_member "platform" l);
  Ok {| im_MediaType := mt; im_Digest := dg; im_Size := sz; im_Platform := pf |}.

(** A slice without [omitempty]: nil prints as [null]. *)
Definition e_slice {A} (f : A -> json) (l : list A) : option json :=
  Some (match l with [] => JNull | _ => JArr (f <$> l) end).
Definition o_slice {A} (f : A -> json) (l : list A) : option json :=
  match l with [] => None | _ => Some (JArr (f <$> l)) end.

Definition OCIManifest_fields (m : OCIManifest) : list (string * option json) :=
  [ ("schemaVersion", e_int (m_SchemaVersion m));
    ("mediaType", o_str (m_MediaType m));
    ("artifactType", o_str (m_ArtifactType m));
    ("config", Some (Descriptor_json (m_Config m)));
    ("layers", e_slice Descriptor_json (m_Layers m));
    ("manifests", o_slice IndexManifest_json (m_Manifests m));
    ("subject", Descriptor_json <$> m_Subject m);
    ("annotations", o_map JStr (m_Annotations m)) ].
Definition OCIManifest_json (m : OCIManifest) : json := obj (OCIManifest_fields m).

Definition OCIManifest_unmarshal (j : json) : result OCIManifest :=
  l ← u_obj j;
  sv ← u_int (get_member "schemaVersion" l);
  mt ← u_str (get_member "mediaType" l);
  at_ ← u_str (get_member "artifactType" l);
  cf ← struct_member Descriptor_unmarshal (get_member "config" l);
  ls ← u_list Descriptor_unmarshal (get_member "layers" l);
  ms ← u_list IndexManifest_unmarshal (get_member "manifests" l);
  su ← ptr_member Descriptor_unmarshal (get_member "subject" l);
  an ← u_map str_value (get_member "annotations" l);
  Ok {| m_SchemaVersion := sv; m_MediaType := mt; m_ArtifactType := at_; m_Config := cf;
        m_Layers := ls; m_Manifests := ms; m_Subject := su; m_Annotations := an |}.

Definition SnapshotFile_fields (f : SnapshotFile) : list (string * option json) :=
  [ ("mode", o_int (sf_Mode f));
    ("sparseMap", o_str (sf_SparseMap f));
    ("sparseSize", o_int (sf_SparseSize f));
    ("size", o_int (sf_Size f));
    ("chunks", o_slice JStr (sf_Chunks f)) ].
Definition SnapshotFile_json (f : SnapshotFile) : json := obj (SnapshotFile_fields f).

Definition SnapshotFile_unmarshal (j : json) : result SnapshotFile :=
  l ← u_obj j;
  mo ← u_int (get_member "mode" l);
  sm ← u_str (get_member "sparseMap" l);
  ss ← u_int (get_member "sparseSize" l);
  sz ← u_int (get_member "size" l);
  ch ← u_list str_value (get_member "chunks" l);
  Ok {| sf_Mode := mo; sf_SparseMap := sm; sf_SparseSize := ss; sf_Size := sz; sf_Chunks := ch |}.

(** [map[string]struct{}] *)
Definition unit_json (_ : unit) : json := JObj [].
Definition unit_unmarshal (j : json) : result unit := _ ← u_obj j; Ok ().

Definition SnapshotConfig_fields (c : SnapshotConfig) : list (string * option json) :=
  [ ("schemaVersion", e_str (sc_SchemaVersion c));
    ("snapshotId", e_str (sc_SnapshotID c));
    ("description", o_str (sc_Description c));
    ("image", o_str (sc_Image c));
    ("imageDigest", o_str (sc_ImageDigest c));
    ("imageType", o_str (sc_ImageType c));
    ("imageBlobIds", o_map unit_json (sc_ImageBlobIDs c));
    ("hypervisor", o_str (sc_Hypervisor c));
    ("cpu", o_int (sc_CPU c));
    ("memory", o_int (sc_Memory c));
    ("storage", o_int (sc_Storage c));
    ("nics", o_int (sc_NICs c));
    ("network", o_str (sc_Network c));
    ("windows", o_bool (sc_Windows c));
    ("files", o_map SnapshotFile_json (sc_Files c));
    ("engine", sc_Engine c);
    ("createdAt", o_str (sc_CreatedAt c)) ].
Definition SnapshotConfig_json (c : SnapshotConfig) : json := obj (SnapshotConfig_fields c).

Definition SnapshotConfig_unmarshal (j : json) : result SnapshotConfig :=
  l ← u_obj j;
  sv ← u_str (get_member "schemaVersion" l);
  id ← u_str (get_member "snapshotId" l);
  de ← u_str (get_member "description" l);
  im ← u_str (get_member "image" l);
  idg ← u_str (get_member "imageDigest" l);
  it ← u_str (get_member "imageType" l);
  ib ← u_map unit_unmarshal (get_member "imageBlobIds" l);
  hy ← u_str (get_member "hypervisor" l);
  cp ← u_int (get_member "cpu" l);
  me ← u_int (get_member "memory" l);
  st ← u_int (get_member "storage" l);
  ni ← u_int (get_member "nics" l);
  ne ← u_str (get_member "network" l);
  wi ← u_bool (get_member "windows" l);
  fi ← u_map SnapshotFile_unmarshal (get_member "files" l);
  ca ← u_time (get_member "createdAt" l);
  Ok {| sc_SchemaVersion := sv; sc_SnapshotID := id; sc_Description := de; sc_Image := im;
        sc_ImageDigest := idg; sc_ImageType := it; sc_ImageBlobIDs := ib; sc_Hypervisor := hy;
        sc_CPU := cp; sc_Memory := me; sc_Storage := st; sc_NICs := ni; sc_Network := ne;
        sc_Windows := wi; sc_Files := fi; sc_Engine := get_member "engine" l; sc_CreatedAt := ca |}.

(** ** types.go: operations *)

Definition syntax_error {A} : result A := Err (Enew "invalid JSON").

(** [json.Unmarshal(raw, &v)] for a type with decoder [f]. *)
Definition unmarshal {A} (f : json -> result A) (raw : bytes) : result A :=
  match parse_json (string_of raw) with
  | Some j => f j
  | None => syntax_error
  end.

Definition Parse (raw : bytes) : result OCIManifest :=
  wrap "parse oci manifest" (unmarshal OCIManifest_unmarshal raw).

Definition classifyFields (artifactType configMediaType topMediaType : string) : Kind :=
  if str_in artifactType [ArtifactTypeOSImage; ArtifactTypeWindowsImage] then KindCloudImage
  else if str_in artifactType [ArtifactTypeSnapshot; ArtifactTypeSnapshotV2] then KindSnapshot
  else if str_in configMediaType [MediaTypeOCIImageConfig; MediaTypeDockerConfig] then KindContainerImage
  else if str_in topMediaType [MediaTypeOCIIndex; MediaTypeDockerIndex] then KindImageIndex
  else KindUnknown.

Definition ClassifyParsed (m : OCIManifest) : Kind :=
  classifyFields (m_ArtifactType m) (d_MediaType (m_Config m)) (m_MediaType m).

(** The anonymous probe struct of [Classify]. *)
Definition probe_unmarshal (j : json) : result (string * string * string) :=
  l ← u_obj j;
  mt ← u_str (get_member "mediaType" l);
  at_ ← u_str (get_member "artifactType" l);
  cmt ← struct_member (fun c => cl ← u_obj c; u_str (get_member "mediaType" cl)) (get_member "config" l);
  Ok (at_, cmt, mt).

Definition Classify (raw : bytes) : result Kind :=
  '(at_, cmt, mt) ← wrap "classify manifest" (unmarshal probe_unmarshal raw);
  Ok (classifyFields at_ cmt mt).

(** ** The codecs are faithful on well-formed values *)

(** Strings are valid UTF-8 and integers fit in 64 bits. *)
Definition str_ok (s : string) : bool := utf8_ok 0 s.
Definition strmap_ok (m : gmap string string) : Prop := map_Forall (fun k v => str_ok k && str_ok v = true) m.

Record Descriptor_wf (d : Descriptor) : Prop := {
  dw_mt : str_ok (d_MediaType d) = true;
  dw_dg : str_ok (d_Digest d) = true;
  dw_sz : in_int64 (d_Size d) = true;
  dw_an : strmap_ok (d_Annotations d);
  dw_at : str_ok (d_ArtifactType d) = true
}.

Record SnapshotFile_wf (f : SnapshotFile) : Prop := {
  fw_mo : in_int64 (sf_Mode f) = true;
  fw_sm : str_ok (sf_SparseMap f) = true;
  fw_ss : in_int64 (sf_SparseSize f) = true;
  fw_sz : in_int64 (sf_Size f) = true;
  fw_ch : Forall (fun s => str_ok s = true) (sf_Chunks f)
}.

Record SnapshotConfig_wf (c : SnapshotConfig) : Prop := {
  cw_strs : Forall (fun s => str_ok s = true)
    [ sc_SchemaVersion c; sc_SnapshotID c; sc_Description c; sc_Image c; sc_ImageDigest c;
      sc_ImageType c; sc_Hypervisor c; sc_Network c; sc_CreatedAt c ];
  cw_ints : Forall (fun n => in_int64 n = true) [ sc_CPU c; sc_Memory c; sc_Storage c; sc_NICs c ];
  cw_ids : map_Forall (fun k _ => str_ok k = true) (sc_ImageBlobIDs c);
  cw_files : map_Forall (fun k f => str_ok k = true /\ SnapshotFile_wf f) (sc_Files c);
  cw_engine : opt_ok (sc_Engine c) = true;
  cw_created : time_ok (sc_CreatedAt c) = true
}.

(** Manifests as [buildSnapshotManifest] makes them: no index children and
    no subject. *)
Record OCIManifest_wf (m : OCIManifest) : Prop := {
  mw_sv : in_int64 (m_SchemaVersion m) = true;
  mw_mt : str_ok (m_MediaType m) = true;
  mw_at : str_ok (m_ArtifactType m) = true;
  mw_cf : Descriptor_wf (m_Config m);
  mw_ls : Forall Descriptor_wf (m_Layers m);
  mw_ms : m_Manifests m = [];
  mw_su : m_Subject m = None;
  mw_an : strmap_ok (m_Annotations m)
}.

(** Well-formedness is decidable: each record against the conjunction of its
    fields. *)
Ltac wf_dec :=
  first [ by destruct_and?; constructor
        | match goal with H : ~ _ |- _ => by intros []; apply H; split_and! end ].

#[global] Instance Descriptor_wf_dec d : Decision (Descriptor_wf d).
Proof.
  refine (cast_if (decide (str_ok (d_MediaType d) = true /\ str_ok (d_Digest d) = true
    /\ in_int64 (d_Size d) = true
    /\ map_Forall (fun k v => str_ok k && str_ok v = true) (d_Annotations d)
    /\ str_ok (d_ArtifactType d) = true))); abstract wf_dec.
Defined.

#[global] Instance SnapshotFile_wf_dec f : Decision (SnapshotFile_wf f).
Proof.
  refine (cast_if (decide (in_int64 (sf_Mode f) = true /\ str_ok (sf_SparseMap f) = true
    /\ in_int64 (sf_SparseSize f) = true /\ in_int64 (sf_Size f) = true
    /\ Forall (fun s => str_ok s = true) (sf_Chunks f)))); abstract wf_dec.
Defined.

#[global] Instance SnapshotConfig_wf_dec c : Decision (SnapshotConfig_wf c).
Proof.
  refine (cast_if (decide (
    Forall (fun s => str_ok s = true)
      [ sc_SchemaVersion c; sc_SnapshotID c; sc_Description c; sc_Image c; sc_ImageDigest c;
        sc_ImageType c; sc_Hypervisor c; sc_Network c; sc_CreatedAt c ]
    /\ Forall (fun n => in_int64 n = true) [ sc_CPU c; sc_Memory c; sc_Storage c; sc_NICs c ]
    /\ map_Forall (fun k _ => str_ok k = true) (sc_ImageBlobIDs c)
    /\ map_Forall (fun k f => str_ok k = true /\ SnapshotFile_wf f) (sc_Files c)
    /\ opt_ok (sc_Engine c) = true /\ time_ok (sc_CreatedAt c) = true))); abstract wf_dec.
Defined.

#[global] Instance OCIManifest_wf_dec m : Decision (OCIManifest_wf m).
Proof.
  refine (cast_if (decide (
    in_int64 (m_SchemaVersion m) = true /\ str_ok (m_MediaType m) = true /\ str_ok (m_ArtifactType m) = true
    /\ Descriptor_wf (m_Config m) /\ Forall Descriptor_wf (m_Layers m)
    /\ m_Manifests m = [] /\ m_Subject m = None
    /\ map_Forall (fun k v => str_ok k && str_ok v = true) (m_Annotations m)))); abstract wf_dec.
Defined.

Lemma str_value_JStr s : str_value (JStr s) = Ok s.
Proof. done. Qed.

Lemma strmap_ok_opt m : strmap_ok m -> opt_ok (o_map JStr m) = true.
Proof.
  intros H. apply opt_ok_o_map. intros k a Hk. apply H in Hk. by apply andb_true_iff in Hk.
Qed.

#[export] Hint Resolve strmap_ok_opt : go.
Create Rewrite HintDb codec.
#[export] Hint Rewrite u_str_e u_str_o u_bool_o : codec.

Lemma u_strmap m : u_map str_value (o_map JStr m) = Ok m.
Proof. by apply u_map_o. Qed.

#[export] Hint Rewrite u_strmap : codec.

(** Run a decoder over the encoded fields. *)
Ltac run_codec :=
  repeat first [ progress autorewrite with codec
               | rewrite u_int_e by assumption
               | rewrite u_int_o by assumption
               | progress cbn [mbind result_bind] ].

Lemma Descriptor_codec d :
  Descriptor_wf d -> Descriptor_unmarshal (Descriptor_json d) = Ok d.
Proof.
  intros []. unfold Descriptor_unmarshal, Descriptor_json, Descriptor_fields. cbn [u_obj obj].
  cbn [mbind result_bind]. read_fields. run_codec. by destruct d.
Qed.

Lemma Descriptor_json_ok d : Descriptor_wf d -> json_ok (Descriptor_json d) = true.
Proof.
  intros []. fields_ok.
Qed.

Lemma Descriptors_codec l :
  Forall Descriptor_wf l -> u_list Descriptor_unmarshal (e_slice Descriptor_json l) = Ok l.
Proof.
  intros H. destruct l as [|d l]; [done|]. apply u_list_map.
  eapply Forall_impl; [exact H | apply Descriptor_codec].
Qed.

Lemma u_strings l : u_list str_value (o_slice JStr l) = Ok l.
Proof. destruct l as [|s l]; [done|]. apply u_list_map. apply Forall_true. done. Qed.

#[export] Hint Rewrite u_strings : codec.

Lemma json_ok_arr {A} (f : A -> json) l :
  Forall (fun a => json_ok (f a) = true) l -> json_ok (JArr (f <$> l)) = true.
Proof. induction 1 as [|a l Ha Hl IH]; cbn in *; [done|]. by rewrite Ha. Qed.

Lemma opt_ok_strings l : Forall (fun s => str_ok s = true) l -> opt_ok (o_slice JStr l) = true.
Proof. intros H. destruct l as [|s l]; [done|]. by apply json_ok_arr. Qed.

Lemma opt_ok_descriptors l : Forall Descriptor_wf l -> opt_ok (e_slice Descriptor_json l) = true.
Proof.
  intros H. destruct l as [|s l]; [done|]. apply json_ok_arr.
  eapply Forall_impl; [exact H | apply Descriptor_json_ok].
Qed.

#[export] Hint Resolve opt_ok_strings opt_ok_descriptors Descriptor_json_ok : go.

Lemma OCIManifest_codec m :
  OCIManifest_wf m -> OCIManifest_unmarshal (OCIManifest_json m) = Ok m.
Proof.
  intros [????? Hms Hsu ?]. unfold OCIManifest_unmarshal, OCIManifest_json, OCIManifest_fields.
  rewrite Hms, Hsu. cbn [u_obj obj mbind result_bind]. read_fields.
  cbn [struct_member o_slice fmap option_fmap option_map ptr_member].
  change (struct_member Descriptor_unmarshal (Some ?j)) with (Descriptor_unmarshal j).
  rewrite Descriptor_codec, Descriptors_codec by done. run_codec.
  cbn [u_list mbind result_bind]. destruct m; cbn in *. by subst.
Qed.

Lemma OCIManifest_json_ok m : OCIManifest_wf m -> json_ok (OCIManifest_json m) = true.
Proof.
  intros [???? Hls Hms Hsu ?]. unfold OCIManifest_json, OCIManifest_fields. rewrite Hms, Hsu.
  assert (opt_ok (Some (Descriptor_json (m_Config m))) = true) by by apply Descriptor_json_ok.
  fields_ok.
Qed.

Lemma SnapshotFile_codec f :
  SnapshotFile_wf f -> SnapshotFile_unmarshal (SnapshotFile_json f) = Ok f.
Proof.
  intros []. unfold SnapshotFile_unmarshal, SnapshotFile_json, SnapshotFile_fields.
  cbn [u_obj obj mbind result_bind]. read_fields. run_codec. by destruct f.
Qed.

Lemma SnapshotFile_json_ok f : SnapshotFile_wf f -> json_ok (SnapshotFile_json f) = true.
Proof. intros []. fields_ok. Qed.

Lemma u_files m :
  map_Forall (fun k f => str_ok k = true /\ SnapshotFile_wf f) m ->
  u_map SnapshotFile_unmarshal (o_map SnapshotFile_json m) = Ok m.
Proof. intros H. apply u_map_o. intros k a Hk. apply SnapshotFile_codec. by apply (H k a). Qed.

Lemma u_ids m : u_map unit_unmarshal (o_map unit_json m) = Ok m.
Proof. apply u_map_o. by intros k []. Qed.

#[export] Hint Rewrite u_ids : codec.

Lemma SnapshotConfig_codec c :
  SnapshotConfig_wf c -> SnapshotConfig_unmarshal (SnapshotConfig_json c) = Ok c.
Proof.
  intros [_ Hi _ Hf _ Ht]. repeat (apply Forall_cons in Hi as [? Hi]).
  unfold SnapshotConfig_unmarshal, SnapshotConfig_json, SnapshotConfig_fields.
  cbn [u_obj obj mbind result_bind]. read_fields. rewrite u_files, u_time_o by done. run_codec. by destruct c.
Qed.

Lemma SnapshotConfig_json_ok c : SnapshotConfig_wf c -> json_ok (SnapshotConfig_json c) = true.
Proof.
  intros [Hs _ Hid Hf He _]. repeat (apply Forall_cons in Hs as [? Hs]).
  assert (opt_ok (o_map unit_json (sc_ImageBlobIDs c)) = true).
  { apply opt_ok_o_map. intros k a Hk. split; [by apply (Hid k a)|done]. }
  assert (opt_ok (o_map SnapshotFile_json (sc_Files c)) = true).
  { apply opt_ok_o_map. intros k a Hk. destruct (Hf k a Hk) as [? ?].
    split; [done|by apply SnapshotFile_json_ok]. }
  fields_ok.
Qed.

(** Writing and reading back a wire object. *)
Lemma unmarshal_marshal {A} (f : json -> result A) j :
  json_ok j = true -> unmarshal f (bytes_of (marshal j)) = f j.
Proof. intros H. unfold unmarshal. by rewrite string_of_bytes_of, parse_marshal. Qed.

Lemma unmarshal_marshal_indent {A} (f : json -> result A) j :
  json_ok j = true -> unmarshal f (bytes_of (marshal_indent j)) = f j.
Proof. intros H. unfold unmarshal. by rewrite string_of_bytes_of, parse_marshal_indent. Qed.

(** ** Media types *)

Lemma MediaTypeForCocoonFile_cases name :
  MediaTypeForCocoonFile name
    ∈ [ MediaTypeVMConfig; MediaTypeVMState; MediaTypeVMMemory; MediaTypeVMCidata;
        MediaTypeDiskQcow2; MediaTypeDiskRaw; MediaTypeGeneric ].
Proof.
  unfold MediaTypeForCocoonFile. destruct (snapshotFilenameMediaType !! name) as [mt|] eqn:E.
  - apply elem_of_list_to_map_2 in E.
    repeat (apply elem_of_cons in E as [E|E]; [injection E as _ ->; repeat constructor|]). by apply elem_of_nil in E.
  - destruct (hasSuffix name ".qcow2"); [repeat constructor|]. destruct (hasSuffix name ".raw"); repeat constructor.
Qed.

Lemma not_zstd_for_file name : IsZstdMediaType (MediaTypeForCocoonFile name) = false.
Proof.
  pose proof (MediaTypeForCocoonFile_cases name) as H. revert H. generalize (MediaTypeForCocoonFile name).
  intros mt H. repeat (apply elem_of_cons in H as [->|H]; [vm_compute; reflexivity|]).
  by apply not_elem_of_nil in H.
Qed.

Lemma is_zstd_ZstdMediaType mt : IsZstdMediaType (ZstdMediaType mt) = true.
Proof. apply hasSuffix_app. Qed.

Lemma StripZstd_ZstdMediaType mt : StripZstd (ZstdMediaType mt) = mt.
Proof. apply trimSuffix_app. Qed.

Lemma IsSnapshotLayerMediaType_file name : IsSnapshotLayerMediaType (MediaTypeForCocoonFile name) = true.
Proof.
  pose proof (MediaTypeForCocoonFile_cases name) as H. revert H. generalize (MediaTypeForCocoonFile name).
  intros mt H. repeat (apply elem_of_cons in H as [->|H]; [vm_compute; reflexivity|]).
  by apply not_elem_of_nil in H.
Qed.

Lemma IsSnapshotLayerMediaType_zstd mt :
  IsZstdMediaType mt = false -> IsSnapshotLayerMediaType (ZstdMediaType mt) = IsSnapshotLayerMediaType mt.
Proof.
  intros H. unfold IsSnapshotLayerMediaType. rewrite StripZstd_ZstdMediaType.
  unfold StripZstd. by rewrite trimSuffix_no.
Qed.

(** ** Properties *)

(** A snapshot config and a manifest as push writes them. *)
Definition sample_file : SnapshotFile :=
  {| sf_Mode := 420; sf_SparseMap := "[]"; sf_SparseSize := 9; sf_Size := 7; sf_Chunks := ["sha256:00"; "sha256:01"] |}.

Definition sample_descriptor : Descriptor :=
  {| d_MediaType := MediaTypeSnapshotConfig; d_Digest := "sha256:00"; d_Size := 2 ^ 40;
     d_Annotations := {[ AnnotationTitle := "a<b>" ]}; d_ArtifactType := "" |}.

Definition sample_config : SnapshotConfig :=
  {| sc_SchemaVersion := "v2"; sc_SnapshotID := "id"; sc_Description := ""; sc_Image := "img";
     sc_ImageDigest := ""; sc_ImageType := ""; sc_ImageBlobIDs := {[ "x" := () ]}; sc_Hypervisor := "ch";
     sc_CPU := 4; sc_Memory := 2 ^ 33; sc_Storage := 0; sc_NICs := 1; sc_Network := ""; sc_Windows := true;
     sc_Files := {[ "disk.raw" := sample_file ]};
     sc_Engine := Some (JObj [("id", JStr "id"); ("cpu", JNum "4")]);
     sc_CreatedAt := "2026-01-02T03:04:05Z" |}.

Definition sample_manifest : OCIManifest :=
  {| m_SchemaVersion := 2; m_MediaType := MediaTypeOCIManifest; m_ArtifactType := ArtifactTypeSnapshotV2;
     m_Config := sample_descriptor; m_Layers := [sample_descriptor]; m_Manifests := []; m_Subject := None;
     m_Annotations := {[ AnnotationCreated := "2026-01-02T03:04:05Z" ]} |}.

Lemma sample_file_wf : SnapshotFile_wf sample_file.
Proof. constructor; try done. by repeat constructor. Qed.

Lemma sample_descriptor_wf : Descriptor_wf sample_descriptor.
Proof. constructor; try done. apply map_Forall_singleton. done. Qed.

Lemma sample_config_wf : SnapshotConfig_wf sample_config.
Proof.
  constructor; try done; [by repeat constructor..| |].
  - by apply map_Forall_singleton.
  - apply map_Forall_singleton. split; [done|apply sample_file_wf].
Qed.

Lemma sample_manifest_wf : OCIManifest_wf sample_manifest.
Proof.
  constructor; try done; [apply sample_descriptor_wf| |by apply map_Forall_singleton].
  constructor; [apply sample_descriptor_wf|constructor].
Qed.

Lemma unmarshal_Ok {A} (f : json -> result A) raw a :
  unmarshal f raw = Ok a <-> exists j, parse_json (string_of raw) = Some j /\ f j = Ok a.
Proof.
  unfold unmarshal, syntax_error. destruct (parse_json _); split; [by eauto|by intros (? & [= ->] & ?)|done|].
  by intros (? & ? & ?).
Qed.

Lemma struct_probe_mediaType o d :
  struct_member Descriptor_unmarshal o = Ok d ->
  struct_member (fun c => cl ← u_obj c; u_str (get_member "mediaType" cl)) o = Ok (d_MediaType d).
Proof.
  unfold struct_member. generalize (match o with Some j => j | None => JNull end). intros j H.
  unfold Descriptor_unmarshal in H. apply bind_Ok in H as (l & Hl & H). rewrite Hl. cbn [mbind result_bind].
  apply bind_Ok in H as (mt & Hmt & H). inv_ok. exact Hmt.
Qed.

Lemma SnapshotConfig_read_back c :
  SnapshotConfig_wf c ->
  unmarshal SnapshotConfig_unmarshal (bytes_of (marshal (SnapshotConfig_json c))) = Ok c.
Proof.
  intros Hc. rewrite unmarshal_marshal by by apply SnapshotConfig_json_ok. by apply SnapshotConfig_codec.
Qed.

Lemma Parse_read_back m :
  OCIManifest_wf m -> Parse (bytes_of (marshal_indent (OCIManifest_json m))) = Ok m.
Proof.
  intros Hm. unfold Parse. rewrite unmarshal_marshal_indent by by apply OCIManifest_json_ok.
  by rewrite OCIManifest_codec.
Qed.

(** [json.Unmarshal] of the bytes [json.Marshal] produces for a
    well-formed [SnapshotConfig] gives that config back: every field,
    [omitempty] zero values, the files table with its chunk lists, and the
    opaque engine object included. *)
Theorem SnapshotConfig_roundtrip c :
  SnapshotConfig_wf c ->
  unmarshal SnapshotConfig_unmarshal (bytes_of (marshal (SnapshotConfig_json c))) = Ok c.
Proof. apply SnapshotConfig_read_back. Qed.

Lemma SnapshotConfig_roundtrip_witness :
  unmarshal SnapshotConfig_unmarshal (bytes_of (marshal (SnapshotConfig_json sample_config))) = Ok sample_config.
Proof. apply (SnapshotConfig_roundtrip sample_config). apply sample_config_wf. Defined.

(** [manifest.Parse] of the indented JSON push writes for a well-formed
    manifest gives that manifest back, its layers in order. *)
Theorem Parse_roundtrip m :
  OCIManifest_wf m -> Parse (bytes_of (marshal_indent (OCIManifest_json m))) = Ok m.
Proof. apply Parse_read_back. Qed.

Lemma Parse_roundtrip_witness :
  Parse (bytes_of (marshal_indent (OCIManifest_json sample_manifest))) = Ok sample_manifest.
Proof. apply (Parse_roundtrip sample_manifest). apply sample_manifest_wf. Defined.

(** C25: [Classify], which decodes only three fields, agrees with
    [ClassifyParsed] after a full [Parse] on every manifest [Parse] accepts. *)
Theorem Classify_agrees raw m : Parse raw = Ok m -> Classify raw = Ok (ClassifyParsed m).
Proof.
  unfold Parse, Classify. intros H. apply wrap_Ok, unmarshal_Ok in H as (j & Hj & H).
  unfold unmarshal. rewrite Hj. unfold probe_unmarshal. unfold OCIManifest_unmarshal in H.
  apply bind_Ok in H as (l & Hl & H). rewrite Hl. apply bind_Ok in H as (sv & _ & H).
  apply bind_Ok in H as (mt & Hmt & H). apply bind_Ok in H as (at_ & Hat & H).
  apply bind_Ok in H as (cf & Hcf & H). apply struct_probe_mediaType in Hcf.
  inv_ok. cbn [mbind result_bind]. by rewrite Hmt, Hat, Hcf.
Qed.

Lemma Classify_agrees_witness :
  Classify (bytes_of (marshal (OCIManifest_json sample_manifest))) = Ok KindSnapshot.
Proof.
  apply (Classify_agrees _ sample_manifest). vm_compute. reflexivity.
Defined.

(** The layer media type push gives a file, plain or compressed, is one
    the reader's allowlist accepts, and the suffix tells the two apart; on any
    uncompressed type, compressing does not change membership. *)
Theorem layer_media_types name mt :
  let plain := MediaTypeForCocoonFile name in
  IsSnapshotLayerMediaType plain = true
  /\ IsSnapshotLayerMediaType (ZstdMediaType plain) = true
  /\ IsZstdMediaType plain = false
  /\ IsZstdMediaType (ZstdMediaType plain) = true
  /\ StripZstd (ZstdMediaType plain) = plain
  /\ (if IsZstdMediaType mt then True
      else IsSnapshotLayerMediaType (ZstdMediaType mt) = IsSnapshotLayerMediaType mt).
Proof.
  cbn zeta. rewrite IsSnapshotLayerMediaType_zstd by apply not_zstd_for_file.
  rewrite IsSnapshotLayerMediaType_file, not_zstd_for_file, is_zstd_ZstdMediaType, StripZstd_ZstdMediaType.
  repeat split. destruct (IsZstdMediaType mt) eqn:E; [done|]. by apply IsSnapshotLayerMediaType_zstd.
Qed.
