(* ===== verification/GoIO.v ===== *)
(** * GoIO: readers and writers

    An [io.Reader] is a script of [Read] results: each step is the data and
    the error one call returns when the buffer is large enough; a shorter
    buffer takes a prefix and leaves the rest.  After the script the reader is
    at [io.EOF].  Empty steps are the [(0, nil)] reads the contract allows.
    An [io.Writer] is a state with a [Write] function ([Class Writer]);
    [WriterOk] is what its clients rely on.  [io.LimitedReader], [io.Copy],
    [io.ReadFull] and [io.ReadAll] are defined from their documentation. *)

From Stdlib Require Import ZArith Lia String.
From stdpp Require Import base strings list.
From S2P Require Import Prelude.

(** ** Readers *)

Abbreviation reader := (list (bytes * option error)).

(** What one [Read] returns. *)
Record rd_result := { rr_data : bytes; rr_err : option error }.

Definition EOF : error := Esent IoEOF.
Definition is_EOF (e : option error) : bool :=
  match e with Some e => errors_Is e IoEOF | None => false end.

(** [r.Read(p)] with [len(p) = n]. *)
Definition script_read (r : reader) (n : nat) : rd_result * reader :=
  match r with
  | [] => ({| rr_data := []; rr_err := Some EOF |}, [])
  | (b, e) :: r' =>
      if length b <=? n then ({| rr_data := b; rr_err := e |}, r')
      else ({| rr_data := take n b; rr_err := None |}, (drop n b, e) :: r')
  end.

(** The bytes before the first error, and that error. *)
Fixpoint content (r : reader) : bytes :=
  match r with
  | [] => []
  | (b, None) :: r' => b ++ content r'
  | (b, Some _) :: _ => b
  end.

Fixpoint fate (r : reader) : error :=
  match r with
  | [] => EOF
  | (_, None) :: r' => fate r'
  | (_, Some e) :: _ => e
  end.

(** Reads left, counting every byte and every step. *)
Fixpoint weight (r : reader) : nat :=
  match r with [] => 0 | (b, _) :: r' => S (length b) + weight r' end.

(** A reader that fails only once, at its end. *)
Fixpoint ends_once (r : reader) : bool :=
  match r with
  | [] => true
  | (_, None) :: r' => ends_once r'
  | (_, Some _) :: r' => bool_decide (r' = [])
  end.

(** A reader that never returns [(0, nil)] to a non-empty buffer. *)
Definition no_stall (r : reader) : bool := forallb (fun be => bool_decide (be.1 <> [] \/ is_Some be.2)) r.

(** A body that yields exactly [b] and then [io.EOF]. *)
Record good_body (r : reader) (b : bytes) : Prop := {
  gb_content : content r = b;
  gb_fate : fate r = EOF;
  gb_ends : ends_once r = true;
  gb_live : no_stall r = true
}.

Lemma script_read_weight r n :
  n <> 0 -> r <> [] -> weight (script_read r n).2 < weight r.
Proof.
  intros Hn Hr. destruct r as [|[b e] r]; [done|]. cbn. destruct (Nat.leb_spec (length b) n); cbn; [lia|].
  rewrite length_drop. lia.
Qed.

Lemma script_read_le r n : n <> 0 -> length (rr_data (script_read r n).1) <= n.
Proof.
  intros Hn. destruct r as [|[b e] r]; cbn; [lia|]. destruct (Nat.leb_spec (length b) n); cbn; [lia|].
  rewrite length_take. lia.
Qed.

Lemma script_read_no_err r n :
  rr_err (script_read r n).1 = None -> r <> [] ->
  content r = rr_data (script_read r n).1 ++ content (script_read r n).2
  /\ fate r = fate (script_read r n).2.
Proof.
  intros He Hr. destruct r as [|[b e] r]; [done|]. cbn in *. destruct (length b <=? n).
  - cbn in He. by subst e.
  - destruct e; cbn; by rewrite ?app_assoc, take_drop.
Qed.

Lemma script_read_err r n e :
  ends_once r = true ->
  rr_err (script_read r n).1 = Some e ->
  content r = rr_data (script_read r n).1 /\ fate r = e /\ (script_read r n).2 = [].
Proof.
  intros Ho He. destruct r as [|[b e'] r]; cbn in *; [by injection He as <-|].
  destruct (length b <=? n); cbn in *; [|done]. subst e'. by apply bool_decide_eq_true in Ho as ->.
Qed.

Lemma script_read_ends r n : ends_once r = true -> ends_once (script_read r n).2 = true.
Proof.
  intros Ho. destruct r as [|[b e] r]; cbn in *; [done|].
  destruct (length b <=? n); cbn; [|done]. destruct e; [by apply bool_decide_eq_true in Ho as ->|done].
Qed.

Lemma script_read_live r n : no_stall r = true -> no_stall (script_read r n).2 = true.
Proof.
  intros Ho. destruct r as [|[b e] r]; cbn in *; [done|]. apply andb_true_iff in Ho as [H1 H2].
  destruct (Nat.leb_spec (length b) n); cbn; [done|]. rewrite H2, andb_true_r.
  apply bool_decide_eq_true. left. intros Hd%(f_equal length). rewrite length_drop in Hd. cbn in Hd. lia.
Qed.

(** ** Writers *)

Class Writer (W : Type) := w_write : W -> bytes -> nat * option error * W.

(** What a client may rely on: while the writer [w_accepts] that many bytes, a
    write takes them all, in order. *)
Class WriterOk (W : Type) `{Writer W} := {
  w_app : W -> bytes -> W;
  w_accepts : W -> nat -> Prop;
  w_write_ok w b : w_accepts w (length b) -> w_write w b = (length b, None, w_app w b);
  w_accepts_app w b n : w_accepts w (length b + n) -> w_accepts (w_app w b) n;
  w_accepts_le w n m : m <= n -> w_accepts w n -> w_accepts w m;
  w_app_nil w : w_app w [] = w;
  w_app_app w a b : w_app (w_app w a) b = w_app w (a ++ b)
}.

(** [bytes.Buffer] *)
#[global] Instance buffer_writer : Writer bytes := fun w b => (length b, None, w ++ b).

#[global, refine] Instance buffer_ok : WriterOk bytes :=
  { w_app w b := w ++ b; w_accepts _ _ := True }.
Proof. all: intros; try done; by rewrite ?(right_id_L [] (++)), ?(assoc_L (++)). Defined.

(** ** io.Copy *)

Definition copy_buffer : nat := Z.to_nat 32768.

Lemma copy_buffer_pos : copy_buffer <> 0.
Proof. unfold copy_buffer. lia. Qed.

Section copy.
Context {S W : Type} `{Writer W} (rd : S -> nat -> rd_result * S).

(** The loop of [io.Copy(dst, src)]: bytes written, the error, the states.
    [None]: out of fuel. *)
Fixpoint io_copy (fuel : nat) (s : S) (w : W) (written : nat) : option (nat * option error * S * W) :=
  match fuel with
  | O => None
  | Datatypes.S f =>
      let '(r, s') := rd s copy_buffer in
      let nr := length (rr_data r) in
      let '(nw, ew, w') := if nr =? 0 then (0, None, w) else w_write w (rr_data r) in
      let written' := written + nw in
      match ew with
      | Some e => Some (written', Some e, s', w')
      | None =>
          if negb (nr =? nw) then Some (written', Some (Esent IoErrShortWrite), s', w')
          else match rr_err r with
               | Some e => if bool_decide (e = EOF) then Some (written', None, s', w')
                           else Some (written', Some e, s', w')
               | None => io_copy f s' w' written'
               end
      end
  end.

(** [io.ReadFull(src, buf)] with [len(buf) = want]. *)
Fixpoint read_full (fuel : nat) (s : S) (want : nat) (acc : bytes) : option (result bytes * S) :=
  match fuel with
  | O => None
  | Datatypes.S f =>
      if want <=? length acc then Some (Ok acc, s)
      else
        let '(r, s') := rd s (want - length acc) in
        let acc' := acc ++ rr_data r in
        match rr_err r with
        | None => read_full f s' want acc'
        | Some e =>
            if want <=? length acc' then Some (Ok acc', s')
            else if negb (length acc' =? 0) && bool_decide (e = EOF)
            then Some (Err (Esent IoErrUnexpectedEOF), s')
            else Some (Err e, s')
        end
  end.

End copy.

(** [io.LimitReader] over a script: at most [n] bytes. *)
Definition limit_read (st : reader * Z) (n : nat) : rd_result * (reader * Z) :=
  let '(r, lim) := st in
  if (lim <=? 0)%Z then ({| rr_data := []; rr_err := Some EOF |}, st)
  else
    let '(x, r') := script_read r (Z.to_nat (Z.min (Z.of_nat n) lim)) in
    (x, (r', (lim - Z.of_nat (length (rr_data x)))%Z)).

(** [io.ReadAll(src)]; the buffer's growth does not matter to the result. *)
Fixpoint read_all {S} (rd : S -> nat -> rd_result * S) (fuel : nat) (s : S) (acc : bytes)
  : option (result bytes) :=
  match fuel with
  | O => None
  | Datatypes.S f =>
      let '(r, s') := rd s 512 in
      let acc' := acc ++ rr_data r in
      match rr_err r with
      | None => read_all rd f s' acc'
      | Some e => if bool_decide (e = EOF) then Some (Ok acc') else Some (Err e)
      end
  end.

(** [io.ReadAll(io.LimitReader(r, n))]; the fuel is enough ([read_all_limited_good]). *)
Definition read_all_limited (r : reader) (n : Z) : result bytes :=
  match read_all limit_read (2 + weight r) (r, n) [] with
  | Some x => x
  | None => Panic "out of fuel"
  end.

(** Every [Read] of a reader makes progress or ends it: the loops over it
    terminate with fuel above its weight. *)
Lemma limit_read_cases r lim n :
  n <> 0 -> (0 < lim)%Z -> exists m, m <> 0 /\ (Z.of_nat m <= lim)%Z /\ m <= n /\
    limit_read (r, lim) n =
      ((script_read r m).1, ((script_read r m).2, (lim - Z.of_nat (length (rr_data (script_read r m).1)))%Z)).
Proof.
  intros Hn Hl. exists (Z.to_nat (Z.min (Z.of_nat n) lim)). split_and!; [lia..|].
  unfold limit_read. destruct (Z.leb_spec lim 0); [lia|]. by destruct (script_read r _).
Qed.

Lemma read_all_S {S} (rd : S -> nat -> rd_result * S) f s acc :
  read_all rd (Datatypes.S f) s acc =
    let '(r, s') := rd s 512 in
    let acc' := acc ++ rr_data r in
    match rr_err r with
    | None => read_all rd f s' acc'
    | Some e => if bool_decide (e = EOF) then Some (Ok acc') else Some (Err e)
    end.
Proof. reflexivity. Qed.

Lemma read_all_limited_good_aux fuel r lim acc :
  weight r < fuel -> fate r = EOF -> ends_once r = true ->
  read_all limit_read (S fuel) (r, lim) acc = Some (Ok (acc ++ take (Z.to_nat lim) (content r))).
Proof.
  revert r lim acc. induction fuel as [|f IH]; intros r lim acc Hw Hf Ho; [lia|].
  destruct (Z.le_gt_cases lim 0) as [Hl|Hl].
  { cbn. destruct (Z.leb_spec lim 0); [|lia]. cbn. by replace (Z.to_nat lim) with 0 by lia. }
  destruct (limit_read_cases r lim 512 ltac:(lia) Hl) as (m & Hm & Hml & _ & E).
  rewrite read_all_S, E. destruct (rr_err (script_read r m).1) as [e|] eqn:Ee.
  - destruct (script_read_err _ _ _ Ho Ee) as (Hc & He & _). rewrite Hf in He. subst e.
    rewrite bool_decide_true by done. rewrite Hc, take_ge; [done|].
    pose proof (script_read_le r m Hm). lia.
  - destruct r as [|be r]; [by cbn in Ee|].
    destruct (script_read_no_err _ _ Ee ltac:(done)) as [Hc Hft].
    pose proof (script_read_le (be :: r) m Hm) as Hlen.
    pose proof (script_read_weight (be :: r) m Hm ltac:(done)) as Hwt.
    destruct f as [|f]; [lia|].
    rewrite IH; [|lia|by rewrite <- Hft|by apply script_read_ends].
    rewrite Hc. do 2 f_equal. rewrite <- (assoc_L (++)). f_equal.
    rewrite take_app_ge by lia. f_equal. f_equal. lia.
Qed.

Lemma read_all_limited_good r lim :
  fate r = EOF -> ends_once r = true ->
  read_all_limited r lim = Ok (take (Z.to_nat lim) (content r)).
Proof.
  intros Hf Ho. unfold read_all_limited. change (2 + weight r) with (S (S (weight r))).
  by rewrite (read_all_limited_good_aux (S (weight r)) r lim []) by (lia || done).
Qed.

(** ** Good bodies

    One read of a body that holds [b]: a prefix of [b], then a good body for
    the rest; an error is [io.EOF] at the end. *)
Lemma script_read_good r b n :
  n <> 0 -> good_body r b ->
  exists b', b = rr_data (script_read r n).1 ++ b'
    /\ good_body (script_read r n).2 b'
    /\ length (rr_data (script_read r n).1) <= n
    /\ (rr_err (script_read r n).1 = None /\ r <> [] /\ weight (script_read r n).2 < weight r
        \/ rr_err (script_read r n).1 = Some EOF /\ b' = []).
Proof.
  intros Hn [Hc Hf Ho Hl]. pose proof (script_read_le r n Hn) as Hle.
  destruct (rr_err (script_read r n).1) as [e|] eqn:Ee.
  - destruct (script_read_err _ _ _ Ho Ee) as (Hc' & He & Hnil). exists [].
    rewrite app_nil_r, Hnil. split_and!; [congruence|by constructor|done|]. right. split; [congruence|done].
  - assert (r <> []) as Hr by (intros ->; by cbn in Ee).
    destruct (script_read_no_err _ _ Ee Hr) as [Hc' Hf']. exists (content (script_read r n).2).
    split_and!; [congruence| |done|left; split_and!; [done|done|by apply script_read_weight]].
    constructor; [done|congruence|by apply script_read_ends|by apply script_read_live].
Qed.

Lemma read_full_S {S} (rd : S -> nat -> rd_result * S) f s want acc :
  read_full rd (Datatypes.S f) s want acc =
    if want <=? length acc then Some (Ok acc, s)
    else
      let '(r, s') := rd s (want - length acc) in
      let acc' := acc ++ rr_data r in
      match rr_err r with
      | None => read_full rd f s' want acc'
      | Some e =>
          if want <=? length acc' then Some (Ok acc', s')
          else if negb (length acc' =? 0) && bool_decide (e = EOF)
          then Some (Err (Esent IoErrUnexpectedEOF), s')
          else Some (Err e, s')
      end.
Proof. reflexivity. Qed.

Lemma io_copy_S {S W} `{Writer W} (rd : S -> nat -> rd_result * S) f s (w : W) written :
  io_copy rd (Datatypes.S f) s w written =
    let '(r, s') := rd s copy_buffer in
    let nr := length (rr_data r) in
    let '(nw, ew, w') := if nr =? 0 then (0, None, w) else w_write w (rr_data r) in
    let written' := written + nw in
    match ew with
    | Some e => Some (written', Some e, s', w')
    | None =>
        if negb (nr =? nw) then Some (written', Some (Esent IoErrShortWrite), s', w')
        else match rr_err r with
             | Some e => if bool_decide (e = EOF) then Some (written', None, s', w')
                         else Some (written', Some e, s', w')
             | None => io_copy rd f s' w' written'
             end
    end.
Proof. reflexivity. Qed.

Lemma read_full_good fuel r b want acc :
  good_body r b -> weight r < fuel -> length acc <= want -> want <= length acc + length b ->
  exists r', read_full script_read (S fuel) r want acc = Some (Ok (acc ++ take (want - length acc) b), r')
    /\ good_body r' (drop (want - length acc) b).
Proof.
  revert r b acc. induction fuel as [|f IH]; intros r b acc Hg Hw Hle Hlen; [lia|].
  rewrite read_full_S. destruct (Nat.leb_spec want (length acc)) as [H1|H1].
  { assert (want - length acc = 0) as -> by lia. rewrite take_0, drop_0, app_nil_r. by exists r. }
  destruct (script_read_good r b (want - length acc) ltac:(lia) Hg) as (b' & Hb & Hg' & Hn & Hcase).
  destruct (script_read r (want - length acc)) as [x r'] eqn:E. cbn [fst snd] in *.
  assert (length b = length (rr_data x) + length b') as Hlb by (rewrite Hb, length_app; done).
  destruct Hcase as [(Ee & Hr & Hwt) | [Ee ->]].
  - rewrite Ee. destruct (IH r' b' (acc ++ rr_data x)) as (r2 & E2 & Hg2); [done|lia|rewrite length_app; lia..|].
    exists r2. rewrite length_app in *. split.
    + etransitivity; [exact E2|]. rewrite <- (assoc_L (++)), Hb, take_app_ge by lia. do 4 f_equal. f_equal. f_equal. lia.
    + rewrite Hb, drop_app_ge by lia. by replace (want - length acc - length (rr_data x)) with (want - (length acc + length (rr_data x))) by lia.
  - rewrite Ee, length_app. rewrite app_nil_r in Hb. cbn [length] in Hlb.
    destruct (Nat.leb_spec want (length acc + length (rr_data x))); [|lia].
    exists r'. rewrite Hb, take_ge, drop_ge by lia. done.
Qed.

(** ** Sources

    A reader in any state type that delivers [b] and then [io.EOF], in at most
    [k] reads: [src_step] is one read. *)
Definition src_step {R} (rd : R -> nat -> rd_result * R) (I : R -> bytes -> nat -> Prop) : Prop :=
  forall r b k n, n <> 0 -> I r b k ->
    exists b', b = rr_data (rd r n).1 ++ b'
      /\ (rr_err (rd r n).1 = None /\ (exists k', k' < k /\ I (rd r n).2 b' k')
          \/ rr_err (rd r n).1 = Some EOF /\ b' = []).

(** [io.Copy] of a source. *)
Lemma io_copy_src {R W} `{WriterOk W} (rd : R -> nat -> rd_result * R) I fuel r b k (w : W) n :
  src_step rd I -> I r b k -> k < fuel -> w_accepts w (length b) ->
  exists r', io_copy rd fuel r w n = Some (n + length b, None, r', w_app w b).
Proof.
  intros Hstep. revert r b k w n. induction fuel as [|f IH]; intros r b k w n HI Hk Ha; [lia|].
  rewrite io_copy_S. destruct (Hstep r b k copy_buffer copy_buffer_pos HI) as (b' & Hb & Hcase).
  destruct (rd r copy_buffer) as [x r'] eqn:E. cbn [fst snd] in *.
  assert ((if length (rr_data x) =? 0 then (0, None, w) else w_write w (rr_data x))
          = (length (rr_data x), None, w_app w (rr_data x))) as ->.
  { destruct (Nat.eqb_spec (length (rr_data x)) 0) as [E0|_].
    - apply length_zero_iff_nil in E0 as ->. by rewrite w_app_nil.
    - apply w_write_ok. eapply w_accepts_le; [|exact Ha]. rewrite Hb, length_app. lia. }
  rewrite Nat.eqb_refl. cbn [negb]. rewrite Hb, length_app in Ha.
  destruct Hcase as [(Ee & k' & Hk' & HI') | [Ee ->]]; rewrite Ee.
  - destruct (IH r' b' k' (w_app w (rr_data x)) (n + length (rr_data x))) as (r2 & E2); [done|lia| |].
    { by apply w_accepts_app. }
    exists r2. etransitivity; [exact E2|]. rewrite w_app_app, <- Hb. do 4 f_equal. rewrite Hb, length_app. lia.
  - rewrite bool_decide_true by done. rewrite app_nil_r in Hb. subst b. by exists r'.
Qed.

(** A copy that ends without an error has written the whole source, whatever
    the writer accepts, when a write that reports no error appends. *)
Lemma io_copy_complete {R W} `{WriterOk W} (rd : R -> nat -> rd_result * R) I fuel r b k (w w' : W) n m r' :
  (forall v x v', w_write v x = (length x, None, v') -> v' = w_app v x) ->
  src_step rd I -> I r b k -> io_copy rd fuel r w n = Some (m, None, r', w') -> w' = w_app w b.
Proof.
  intros Hw Hstep. revert r b k w n. induction fuel as [|f IH]; intros r b k w n HI; [done|].
  rewrite io_copy_S. destruct (Hstep r b k copy_buffer copy_buffer_pos HI) as (b' & Hb & Hcase).
  destruct (rd r copy_buffer) as [x r1] eqn:E. cbn [fst snd] in *.
  destruct (if length (rr_data x) =? 0 then _ else _) as [[nw ew] w1] eqn:Ew. destruct ew; [done|].
  destruct (Nat.eqb_spec (length (rr_data x)) nw) as [<-|]; [|done]. cbn [negb].
  assert (w1 = w_app w (rr_data x)) as ->.
  { destruct (length (rr_data x) =? 0) eqn:E0; [|by apply Hw].
    apply Nat.eqb_eq in E0. injection Ew as _ <-. apply length_zero_iff_nil in E0 as ->. by rewrite w_app_nil. }
  destruct Hcase as [(Ee & k' & Hk' & HI') | [Ee ->]]; rewrite Ee.
  - intros Hc. apply IH with (1 := HI') in Hc. by rewrite Hc, w_app_app, <- Hb.
  - rewrite bool_decide_true by done. intros [= _ _ <-]. by rewrite Hb, app_nil_r.
Qed.

Lemma script_src : src_step script_read (fun r b k => good_body r b /\ weight r <= k).
Proof.
  intros r b k n Hn [Hg Hw]. destruct (script_read_good r b n Hn Hg) as (b' & Hb & Hg' & _ & Hcase).
  exists b'. split; [done|]. destruct Hcase as [(Ee & _ & Hwt)|Hcase]; [left|by right].
  split; [done|]. exists (weight (script_read r n).2). split; [lia|by split].
Qed.

Lemma limit_read_zero r lim n :
  (lim <= 0)%Z -> limit_read (r, lim) n = ({| rr_data := []; rr_err := Some EOF |}, (r, lim)).
Proof. intros H. unfold limit_read. by destruct (Z.leb_spec lim 0); [|lia]. Qed.

(** A limited reader whose limit is the body's length. *)
Lemma limit_src :
  src_step limit_read (fun st b k => good_body st.1 b /\ st.2 = Z.of_nat (length b) /\ weight st.1 <= k).
Proof.
  intros [r lim] b k n Hn (Hg & Hl & Hw). cbn [fst snd] in *. subst lim.
  destruct (decide (length b = 0)) as [Hz|Hz].
  { apply length_zero_iff_nil in Hz as ->. rewrite limit_read_zero by done. exists []. cbn. auto. }
  destruct (limit_read_cases r (Z.of_nat (length b)) n Hn ltac:(lia)) as (m & Hm & Hml & _ & ->).
  destruct (script_read_good r b m Hm Hg) as (b' & Hb & Hg' & _ & Hcase). cbn [fst snd].
  exists b'. split; [done|]. destruct Hcase as [(Ee & _ & Hwt)|Hcase]; [left|by right].
  split; [done|]. exists (weight (script_read r m).2). split; [lia|]. split_and!; [done| |done].
  rewrite Hb at 1. rewrite length_app. lia.
Qed.

(** [io.Copy] of a good body, and through a limit. *)
Lemma io_copy_good {W} `{WriterOk W} fuel r b w n :
  good_body r b -> weight r < fuel -> w_accepts w (length b) ->
  exists r', io_copy script_read fuel r w n = Some (n + length b, None, r', w_app w b).
Proof. intros Hg Hw. by apply (io_copy_src _ _ _ _ _ (weight r) _ _ script_src). Qed.

Lemma io_copy_limit_good {W} `{WriterOk W} fuel r b w n :
  good_body r b -> weight r < fuel -> w_accepts w (length b) ->
  exists st, io_copy limit_read fuel (r, Z.of_nat (length b)) w n = Some (n + length b, None, st, w_app w b).
Proof. intros Hg Hw. by apply (io_copy_src _ _ _ _ _ (weight r) _ _ limit_src). Qed.

(** [io.ReadFull] of exactly what a source holds, for sources that report
    [io.EOF] only on its own. *)
Definition src_strict {R} (rd : R -> nat -> rd_result * R) (I : R -> bytes -> nat -> Prop) : Prop :=
  forall r b k n, n <> 0 -> I r b k -> rr_err (rd r n).1 <> None -> rr_data (rd r n).1 = [].

Lemma read_full_src {R} (rd : R -> nat -> rd_result * R) I fuel r b k want acc :
  src_step rd I -> src_strict rd I -> I r b k -> k < fuel -> want = length acc + length b ->
  exists r' k', read_full rd fuel r want acc = Some (Ok (acc ++ b), r') /\ I r' [] k' /\ k' <= k.
Proof.
  intros Hstep Hstrict. revert r b k acc. induction fuel as [|f IH]; intros r b k acc HI Hk ->; [lia|].
  rewrite read_full_S. destruct (Nat.leb_spec (length acc + length b) (length acc)) as [Hle|Hgt].
  { assert (b = []) as -> by (destruct b; [done|cbn in Hle; lia]). rewrite app_nil_r. by exists r, k. }
  replace (length acc + length b - length acc) with (length b) by lia.
  destruct (Hstep r b k (length b) ltac:(lia) HI) as (b' & Hb & Hcase).
  pose proof (Hstrict r b k (length b) ltac:(lia) HI) as Hs.
  destruct (rd r (length b)) as [x r'] eqn:E. cbn [fst snd] in *.
  destruct Hcase as [(Ee & k' & Hk' & HI') | [Ee ->]].
  - rewrite Ee. destruct (IH r' b' k' (acc ++ rr_data x) HI') as (r2 & k2 & E2 & HI2 & Hk2); [lia|..].
    { rewrite Hb, !length_app. lia. }
    exists r2, k2. rewrite <- (assoc_L (++)), <- Hb in E2. split_and!; [done|done|lia].
  - rewrite Hs in Hb by by rewrite Ee. subst b. cbn in Hgt. lia.
Qed.

(** [io.Discard]: everything is accepted. *)
Definition discard_writer : Writer unit := fun _ b => (length b, None, ()).

Definition discard_ok : @WriterOk unit discard_writer.
Proof.
  refine (@Build_WriterOk unit discard_writer (fun _ _ => ()) (fun _ _ => True) _ _ _ _ _);
    intros; by try destruct w.
Defined.
