(* ===== verification/Bufio.v ===== *)
(** * Bufio: a writer that runs full, and [bufio.Writer] in front of it

    [limited] is a file or pipe that takes so many bytes and then fails.
    [bufio] is the standard library's [bufio.Writer] over any writer: it
    reports a failure when it flushes its buffer, not when the bytes are
    handed over.  [bufio_reports_late] says what its client sees: over a
    writer with room for [r] bytes the writes fail as if there were room for
    [r + slack], for some [slack] of at most the buffer's size, and the final
    [Flush] fails exactly when more than [r] bytes were written.  [Tar] and
    [SnapshotPull] model the buffer by that [slack]. *)

From Stdlib Require Import ZArith Lia Ascii String.
From stdpp Require Import base strings list.
From S2P Require Import Prelude GoStrings GoIO.

Local Open Scope nat_scope.

(** ** A writer with bounded room *)

(** [l_room]: the bytes it still takes and why it takes no more. *)
Record limited := { l_data : bytes; l_room : option (nat * error) }.

Definition limited_new (room : option (nat * error)) : limited := {| l_data := []; l_room := room |}.

#[global] Instance limited_Writer : Writer limited := fun t b =>
  let keep n := (l_data t ++ take n b)%list in
  match l_room t with
  | None => (length b, None, {| l_data := keep (length b); l_room := None |})
  | Some (r, e) =>
      if length b <=? r then (length b, None, {| l_data := keep (length b); l_room := Some (r - length b, e) |})
      else (r, Some e, {| l_data := keep r; l_room := Some (0, e) |})
  end.

#[global, refine] Instance limited_WriterOk : WriterOk limited :=
  { w_app t b := {| l_data := (l_data t ++ b)%list; l_room := prod_map (fun r => r - length b) id <$> l_room t |};
    w_accepts t n := match l_room t with Some (r, _) => n <= r | None => True end }.
Proof.
  - intros [d [[r e]|]] b; unfold w_write, limited_Writer; cbn [l_data l_room]; intros Ha; rewrite firstn_all; [|done].
    by apply Nat.leb_le in Ha as ->.
  - intros [d [[r e]|]] b n; cbn; [lia|done].
  - intros [d [[r e]|]] n m; cbn; [lia|done].
  - intros [d [[r e]|]]; cbn; by rewrite ?app_nil_r, ?Nat.sub_0_r.
  - intros [d [[r e]|]] a b; cbn; rewrite ?length_app, <- (assoc_L (++)); [|done]. do 3 f_equal. lia.
Defined.

(** It only reports success when it has taken everything. *)
Lemma limited_honest (t : limited) x t' : w_write t x = (length x, None, t') -> t' = w_app t x.
Proof.
  destruct t as [d [[r e]|]]; unfold w_write, limited_Writer; cbn; rewrite ?firstn_all; [|by intros [= <-]].
  destruct (_ <=? _); [by intros [= <-]|discriminate].
Qed.

(** ** bufio.Writer *)

Section bufio.
Context {W : Type} `{Writer W} (size : nat).

(** The buffered bytes, the sticky error, the writer behind. *)
Record bufio := { bw_buf : bytes; bw_err : option error; bw_w : W }.

Definition bufio_new (w : W) : bufio := {| bw_buf := []; bw_err := None; bw_w := w |}.

Definition bw_Available (b : bufio) : nat := size - length (bw_buf b).

Definition bw_Flush (b : bufio) : option error * bufio :=
  match bw_err b with
  | Some e => (Some e, b)
  | None =>
      if length (bw_buf b) =? 0 then (None, b)
      else
        let '(n, err, w') := w_write (bw_w b) (bw_buf b) in
        match (if (n <? length (bw_buf b)) && bool_decide (err = None) then Some (Esent IoErrShortWrite) else err) with
        | Some e => (Some e, {| bw_buf := drop n (bw_buf b); bw_err := Some e; bw_w := w' |})
        | None => (None, {| bw_buf := []; bw_err := None; bw_w := w' |})
        end
  end.

(** The loop of [Write]: one round flushes the buffer, one writes a long
    piece past it, one leaves the rest in the buffer. *)
Fixpoint bw_write_loop (fuel : nat) (b : bufio) (p : bytes) (nn : nat) : nat * option error * bufio :=
  match fuel with
  | O => (nn, Some (Enew "out of fuel"), b)
  | S f =>
      match bw_err b with
      | Some e => (nn, Some e, b)
      | None =>
          if bw_Available b <? length p then
            if length (bw_buf b) =? 0 then
              let '(n, err, w') := w_write (bw_w b) p in
              bw_write_loop f {| bw_buf := []; bw_err := err; bw_w := w' |} (drop n p) (nn + n)
            else
              let n := bw_Available b in
              let b' := (bw_Flush {| bw_buf := (bw_buf b ++ take n p)%list; bw_err := None; bw_w := bw_w b |}).2 in
              bw_write_loop f b' (drop n p) (nn + n)
          else (nn + length p, None, {| bw_buf := (bw_buf b ++ p)%list; bw_err := None; bw_w := bw_w b |})
      end
  end.

#[global] Instance bufio_Writer : Writer bufio := fun b p => bw_write_loop 3 b p 0.

End bufio.

Arguments bufio : clear implicits.

(** ** What the client sees *)

(** Writes in order, up to the first that fails. *)
Fixpoint write_seq {W} `{Writer W} (w : W) (ps : list bytes) : list (nat * option error) * W :=
  match ps with
  | [] => ([], w)
  | p :: ps' =>
      let '(n, err, w') := w_write w p in
      match err with
      | Some _ => ([(n, err)], w')
      | None => let '(rs, w'') := write_seq w' ps' in ((n, err) :: rs, w'')
      end
  end.

Definition all_written (rs : list (nat * option error)) : Prop := Forall (fun r => r.2 = None) rs.

Section late.
Context (size : nat).

Abbreviation over x e d := {| l_data := d; l_room := Some (x, e) |}.
Abbreviation holding buf x e d := {| bw_buf := buf; bw_err := None; bw_w := over x e d |}.

#[local] Instance sized : Writer (bufio limited) := bufio_Writer size.

Lemma limited_write x e d p :
  length p <= x /\ w_write (over x e d) p = (length p, None, over (x - length p) e (d ++ p)%list)
  \/ x < length p /\ w_write (over x e d) p = (x, Some e, over 0 e (d ++ take x p)%list).
Proof.
  unfold w_write, limited_Writer. cbn [l_room l_data].
  destruct (Nat.leb_spec (length p) x); [left|by right]. by rewrite firstn_all.
Qed.

Lemma flush_limited buf x e d :
  buf <> [] ->
  length buf <= x /\ bw_Flush (holding buf x e d) = (None, holding [] (x - length buf) e (d ++ buf)%list)
  \/ x < length buf /\ exists b', bw_Flush (holding buf x e d) = (Some e, b') /\ bw_err b' = Some e.
Proof.
  intros Hne. unfold bw_Flush. cbn [bw_err bw_buf bw_w].
  destruct (Nat.eqb_spec (length buf) 0) as [E|_]; [by apply length_zero_iff_nil in E|].
  destruct (limited_write x e d buf) as [[Hl ->]|[Hl ->]]; [left|right]; (split; [done|]).
  - by rewrite Nat.ltb_irrefl.
  - rewrite bool_decide_false by done. rewrite andb_false_r. by eexists.
Qed.

(** One write: everything is accepted and what the buffer does not hold went
    through, or some flush has failed with up to a buffer's worth accepted
    past the room. *)
Definition write_outcome (buf : bytes) (x : nat) (e : error) (p : bytes) (r : nat * option error * bufio limited) : Prop :=
  (exists buf' x' d', r = (length p, None, holding buf' x' e d') /\ length buf' <= size
     /\ x' + length buf + length p = x + length buf')
  \/ (exists n b', r = (n, Some e, b') /\ n < length p /\ x <= length buf + n <= x + size).

(** A failed flush ends the loop. *)
Lemma write_loop_stuck f (b : bufio limited) p n e : bw_err b = Some e -> 0 < f -> bw_write_loop size f b p n = (n, Some e, b).
Proof. intros He Hf. destruct f; [lia|]. cbn. by rewrite He. Qed.

Lemma write_loop_room f buf x e d p n :
  length buf + length p <= size ->
  bw_write_loop size (S f) (holding buf x e d) p n = (n + length p, None, holding (buf ++ p)%list x e d).
Proof.
  intros Hl. cbn [bw_write_loop bw_err]. unfold bw_Available. cbn [bw_buf bw_w].
  by destruct (Nat.ltb_spec (size - length buf) (length p)); [lia|].
Qed.

(** The loop on an empty buffer. *)
Lemma write_loop_empty f x e d p :
  write_outcome [] x e p (bw_write_loop size (S (S f)) (holding [] x e d) p 0).
Proof.
  destruct (decide (length p <= size)) as [Hp|Hp].
  { rewrite write_loop_room by (cbn; lia). left. exists p, x, d. cbn. split_and!; [done|lia|lia]. }
  cbn [bw_write_loop bw_err]. unfold bw_Available. cbn [bw_buf bw_w length Nat.eqb].
  destruct (Nat.ltb_spec (size - 0) (length p)); [|lia].
  destruct (limited_write x e d p) as [[Hx ->]|[Hx ->]].
  - cbn [bw_err bw_buf bw_w]. rewrite drop_all. cbn [length Nat.ltb Nat.leb Nat.add].
    rewrite Nat.add_0_r. left. exists [], (x - length p), (d ++ p)%list. cbn [length]. split_and!; [done|lia|lia].
  - right. eexists _, _. split; [reflexivity|]. cbn [length]. lia.
Qed.

(** The count is an accumulator. *)
Lemma write_loop_count f (b : bufio limited) p n :
  bw_write_loop size f b p n = (n + (bw_write_loop size f b p 0).1.1, (bw_write_loop size f b p 0).1.2, (bw_write_loop size f b p 0).2).
Proof.
  revert b p n. induction f as [|f IH]; intros b p n; cbn [bw_write_loop]; [by rewrite Nat.add_0_r|].
  destruct (bw_err b); [by rewrite Nat.add_0_r|]. destruct (_ <? _); [|done].
  destruct (_ =? 0).
  - destruct (w_write _ _) as [[k err] w']. rewrite (IH _ _ (n + k)), (IH _ _ (0 + k)). cbn [fst snd]. by rewrite (Nat.add_assoc n).
  - rewrite (IH _ _ (n + _)), (IH _ _ (0 + _)). cbn [fst snd]. by rewrite (Nat.add_assoc n).
Qed.

(** A round that fills the buffer and flushes it. *)
Lemma write_loop_flush f buf x e d p n :
  buf <> [] -> length buf <= size -> size < length buf + length p ->
  bw_write_loop size (S f) (holding buf x e d) p n
  = bw_write_loop size f (bw_Flush (holding (buf ++ take (size - length buf) p)%list x e d)).2
      (drop (size - length buf) p) (n + (size - length buf)).
Proof.
  intros Hne Hs Hl. cbn [bw_write_loop bw_err]. unfold bw_Available. cbn [bw_buf bw_w].
  destruct (Nat.ltb_spec (size - length buf) (length p)); [|lia].
  by destruct (Nat.eqb_spec (length buf) 0) as [E|_]; [apply length_zero_iff_nil in E|].
Qed.

Lemma bufio_write buf x e d p :
  length buf <= size -> write_outcome buf x e p (w_write (holding buf x e d) p).
Proof.
  intros Hb. unfold w_write, sized, bufio_Writer.
  destruct (decide (length buf + length p <= size)) as [Hp|Hp].
  { rewrite write_loop_room by done. left. exists (buf ++ p)%list, x, d. rewrite length_app. split_and!; [done|lia|lia]. }
  destruct (decide (buf = [])) as [->|Hne]; [apply write_loop_empty|].
  rewrite write_loop_flush by (done || lia).
  set (k := size - length buf). assert (length (buf ++ take k p)%list = size) as Hl.
  { rewrite length_app, length_take. lia. }
  assert ((buf ++ take k p)%list <> []) as Hne' by (by destruct buf).
  destruct (flush_limited (buf ++ take k p)%list x e d Hne') as [[Hx ->]|[Hx (b' & -> & He)]]; cbn [snd]; rewrite Hl in Hx.
  - rewrite write_loop_count. rewrite Hl.
    destruct (write_loop_empty 0 (x - size) e (d ++ buf ++ take k p)%list (drop k p)) as [(buf' & x' & d' & -> & Hs & Hx')|(n & b' & -> & Hn & Hx')];
      cbn [fst snd]; rewrite length_drop in *; cbn [length] in Hx'.
    + left. exists buf', x', d'. split_and!; [do 2 f_equal; lia|done|lia].
    + right. exists (k + n), b'. split_and!; [done|lia|lia|lia].
  - rewrite write_loop_stuck with (e := e) by (done || lia). right. exists k, b'. split_and!; [done|lia|lia|lia].
Qed.

(** A client of a [bufio.Writer] over a writer with room for [r] bytes sees
    writes that fail exactly as over one with room for [r + slack], where
    [slack] is at most the size of the buffer; when none has failed, [Flush]
    does exactly if they were more than [r] bytes. *)
Lemma bufio_seq buf x e d ps :
  length buf <= size ->
  let run := write_seq (holding buf x e d) ps in
  exists slack, slack <= size /\ length buf <= x + slack
    /\ (forall data, (write_seq (over (x + slack - length buf) e data) ps).1 = run.1)
    /\ (all_written run.1 -> (bw_Flush run.2).1 = if length buf + length (concat ps) <=? x then None else Some e).
Proof.
  revert buf x d. induction ps as [|p ps IH]; intros buf x d Hb run; subst run.
  - exists size. split_and!; [done|lia|done|]. intros _. cbn [write_seq snd concat length]. rewrite Nat.add_0_r.
    destruct (decide (buf = [])) as [->|Hne]; [done|].
    destruct (flush_limited buf x e d Hne) as [[Hx ->]|[Hx (b' & -> & _)]]; cbn [fst];
      by destruct (Nat.leb_spec (length buf) x); [|lia] || (destruct (Nat.leb_spec (length buf) x); [lia|]).
  - cbn [write_seq]. destruct (bufio_write buf x e d p Hb) as [(buf' & x' & d' & -> & Hb' & Hx)|(n & b' & -> & Hn & Hx)].
    + destruct (IH buf' x' d' Hb') as (k & Hk & Hk' & Hrun & Hfl). exists k.
      destruct (write_seq (holding buf' x' e d') ps) as [rs w]. cbn [fst snd] in *.
      split_and!; [done|lia| |].
      * intros data. destruct (limited_write (x + k - length buf) e data p) as [[Hl ->]|[Hl _]]; [|lia].
        replace (x + k - length buf - length p) with (x' + k - length buf') by lia.
        specialize (Hrun (data ++ p)%list). destruct (write_seq (over _ _ _) ps). cbn [fst] in *. by rewrite Hrun.
      * intros Hall. apply Forall_cons in Hall as [_ Hall]. rewrite (Hfl Hall). cbn [concat]. rewrite length_app.
        destruct (Nat.leb_spec (length buf' + length (concat ps)) x'), (Nat.leb_spec (length buf + (length p + length (concat ps))) x); (done || lia).
    + exists (length buf + n - x). split_and!; [lia|lia| |].
      * intros data. destruct (limited_write (x + (length buf + n - x) - length buf) e data p) as [[Hl _]|[Hl ->]]; [lia|].
        cbn [fst]. do 3 f_equal. lia.
      * intros Hall. by inversion Hall.
Qed.

(** A client of a [bufio.Writer] over a writer with room for [r] bytes
    sees its writes fail exactly as over a writer with room for [r + slack]
    bytes, for some [slack] of at most the size of the buffer; and when none
    of them has failed, the final [Flush] fails exactly when more than [r]
    bytes were written. *)
Theorem bufio_reports_late r e ps :
  let run := write_seq (bufio_new (limited_new (Some (r, e)))) ps in
  exists slack, slack <= size
    /\ (write_seq (limited_new (Some (r + slack, e))) ps).1 = run.1
    /\ (all_written run.1 -> (bw_Flush run.2).1 = if length (concat ps) <=? r then None else Some e).
Proof.
  intros run. destruct (bufio_seq [] r e [] ps) as (k & Hk & _ & Hrun & Hfl); [cbn; lia|]. exists k.
  split_and!; [done| |exact Hfl]. cbn [length] in Hrun. rewrite Nat.sub_0_r in Hrun. apply Hrun.
Qed.

End late.
