(* ===== verification/GoRegexp.v ===== *)
(** * GoRegexp: anchored [regexp] matching

    The regular expressions of the program as syntax trees, a matcher by
    Brzozowski derivatives ([regexp.MatchString] of a fully anchored
    expression), its declarative semantics, and the proof that they agree. *)

From Stdlib Require Import ZArith Lia Ascii String.
From stdpp Require Import base strings list.
From S2P Require Import Prelude GoStrings.

Inductive re :=
  | RNone
  | REps
  | RSet (p : ascii -> bool)
  | RSeq (a b : re)
  | RAlt (a b : re)
  | RStar (a : re).

(** The strings an expression denotes. *)
Inductive matches : re -> string -> Prop :=
  | m_eps : matches REps ""
  | m_set p c : p c = true -> matches (RSet p) (String c "")
  | m_seq a b s t : matches a s -> matches b t -> matches (RSeq a b) (s +:+ t)
  | m_altl a b s : matches a s -> matches (RAlt a b) s
  | m_altr a b s : matches b s -> matches (RAlt a b) s
  | m_star0 a : matches (RStar a) ""
  | m_star a s t : matches a s -> matches (RStar a) t -> matches (RStar a) (s +:+ t).

(** ** Derived forms *)

Definition rplus (a : re) : re := RSeq a (RStar a).
Definition ropt (a : re) : re := RAlt a REps.
Definition rchar (c : ascii) : re := RSet (Ascii.eqb c).
Fixpoint rlit (s : string) : re :=
  match s with "" => REps | String c s' => RSeq (rchar c) (rlit s') end.
(** [a{n}] and [a{0,n}] *)
Fixpoint rtimes (n : nat) (a : re) : re := match n with O => REps | S k => RSeq a (rtimes k a) end.
Fixpoint rupto (n : nat) (a : re) : re := match n with O => REps | S k => ropt (RSeq a (rupto k a)) end.

(** ** The matcher *)

Fixpoint nullable (r : re) : bool :=
  match r with
  | RNone | RSet _ => false
  | REps | RStar _ => true
  | RSeq a b => nullable a && nullable b
  | RAlt a b => nullable a || nullable b
  end.

Definition seq_ (a b : re) : re :=
  match a with RNone => RNone | REps => b | _ => RSeq a b end.
Definition alt_ (a b : re) : re :=
  match a, b with RNone, _ => b | _, RNone => a | _, _ => RAlt a b end.

Fixpoint derive (c : ascii) (r : re) : re :=
  match r with
  | RNone | REps => RNone
  | RSet p => if p c then REps else RNone
  | RSeq a b =>
      if nullable a then alt_ (seq_ (derive c a) b) (derive c b) else seq_ (derive c a) b
  | RAlt a b => alt_ (derive c a) (derive c b)
  | RStar a => seq_ (derive c a) (RStar a)
  end.

Fixpoint re_match (r : re) (s : string) : bool :=
  match s with "" => nullable r | String c s' => re_match (derive c r) s' end.

(** ** Correctness *)

Lemma nullable_spec r : nullable r = true <-> matches r "".
Proof.
  split.
  - induction r as [| |p|a IHa b IHb|a IHa b IHb|a _]; cbn; try discriminate; intros Hn.
    + constructor.
    + apply andb_true_iff in Hn as [Ha Hb]. apply (m_seq a b "" ""); auto.
    + apply orb_true_iff in Hn as [Ha|Hb]; [apply m_altl|apply m_altr]; auto.
    + constructor.
  - intros Hm. remember ""%string as s eqn:E. induction Hm; cbn; try done.
    + destruct s; [|done]. cbn in E. subst. by rewrite IHHm1, IHHm2.
    + by rewrite IHHm.
    + rewrite IHHm by done. apply orb_true_r.
Qed.

Lemma seq_spec a b s : matches (seq_ a b) s <-> matches (RSeq a b) s.
Proof.
  destruct a; cbn; try done.
  - split; intros H; inversion H; subst. match goal with X : matches RNone _ |- _ => inversion X end.
  - split; intros H; [by apply (m_seq REps b "" s); [constructor|]|].
    inversion H; subst. match goal with X : matches REps _ |- _ => inversion X; subst end. done.
Qed.

Lemma alt_spec a b s : matches (alt_ a b) s <-> matches a s \/ matches b s.
Proof.
  assert (matches (RAlt a b) s <-> matches a s \/ matches b s) as Hd.
  { split; [by inversion 1; auto|]. intros [?|?]; [by apply m_altl|by apply m_altr]. }
  destruct a; [split; [by right|]; intros [H|H]; [inversion H|done] |..];
    (destruct b; [split; [by left|]; intros [H|H]; [done|inversion H] |..]); exact Hd.
Qed.

Lemma star_cons a c s :
  matches (RStar a) (String c s) ->
  exists s1 s2, s = s1 +:+ s2 /\ matches a (String c s1) /\ matches (RStar a) s2.
Proof.
  intros H. remember (RStar a) as r eqn:Er. remember (String c s) as u eqn:Eu.
  revert a c s Er Eu. induction H; intros a' c' s' Er Eu; try discriminate.
  injection Er as ->. destruct s as [|d s]; cbn in Eu.
  - by apply (IHmatches2 a').
  - injection Eu as -> <-. eauto.
Qed.

Lemma derive_spec c r s : matches (derive c r) s <-> matches r (String c s).
Proof.
  revert s. induction r as [| |p|a IHa b IHb|a IHa b IHb|a IHa]; intros s; cbn [derive].
  - split; inversion 1.
  - split; inversion 1.
  - destruct (p c) eqn:E; split; inversion 1; subst; [by constructor|constructor|congruence].
  - assert (matches (RSeq (derive c a) b) s <->
      exists s1 s2, s = s1 +:+ s2 /\ matches a (String c s1) /\ matches b s2) as Hseq.
    { split.
      - inversion 1; subst. eexists _, _. split; [done|]. by split; [apply IHa|].
      - intros (s1 & s2 & -> & H1 & H2). constructor; [by apply IHa|done]. }
    assert (matches (RSeq a b) (String c s) <->
      (exists s1 s2, s = s1 +:+ s2 /\ matches a (String c s1) /\ matches b s2)
      \/ (matches a "" /\ matches b (String c s))) as Hsplit.
    { split.
      - intros H. inversion H as [| |? ? s1 s2 H1 H2 E E2| | | |]; subst.
        destruct s1 as [|d s1]; cbn in E2; [right; by subst|].
        injection E2 as -> <-. left. eauto.
      - intros [(s1 & s2 & -> & H1 & H2)|[H1 H2]].
        + by apply (m_seq a b (String c s1) s2).
        + by apply (m_seq a b "" (String c s)). }
    rewrite Hsplit. destruct (nullable a) eqn:En.
    + rewrite alt_spec, seq_spec, Hseq, IHb. apply nullable_spec in En. tauto.
    + rewrite seq_spec, Hseq. split; [by left|]. intros [?|[Ha _]]; [done|].
      apply nullable_spec in Ha. congruence.
  - rewrite alt_spec, IHa, IHb. split; [intros [?|?]; [by apply m_altl|by apply m_altr]|].
    by inversion 1; auto.
  - rewrite seq_spec. split.
    + inversion 1; subst. match goal with X : matches (derive _ _) _ |- _ => apply IHa in X end.
      by apply (m_star a (String c s0) t).
    + intros H. apply star_cons in H as (s1 & s2 & -> & H1 & H2). constructor; [by apply IHa|done].
Qed.

Lemma re_match_spec r s : re_match r s = true <-> matches r s.
Proof.
  revert r. induction s as [|c s IH]; intros r; cbn; [apply nullable_spec|].
  by rewrite IH, derive_spec.
Qed.

(** No set of the expression contains [c]: no match contains [c]. *)
Fixpoint re_avoids (c : ascii) (r : re) : bool :=
  match r with
  | RNone | REps => true
  | RSet p => negb (p c)
  | RSeq a b | RAlt a b => re_avoids c a && re_avoids c b
  | RStar a => re_avoids c a
  end.

Lemma matches_avoids c r s : re_avoids c r = true -> matches r s -> containsByte s c = false.
Proof.
  intros Ha Hm. induction Hm as [|p d Hp|a b s t _ IH1 _ IH2|a b s _ IH|a b s _ IH|a|a s t _ IH1 _ IH2];
    cbn in Ha; try apply andb_true_iff in Ha as [H1 H2]; rewrite ?containsByte_app; auto.
  - cbn. rewrite orb_false_r. destruct (Ascii.eqb_spec d c) as [->|]; [|done]. by rewrite Hp in Ha.
  - by rewrite IH1, IH2.
  - cbn in *. by rewrite IH1, IH2.
Qed.
