(* ===== verification/OciUtil.v ===== *)
(** * OciUtil: package [ociutil] (src/ociutil/ociutil.go)

    [BlobSizeChecker] and [CopyBlobSized] over the readers of [GoIO],
    [SHA256Hex], and the reference grammar: [ParseRef], [IsRelativeRef] with
    its three regular expressions as Boolean matchers. *)

From Stdlib Require Import ZArith Lia Ascii String.
From Stdlib Require Import Strings.Byte.
From stdpp Require Import base strings list.
From S2P Require Import Prelude GoStrings Sha256 GoIO GoRegexp.

Local Open Scope string_scope.

(** ** BlobSizeChecker

    [body] and [lim.R] are one reader: the checker's probe in [finish] reads
    on where the limited reader stopped.  The model keeps that reader once. *)

Record BlobSizeChecker := {
  bc_body : reader;
  bc_digest : string;
  bc_size : Z;
  bc_limN : Z;
  bc_done : bool
}.

Definition NewBlobSizeChecker (body : reader) (digest : string) (size : Z) : BlobSizeChecker :=
  {| bc_body := body; bc_digest := digest; bc_size := size; bc_limN := size; bc_done := false |}.

Definition bc_set (v : BlobSizeChecker) (body : reader) (limN : Z) (done : bool) : BlobSizeChecker :=
  {| bc_body := body; bc_digest := bc_digest v; bc_size := bc_size v; bc_limN := limN; bc_done := done |}.

Definition finish (v : BlobSizeChecker) : option error * BlobSizeChecker :=
  if (0 <? bc_limN v)%Z then
    (Some (Enew ("blob " +:+ bc_digest v +:+ " shorter than manifest size " +:+ formatInt (bc_size v)
                 +:+ " (missing " +:+ formatInt (bc_limN v) +:+ ")")), v)
  else
    let '(x, body') := script_read (bc_body v) 1 in
    let v' := bc_set v body' (bc_limN v) (bc_done v) in
    if (0 <? length (rr_data x))%nat then
      (Some (Enew ("blob " +:+ bc_digest v +:+ " longer than manifest size " +:+ formatInt (bc_size v))), v')
    else match rr_err x with
    | Some e => if errors_Is e IoEOF then (None, v') else (Some (Ewrap ("verify blob " +:+ bc_digest v) e), v')
    | None => (None, v')
    end.

Definition BlobSizeChecker_Read (v : BlobSizeChecker) (n : nat) : rd_result * BlobSizeChecker :=
  if bc_done v then ({| rr_data := []; rr_err := Some EOF |}, v)
  else
    let '(x, (body', limN')) := limit_read (bc_body v, bc_limN v) n in
    let v1 := bc_set v body' limN' (bc_done v) in
    if negb (is_EOF (rr_err x)) then (x, v1)
    else match finish v1 with
    | (Some finErr, v2) => ({| rr_data := rr_data x; rr_err := Some finErr |}, v2)
    | (None, v2) =>
        let v3 := bc_set v2 (bc_body v2) (bc_limN v2) true in
        if (0 <? length (rr_data x))%nat then ({| rr_data := rr_data x; rr_err := None |}, v3)
        else ({| rr_data := []; rr_err := Some EOF |}, v3)
    end.

(** ** SHA256Hex *)

Definition SHA256Hex (data : bytes) : string := hex_encode (sha256 data).

(** ** CopyBlobSized

    One [Read] more than the body's weight, one for the end, one for the
    checker's own end of file. *)
Definition checker_fuel (body : reader) : nat := 4 + weight body.

Definition CopyBlobSized {W} `{Writer W} (dst : W) (body : reader) (digest : string) (size : Z)
  : option error * W :=
  match io_copy BlobSizeChecker_Read (checker_fuel body) (NewBlobSizeChecker body digest size) dst 0 with
  | Some (_, err, _, w) => (err, w)
  | None => (Some (Enew "out of fuel"), dst)
  end.

Lemma checker_read_done v n :
  bc_done v = true -> BlobSizeChecker_Read v n = ({| rr_data := []; rr_err := Some EOF |}, v).
Proof. intros H. unfold BlobSizeChecker_Read. by rewrite H. Qed.

Record checker_live (v : BlobSizeChecker) : Prop := {
  cl_open : bc_done v = false;
  cl_ends : ends_once (bc_body v) = true;
  cl_live : no_stall (bc_body v) = true
}.

(** The blob has exactly the declared size and ends in [io.EOF]. *)
Definition exact (v : BlobSizeChecker) : Prop :=
  errors_Is (fate (bc_body v)) IoEOF = true
  /\ Z.of_nat (length (content (bc_body v))) = Z.max 0 (bc_limN v).

(** What [finish] decides once the limit is reached. *)
Lemma finish_at_limit v :
  (bc_limN v <= 0)%Z -> no_stall (bc_body v) = true ->
  match finish v with
  | (None, v') => content (bc_body v) = [] /\ errors_Is (fate (bc_body v)) IoEOF = true
  | (Some e, v') => e <> EOF /\ ~ (content (bc_body v) = [] /\ errors_Is (fate (bc_body v)) IoEOF = true)
  end.
Proof.
  intros Hl Hs. unfold finish. destruct (Z.ltb_spec 0 (bc_limN v)) as [|_]; [lia|].
  destruct (bc_body v) as [|[b e] r]; [cbn; by split|].
  destruct b as [|x [|y b]]; cbn in *.
  - destruct e as [e|]; [|by cbn in Hs].
    destruct (errors_Is e IoEOF) eqn:E; cbn; [done|]. split; [done|]. intros [_ ?]. congruence.
  - split; [done|]. by destruct e as [e|]; intros [? ?].
  - split; [done|]. by destruct e as [e|]; intros [? ?].
Qed.

Inductive read_outcome (v : BlobSizeChecker) : rd_result -> BlobSizeChecker -> Prop :=
  | ro_more x v' :
      rr_err x = None -> checker_live v' ->
      (Z.of_nat (length (rr_data x)) <= bc_limN v)%Z ->
      content (bc_body v) = (rr_data x ++ content (bc_body v'))%list ->
      fate (bc_body v) = fate (bc_body v') ->
      bc_limN v' = (bc_limN v - Z.of_nat (length (rr_data x)))%Z ->
      weight (bc_body v') < weight (bc_body v) ->
      read_outcome v x v'
  | ro_last x v' :
      rr_err x = None -> bc_done v' = true -> rr_data x = content (bc_body v) -> exact v ->
      read_outcome v x v'
  | ro_end x v' :
      rr_err x = Some EOF -> rr_data x = [] -> content (bc_body v) = [] -> exact v ->
      read_outcome v x v'
  | ro_fail x v' e :
      rr_err x = Some e -> e <> EOF -> rr_data x = take (Z.to_nat (bc_limN v)) (content (bc_body v)) ->
      ~ exact v ->
      read_outcome v x v'.

Lemma checker_read_outcome v n :
  n <> 0%nat -> checker_live v ->
  read_outcome v (BlobSizeChecker_Read v n).1 (BlobSizeChecker_Read v n).2.
Proof.
  intros Hn [Hd Ho Hs]. unfold BlobSizeChecker_Read. rewrite Hd.
  destruct (Z.le_gt_cases (bc_limN v) 0) as [Hl|Hl].
  - unfold limit_read. destruct (Z.leb_spec (bc_limN v) 0); [|lia].
    cbn [is_EOF rr_err rr_data negb errors_Is EOF]. rewrite bool_decide_true by done. cbn [negb length Nat.ltb Nat.leb].
    pose proof (finish_at_limit (bc_set v (bc_body v) (bc_limN v) false) Hl Hs) as Hfin.
    destruct (finish _) as [[e|] v2]; cbn in Hfin; cbn.
    + destruct Hfin as [He Hne]. eapply ro_fail; [done|done| |].
      * cbn. by replace (Z.to_nat (bc_limN v)) with 0%nat by lia.
      * intros [H1 H2]. apply Hne. split; [|done]. apply length_zero_iff_nil. lia.
    + destruct Hfin as [Hc Hf]. apply ro_end; [done|done|done|]. split; [done|]. rewrite Hc. cbn. lia.
  - destruct (limit_read_cases (bc_body v) (bc_limN v) n Hn Hl) as (m & Hm & Hml & _ & ->).
    pose proof (script_read_le (bc_body v) m Hm) as Hlen.
    destruct (rr_err (script_read (bc_body v) m).1) as [e|] eqn:Ee; cbn [is_EOF].
    + destruct (script_read_err _ _ _ Ho Ee) as (Hc & He & Hnil). rewrite Hnil, <- Hc.
      rewrite <- Hc in Hlen. cbn [bc_set bc_body bc_limN].
      destruct (errors_Is e IoEOF) eqn:Eof; cbn [negb].
      * unfold finish. cbn [bc_limN bc_set].
        destruct (Z.ltb_spec 0 (bc_limN v - Z.of_nat (length (content (bc_body v))))) as [Hs1|Hs1].
        -- cbn. eapply ro_fail; [done|done|cbn; by rewrite take_ge by lia|].
           intros [_ H2]. lia.
        -- cbn -[Nat.ltb]. destruct (Nat.ltb_spec 0 (length (content (bc_body v)))); [|lia].
           apply ro_last; [done|done|done|]. split; [by rewrite He|lia].
      * eapply ro_fail with (e := e); [done| |cbn; by rewrite <- Hc, take_ge by lia|].
        -- intros ->. cbn in Eof. by rewrite bool_decide_true in Eof.
        -- intros [H1 _]. congruence.
    + cbn [negb]. assert (bc_body v <> []) as Hne by (intros E; by rewrite E in Ee).
      destruct (script_read_no_err _ _ Ee Hne) as [Hc Hft].
      apply ro_more; cbn; [done| |lia|done|done|done|by apply script_read_weight].
      constructor; cbn; [done|by apply script_read_ends|by apply script_read_live].
Qed.

Section checker.
Context {W : Type} `{WriterOk W}.

(** The copy loop, from any reachable checker state: what is written and when
    it succeeds.  The fuel bound is [checker_fuel]'s. *)
Lemma copy_checker fuel v w written :
  checker_live v -> weight (bc_body v) + 3 <= fuel -> w_accepts w (Z.to_nat (bc_limN v)) ->
  exists n err v',
    io_copy BlobSizeChecker_Read fuel v w written =
      Some (n, err, v', w_app w (take (Z.to_nat (bc_limN v)) (content (bc_body v))))
    /\ (err = None <-> exact v).
Proof.
  revert v w written. induction fuel as [|f IH]; intros v w written Hv Hf Ha; [lia|].
  cbn [io_copy]. pose proof (checker_read_outcome v copy_buffer copy_buffer_pos Hv) as Hr.
  destruct (BlobSizeChecker_Read v copy_buffer) as [x v']. cbn [fst snd] in Hr.
  assert (forall b, rr_data x = b -> length b <= Z.to_nat (bc_limN v) ->
    (if length (rr_data x) =? 0 then (0, None, w) else w_write w (rr_data x))%nat
    = (length (rr_data x), None, w_app w (rr_data x))) as Hwr.
  { intros b -> Hb. destruct (Nat.eqb_spec (length b) 0) as [E|_].
    - apply length_zero_iff_nil in E as ->. by rewrite w_app_nil.
    - apply w_write_ok. eapply w_accepts_le; [|exact Ha]. done. }
  inversion Hr as [? ? He Hv' Hlen Hc Hft Hl Hw | ? ? He Hdone Hd Hex | ? ? He Hd Hc Hex | ? ? e He Hne Hd Hex];
    subst; rewrite He.
  - rewrite (Hwr _ eq_refl) by lia. rewrite Nat.eqb_refl. cbn [negb].
    assert (w_accepts (w_app w (rr_data x)) (Z.to_nat (bc_limN v'))) as Ha'.
    { apply w_accepts_app. eapply w_accepts_le; [|exact Ha]. lia. }
    destruct (IH v' _ (written + length (rr_data x))%nat Hv' ltac:(lia) Ha') as (n & err & v2 & E & Hiff).
    rewrite E, w_app_app. exists n, err, v2. split.
    + do 3 f_equal. rewrite Hc, take_app_ge by lia. do 2 f_equal. lia.
    + rewrite Hiff. unfold exact. rewrite Hc, Hft, Hl, length_app. split; intros [? ?]; split; auto; lia.
  - destruct Hex as [Hx1 Hx2]. rewrite (Hwr _ eq_refl) by (rewrite Hd; lia). rewrite Nat.eqb_refl. cbn [negb].
    destruct f as [|f']; [lia|]. cbn [io_copy]. rewrite checker_read_done by done.
    cbn [rr_data rr_err length Nat.eqb negb]. rewrite bool_decide_true by done.
    eexists _, None, _. split; [|by split]. rewrite Hd, take_ge by lia. done.
  - rewrite Hd. cbn [length Nat.eqb negb]. rewrite bool_decide_true by done.
    eexists _, None, _. split; [|by split]. by rewrite Hc, take_nil, w_app_nil.
  - rewrite (Hwr _ eq_refl) by (rewrite Hd, length_take; lia). rewrite Nat.eqb_refl. cbn [negb].
    rewrite bool_decide_false by done. eexists _, (Some e), _. split; [by rewrite Hd|]. by split.
Qed.

(** [CopyBlobSized] never writes past the declared size and succeeds on
    exactly the blobs of that size. *)
Lemma CopyBlobSized_spec (dst : W) body digest size :
  ends_once body = true -> no_stall body = true -> w_accepts dst (Z.to_nat size) ->
  (CopyBlobSized dst body digest size).2 = w_app dst (take (Z.to_nat size) (content body))
  /\ ((CopyBlobSized dst body digest size).1 = None <->
      errors_Is (fate body) IoEOF = true /\ Z.of_nat (length (content body)) = Z.max 0 size).
Proof.
  intros Ho Hs Ha. unfold CopyBlobSized.
  destruct (copy_checker (checker_fuel body) (NewBlobSizeChecker body digest size) dst 0)
    as (n & err & v' & E & Hiff); [by constructor|cbn; lia|done|].
  by rewrite E.
Qed.

Lemma CopyBlobSized_good (dst : W) body b digest size :
  good_body body b -> size = Z.of_nat (length b) -> w_accepts dst (length b) ->
  CopyBlobSized dst body digest size = (None, w_app dst b).
Proof.
  intros [Hc Hf Ho Hs] -> Ha.
  destruct (CopyBlobSized_spec dst body digest (Z.of_nat (length b)) Ho Hs) as [Hw He]; [by rewrite Nat2Z.id|].
  rewrite Hc, Nat2Z.id, take_ge in Hw by lia.
  rewrite (surjective_pairing (CopyBlobSized _ _ _ _)), Hw. f_equal. apply He.
  rewrite Hf, Hc. split; [done|lia].
Qed.

End checker.

(** The checker of an exact blob is a source of its content, and reports
    [io.EOF] only on its own. *)
Definition checker_src (v : BlobSizeChecker) (b : bytes) (k : nat) : Prop :=
  (checker_live v /\ exact v /\ content (bc_body v) = b /\ weight (bc_body v) + 2 <= k)
  \/ (bc_done v = true /\ b = [] /\ 1 <= k).

Lemma checker_src_step : src_step BlobSizeChecker_Read checker_src.
Proof.
  intros v b k n Hn [(Hl & Hx & Hb & Hk) | (Hd & -> & Hk)].
  - pose proof (checker_read_outcome v n Hn Hl) as Hr.
    inversion Hr as [x v' He Hv' Hlen Hc Hft Hlim Hw | x v' He Hdone Hd _ | x v' He Hd Hc _ | x v' e He Hne Hd Hnx];
      subst; [..|done].
    + exists (content (bc_body (BlobSizeChecker_Read v n).2)). split; [done|]. left. split; [done|].
      exists (weight (bc_body (BlobSizeChecker_Read v n).2) + 2). split; [lia|]. left. split_and!; [done| |done|done].
      destruct Hx as [H1 H2]. rewrite Hc, length_app in H2. split; [by rewrite <- Hft|]. rewrite Hlim. lia.
    + exists []. rewrite app_nil_r. split; [done|]. left. split; [done|]. exists 1. split; [lia|]. right. split_and!; auto.
    + exists []. rewrite Hc, Hd. split; [done|]. by right.
  - rewrite checker_read_done by done. exists []. cbn. auto.
Qed.

Lemma checker_src_strict : src_strict BlobSizeChecker_Read checker_src.
Proof.
  intros v b k n Hn [(Hl & Hx & Hb & Hk) | (Hd & -> & Hk)] He.
  - pose proof (checker_read_outcome v n Hn Hl) as Hr.
    inversion Hr; subst; congruence.
  - by rewrite checker_read_done by done.
Qed.

Lemma checker_src_new body b digest size :
  good_body body b -> size = Z.of_nat (length b) ->
  checker_src (NewBlobSizeChecker body digest size) b (weight body + 2).
Proof.
  intros [Hc Hf Ho Hs] ->. left. split_and!; [by constructor| |done|done].
  unfold exact. cbn. rewrite Hf, Hc. split; [done|lia].
Qed.

(** ** References *)

(** [ParseRef]: the name, and the tag or digest. *)
Definition ParseRef (ref : string) : string * string :=
  match cut ref "@" with
  | Some (name, digest) =>
      if negb (String.eqb name "") then (name, digest)
      else match cut ref ":" with
           | Some (name, tag) => if negb (String.eqb name "") then (name, tag) else (ref, "latest")
           | None => (ref, "latest")
           end
  | None =>
      match cut ref ":" with
      | Some (name, tag) => if negb (String.eqb name "") then (name, tag) else (ref, "latest")
      | None => (ref, "latest")
      end
  end.

Definition in_chars (c lo hi : ascii) : bool :=
  (nat_of_ascii lo <=? nat_of_ascii c)%nat && (nat_of_ascii c <=? nat_of_ascii hi)%nat.

(** [[a-z0-9]], [[A-Za-z0-9_]], [[A-Za-z0-9._-]], [[a-f0-9]] *)
Definition cls_lower (c : ascii) : bool := in_chars c "a" "z" || in_chars c "0" "9".
Definition cls_word (c : ascii) : bool :=
  in_chars c "A" "Z" || in_chars c "a" "z" || in_chars c "0" "9" || Ascii.eqb c "_".
Definition cls_tag (c : ascii) : bool := cls_word c || Ascii.eqb c "." || Ascii.eqb c "-".
Definition cls_hex (c : ascii) : bool := in_chars c "a" "f" || in_chars c "0" "9".

(** [[a-z0-9]+(?:(?:[._]|__|-+)[a-z0-9]+)*] *)
Definition relComponent : re :=
  RSeq (rplus (RSet cls_lower))
    (RStar (RSeq (RAlt (RSet (fun c => Ascii.eqb c "." || Ascii.eqb c "_"))
                   (RAlt (rlit "__") (rplus (rchar "-"))))
              (rplus (RSet cls_lower)))).

Definition relRepo : re := RSeq relComponent (RStar (RSeq (rchar "/") relComponent)).
Definition relTag : re := RSeq (RSet cls_word) (rupto 127 (RSet cls_tag)).
Definition relDigest : re :=
  RAlt (RSeq (rlit "sha256:") (rtimes 64 (RSet cls_hex)))
       (RSeq (rlit "sha512:") (rtimes 128 (RSet cls_hex))).

Definition IsRelativeRef (ref : string) : bool :=
  let '(repo, reference) := ParseRef ref in
  if containsByte ref "@" then re_match relRepo repo && re_match relDigest reference
  else re_match relRepo repo && re_match relTag reference.

(** *** The grammar *)

Lemma repo_avoids repo c :
  re_avoids c relRepo = true -> matches relRepo repo -> containsByte repo c = false.
Proof. apply matches_avoids. Qed.

Lemma repo_no_at repo : matches relRepo repo -> containsByte repo "@" = false.
Proof. by apply matches_avoids. Qed.

Lemma repo_no_colon repo : matches relRepo repo -> containsByte repo ":" = false.
Proof. by apply matches_avoids. Qed.

Lemma tag_no_at tag : matches relTag tag -> containsByte tag "@" = false.
Proof. apply matches_avoids. vm_compute. reflexivity. Qed.

Lemma latest_tag : matches relTag "latest".
Proof. apply re_match_spec. vm_compute. reflexivity. Qed.

Lemma repo_nonempty repo : matches relRepo repo -> repo <> "".
Proof. intros H ->. apply nullable_spec in H. discriminate H. Qed.

Lemma ParseRef_digest repo d :
  containsByte repo "@" = false -> repo <> "" -> ParseRef (repo +:+ String "@" d) = (repo, d).
Proof.
  intros Ha Hne. unfold ParseRef.
  rewrite (proj2 (cut_Some _ _ repo d)) by done. by destruct (String.eqb_spec repo "").
Qed.

Lemma ParseRef_tag repo t :
  containsByte repo "@" = false -> containsByte t "@" = false -> containsByte repo ":" = false -> repo <> "" ->
  ParseRef (repo +:+ String ":" t) = (repo, t).
Proof.
  intros Ha Ht Hc Hne. unfold ParseRef.
  rewrite (proj2 (cut_None (repo +:+ String ":" t) "@")) by (rewrite containsByte_app, Ha; exact Ht).
  rewrite (proj2 (cut_Some _ _ repo t)) by done. by destruct (String.eqb_spec repo "").
Qed.

Lemma ParseRef_bare repo :
  containsByte repo "@" = false -> containsByte repo ":" = false -> ParseRef repo = (repo, "latest").
Proof.
  intros Ha Hc. unfold ParseRef. apply cut_None in Ha as ->. by apply cut_None in Hc as ->.
Qed.

(** The references [IsRelativeRef] accepts, and how [ParseRef] splits them. *)
Inductive relative_ref : string -> string -> string -> Prop :=
  | rr_bare repo : matches relRepo repo -> relative_ref repo repo "latest"
  | rr_tag repo t : matches relRepo repo -> matches relTag t ->
      relative_ref (repo +:+ String ":" t) repo t
  | rr_digest repo d : matches relRepo repo -> matches relDigest d ->
      relative_ref (repo +:+ String "@" d) repo d.

Lemma relative_ref_parse ref repo r :
  relative_ref ref repo r -> ParseRef ref = (repo, r) /\ IsRelativeRef ref = true.
Proof.
  intros H. destruct H as [repo Hr | repo t Hr Ht | repo d Hr Hd].
  - assert (ParseRef repo = (repo, "latest")) as E.
    { apply ParseRef_bare; [by apply repo_no_at|by apply repo_no_colon]. }
    split; [done|]. unfold IsRelativeRef. rewrite E, repo_no_at by done.
    rewrite (proj2 (re_match_spec _ _) Hr). vm_compute. reflexivity.
  - assert (ParseRef (repo +:+ String ":" t) = (repo, t)) as E.
    { apply ParseRef_tag; [by apply repo_no_at|by apply tag_no_at|by apply repo_no_colon|by apply repo_nonempty]. }
    split; [done|]. unfold IsRelativeRef. rewrite E, containsByte_app, repo_no_at by done.
    cbn [containsByte Ascii.eqb Bool.eqb orb]. rewrite tag_no_at by done.
    by rewrite (proj2 (re_match_spec _ _) Hr), (proj2 (re_match_spec _ _) Ht).
  - assert (ParseRef (repo +:+ String "@" d) = (repo, d)) as E.
    { apply ParseRef_digest; [by apply repo_no_at|by apply repo_nonempty]. }
    split; [done|]. unfold IsRelativeRef. rewrite E, containsByte_app.
    cbn [containsByte]. rewrite Ascii.eqb_refl, orb_true_r.
    by rewrite (proj2 (re_match_spec _ _) Hr), (proj2 (re_match_spec _ _) Hd).
Qed.

(** Whatever [ParseRef] returns came from one of its three shapes. *)
Lemma ParseRef_shape ref repo r :
  ParseRef ref = (repo, r) ->
  ref = repo +:+ String "@" r \/ ref = repo +:+ String ":" r \/ (ref = repo /\ r = "latest").
Proof.
  unfold ParseRef. destruct (cut ref "@") as [[n d]|] eqn:E1; destruct (cut ref ":") as [[n' t]|] eqn:E2;
    repeat destruct (String.eqb _ ""); cbn; intros [= <- <-];
    try apply cut_Some in E1 as [-> _]; try apply cut_Some in E2 as [-> _]; auto.
Qed.

Lemma IsRelativeRef_shape ref :
  IsRelativeRef ref = true -> relative_ref ref (ParseRef ref).1 (ParseRef ref).2.
Proof.
  unfold IsRelativeRef. destruct (ParseRef ref) as [repo r] eqn:E. cbn.
  pose proof (ParseRef_shape _ _ _ E) as Hs.
  destruct (containsByte ref "@") eqn:Eat; intros H; apply andb_true_iff in H as [H1 H2];
    apply re_match_spec in H1, H2.
  - destruct Hs as [-> | [-> | [-> ->]]]; [by constructor| |].
    + exfalso. unfold ParseRef in E. destruct (cut (repo +:+ String ":" r) "@") as [[n d]|] eqn:Ec.
      * destruct (String.eqb_spec n ""); cbn in E.
        -- apply cut_Some in Ec as [Ec _]. subst n. pose proof (repo_no_at _ H1) as Hn.
           destruct repo as [|c repo]; [by apply (repo_nonempty "")|].
           cbn in Ec. injection Ec as -> _. by cbn in Hn.
        -- injection E as -> ->. apply cut_Some in Ec as [Ec _].
           apply (inj (String.append repo)) in Ec. discriminate Ec.
      * apply cut_None in Ec. congruence.
    + exfalso. by rewrite (repo_no_at _ H1) in Eat.
  - destruct Hs as [-> | [-> | [-> ->]]]; [|by constructor|by constructor].
    exfalso. rewrite containsByte_app in Eat. cbn [containsByte] in Eat.
    by rewrite Ascii.eqb_refl, orb_true_r in Eat.
Qed.

Example ParseRef_ex :
  (ParseRef "a/b:v1", ParseRef "a@sha256:00", ParseRef "a", ParseRef "@x", ParseRef "h:5000/a:v")
  = (("a/b", "v1"), ("a", "sha256:00"), ("a", "latest"), ("@x", "latest"), ("h", "5000/a:v")).
Proof. reflexivity. Qed.

(** ** Properties *)

(** C16: [CopyBlobSized] hands the writer exactly the first [size] bytes of
    the body (all of them when there are fewer), never one past the declared
    size, and returns nil exactly when the body ends in [io.EOF] and has the
    declared length: short, long and failing bodies are all errors.  The body
    is any sequence of partial reads that errs once and never stalls with
    [(0, nil)]; the writer is any [WriterOk] with room for [size] bytes. *)
Theorem CopyBlobSized_exact {W} `{WriterOk W} (dst : W) body digest size :
  ends_once body = true -> no_stall body = true -> w_accepts dst (Z.to_nat size) ->
  (CopyBlobSized dst body digest size).2 = w_app dst (take (Z.to_nat size) (content body))
  /\ ((CopyBlobSized dst body digest size).1 = None <->
      errors_Is (fate body) IoEOF = true /\ Z.of_nat (length (content body)) = Z.max 0 size).
Proof. apply CopyBlobSized_spec. Qed.

Lemma CopyBlobSized_exact_witness :
  let body := [(bytes_of "ab", None); (bytes_of "cd", None)] in
  (CopyBlobSized (W := bytes) [] body "sha256:0" 3).2 = bytes_of "abc"
  /\ (CopyBlobSized (W := bytes) [] body "sha256:0" 3).1 <> None
  /\ (CopyBlobSized (W := bytes) [] body "sha256:0" 4).1 = None.
Proof.
  intros body. split_and!.
  - exact (proj1 (@CopyBlobSized_exact bytes _ buffer_ok [] body "sha256:0" 3 eq_refl eq_refl I)).
  - intros H. apply (@CopyBlobSized_exact bytes _ buffer_ok [] body "sha256:0" 3 eq_refl eq_refl I) in H as [_ H].
    discriminate H.
  - apply (@CopyBlobSized_exact bytes _ buffer_ok [] body "sha256:0" 4 eq_refl eq_refl I). done.
Defined.

(** A reader that answers the trailing probe with [(0, nil)], which
    [io.Reader] allows, hides whatever follows: a body of one byte, an empty
    read and any further bytes is accepted as a blob of size 1. *)
Theorem BlobSizeChecker_probe_stall (b : Byte.byte) extra digest :
  CopyBlobSized (W := bytes) [] [([b], None); ([], None); (extra, None)] digest 1 = (None, [b]).
Proof. reflexivity. Qed.

(** C35: [IsRelativeRef] accepts exactly the references of the three shapes
    [repo], [repo:tag] and [repo@digest] whose parts match the three regular
    expressions, and on each of them [ParseRef] returns those parts (with the
    tag [latest] when there is none). *)
Theorem IsRelativeRef_grammar ref :
  (IsRelativeRef ref = true <-> exists repo r, relative_ref ref repo r)
  /\ (forall repo r, relative_ref ref repo r -> ParseRef ref = (repo, r)).
Proof.
  split; [split|].
  - intros H. eexists _, _. by apply IsRelativeRef_shape.
  - intros (repo & r & H). by apply relative_ref_parse in H as [_ ?].
  - intros repo r H. by apply relative_ref_parse in H as [? _].
Qed.
