(* ===== verification/Registry.v ===== *)
(** * Registry: the interfaces of src/snapshot/snapshot.go and a registry model

    [Uploader] and [Downloader] are the Go interfaces the snapshot package
    codes against, as operations on the state [S] of the registry behind
    them.  [RegistryOk] is the contract of a content-addressed registry that
    the push and pull theorems use.  [MemRegistry] is an in-memory registry
    with a bounded number of successful uploads, which discharges the
    contract and gives the witnesses something to run on. *)

From Stdlib Require Import ZArith Lia Ascii String.
From stdpp Require Import base gmap strings list.
From S2P Require Import Prelude GoStrings Sha256 GoIO OciUtil.

Local Open Scope string_scope.

(** ** State and errors *)

(** A call that may change the registry and may fail. *)
Definition M (S A : Type) : Type := S -> result A * S.

#[global] Instance M_ret {S} : MRet (M S) := fun A a s => (Ok a, s).
#[global] Instance M_bind {S} : MBind (M S) := fun A B f m s =>
  match m s with
  | (Ok a, s') => f a s'
  | (Err e, s') => (Err e, s')
  | (Panic p, s') => (Panic p, s')
  end.

Definition lift {S A} (r : result A) : M S A := fun s => (r, s).
Definition wrapM {S A} (msg : string) (m : M S A) : M S A := fun s => (wrap msg (m s).1, (m s).2).

Lemma M_bind_Ok {S A B} (m : M S A) (f : A -> M S B) s b s' :
  (m ≫= f) s = (Ok b, s') <-> exists a s1, m s = (Ok a, s1) /\ f a s1 = (Ok b, s').
Proof.
  unfold mbind, M_bind. destruct (m s) as [[a|e|p] s1]; split; try (by intros (? & ? & ? & ?));
    try done; [eauto|by intros (? & ? & [= <- <-] & ?)].
Qed.

Lemma wrapM_Ok {S A} msg (m : M S A) s a s' : wrapM msg m s = (Ok a, s') <-> m s = (Ok a, s').
Proof.
  unfold wrapM. destruct (m s) as [[a'|e|p] s1]; cbn; split; congruence.
Qed.

Lemma lift_Ok {S A} (r : result A) (s : S) a s' : lift r s = (Ok a, s') <-> r = Ok a /\ s' = s.
Proof. unfold lift. split; [by intros [= -> ->]|by intros [-> ->]]. Qed.

Lemma mret_Ok {S A} (a : A) (s : S) b s' : (mret a : M S A) s = (Ok b, s') <-> a = b /\ s = s'.
Proof. unfold mret, M_ret. split; [by intros [= -> ->]|by intros [-> ->]]. Qed.

(** Decompose a successful run. *)
Ltac inv_M :=
  repeat match goal with
  | H : (_ ≫= _) _ = (Ok _, _) |- _ => apply M_bind_Ok in H; destruct H as (? & ? & ? & H)
  | H : wrapM _ _ _ = (Ok _, _) |- _ => apply wrapM_Ok in H
  | H : lift _ _ = (Ok _, _) |- _ => apply lift_Ok in H; destruct H as [H ?]; subst
  | H : mret _ _ = (Ok _, _) |- _ => apply mret_Ok in H; destruct H as [? ?]; subst
  end.

(** ** Interfaces (src/snapshot/snapshot.go) *)

(** A blob body is an [io.ReadSeeker] rewound to its start: its bytes. *)
Class Uploader (S : Type) := {
  HasBlob : string -> string -> M S bool;
  PutBlob : string -> string -> bytes -> Z -> M S unit;
  PutManifest : string -> string -> bytes -> string -> M S unit;
  (** the optional [uploadSessioner]: the uploader used for one push; the
      identity for an uploader without sessions *)
  UploadSession : S -> S
}.

(** Reads do not change the registry. *)
Class Downloader (S : Type) := {
  GetManifest : S -> string -> string -> result (bytes * string);
  GetBlob : S -> string -> string -> result reader
}.

(** ["sha256:" + SHA256Hex(data)] *)
Definition digest_of (data : bytes) : string := "sha256:" +:+ SHA256Hex data.

Abbreviation blob_store := (gmap (string * string) bytes).
Abbreviation manifest_store := (gmap (string * string) (bytes * string)).

(** Every blob is stored under its own digest. *)
Definition addressed (m : blob_store) : Prop :=
  map_Forall (fun k b => k.2 = digest_of b) m.

(** ** The contract

    [repo_ok] and [tag_ok] are the repository and tag names a registry client
    accepts.  [blobs] and [manifests] are what the registry holds.  Probing
    changes nothing; an upload that succeeds stores exactly that blob or
    manifest; one that fails may or may not have stored it; whatever is stored
    can be read back in full. *)
Class RefNames (S : Type) := {
  repo_ok : string -> Prop;
  tag_ok : string -> Prop
}.

Class RegistryOk (S : Type) `{Uploader S, Downloader S, RefNames S} := {
  blobs : S -> blob_store;
  manifests : S -> manifest_store;
  has_blob_state repo d s :
    blobs (HasBlob repo d s).2 = blobs s /\ manifests (HasBlob repo d s).2 = manifests s;
  has_blob_ok repo d s b :
    repo_ok repo -> (HasBlob repo d s).1 = Ok b -> (b = true <-> is_Some (blobs s !! (repo, d)));
  put_blob_manifests repo d data n s : manifests (PutBlob repo d data n s).2 = manifests s;
  put_blob_ok repo data n s :
    repo_ok repo -> (PutBlob repo (digest_of data) data n s).1 = Ok () -> n = Z.of_nat (length data) ->
    blobs (PutBlob repo (digest_of data) data n s).2 = <[(repo, digest_of data) := data]> (blobs s);
  put_blob_fail repo data n s :
    repo_ok repo ->
    blobs (PutBlob repo (digest_of data) data n s).2 = blobs s
    \/ blobs (PutBlob repo (digest_of data) data n s).2 = <[(repo, digest_of data) := data]> (blobs s);
  session_state s : blobs (UploadSession s) = blobs s /\ manifests (UploadSession s) = manifests s;
  put_manifest_fail repo t data ct s :
    repo_ok repo -> tag_ok t ->
    manifests (PutManifest repo t data ct s).2 = manifests s
    \/ manifests (PutManifest repo t data ct s).2 = <[(repo, t) := (data, ct)]> (manifests s);
  put_manifest_blobs repo t data ct s : blobs (PutManifest repo t data ct s).2 = blobs s;
  put_manifest_ok repo t data ct s :
    repo_ok repo -> tag_ok t -> (PutManifest repo t data ct s).1 = Ok () ->
    manifests (PutManifest repo t data ct s).2 = <[(repo, t) := (data, ct)]> (manifests s);
  get_blob_ok repo data s b :
    repo_ok repo -> blobs s !! (repo, digest_of data) = Some b ->
    exists r, GetBlob s repo (digest_of data) = Ok r /\ good_body r b;
  get_manifest_ok repo t s data ct :
    repo_ok repo -> tag_ok t -> manifests s !! (repo, t) = Some (data, ct) -> GetManifest s repo t = Ok (data, ct)
}.

(** ** An in-memory registry *)

(** [mr_room]: uploads that still succeed ([None]: all). *)
Record MemRegistry := {
  mr_blobs : blob_store;
  mr_manifests : manifest_store;
  mr_room : option nat
}.

Definition mem_empty : MemRegistry := {| mr_blobs := ∅; mr_manifests := ∅; mr_room := None |}.

Definition upload_failed : error := Enew "registry: upload refused".

Definition mem_put_blob (repo d : string) (data : bytes) (n : Z) : M MemRegistry unit := fun s =>
  match mr_room s with
  | Some O => (Err upload_failed, s)
  | room =>
      if String.eqb d (digest_of data) && (n =? Z.of_nat (length data))%Z then
        (Ok (), {| mr_blobs := <[(repo, d) := data]> (mr_blobs s); mr_manifests := mr_manifests s;
                   mr_room := pred <$> room |})
      else (Err (Enew "registry: digest mismatch"), s)
  end.

Definition mem_put_manifest (repo t : string) (data : bytes) (ct : string) : M MemRegistry unit := fun s =>
  match mr_room s with
  | Some O => (Err upload_failed, s)
  | room =>
      (Ok (), {| mr_blobs := mr_blobs s; mr_manifests := <[(repo, t) := (data, ct)]> (mr_manifests s);
                 mr_room := pred <$> room |})
  end.

#[global] Instance mem_uploader : Uploader MemRegistry := {
  HasBlob repo d s := (Ok (bool_decide (is_Some (mr_blobs s !! (repo, d)))), s);
  PutBlob := mem_put_blob;
  PutManifest := mem_put_manifest;
  UploadSession s := s
}.

(** Bodies arrive in pieces of 1000 bytes. *)
Fixpoint body_script (fuel : nat) (b : bytes) : reader :=
  match fuel, b with
  | S f, _ :: _ => (take 1000 b, None) :: body_script f (drop 1000 b)
  | _, _ => []
  end.

#[global] Instance mem_downloader : Downloader MemRegistry := {
  GetManifest s repo t :=
    match mr_manifests s !! (repo, t) with
    | Some x => Ok x
    | None => Err (Esent ErrManifestNotFound)
    end;
  GetBlob s repo d :=
    match mr_blobs s !! (repo, d) with
    | Some b => Ok (body_script (length b) b)
    | None => Err (Enew "registry: blob unknown")
    end
}.

Lemma body_script_good fuel b : length b <= fuel -> good_body (body_script fuel b) b.
Proof.
  revert b. induction fuel as [|f IH]; intros b Hf.
  - destruct b; [|cbn in Hf; lia]. by constructor.
  - destruct b as [|x b]; [by constructor|].
    destruct (IH (drop 1000 (x :: b))) as [Hc Hft He Hl]; [rewrite length_drop; cbn in *; lia|].
    constructor; cbn [body_script content fate ends_once no_stall forallb].
    + by rewrite Hc, take_drop.
    + done.
    + done.
    + unfold no_stall in Hl. rewrite Hl, andb_true_r. apply bool_decide_eq_true. by left.
Qed.

(** Every name will do. *)
#[global] Instance mem_names : RefNames MemRegistry := { repo_ok _ := True; tag_ok _ := True }.

#[global, refine] Instance mem_registry_ok : RegistryOk MemRegistry := {
  blobs := mr_blobs;
  manifests := mr_manifests
}.
Proof.
  - done.
  - intros repo d s b _ [= <-]. by rewrite bool_decide_eq_true.
  - intros. cbn. unfold mem_put_blob. destruct (mr_room s) as [[|]|]; [done|by case_match..].
  - intros repo data n s _. cbn. unfold mem_put_blob. intros H ->. revert H.
    rewrite String.eqb_refl, Z.eqb_refl. by destruct (mr_room s) as [[|]|].
  - intros repo data n s _. cbn. unfold mem_put_blob. rewrite String.eqb_refl.
    destruct (mr_room s) as [[|]|]; [by left|destruct (n =? _)%Z; auto..].
  - done.
  - intros. cbn. unfold mem_put_manifest. destruct (mr_room s) as [[|]|]; auto.
  - intros. cbn. unfold mem_put_manifest. by destruct (mr_room s) as [[|]|].
  - intros repo t data ct s _ _. cbn. unfold mem_put_manifest. by destruct (mr_room s) as [[|]|].
  - intros repo data s b _ H. unfold GetBlob, mem_downloader. rewrite H. eexists. split; [done|]. by apply body_script_good.
  - intros repo t s data ct _ _ H. cbn. by rewrite H.
Defined.

(** ** Reasoning about runs

    [wp m Q E s]: [m] from [s] ends in [Q] when it succeeds and in [E] when it
    fails.  The lemmas below follow the structure of the program. *)
Definition wp {S A} (m : M S A) (Q : A -> S -> Prop) (E : S -> Prop) (s : S) : Prop :=
  match m s with (Ok a, s') => Q a s' | (_, s') => E s' end.

Lemma wp_mono {S A} (m : M S A) (Q Q' : A -> S -> Prop) (E E' : S -> Prop) s :
  wp m Q E s -> (forall a s', Q a s' -> Q' a s') -> (forall s', E s' -> E' s') -> wp m Q' E' s.
Proof. unfold wp. destruct (m s) as [[a|e|p] s']; auto. Qed.

(** [wp] looks at one start state only. *)
Lemma wp_eq {S A} (m m' : M S A) Q E s : m s = m' s -> wp m' Q E s -> wp m Q E s.
Proof. unfold wp. by intros ->. Qed.

Lemma wp_bind {S A B} (m : M S A) (f : A -> M S B) Q E s :
  wp m (fun a s' => wp (f a) Q E s') E s -> wp (m ≫= f) Q E s.
Proof. unfold wp, mbind, M_bind. by destruct (m s) as [[a|e|p] s']. Qed.

Lemma wp_ret {S A} (a : A) Q E (s : S) : Q a s -> wp (mret a : M S A) Q E s.
Proof. done. Qed.

Lemma wp_wrapM {S A} msg (m : M S A) Q E s : wp m Q E s -> wp (wrapM msg m) Q E s.
Proof. unfold wp, wrapM. by destruct (m s) as [[a|e|p] s']. Qed.

Lemma wp_lift {S A} (r : result A) Q E (s : S) :
  match r with Ok a => Q a s | _ => E s end -> wp (lift r : M S A) Q E s.
Proof. by destruct r. Qed.

Lemma wp_run {S A} (m : M S A) Q E s a s' : wp m Q E s -> m s = (Ok a, s') -> Q a s'.
Proof. unfold wp. intros Hw Hr. by rewrite Hr in Hw. Qed.

(** What uploads may do to a registry, succeeding or not: add blobs under
    their own digests. *)
Record extends {S} `{RegistryOk S} (s s' : S) : Prop := {
  ext_blobs : blobs s ⊆ blobs s';
  ext_manifests : manifests s' = manifests s;
  ext_addressed : addressed (blobs s) -> addressed (blobs s')
}.

#[global] Instance extends_preorder {S} `{RegistryOk S} : PreOrder extends.
Proof.
  split; [intros s; by constructor|]. intros s1 s2 s3 [Hb Hm Ha] [Hb2 Hm2 Ha2].
  constructor; [by etransitivity|by rewrite Hm2|auto].
Qed.

(** The repository holds a blob under the digest of [b]. *)
Definition stored {S} `{RegistryOk S} (repo : string) (s : S) (b : bytes) : Prop :=
  is_Some (blobs s !! (repo, digest_of b)).

Lemma stored_extends {S} `{RegistryOk S} repo (s s' : S) b : extends s s' -> stored repo s b -> stored repo s' b.
Proof. intros [Hb _ _] [x Hx]. exists x. by eapply lookup_weaken. Qed.

#[export] Hint Resolve stored_extends : go.

(** A registry that is up: every probe and upload succeeds, and it stays so. *)
Class Serving (S : Type) `{Uploader S, RefNames S} := {
  serving : S -> Prop;
  serving_has repo data s : repo_ok repo -> serving s -> exists b, (HasBlob repo (digest_of data) s).1 = Ok b;
  serving_put repo data s :
    repo_ok repo -> serving s -> (PutBlob repo (digest_of data) data (Z.of_nat (length data)) s).1 = Ok ();
  serving_manifest repo t data ct s :
    repo_ok repo -> tag_ok t -> serving s -> (PutManifest repo t data ct s).1 = Ok ();
  serving_has_after repo d s : serving s -> serving (HasBlob repo d s).2;
  serving_put_after repo d data n s : serving s -> serving (PutBlob repo d data n s).2;
  serving_session s : serving s -> serving (UploadSession s)
}.

(** The registry that is never up: with it, the failure cases of the [wp]
    lemmas say nothing, and no serving registry is asked for. *)
Definition never {S} `{Uploader S, RefNames S} : Serving S.
Proof. refine {| serving := fun _ => False |}; cbn; intros; contradiction. Defined.

#[global, refine] Instance mem_serving : Serving MemRegistry := { serving s := mr_room s = None }.
Proof.
  - intros. by eexists.
  - intros repo data s _ Hs. cbn. unfold mem_put_blob. by rewrite Hs, String.eqb_refl, Z.eqb_refl.
  - intros repo t data ct s _ _ Hs. cbn. unfold mem_put_manifest. by rewrite Hs.
  - done.
  - intros repo d data n s Hs. cbn. unfold mem_put_blob. rewrite Hs. by case_match.
  - done.
Defined.
