(* ===== verification/Tar.v ===== *)
(** * Tar: [archive/tar] as the program uses it

    A tar stream read by [tar.Reader] is the list of its entries (header and
    body script) followed by the error [Next] ends with ([io.EOF] for a
    complete stream).  [tar.Writer] is a state machine: the finished entries,
    the entry being written with the bytes it still expects, the sticky error
    and the room the buffered writer behind it has left ([None]: unbounded).
    The rules ([WriteHeader] refuses an unfinished entry, [Write] refuses
    bytes past the declared size, [Close] refuses an unfinished entry) and the
    sizes (headers, PAX records, padding, trailer) are the package's; what its
    headers hold beyond their size is not modelled. *)

From Stdlib Require Import ZArith Lia Ascii String.
From stdpp Require Import base gmap strings list.
From S2P Require Import Prelude GoStrings GoIO.

Local Open Scope string_scope.
Local Open Scope nat_scope.

(** ** Reading *)

Definition TypeReg : ascii := "0".

Record tar_header := {
  h_Name : string;
  h_Size : Z;
  h_Mode : Z;
  h_Typeflag : ascii;
  h_PAX : gmap string string
}.

Record tar_stream := {
  ts_entries : list (tar_header * reader);
  ts_end : error
}.

(** ** Writing *)

(** A point in time: what [Format] and [MarshalJSON] print of it. *)
Record gotime := { t_rfc3339 : string; t_rfc3339nano : string }.

Record out_header := {
  o_Name : string;
  o_Size : Z;
  o_Mode : Z;
  o_ModTime : gotime;
  o_PAX : gmap string string
}.

(** *** Sizes

    Everything is written in blocks of 512 bytes. *)

Definition round_block (n : nat) : nat := Z.to_nat ((Z.of_nat n + 511) / 512 * 512).
Definition padding (n : nat) : nat := round_block n - n.

#[global] Arguments round_block : simpl never.
#[global] Arguments padding : simpl never.

Definition isASCII (s : string) : bool :=
  forallb (fun c => negb (Ascii.eqb c "000") && (nat_of_ascii c <? 128)) (list_ascii_of_string s).

Fixpoint last_index (s : string) (c : ascii) : option nat :=
  match s with
  | "" => None
  | String d s' =>
      match last_index s' c with
      | Some i => Some (S i)
      | None => if Ascii.eqb d c then Some 0 else None
      end
  end.

(** [splitUSTARPath]: whether a long name fits the prefix and name fields. *)
Definition splitUSTARPath (name : string) : bool :=
  let len := String.length name in
  if (len <=? 100) || negb (isASCII name) then false
  else
    let upto := if 156 <? len then 156 else if hasSuffix name "/" then len - 1 else len in
    match last_index (substring 0 upto name) "/" with
    | None => false
    | Some i => let nlen := len - i - 1 in (0 <? i) && (nlen <=? 100) && (0 <? nlen) && (i <=? 155)
    end.

(** [fitsInOctal] of a field with so many digits. *)
Definition fits_octal (digits x : Z) : bool := ((0 <=? x) && (x <? 8 ^ digits))%Z.

Definition digits (n : nat) : nat := String.length (formatInt (Z.of_nat n)).

(** The length of ["%d %s=%s\n"], which counts its own length. *)
Definition pax_record (kv : string * string) : nat :=
  let body := String.length kv.1 + String.length kv.2 + 3 in
  let size := body + digits body in
  if digits size + body =? size then size else digits (digits size + body) + body.

(** The PAX records of a header: what does not fit its fields, and its own
    (none of them a key the package fills in itself). *)
Definition long_name (h : out_header) : bool := negb (isASCII (o_Name h)) || (100 <? String.length (o_Name h)).

Definition pax_records (h : out_header) : list (string * string) :=
  (if long_name h then [("path", o_Name h)] else [])
  ++ (if fits_octal 11 (o_Size h) then [] else [("size", formatInt (o_Size h))])
  ++ map_to_list (o_PAX h).

(** What a header takes, in the first of the USTAR, PAX and GNU formats that
    can hold it; [None] when none can. *)
Definition header_size (h : out_header) : option nat :=
  if containsByte (o_Name h) "000" then None
  else if bool_decide (o_PAX h = ∅) && fits_octal 7 (o_Mode h) && fits_octal 11 (o_Size h)
          && (negb (long_name h) || splitUSTARPath (o_Name h)) then Some 512
  else if fits_octal 7 (o_Mode h) then
    match pax_records h with
    | [] => Some 512
    | kvs =>
        let len := sum_list (pax_record <$> kvs) in
        if (2 ^ 20 <? Z.of_nat len)%Z then None else Some (512 + round_block len + 512)
    end
  else if bool_decide (o_PAX h = ∅) && ((- 2 ^ 56 <=? o_Mode h) && (o_Mode h <? 2 ^ 56))%Z then
    Some (if 100 <? String.length (o_Name h) then 512 + round_block (String.length (o_Name h) + 1) + 512 else 512)
  else None.

Definition encodable (h : out_header) : bool := match header_size h with Some _ => true | None => false end.

(** *** The writer *)

Record tar_writer := {
  tw_done : list (out_header * bytes);
  tw_cur : option (out_header * bytes * nat);
  tw_err : option error;
  tw_room : option nat;
  tw_closed : bool
}.

Definition tar_new (room : option nat) : tar_writer :=
  {| tw_done := []; tw_cur := None; tw_err := None; tw_room := room; tw_closed := false |}.

(** The error of a writer that takes no more. *)
Definition sink_err : error := Enew "write: sink full".
Definition ErrWriteTooLong : error := Enew "archive/tar: write too long".
Definition ErrWriteAfterClose : error := Enew "archive/tar: write after close".

(** How many of [n] bytes the sink takes. *)
Definition sink_takes (room : option nat) (n : nat) : nat :=
  match room with Some r => min r n | None => n end.
Definition sink_rest (room : option nat) (n : nat) : option nat := (fun r => r - n) <$> room.

Definition tw_fail (t : tar_writer) (e : error) : tar_writer :=
  {| tw_done := tw_done t; tw_cur := tw_cur t; tw_err := Some e; tw_room := tw_room t; tw_closed := tw_closed t |}.

(** Closing the current entry, [tw.Flush]: it must be complete, and is padded
    to a whole block. *)
Definition tw_flush (t : tar_writer) : result unit * tar_writer :=
  match tw_err t with
  | Some e => (Err e, t)
  | None =>
      match tw_cur t with
      | Some (h, b, S lft) => (Err (Enew ("archive/tar: missed writing " +:+ formatInt (Z.of_nat (S lft)) +:+ " bytes")), t)
      | Some (h, b, O) =>
          let pad := padding (length b) in
          if sink_takes (tw_room t) pad =? pad then
            (Ok (), {| tw_done := tw_done t ++ [(h, b)]; tw_cur := None; tw_err := None;
                       tw_room := sink_rest (tw_room t) pad; tw_closed := tw_closed t |})
          else (Err sink_err, tw_fail t sink_err)
      | None => (Ok (), t)
      end
  end.

(** A name ending in a slash makes a directory, which has no body. *)
Definition tw_WriteHeader (h : out_header) (t : tar_writer) : result unit * tar_writer :=
  match tw_flush t with
  | (Ok _, t') =>
      match header_size h with
      | None => (Err (Enew "archive/tar: cannot encode header"), t')
      | Some size =>
          if sink_takes (tw_room t') size =? size then
            (Ok (), {| tw_done := tw_done t';
                       tw_cur := Some (h, [], if hasSuffix (o_Name h) "/" then 0 else Z.to_nat (o_Size h));
                       tw_err := None; tw_room := sink_rest (tw_room t') size; tw_closed := tw_closed t' |})
          else (Err sink_err, tw_fail t' sink_err)
      end
  | failed => failed
  end.

#[global] Instance tar_Writer : Writer tar_writer := fun t b =>
  match tw_err t with
  | Some e => (0, Some e, t)
  | None =>
      let '(h, body, lft) :=
        match tw_cur t with
        | Some x => x
        | None => ({| o_Name := ""; o_Size := 0; o_Mode := 0; o_ModTime := Build_gotime "" ""; o_PAX := ∅ |}, [], 0)
        end in
      let want := min lft (length b) in
      let n := sink_takes (tw_room t) want in
      let t' := {| tw_done := tw_done t;
                   tw_cur := match tw_cur t with Some _ => Some (h, (body ++ take n b)%list, lft - n) | None => None end;
                   tw_err := if n =? want then None else Some sink_err;
                   tw_room := sink_rest (tw_room t) n;
                   tw_closed := tw_closed t |} in
      (n, if negb (n =? want) then Some sink_err
          else if lft <? length b then Some ErrWriteTooLong else None, t')
  end.

(** [Close] writes two zero blocks after a complete entry; nothing can be
    written after it. *)
Definition tw_Close (t : tar_writer) : result unit * tar_writer :=
  if tw_closed t then (Ok (), t)
  else
    let shut t := {| tw_done := tw_done t; tw_cur := tw_cur t; tw_err := Some ErrWriteAfterClose;
                     tw_room := tw_room t; tw_closed := true |} in
    match tw_flush t with
    | (Ok _, t') =>
        if sink_takes (tw_room t') 1024 =? 1024 then
          (Ok (), shut {| tw_done := tw_done t'; tw_cur := None; tw_err := None;
                          tw_room := sink_rest (tw_room t') 1024; tw_closed := false |})
        else (Err sink_err, shut t')
    | (failed, t') => (failed, shut t')
    end.

(** ** The writer's contract

    While an entry is open and the sink has room, writes append. *)

Definition tw_accepts (t : tar_writer) (n : nat) : Prop :=
  tw_err t = None
  /\ (exists h b lft, tw_cur t = Some (h, b, lft) /\ n <= lft)
  /\ (forall r, tw_room t = Some r -> n <= r).

Definition tw_app (t : tar_writer) (b : bytes) : tar_writer :=
  {| tw_done := tw_done t;
     tw_cur := (fun x => (x.1.1, (x.1.2 ++ b)%list, x.2 - length b)) <$> tw_cur t;
     tw_err := tw_err t; tw_room := sink_rest (tw_room t) (length b); tw_closed := tw_closed t |}.

Lemma sink_rest_rest room n m : sink_rest (sink_rest room n) m = sink_rest room (n + m).
Proof. destruct room; cbn; [|done]. f_equal. lia. Qed.

Lemma sink_rest_0 room : sink_rest room 0 = room.
Proof. destruct room; cbn; [|done]. f_equal. lia. Qed.

#[global, refine] Instance tar_WriterOk : WriterOk tar_writer :=
  { w_app := tw_app; w_accepts := tw_accepts }.
Proof.
  - intros t b (He & (h & body & lft & Hc & Hl) & Hr). unfold w_write, tar_Writer, tw_app.
    rewrite He, Hc. rewrite (Nat.min_r lft) by done.
    assert (sink_takes (tw_room t) (length b) = length b) as ->.
    { destruct (tw_room t) as [r|]; cbn; [|done]. specialize (Hr r eq_refl). lia. }
    rewrite Nat.eqb_refl. cbn [negb]. destruct (Nat.ltb_spec lft (length b)); [lia|].
    cbn. by rewrite firstn_all.
  - intros t b n (He & (h & body & lft & Hc & Hl) & Hr). split_and!.
    + done.
    + cbn. rewrite Hc. eexists _, _, _. split; [done|]. cbn. lia.
    + cbn. intros r Hr'. destruct (tw_room t) as [r0|]; [|done]. specialize (Hr r0 eq_refl).
      cbn in Hr'. injection Hr' as <-. lia.
  - intros t n m Hm (He & (h & body & lft & Hc & Hl) & Hr). split_and!; [done| |].
    + eexists _, _, _. split; [done|]. lia.
    + intros r Hr'. specialize (Hr r Hr'). lia.
  - intros [? c ? room ?]. unfold tw_app. cbn [length tw_done tw_cur tw_err tw_room tw_closed].
    rewrite sink_rest_0. f_equal. destruct c as [[[h b] l]|]; cbn; [|done].
    by rewrite app_nil_r, Nat.sub_0_r.
  - intros [? c ? room ?] a b. unfold tw_app. cbn [tw_done tw_cur tw_err tw_room tw_closed].
    rewrite sink_rest_rest, length_app. f_equal. destruct c as [[[h d] l]|]; cbn; [|done].
    rewrite <- (assoc_L (++)). do 2 f_equal. lia.
Defined.

(** A writer that is between entries, has no error and an unbounded sink. *)
Definition tw_ready (t : tar_writer) (done : list (out_header * bytes)) : Prop :=
  tw_flush t = (Ok (), {| tw_done := done; tw_cur := None; tw_err := None; tw_room := None; tw_closed := false |}).

(** Writing one whole entry: header, then [length b] bytes in any pieces. *)
Lemma tw_entry t done h b :
  tw_ready t done -> encodable h = true -> hasSuffix (o_Name h) "/" = false ->
  o_Size h = Z.of_nat (length b) ->
  exists t', tw_WriteHeader h t = (Ok (), t') /\ w_accepts t' (length b)
    /\ tw_ready (w_app t' b) (done ++ [(h, b)])%list.
Proof.
  intros Hr He Hs Hz. unfold tw_WriteHeader. rewrite Hr, Hs, Hz, Nat2Z.id. unfold encodable in He.
  destruct (header_size h) as [size|]; [|done]. cbn [tw_room sink_takes]. rewrite Nat.eqb_refl.
  eexists. split; [done|]. split.
  - split_and!; [done| |done]. eexists _, _, _. split; [done|]. done.
  - unfold tw_ready, tw_flush. cbn [w_app tar_WriterOk tw_app tw_err tw_cur option_map fmap option_fmap fst snd tw_done tw_room sink_rest].
    rewrite Nat.sub_diag. cbn [app sink_takes]. by rewrite Nat.eqb_refl.
Qed.

(** A header that was written was one that some format can hold. *)
Lemma WriteHeader_encodable h t t' : tw_WriteHeader h t = (Ok (), t') -> encodable h = true.
Proof.
  unfold tw_WriteHeader, encodable. destruct (tw_flush t) as [[[]|e|p] t1]; [|done..]. by destruct (header_size h).
Qed.

(** ** Accounting

    Whatever is written, in success and in failure, the bytes of the archive
    and the room left add up. *)

Definition entry_size (e : out_header * bytes) : nat := default 0 (header_size e.1) + round_block (length e.2).

(** What has been written of the archive, up to its trailer. *)
Definition archive (t : tar_writer) : nat :=
  sum_list (entry_size <$> tw_done t)
  + match tw_cur t with Some (h, b, _) => default 0 (header_size h) + length b | None => 0 end.

Definition accounted (reach : option nat) (t : tar_writer) : Prop :=
  tw_closed t = false /\ (fun r => archive t + r) <$> tw_room t = reach.

Lemma padding_round n : padding n + n = round_block n.
Proof.
  unfold padding. enough (n <= round_block n) by lia. unfold round_block.
  pose proof (Z.mod_pos_bound (Z.of_nat n + 511) 512 ltac:(lia)). pose proof (Z.div_mod (Z.of_nat n + 511) 512 ltac:(lia)). lia.
Qed.

Lemma sink_takes_le room n : sink_takes room n <= n.
Proof. destruct room; cbn; lia. Qed.

Lemma accounted_new room : accounted room (tar_new room).
Proof. split; [done|]. by destruct room. Qed.

Lemma accounted_write reach t b : accounted reach t -> accounted reach (w_write t b).2.
Proof.
  intros [Hc <-]. unfold w_write, tar_Writer. destruct (tw_err t); [done|].
  destruct t as [d [[[h body] lft]|] er [r|] cl]; cbn in *; (split; [done|]); cbn; try done; f_equal; unfold archive; cbn [tw_done tw_cur].
  - rewrite length_app, length_take. lia.
  - lia.
Qed.

(** Taking [n] more bytes of the room for [n] more of the archive. *)
Lemma room_taken (room : option nat) a a' n :
  sink_takes room n = n -> a' = a + n -> (fun r => a' + r) <$> sink_rest room n = (fun r => a + r) <$> room.
Proof. destruct room; cbn; [|done]. intros. f_equal. lia. Qed.

Lemma accounted_flush reach t : accounted reach t -> accounted reach (tw_flush t).2.
Proof.
  intros [Hc <-]. unfold tw_flush. destruct (tw_err t); [done|].
  destruct t as [d [[[h body] [|lft]]|] er room cl]; cbn [tw_cur tw_room tw_done tw_closed] in *; [|done..].
  destruct (Nat.eqb_spec (sink_takes room (padding (length body))) (padding (length body))) as [E|_]; [|done].
  split; [done|]. cbn [tw_room snd]. apply room_taken; [done|]. unfold archive. cbn [tw_done tw_cur].
  rewrite fmap_app, sum_list_with_app. cbn [fmap list_fmap sum_list sum_list_with foldr].
  pose proof (padding_round (length body)). unfold entry_size at 2. unfold id in *. cbn [fst snd] in *. lia.
Qed.

Lemma tw_flush_between t t' : tw_flush t = (Ok (), t') -> tw_cur t' = None.
Proof.
  unfold tw_flush. destruct (tw_err t); [done|]. destruct (tw_cur t) as [[[h b] [|l]]|] eqn:E; [|done|by intros [= <-]].
  destruct (_ =? _); by intros [= <-].
Qed.

Lemma accounted_header reach h t : accounted reach t -> accounted reach (tw_WriteHeader h t).2.
Proof.
  intros Ha. apply accounted_flush in Ha. unfold tw_WriteHeader. pose proof (tw_flush_between t) as Hcur.
  destruct (tw_flush t) as [[[]|e|p] t']; [|done..]. cbn [snd] in Ha. specialize (Hcur t' eq_refl).
  destruct (header_size h) as [size|] eqn:Eh; [|done].
  destruct (Nat.eqb_spec (sink_takes (tw_room t') size) size) as [E|_]; [|done].
  destruct Ha as [Hc <-]. split; [done|]. cbn [tw_room snd]. apply room_taken; [done|].
  unfold archive. cbn [tw_done tw_cur]. rewrite Hcur, Eh. cbn [from_option length id]. lia.
Qed.

(** A [Close] that succeeds has written the trailer too. *)
Lemma accounted_close reach t t' :
  accounted reach t -> tw_Close t = (Ok (), t') ->
  tw_closed t' = true /\ tw_cur t' = None /\ (fun r => archive t' + 1024 + r) <$> tw_room t' = reach.
Proof.
  intros Ha. unfold tw_Close. rewrite (proj1 Ha). apply accounted_flush in Ha. pose proof (tw_flush_between t) as Hcur.
  destruct (tw_flush t) as [[[]|e|p] t1]; [|done..]. cbn [snd] in Ha. specialize (Hcur t1 eq_refl).
  destruct (Nat.eqb_spec (sink_takes (tw_room t1) 1024) 1024) as [E|_]; [|done]. intros [= <-].
  split_and!; [done..|]. destruct Ha as [_ <-]. cbn [tw_room]. apply room_taken; [done|].
  unfold archive. cbn [tw_done tw_cur]. rewrite Hcur. lia.
Qed.
