(* ===== verification/Zstd.v ===== *)
(** * Zstd: the interface of the compression library

    The program calls a third-party zstd library, which is not under src/:
    here it is the class [Zstd] of the operations called, and [ZstdOk], its
    documented behaviour the round-trip theorems rely on.  [pair_zstd] is a
    concrete codec that satisfies both, so the theorems have instances. *)

From Stdlib Require Import ZArith Lia Ascii String.
From Stdlib Require Import Strings.Byte.
From stdpp Require Import base strings list.
From S2P Require Import Prelude GoIO.

Local Open Scope nat_scope.

(** - [zstd_NewWriter level]: [zstd.NewWriter], which may fail;
    - [EncodeAll level b]: one complete frame;
    - [stream_encode level b]: what a streaming encoder has written after it
      was given [b] and closed;
    - [stream_write_fails level b r]: whether a streaming encoder given [b]
      has already met the end of a sink that takes [r] bytes;
    - [zstd_NewReader]: [zstd.NewReader], which may fail;
    - [DecodeAll cap c]: decode [c], refusing more than [cap] bytes;
    - [decode_reader c e]: what a streaming decoder yields over an input that
      holds [c] and then fails with [e] ([io.EOF] at its end). *)
Class Zstd := {
  zstd_NewWriter : Z -> option error;
  EncodeAll : Z -> bytes -> bytes;
  stream_encode : Z -> bytes -> bytes;
  stream_write_fails : Z -> bytes -> nat -> bool;
  zstd_NewReader : option error;
  DecodeAll : Z -> bytes -> result bytes;
  decode_reader : bytes -> error -> reader
}.

(** A complete zstd frame for [b]. *)
Inductive zframe `{Zstd} : bytes -> bytes -> Prop :=
  | zframe_all level b : zframe (EncodeAll level b) b
  | zframe_stream level b : zframe (stream_encode level b) b.

(** A frame decodes to its content when it fits; the decoder reads
    consecutive frames as one stream. *)
Class ZstdOk `{Zstd} := {
  decode_all_ok cap c b : zframe c b -> (Z.of_nat (length b) <= cap)%Z -> DecodeAll cap c = Ok b;
  decode_reader_ok cs bs : Forall2 zframe cs bs -> good_body (decode_reader (concat cs) EOF) (concat bs)
}.

(** ** A concrete codec: every byte twice *)

Fixpoint pair_encode (b : bytes) : bytes :=
  match b with [] => [] | x :: b' => x :: x :: pair_encode b' end.

Fixpoint pair_decode (c : bytes) : option bytes :=
  match c with
  | [] => Some []
  | [_] => None
  | x :: y :: c' => if bool_decide (x = y) then cons x <$> pair_decode c' else None
  end.

Definition corrupt : error := Enew "zstd: corrupt input".

#[global] Instance pair_zstd : Zstd := {
  zstd_NewWriter _ := None;
  EncodeAll _ := pair_encode;
  stream_encode _ := pair_encode;
  stream_write_fails _ b r := r <? length (pair_encode b);
  zstd_NewReader := None;
  DecodeAll cap c :=
    match pair_decode c with
    | Some b => if (Z.of_nat (length b) <=? cap)%Z then Ok b else Err (Enew "zstd: output too large")
    | None => Err corrupt
    end;
  decode_reader c e :=
    match pair_decode c with
    | Some b => match b with [] => [([], Some e)] | _ => [(b, None); ([], Some e)] end
    | None => [([], Some corrupt)]
    end
}.

Lemma pair_decode_encode b c : pair_decode (pair_encode b ++ c) = (app b) <$> pair_decode c.
Proof.
  induction b as [|x b IH]; cbn; [by destruct (pair_decode c)|].
  rewrite bool_decide_true, IH by done. by destruct (pair_decode c).
Qed.

Lemma pair_frame c b : zframe c b -> c = pair_encode b.
Proof. by inversion 1. Qed.

#[global, refine] Instance pair_zstd_ok : ZstdOk := {}.
Proof.
  - intros cap c b ->%pair_frame Hl. cbn. rewrite <- (app_nil_r (pair_encode b)), pair_decode_encode.
    cbn. rewrite app_nil_r. by destruct (Z.leb_spec (Z.of_nat (length b)) cap); [|lia].
  - intros cs bs H. assert (pair_decode (concat cs) = Some (concat bs)) as E.
    { induction H as [|c b cs bs ->%pair_frame H IH]; [done|]. cbn. by rewrite pair_decode_encode, IH. }
    cbn. rewrite E. destruct (concat bs); constructor; cbn; try done. by rewrite app_nil_r.
Defined.
