(* ===== verification/Snapshot.v ===== *)
(** * Snapshot: the data of src/snapshot/snapshot.go

    Constants, the export envelope [cocoon snapshot export] writes and
    [cocoon snapshot import] reads with their JSON forms, the [CocoonRunner]
    interface, and the shared helpers on chunks. *)

From Stdlib Require Import ZArith Lia Ascii String.
From stdpp Require Import base gmap strings list.
From S2P Require Import Prelude GoStrings Json Manifest GoIO Tar.

Local Open Scope string_scope.

Definition snapshotJSONName : string := "snapshot.json".
Definition sparsePAXMap : string := "COCOON.sparse.map".
Definition sparsePAXSize : string := "COCOON.sparse.size".
Definition defaultTransferConcurrency : Z := 8.
Definition errMissingSnapshotJSON : error := Esent ErrMissingSnapshotJSON.

(** [Export] returns the tar stream and what [wait] reports once it is closed. *)
Record export := { ex_stream : tar_stream; ex_wait : option error }.

Class CocoonRunner := Export : string -> result export.

(** [Engine] carries the raw [config] object ([json:"-"]: not printed). *)
Record snapshotExportConfig := {
  se_Engine : option json;
  se_ID : string;
  se_Name : string;
  se_Description : string;
  se_Image : string;
  se_ImageDigest : string;
  se_ImageType : string;
  se_ImageBlobIDs : gmap string unit;
  se_Hypervisor : string;
  se_CPU : Z;
  se_Memory : Z;
  se_Storage : Z;
  se_NICs : Z;
  se_Network : string;
  se_Windows : bool
}.

Definition snapshotExportConfig_fields (c : snapshotExportConfig) : list (string * option json) :=
  [ ("id", o_str (se_ID c));
    ("name", e_str (se_Name c));
    ("description", o_str (se_Description c));
    ("image", o_str (se_Image c));
    ("image_digest", o_str (se_ImageDigest c));
    ("image_type", o_str (se_ImageType c));
    ("image_blob_ids", o_map unit_json (se_ImageBlobIDs c));
    ("hypervisor", o_str (se_Hypervisor c));
    ("cpu", o_int (se_CPU c));
    ("memory", o_int (se_Memory c));
    ("storage", o_int (se_Storage c));
    ("nics", o_int (se_NICs c));
    ("network", o_str (se_Network c));
    ("windows", o_bool (se_Windows c)) ].
Definition snapshotExportConfig_json (c : snapshotExportConfig) : json := obj (snapshotExportConfig_fields c).

(** [json.Unmarshal(raw, cfg)] into a [cfg] that already holds [engine]. *)
Definition snapshotExportConfig_unmarshal (engine : option json) (j : json) : result snapshotExportConfig :=
  l ← u_obj j;
  id ← u_str (get_member "id" l);
  na ← u_str (get_member "name" l);
  de ← u_str (get_member "description" l);
  im ← u_str (get_member "image" l);
  idg ← u_str (get_member "image_digest" l);
  it ← u_str (get_member "image_type" l);
  ib ← u_map unit_unmarshal (get_member "image_blob_ids" l);
  hy ← u_str (get_member "hypervisor" l);
  cp ← u_int (get_member "cpu" l);
  me ← u_int (get_member "memory" l);
  st ← u_int (get_member "storage" l);
  ni ← u_int (get_member "nics" l);
  ne ← u_str (get_member "network" l);
  wi ← u_bool (get_member "windows" l);
  Ok {| se_Engine := engine; se_ID := id; se_Name := na; se_Description := de; se_Image := im;
        se_ImageDigest := idg; se_ImageType := it; se_ImageBlobIDs := ib; se_Hypervisor := hy;
        se_CPU := cp; se_Memory := me; se_Storage := st; se_NICs := ni; se_Network := ne; se_Windows := wi |}.

Record snapshotExportEnvelope := { sev_Version : Z; sev_Config : snapshotExportConfig }.
Definition snapshotExportEnvelope_json (e : snapshotExportEnvelope) : json :=
  obj [ ("version", e_int (sev_Version e)); ("config", Some (snapshotExportConfig_json (sev_Config e))) ].

(** [map[string]any]: decoded with [UseNumber], printed with sorted keys. *)
Record engineExportEnvelope := { eev_Version : Z; eev_Config : gmap string json }.
Definition engineExportEnvelope_json (e : engineExportEnvelope) : json :=
  obj [ ("version", e_int (eev_Version e)); ("config", Some (e_map id (eev_Config e))) ].

(** ** Chunks: a byte string cut at fixed offsets *)

Fixpoint chunks (fuel : nat) (n : nat) (b : bytes) : list bytes :=
  match fuel, b with
  | S f, _ :: _ => take n b :: chunks f n (drop n b)
  | _, _ => []
  end.

(** Its chunks, in order, of [n > 0] bytes each but the last. *)
Definition split (n : nat) (b : bytes) : list bytes := chunks (length b) n b.

Lemma chunks_concat fuel n b : 0 < n -> length b <= fuel -> concat (chunks fuel n b) = b.
Proof.
  intros Hn. revert b. induction fuel as [|f IH]; intros b Hf.
  - destruct b; [done|cbn in Hf; lia].
  - destruct b as [|x b]; [done|]. cbn [chunks concat]. rewrite IH; [by rewrite take_drop|].
    rewrite length_drop. cbn in *. lia.
Qed.

Lemma chunks_fuel f g n b :
  0 < n -> length b <= f -> length b <= g -> chunks f n b = chunks g n b.
Proof.
  intros Hn. revert g b. induction f as [|f IH]; intros g b Hf Hg.
  - destruct b; [by destruct g|cbn in Hf; lia].
  - destruct b as [|x b]; [by destruct g|]. destruct g as [|g]; [cbn in Hg; lia|].
    cbn [chunks]. f_equal. apply IH; rewrite length_drop; cbn in *; lia.
Qed.

Lemma split_concat n b : 0 < n -> concat (split n b) = b.
Proof. intros Hn. by apply chunks_concat. Qed.

Lemma split_step n b : 0 < n -> b <> [] -> split n b = take n b :: split n (drop n b).
Proof.
  intros Hn Hb. unfold split. destruct b as [|x b]; [done|]. cbn [length chunks]. f_equal.
  apply chunks_fuel; [done|..]; rewrite ?length_drop; cbn; lia.
Qed.

Lemma split_Forall n b : Forall (fun c => length c <= n) (split n b).
Proof.
  unfold split. generalize (length b). intros f. revert b. induction f as [|f IH]; intros b; [constructor|].
  destruct b; cbn; [constructor|]. constructor; [rewrite length_take; cbn; lia|apply IH].
Qed.

(** Their number is [ceil(length b / n)]. *)
Lemma split_length n b :
  0 < n -> Z.of_nat (length (split n b)) = ((Z.of_nat (length b) + Z.of_nat n - 1) / Z.of_nat n)%Z.
Proof.
  intros Hn. remember (length b) as m eqn:E. revert b E.
  induction (lt_wf m) as [m _ IH]. intros b ->. destruct b as [|x b].
  - cbn. symmetry. apply Z.div_small. lia.
  - rewrite split_step by done. cbn [length]. destruct (Nat.le_gt_cases (length (x :: b)) n) as [Hle|Hgt].
    + rewrite drop_ge by done. cbn [split length chunks].
      apply Z.div_unique with (r := (Z.of_nat (length (x :: b)) - 1)%Z); cbn in *; lia.
    + rewrite Nat2Z.inj_succ, (IH (length (drop n (x :: b)))); [|rewrite length_drop; cbn in *; lia|done].
      rewrite length_drop, Nat2Z.inj_sub by lia. cbn [length] in *.
      replace (Z.of_nat (S (length b)) + Z.of_nat n - 1)%Z
        with ((Z.of_nat (S (length b)) - Z.of_nat n + Z.of_nat n - 1) + 1 * Z.of_nat n)%Z by lia.
      rewrite Z.div_add by lia. lia.
Qed.
