(* ===== verification/SnapshotPush.v ===== *)
(** * SnapshotPush: src/snapshot/push.go and src/snapshot/pushpipeline.go

    [Pusher.Push] with everything it calls: the export-stream loop, the
    plain, compressed and chunked uploads, the snapshot config and the
    manifest.  The registry and zstd are the classes [Uploader] and [Zstd].

    Worker tasks run to completion when they are started (the deterministic
    schedule of the error group: a task's failure cancels the group context,
    which the loops poll); [PushPool] covers the other schedules and the
    buffer pools.  [ctx] is the caller's context: [None] while it is live,
    its error when it was done before the push ([Concurrent] has the pushes
    that are cancelled on the way). *)

From Stdlib Require Import ZArith Lia Ascii String.
From stdpp Require Import base gmap strings list.
From S2P Require Import Prelude GoStrings Sha256 Json Manifest GoIO Bufio OciUtil Registry Tar Zstd Snapshot.

Local Open Scope string_scope.
Local Open Scope nat_scope.

(** ** Options and parameters *)

Record PushOptions := {
  po_Name : string;
  po_LocalName : string;
  po_Tag : string;
  po_BaseImage : string;
  po_Source : string;
  po_Revision : string;
  po_Annotations : gmap string string;
  po_ZstdLevel : Z;
  po_ChunkSizeMiB : Z;
  po_Concurrency : Z;
  po_MemoryBudgetMiB : Z
}.

Definition compressMinBytes : Z := 2 ^ 20.
Definition maxChunkSizeMiB : Z := 4096.
Definition defaultPushMemoryBudgetMiB : Z := 9216.

(** Workers and chunk size in bytes (0: no chunking). *)
Definition pipelineParams (opts : PushOptions) : result (Z * Z) :=
  let workers := if (po_Concurrency opts <=? 0)%Z then defaultTransferConcurrency else po_Concurrency opts in
  if (maxChunkSizeMiB <? po_ChunkSizeMiB opts)%Z then
    Err (Enew ("snapshot push: chunk size " +:+ formatInt (po_ChunkSizeMiB opts) +:+ " MiB exceeds the "
               +:+ formatInt maxChunkSizeMiB +:+ " MiB maximum"))
  else
    let chunkSize := shl20 (Z.max (po_ChunkSizeMiB opts) 0) in
    if (chunkSize =? 0)%Z then Ok (workers, 0%Z)
    else
      let budget0 := shl20 (po_MemoryBudgetMiB opts) in
      let budget := if (budget0 <=? 0)%Z then (defaultPushMemoryBudgetMiB * 2 ^ 20)%Z else budget0 in
      if (budget <? 4 * chunkSize)%Z then
        Err (Enew ("snapshot push: chunk size " +:+ formatInt (po_ChunkSizeMiB opts) +:+ " MiB needs at least a "
                   +:+ formatInt (Z.shiftr (4 * chunkSize) 20) +:+ " MiB memory budget, got "
                   +:+ formatInt (Z.shiftr budget 20) +:+ " MiB"))
      else Ok (Z.min workers (godiv budget (2 * chunkSize) - 1), chunkSize).

(** The temporary file an entry is spooled to: why it cannot be made, the
    bytes it takes and why it takes no more, why its offset cannot be told,
    why it cannot be rewound. *)
Record TempFile := {
  tf_create : option error;
  tf_room : option (nat * error);
  tf_tell : option error;
  tf_rewind : option error
}.

Definition sound_file : TempFile := {| tf_create := None; tf_room := None; tf_tell := None; tf_rewind := None |}.

(** What Push takes from the outside: the clock, and the temporary file it
    gets for an entry, by the entry's name. *)
Record PushEnv := { pe_now : gotime; pe_temp : string -> TempFile }.

(** ** Entries *)

Definition sparseFileMeta (hdr : tar_header) : result SnapshotFile :=
  let meta m s := {| sf_Mode := h_Mode hdr; sf_SparseMap := m; sf_SparseSize := s; sf_Size := 0; sf_Chunks := [] |} in
  match h_PAX hdr !! sparsePAXMap with
  | None => Ok (meta "" 0%Z)
  | Some sparseMap =>
      match h_PAX hdr !! sparsePAXSize with
      | None => Err (Enew ("sparse entry " +:+ h_Name hdr +:+ " missing " +:+ sparsePAXSize))
      | Some rawSize =>
          match parseInt64 rawSize with
          | None => Err (Ewrap ("parse sparse size for " +:+ h_Name hdr) (Enew "strconv.ParseInt: invalid"))
          | Some sparseSize => Ok (meta sparseMap sparseSize)
          end
      end
  end.

Definition snapshotVersionMarkers (encoded : bool) : string * string :=
  if encoded then ("v2", ArtifactTypeSnapshotV2) else ("v1", ArtifactTypeSnapshot).

Definition invalid_json : error := Enew "invalid JSON".

(** Decoding reads no further than the first value: what the entry's bytes
    before any error say is all that matters. *)
Definition decode_envelope (data : bytes) : result snapshotExportConfig :=
  envelope ← wrap "parse snapshot.json"
    (match decode_first (string_of data) with
     | None => Err invalid_json
     | Some j => l ← u_obj j; Ok (get_member "config" l)
     end);
  match envelope with
  | Some (JObj l) => wrap "parse snapshot.json" (snapshotExportConfig_unmarshal (Some (JObj l)) (JObj l))
  | _ => Err (Enew "parse snapshot.json: config must be a JSON object")
  end.

Definition decodeExportEnvelope (r : reader) : result snapshotExportConfig := decode_envelope (content r).

Section Push.
Context {S : Type} `{Uploader S} `{Zstd} `{CocoonRunner}.
Context (ctx : option error) (env : PushEnv) (opts : PushOptions).

(** ** Blobs *)

(** [rewind]: why the body cannot be rewound. *)
Definition putBlobIfMissing (name digest : string) (body : bytes) (rewind : option error) (size : Z) : M S unit :=
  exists_ ← wrapM ("check blob " +:+ digest) (HasBlob name digest);
  if exists_ : bool then mret ()
  else
    match rewind with
    | Some e => lift (Err (Ewrap ("seek blob " +:+ digest) e))
    | None => wrapM ("put blob " +:+ digest) (PutBlob name digest body size)
    end.

Definition title_annotations (title : string) : gmap string string := {[ AnnotationTitle := title ]}.

(** [write] is the content spooled to a file that takes so much, or the error
    of spooling it. *)
Definition uploadSpooled (name title mediaType : string) (write : option (nat * error) -> result bytes)
  : M S Descriptor :=
  let tmp := pe_temp env title in
  match tf_create tmp with
  | Some e => lift (Err (Ewrap "create temp" e))
  | None =>
      spooled ← lift (write (tf_room tmp));
      match tf_tell tmp with
      | Some e => lift (Err (Ewrap "size temp" e))
      | None =>
          let digest := digest_of spooled in
          let written := Z.of_nat (length spooled) in
          _ ← putBlobIfMissing name digest spooled (tf_rewind tmp) written;
          mret {| d_MediaType := mediaType; d_Digest := digest; d_Size := written;
                  d_Annotations := title_annotations title; d_ArtifactType := "" |}
      end
  end.

(** [io.Copy(w, io.LimitReader(body, n))] into a file: the error, and what
    the file holds then. *)
Definition copy_entry (body : reader) (n : Z) (room : option (nat * error)) : result (option error * bytes) :=
  match io_copy limit_read (3 + weight body) (body, n) (limited_new room) 0 with
  | Some (_, err, _, t) => Ok (err, l_data t)
  | None => Panic "out of fuel"
  end.

Definition uploadTarEntry (name : string) (hdr : tar_header) (body : reader) : M S Descriptor :=
  uploadSpooled name (h_Name hdr) (MediaTypeForCocoonFile (h_Name hdr)) (fun room =>
    '(err, spooled) ← copy_entry body (h_Size hdr) room;
    match err with Some e => Err (Ewrap "buffer entry" e) | None => Ok spooled end).

(** The encoder writes to the file when it likes, so a file that is full
    fails the copy or the final [Close]. *)
Definition uploadCompressedSpool (level : Z) (name : string) (hdr : tar_header) (body : reader) : M S Descriptor :=
  uploadSpooled name (h_Name hdr) (ZstdMediaType (MediaTypeForCocoonFile (h_Name hdr))) (fun room =>
    match zstd_NewWriter level with
    | Some e => Err (Ewrap "init zstd encoder" e)
    | None =>
        '(err, raw) ← copy_entry body (h_Size hdr) None;
        let encoded := stream_encode level raw in
        match room, err with
        | Some (r, e), _ =>
            if stream_write_fails level raw r then Err (Ewrap "compress entry" e)
            else match err with
                 | Some readErr => Err (Ewrap "compress entry" readErr)
                 | None => if r <? length encoded then Err (Ewrap "flush zstd encoder" e) else Ok encoded
                 end
        | None, Some readErr => Err (Ewrap "compress entry" readErr)
        | None, None => Ok encoded
        end
    end).

(** ** The pipeline

    [us_eg]: the error group's first error. *)
Record push_state := { us_reg : S; us_eg : option error }.

Definition onReg {A} (m : M S A) : M push_state A := fun st =>
  let '(r, s') := m (us_reg st) in (r, {| us_reg := s'; us_eg := us_eg st |}).

(** [egCtx.Err()] *)
Definition eg_err (st : push_state) : option error :=
  match ctx with
  | Some e => Some e
  | None => match us_eg st with Some _ => Some (Esent CtxCanceled) | None => None end
  end.

(** [eg.Go(task)]: the result, or nothing when the task failed. *)
Definition eg_Go {A} (task : M S A) : M push_state (option A) := fun st =>
  let '(r, s') := task (us_reg st) in
  match r with
  | Ok a => (Ok (Some a), {| us_reg := s'; us_eg := us_eg st |})
  | Err e => (Ok None, {| us_reg := s'; us_eg := match us_eg st with Some e0 => Some e0 | None => Some e end |})
  | Panic p => (Panic p, {| us_reg := s'; us_eg := us_eg st |})
  end.

Definition uploadChunk (mediaType title : string) (index count : nat) (raw : bytes) : M S Descriptor :=
  let stored := if IsZstdMediaType mediaType then EncodeAll (po_ZstdLevel opts) raw else raw in
  let digest := digest_of stored in
  _ ← putBlobIfMissing (po_Name opts) digest stored None (Z.of_nat (length stored));
  mret {| d_MediaType := mediaType; d_Digest := digest; d_Size := Z.of_nat (length stored);
          d_Annotations :=
            if 1 <? count then
              <[AnnotationChunkCount := formatInt (Z.of_nat count)]>
                (<[AnnotationChunkIndex := formatInt (Z.of_nat index)]> (title_annotations title))
            else title_annotations title;
          d_ArtifactType := "" |}.

Definition Descriptor_zero : Descriptor :=
  {| d_MediaType := ""; d_Digest := ""; d_Size := 0; d_Annotations := ∅; d_ArtifactType := "" |}.

(** [n] chunks left of [count]. *)
Fixpoint enqueue_loop (title mediaType : string) (chunkSize : Z) (count n : nat) (body : reader) (remaining : Z)
  : M push_state (list Descriptor) :=
  match n with
  | O => mret []
  | Datatypes.S n' => fun st =>
      match eg_err st with
      | Some ctxErr => (Err ctxErr, st)
      | None =>
          let i := count - n in
          let want := Z.min chunkSize remaining in
          match read_full script_read (2 + weight body) body (Z.to_nat want) [] with
          | None => (Panic "out of fuel", st)
          | Some (Panic p, _) => (Panic p, st)
          | Some (Err e, _) => (Err (Ewrap ("read " +:+ title +:+ " chunk " +:+ formatInt (Z.of_nat i)) e), st)
          | Some (Ok data, body') =>
              (desc ← eg_Go (wrapM ("upload " +:+ title +:+ " chunk " +:+ formatInt (Z.of_nat i))
                              (uploadChunk mediaType title i count data));
               descs ← enqueue_loop title mediaType chunkSize count n' body' (remaining - want)%Z;
               mret (match desc with Some d => d | None => Descriptor_zero end :: descs)) st
          end
      end
  end.

Definition enqueueChunks (hdr : tar_header) (body : reader) (chunkSize : Z) (compress : bool)
  : M push_state (list Descriptor) :=
  let count64 := godiv (wrap64 (wrap64 (h_Size hdr + chunkSize) - 1)) chunkSize in
  if (2 ^ 20 <? count64)%Z then
    lift (Err (Enew (h_Name hdr +:+ ": " +:+ formatInt count64 +:+ " chunks exceeds sanity cap")))
  else if (count64 <? 0)%Z then lift (Panic "makeslice: len out of range")
  else
    let count := Z.to_nat count64 in
    let mediaType0 := MediaTypeForCocoonFile (h_Name hdr) in
    let mediaType := if compress then ZstdMediaType mediaType0 else mediaType0 in
    enqueue_loop (h_Name hdr) mediaType chunkSize count count body (h_Size hdr).

(** ** The stream loop *)

Record chunkGroup := { cg_name : string; cg_descs : list Descriptor }.

Record loop_acc := {
  la_cfg : option snapshotExportConfig;
  la_files : gmap string SnapshotFile;
  la_groups : list chunkGroup;
  la_encoded : bool
}.

Definition loop_init : loop_acc := {| la_cfg := None; la_files := ∅; la_groups := []; la_encoded := false |}.

Definition with_size (f : SnapshotFile) (size : Z) : SnapshotFile :=
  {| sf_Mode := sf_Mode f; sf_SparseMap := sf_SparseMap f; sf_SparseSize := sf_SparseSize f;
     sf_Size := size; sf_Chunks := sf_Chunks f |}.

Definition with_chunks (f : SnapshotFile) (chunks : list string) : SnapshotFile :=
  {| sf_Mode := sf_Mode f; sf_SparseMap := sf_SparseMap f; sf_SparseSize := sf_SparseSize f;
     sf_Size := sf_Size f; sf_Chunks := chunks |}.

(** One regular file: its metadata and its upload. *)
Definition entry_file (chunkSize : Z) (hdr : tar_header) (body : reader) (acc : loop_acc) : M push_state loop_acc :=
  fileMeta ← lift (sparseFileMeta hdr);
  let files := <[h_Name hdr := with_size fileMeta (h_Size hdr)]> (la_files acc) in
  let compressOn := (0 <? po_ZstdLevel opts)%Z in
  let compress := compressOn && (compressMinBytes <=? h_Size hdr)%Z in
  let add descs encoded :=
    {| la_cfg := la_cfg acc; la_files := files;
       la_groups := (la_groups acc ++ [ {| cg_name := h_Name hdr; cg_descs := descs |} ])%list;
       la_encoded := encoded |} in
  if (0 <? chunkSize)%Z && (compress || (chunkSize <? h_Size hdr)%Z) then
    descs ← enqueueChunks hdr body chunkSize compress;
    mret (add descs true)
  else if compress then
    desc ← wrapM ("upload " +:+ h_Name hdr) (onReg (uploadCompressedSpool (po_ZstdLevel opts) (po_Name opts) hdr body));
    mret (add [desc] true)
  else
    desc ← wrapM ("upload " +:+ h_Name hdr) (onReg (uploadTarEntry (po_Name opts) hdr body));
    mret (add [desc] (la_encoded acc)).

Definition entry_step (chunkSize : Z) (hdr : tar_header) (body : reader) (acc : loop_acc) : M push_state loop_acc :=
  if String.eqb (h_Name hdr) snapshotJSONName then
    cfg ← lift (decodeExportEnvelope body);
    mret {| la_cfg := Some cfg; la_files := la_files acc; la_groups := la_groups acc; la_encoded := la_encoded acc |}
  else if negb (Ascii.eqb (h_Typeflag hdr) TypeReg) then mret acc
  else if (h_Size hdr <? 0)%Z then
    lift (Err (Enew ("tar entry " +:+ h_Name hdr +:+ " has negative size " +:+ formatInt (h_Size hdr))))
  else entry_file chunkSize hdr body acc.

(** The loop ends with [Ok] where the code breaks out with [readErr == nil]. *)
Fixpoint read_loop (chunkSize : Z) (entries : list (tar_header * reader)) (last : error) (acc : loop_acc)
  : M push_state loop_acc := fun st =>
  match eg_err st with
  | Some _ => (Ok acc, st)
  | None =>
      match entries with
      | [] => (if errors_Is last IoEOF then Ok acc else Err (Ewrap "read tar entry" last), st)
      | (hdr, body) :: entries' =>
          (acc' ← entry_step chunkSize hdr body acc; read_loop chunkSize entries' last acc') st
      end
  end.

Record uploadedEntries := {
  ue_cfg : option snapshotExportConfig;
  ue_files : gmap string SnapshotFile;
  ue_layers : list Descriptor;
  ue_encoded : bool
}.

(** The chunk lists of the files cut in two or more. *)
Definition record_chunks (files : gmap string SnapshotFile) (g : chunkGroup) : gmap string SnapshotFile :=
  if length (cg_descs g) <? 2 then files
  else
    let fm := match files !! cg_name g with Some f => f | None => SnapshotFile_zero end in
    <[cg_name g := with_chunks fm (d_Digest <$> cg_descs g)]> files.

(** What [readErr] is after [eg.Wait()]. *)
Definition settle (readErr waitErr : option error) : option error :=
  let e := match readErr with
           | None => waitErr
           | Some e => match waitErr with
                       | Some w => if errors_Is e CtxCanceled then Some w else Some e
                       | None => Some e
                       end
           end in
  match e with Some e => Some e | None => ctx end.

Definition readAndUploadEntries (ts : tar_stream) : M S uploadedEntries := fun s =>
  match pipelineParams opts with
  | Err e => (Err e, s)
  | Panic p => (Panic p, s)
  | Ok (workers, chunkSize) =>
      match if (0 <? po_ZstdLevel opts)%Z && (0 <? chunkSize)%Z then zstd_NewWriter (po_ZstdLevel opts) else None with
      | Some encErr => (Err (Ewrap "init zstd encoder" encErr), s)
      | None =>
          let '(r, st) := read_loop chunkSize (ts_entries ts) (ts_end ts) loop_init {| us_reg := s; us_eg := None |} in
          match r with
          | Panic p => (Panic p, us_reg st)
          | Err e =>
              (Err (match settle (Some e) (us_eg st) with Some e' => e' | None => e end), us_reg st)
          | Ok acc =>
              match settle None (us_eg st) with
              | Some e => (Err e, us_reg st)
              | None =>
                  (Ok {| ue_cfg := la_cfg acc;
                         ue_files := fold_left record_chunks (la_groups acc) (la_files acc);
                         ue_layers := concat (cg_descs <$> la_groups acc);
                         ue_encoded := la_encoded acc |}, us_reg st)
              end
          end
      end
  end.

(** ** Config and manifest *)

Definition snapshot_config (cfg : snapshotExportConfig) (files : gmap string SnapshotFile) (schemaVersion : string)
  : SnapshotConfig :=
  {| sc_SchemaVersion := schemaVersion; sc_SnapshotID := se_ID cfg; sc_Description := se_Description cfg;
     sc_Image := se_Image cfg; sc_ImageDigest := se_ImageDigest cfg; sc_ImageType := se_ImageType cfg;
     sc_ImageBlobIDs := se_ImageBlobIDs cfg; sc_Hypervisor := se_Hypervisor cfg; sc_CPU := se_CPU cfg;
     sc_Memory := se_Memory cfg; sc_Storage := se_Storage cfg; sc_NICs := se_NICs cfg;
     sc_Network := se_Network cfg; sc_Windows := se_Windows cfg; sc_Files := files;
     sc_Engine := se_Engine cfg; sc_CreatedAt := t_rfc3339nano (pe_now env) |}.

Definition uploadSnapshotConfig (name : string) (cfg : snapshotExportConfig) (files : gmap string SnapshotFile)
    (schemaVersion : string) : M S Descriptor :=
  let data := bytes_of (marshal (SnapshotConfig_json (snapshot_config cfg files schemaVersion))) in
  let digest := digest_of data in
  _ ← putBlobIfMissing name digest data None (Z.of_nat (length data));
  mret {| d_MediaType := MediaTypeSnapshotConfig; d_Digest := digest; d_Size := Z.of_nat (length data);
          d_Annotations := ∅; d_ArtifactType := "" |}.

Definition set_nonempty (k v : string) (m : gmap string string) : gmap string string :=
  if String.eqb v "" then m else <[k := v]> m.

Definition manifest_annotations : gmap string string :=
  let annotations :=
    set_nonempty AnnotationRevision (po_Revision opts)
      (set_nonempty AnnotationSource (po_Source opts)
        (set_nonempty AnnotationSnapshotBaseImage (po_BaseImage opts)
          {[ AnnotationCreated := t_rfc3339 (pe_now env) ]})) in
  po_Annotations opts ∪ annotations.

Definition snapshot_manifest (config : Descriptor) (layers : list Descriptor) (artifactType : string) : OCIManifest :=
  {| m_SchemaVersion := 2; m_MediaType := MediaTypeOCIManifest; m_ArtifactType := artifactType;
     m_Config := config; m_Layers := layers; m_Manifests := []; m_Subject := None;
     m_Annotations := manifest_annotations |}.

Definition buildSnapshotManifest (config : Descriptor) (layers : list Descriptor) (artifactType : string) : bytes :=
  bytes_of (marshal_indent (OCIManifest_json (snapshot_manifest config layers artifactType))).

(** ** Push *)

(** After the upload of the entries: the config, then the manifest. *)
Definition publish (tag : string) (wait : option error) (entries : uploadedEntries) : M S unit :=
  match wait with
  | Some waitErr => lift (Err waitErr)
  | None =>
      match ue_cfg entries with
      | None => lift (Err errMissingSnapshotJSON)
      | Some cfg =>
          let '(schemaVersion, artifactType) := snapshotVersionMarkers (ue_encoded entries) in
          configDescriptor ← wrapM "upload snapshot config"
            (uploadSnapshotConfig (po_Name opts) cfg (ue_files entries) schemaVersion);
          wrapM ("put manifest " +:+ po_Name opts +:+ ":" +:+ tag)
            (PutManifest (po_Name opts) tag
               (buildSnapshotManifest configDescriptor (ue_layers entries) artifactType) MediaTypeOCIManifest)
      end
  end.

Definition push_export (tag : string) (ex : export) : M S unit :=
  entries ← readAndUploadEntries (ex_stream ex);
  publish tag (ex_wait ex) entries.

Definition Push : M S unit := fun s0 =>
  if String.eqb (po_Name opts) "" then (Err (Enew "snapshot push: name is required"), s0)
  else
    let tag := cmpOr (po_Tag opts) "latest" in
    let s := UploadSession s0 in
    let localName := cmpOr (po_LocalName opts) (po_Name opts) in
    match Export localName with
    | Err e => (Err (Ewrap ("cocoon export " +:+ localName) e), s)
    | Panic p => (Panic p, s)
    | Ok ex => push_export tag ex s
    end.

End Push.
