(* ===== verification/PushSpec.v ===== *)
(** * PushSpec: what a push does, stated without its loops

    The reference: how a file of the export stream is uploaded (whole, as one
    compressed blob, or cut into chunks), which blobs and descriptors that
    gives, and the accumulator after the whole stream.  The lemmas show that
    the code of [SnapshotPush] computes it, on every registry that meets
    [RegistryOk]; they are stated with [wp], success and failure together. *)

From Stdlib Require Import ZArith Lia Ascii String.
From stdpp Require Import base gmap strings list.
From S2P Require Import Prelude GoStrings Sha256 Json Manifest GoIO Bufio OciUtil Registry Tar Zstd Snapshot SnapshotPush.

Local Open Scope string_scope.
Local Open Scope nat_scope.

(** ** pipelineParams *)

Lemma pipelineParams_chunk opts w c :
  pipelineParams opts = Ok (w, c) -> (c = 0 \/ 2 ^ 20 <= c <= 2 ^ 32)%Z.
Proof.
  unfold pipelineParams, maxChunkSizeMiB. destruct (Z.ltb_spec 4096 (po_ChunkSizeMiB opts)); [done|].
  rewrite shl20_small by lia.
  destruct (Z.eqb_spec (Z.max (po_ChunkSizeMiB opts) 0 * 2 ^ 20) 0); [intros [= _ <-]; by left|].
  destruct (_ <? _)%Z; [done|]. intros [= _ <-]. right. lia.
Qed.

(** There is always a worker: the budget covers two buffers of each pool. *)
Lemma pipelineParams_workers opts w c : pipelineParams opts = Ok (w, c) -> (0 < w)%Z.
Proof.
  unfold pipelineParams. cbv zeta. assert (0 < if po_Concurrency opts <=? 0 then defaultTransferConcurrency else po_Concurrency opts)%Z as Hw
    by (unfold defaultTransferConcurrency; destruct (Z.leb_spec (po_Concurrency opts) 0); lia).
  destruct (_ <? _)%Z eqn:Ecs; [done|]. unfold maxChunkSizeMiB in Ecs. apply Z.ltb_ge in Ecs. rewrite shl20_small by lia.
  destruct (Z.eqb_spec (Z.max (po_ChunkSizeMiB opts) 0 * 2 ^ 20) 0); [by intros [= <- _]|].
  destruct (_ <? _)%Z eqn:Hb; [done|]. apply Z.ltb_ge in Hb. intros [= <- _]. unfold godiv. rewrite Z.quot_div_nonneg by lia.
  match goal with |- context [(?b / ?d)%Z] => enough (2 <= b / d)%Z by lia end. apply Z.div_le_lower_bound; lia.
Qed.

(** ** The reference *)

Inductive upload_mode := Whole | Spool | Cut (compress : bool).
#[global] Instance upload_mode_eq_dec : EqDecision upload_mode.
Proof. solve_decision. Defined.

(** The descriptor of one stored blob. *)
Definition blob_descriptor (mediaType title : string) (index count : nat) (blob : bytes) : Descriptor :=
  {| d_MediaType := mediaType; d_Digest := digest_of blob; d_Size := Z.of_nat (length blob);
     d_Annotations :=
       if 1 <? count then
         <[AnnotationChunkCount := formatInt (Z.of_nat count)]>
           (<[AnnotationChunkIndex := formatInt (Z.of_nat index)]> (title_annotations title))
       else title_annotations title;
     d_ArtifactType := "" |}.

Section Spec.
Context `{Zstd} (opts : PushOptions) (chunkSize : Z).

Definition entry_mode (size : Z) : upload_mode :=
  let compress := (0 <? po_ZstdLevel opts)%Z && (compressMinBytes <=? size)%Z in
  if (0 <? chunkSize)%Z && (compress || (chunkSize <? size)%Z) then Cut compress
  else if compress then Spool else Whole.

Definition pieces (m : upload_mode) (b : bytes) : list bytes :=
  match m with Cut _ => split (Z.to_nat chunkSize) b | _ => [b] end.

Definition encode_piece (m : upload_mode) (c : bytes) : bytes :=
  match m with
  | Whole | Cut false => c
  | Spool => stream_encode (po_ZstdLevel opts) c
  | Cut true => EncodeAll (po_ZstdLevel opts) c
  end.

Definition mode_media (m : upload_mode) (name : string) : string :=
  match m with
  | Whole | Cut false => MediaTypeForCocoonFile name
  | Spool | Cut true => ZstdMediaType (MediaTypeForCocoonFile name)
  end.

Definition file_blobs (b : bytes) : list bytes :=
  let m := entry_mode (Z.of_nat (length b)) in encode_piece m <$> pieces m b.

Definition file_descs (name : string) (b : bytes) : list Descriptor :=
  let m := entry_mode (Z.of_nat (length b)) in
  imap (fun i blob => blob_descriptor (mode_media m name) name i (length (file_blobs b)) blob) (file_blobs b).

Definition mode_encoded (m : upload_mode) : bool := match m with Whole => false | _ => true end.

(** One entry of the stream. *)
Definition spec_entry (hdr : tar_header) (b : bytes) (acc : loop_acc) : result loop_acc :=
  if String.eqb (h_Name hdr) snapshotJSONName then
    cfg ← decode_envelope b;
    Ok {| la_cfg := Some cfg; la_files := la_files acc; la_groups := la_groups acc; la_encoded := la_encoded acc |}
  else if negb (Ascii.eqb (h_Typeflag hdr) TypeReg) then Ok acc
  else
    meta ← sparseFileMeta hdr;
    Ok {| la_cfg := la_cfg acc;
          la_files := <[h_Name hdr := with_size meta (h_Size hdr)]> (la_files acc);
          la_groups := (la_groups acc ++ [ {| cg_name := h_Name hdr; cg_descs := file_descs (h_Name hdr) b |} ])%list;
          la_encoded := la_encoded acc || mode_encoded (entry_mode (Z.of_nat (length b))) |}.

(** The blobs it stores. *)
Definition entry_blobs (hdr : tar_header) (b : bytes) : list bytes :=
  if String.eqb (h_Name hdr) snapshotJSONName || negb (Ascii.eqb (h_Typeflag hdr) TypeReg) then []
  else file_blobs b.

Fixpoint spec_stream (entries : list (tar_header * bytes)) (acc : loop_acc) : result loop_acc :=
  match entries with
  | [] => Ok acc
  | (hdr, b) :: entries' => acc' ← spec_entry hdr b acc; spec_stream entries' acc'
  end.

Definition stream_blobs (entries : list (tar_header * bytes)) : list bytes :=
  concat ((fun e => entry_blobs e.1 e.2) <$> entries).

(** An entry whose body arrives complete; a file that is cut stays within
    the cap of [2^20] chunks. *)
Record good_entry (e : tar_header * reader) (e' : tar_header * bytes) : Prop := {
  ge_hdr : e'.1 = e.1;
  ge_body : good_body e.2 e'.2;
  ge_size : h_Size e.1 = Z.of_nat (length e'.2);
  ge_cap : match entry_mode (h_Size e.1) with Cut _ => (h_Size e.1 <= 2 ^ 20 * chunkSize)%Z | _ => True end
}.

(** The whole stream, [files] with the chunk lists of the files cut in two or
    more. *)
Definition spec_entries (entries : list (tar_header * bytes)) : result uploadedEntries :=
  acc ← spec_stream entries loop_init;
  Ok {| ue_cfg := la_cfg acc;
        ue_files := fold_left record_chunks (la_groups acc) (la_files acc);
        ue_layers := concat (cg_descs <$> la_groups acc);
        ue_encoded := la_encoded acc |}.

Record good_stream (ts : tar_stream) (entries : list (tar_header * bytes)) : Prop := {
  gs_entries : Forall2 good_entry (ts_entries ts) entries;
  gs_end : ts_end ts = EOF
}.

(** The artifact a push of these entries publishes. *)
Record push_plan := { pp_config : SnapshotConfig; pp_manifest : OCIManifest; pp_blobs : list bytes }.

Definition config_blob (c : SnapshotConfig) : bytes := bytes_of (marshal (SnapshotConfig_json c)).
Definition manifest_bytes (m : OCIManifest) : bytes := bytes_of (marshal_indent (OCIManifest_json m)).

Definition config_descriptor (c : SnapshotConfig) : Descriptor :=
  {| d_MediaType := MediaTypeSnapshotConfig; d_Digest := digest_of (config_blob c);
     d_Size := Z.of_nat (length (config_blob c)); d_Annotations := ∅; d_ArtifactType := "" |}.

Definition plan_push (env : PushEnv) (entries : list (tar_header * bytes)) : result push_plan :=
  ue ← spec_entries entries;
  match ue_cfg ue with
  | None => Err errMissingSnapshotJSON
  | Some cfg =>
      let c := snapshot_config env cfg (ue_files ue) (snapshotVersionMarkers (ue_encoded ue)).1 in
      Ok {| pp_config := c;
            pp_manifest := snapshot_manifest env opts (config_descriptor c) (ue_layers ue)
                             (snapshotVersionMarkers (ue_encoded ue)).2;
            pp_blobs := (stream_blobs entries ++ [config_blob c])%list |}
  end.

End Spec.

(** ** The code computes the reference *)

(** What storing these blobs adds to a repository: each under its digest, the
    first of two with the same one. *)
Definition store (name : string) (bs : list bytes) : blob_store :=
  list_to_map ((fun b => ((name, digest_of b), b)) <$> bs).

Lemma store_app name bs bs' : store name (bs ++ bs') = store name bs ∪ store name bs'.
Proof. unfold store. by rewrite fmap_app, list_to_map_app. Qed.

Lemma store_cons name b bs : store name (b :: bs) = <[(name, digest_of b) := b]> (store name bs).
Proof. done. Qed.

Lemma store_nil name : store name [] = ∅.
Proof. done. Qed.

Lemma store_none (name : string) (m : blob_store) : m = m ∪ store name [].
Proof. by rewrite store_nil, map_union_empty. Qed.

Lemma store_put (name : string) (b : bytes) (m : blob_store) :
  m !! (name, digest_of b) = None -> <[(name, digest_of b) := b]> m = m ∪ store name [b].
Proof. intros Hn. rewrite store_cons, store_nil, insert_empty. by apply insert_union_singleton_r. Qed.

Lemma store_there (name : string) (b : bytes) (m : blob_store) :
  is_Some (m !! (name, digest_of b)) -> m = m ∪ store name [b].
Proof.
  intros [x Hx]. rewrite store_cons, store_nil, insert_empty. apply map_eq. intros k.
  destruct (decide (k = (name, digest_of b))) as [->|Hne].
  - by rewrite Hx, (lookup_union_Some_l _ _ _ _ Hx).
  - symmetry. apply lookup_union_l, lookup_singleton_ne. congruence.
Qed.

Lemma store_stored {S} `{RegistryOk S} name bs (s s' : S) :
  blobs s' = blobs s ∪ store name bs -> Forall (stored name s') bs.
Proof.
  intros Hb. apply Forall_forall. intros b Hin. unfold stored. rewrite Hb. apply lookup_union_is_Some. right.
  clear Hb. induction bs as [|c bs IH]; [by apply elem_of_nil in Hin|]. rewrite store_cons, lookup_insert_is_Some'.
  apply elem_of_cons in Hin as [->|Hin]; [by left|right; by apply IH].
Qed.

(** The registry accepts the push's repository and tag. *)
Definition names_ok {S} `{RefNames S} (opts : PushOptions) : Prop :=
  repo_ok (po_Name opts) /\ tag_ok (cmpOr (po_Tag opts) "latest").

Section Refine.
Context {S : Type} `{RegistryOk S} `{!Serving S} `{Zstd}.
Context (env : PushEnv) (opts : PushOptions) (Hnames : names_ok opts).

(** The local machine does its part: temporary files work and encoders are
    available. *)
Definition local_ok : Prop := (forall title, pe_temp env title = sound_file) /\ zstd_NewWriter (po_ZstdLevel opts) = None.

Definition uploaded (name : string) (bs : list bytes) (s s' : S) : Prop :=
  extends s s' /\ blobs s' = blobs s ∪ store name bs /\ (serving s -> serving s').

Definition upload_failed_from (s s' : S) : Prop := extends s s' /\ ~ (local_ok /\ serving s).

Lemma put_wp b rewind (s : S) :
  let name := po_Name opts in
  (local_ok -> serving s -> rewind = None) ->
  wp (putBlobIfMissing name (digest_of b) b rewind (Z.of_nat (length b)))
    (fun _ => uploaded name [b] s) (upload_failed_from s) s.
Proof.
  intros name Hrw. destruct Hnames as [Hrepo _].
  unfold putBlobIfMissing. apply wp_bind, wp_wrapM. unfold wp at 1.
  pose proof (fun x => has_blob_ok name (digest_of b) s x Hrepo) as Hok.
  pose proof (has_blob_state name (digest_of b) s) as [Hb Hm].
  pose proof (serving_has name b s Hrepo) as Hs.
  pose proof (serving_has_after name (digest_of b) s) as Hsa.
  destruct (HasBlob name (digest_of b) s) as [[ex|e|p] s1]; cbn [fst snd] in *.
  2,3: split; [constructor; by rewrite ?Hb, ?Hm|]; intros [_ Hsv]; destruct (Hs Hsv); discriminate.
  assert (extends s s1) as Hext by (constructor; by rewrite ?Hb, ?Hm).
  destruct ex.
  - apply wp_ret. split_and!; [done| |done]. rewrite Hb. by apply store_there, (Hok true).
  - assert (blobs s !! (name, digest_of b) = None) as Hn.
    { destruct (blobs s !! (name, digest_of b)) eqn:E; [|done].
      assert (false = true) by (apply (Hok false eq_refl); eauto). done. }
    destruct rewind as [e|]; [apply wp_lift; split; [done|]; intros [Hl Hsv]; by specialize (Hrw Hl Hsv)|].
    apply wp_wrapM. unfold wp.
    pose proof (put_blob_ok name b (Z.of_nat (length b)) s1 Hrepo) as Hpo.
    pose proof (put_blob_fail name b (Z.of_nat (length b)) s1 Hrepo) as Hpf.
    pose proof (put_blob_manifests name (digest_of b) b (Z.of_nat (length b)) s1) as Hpm.
    pose proof (serving_put name b s1 Hrepo) as Hsp.
    pose proof (serving_put_after name (digest_of b) b (Z.of_nat (length b)) s1) as Hsp'.
    assert (extends s1 (PutBlob name (digest_of b) b (Z.of_nat (length b)) s1).2) as Hext2.
    { rewrite <- Hb in Hn. constructor; [|done|].
      - destruct Hpf as [->| ->]; [done|]. by apply insert_subseteq.
      - intros Ha. destruct Hpf as [->| ->]; [done|]. by apply map_Forall_insert_2. }
    destruct (PutBlob name (digest_of b) b (Z.of_nat (length b)) s1) as [[[]|e|p] s2]; cbn [fst snd] in *.
    + split_and!; [by etransitivity| |by auto]. rewrite Hpo, Hb by done. by apply store_put.
    + split; [by etransitivity|]. intros [_ Hsv]. specialize (Hsp (Hsa Hsv)). discriminate.
    + split; [by etransitivity|]. intros [_ Hsv]. specialize (Hsp (Hsa Hsv)). discriminate.
Qed.

Lemma uploadSpooled_wp title mt write b (s : S) :
  let name := po_Name opts in
  (local_ok -> write None = Ok b) -> (forall room b', write room = Ok b' -> b' = b) ->
  wp (uploadSpooled env name title mt write)
    (fun d s' => d = blob_descriptor mt title 0 1 b /\ uploaded name [b] s s') (upload_failed_from s) s.
Proof.
  intros name Hw Hw'. unfold uploadSpooled.
  assert (local_ok -> pe_temp env title = sound_file) as Hs by (intros [Ht _]; apply Ht).
  destruct (pe_temp env title) as [cr room tell rw]. cbn [tf_create tf_room tf_tell tf_rewind].
  destruct cr as [e|]; [apply wp_lift; split; [done|]; intros [Hl _]; by specialize (Hs Hl)|].
  apply wp_bind, wp_lift. destruct (write room) as [b'|e|p] eqn:Ew.
  - rewrite (Hw' room b') by done.
    destruct tell as [e|]; [apply wp_lift; split; [done|]; intros [Hl _]; by specialize (Hs Hl)|].
    apply wp_bind. eapply wp_mono; [apply put_wp; intros Hl _; by injection (Hs Hl)| |done].
    cbn. intros _ s' Hu. by apply wp_ret.
  - split; [done|]. intros [Hl _]. injection (Hs Hl) as ->. specialize (Hw Hl). congruence.
  - split; [done|]. intros [Hl _]. injection (Hs Hl) as ->. specialize (Hw Hl). congruence.
Qed.

(** A complete body: the file gets all of it, or as much as it takes. *)
Lemma copy_entry_good body b :
  good_body body b -> copy_entry body (Z.of_nat (length b)) None = Ok (None, b).
Proof.
  intros Hg. unfold copy_entry.
  destruct (io_copy_limit_good (W := limited) (3 + weight body) body b (limited_new None) 0 Hg ltac:(lia) I)
    as (st & E). by rewrite E.
Qed.

Lemma copy_entry_room body b room spooled :
  good_body body b -> copy_entry body (Z.of_nat (length b)) room = Ok (None, spooled) -> spooled = b.
Proof.
  intros Hg. unfold copy_entry. destruct (io_copy _ _ _ _ _) as [[[[m err] st] t]|] eqn:E; [|done]. intros [= -> <-].
  apply (io_copy_complete (W := limited) limit_read _ _ (body, Z.of_nat (length b)) b (weight body)) with (2 := limit_src) in E.
  - by rewrite E.
  - exact limited_honest.
  - by split_and!.
Qed.

(** What the two kinds of entry spool of a complete body. *)
Lemma tar_entry_spooled body b room spooled :
  good_body body b ->
  ('(err, data) ← copy_entry body (Z.of_nat (length b)) room;
   match err with Some e => Err (Ewrap "buffer entry" e) | None => Ok data end) = Ok spooled -> spooled = b.
Proof.
  intros Hg H'. apply bind_Ok in H' as ([[e|] data] & Hc & [= <-]). by eapply copy_entry_room.
Qed.

Lemma uploadChunk_wp mt title i n raw (s : S) :
  let blob := if IsZstdMediaType mt then EncodeAll (po_ZstdLevel opts) raw else raw in
  wp (uploadChunk opts mt title i n raw)
    (fun d s' => d = blob_descriptor mt title i n blob /\ uploaded (po_Name opts) [blob] s s')
    (upload_failed_from s) s.
Proof.
  intros blob. unfold uploadChunk. apply wp_bind. eapply wp_mono; [by apply put_wp| |done].
  cbn. intros _ s' Hu. by apply wp_ret.
Qed.

(** *** The pipeline, [ctx] live *)

(** From a live group: what was added, and that a failed group means a
    machine or registry that does not serve. *)
Definition piped (bs : list bytes) (st st' : push_state) : Prop :=
  extends (us_reg st) (us_reg st')
  /\ (us_eg st' = None -> blobs (us_reg st') = blobs (us_reg st) ∪ store (po_Name opts) bs /\ (serving (us_reg st) -> serving (us_reg st')))
  /\ (us_eg st' <> None -> ~ (local_ok /\ serving (us_reg st))).

Definition pipe_failed (st st' : push_state) : Prop :=
  extends (us_reg st) (us_reg st') /\ ~ (local_ok /\ serving (us_reg st)).

Lemma piped_trans bs bs' st st1 st2 :
  us_eg st1 = None -> piped bs st st1 -> piped bs' st1 st2 -> piped (bs ++ bs') st st2.
Proof.
  intros E (He & Hok & _) (He2 & Hok2 & Hf2). destruct (Hok E) as [Hs Hsv]. split_and!.
  - by etransitivity.
  - intros E2. destruct (Hok2 E2) as [Hs2 Hsv2]. split; [|by auto]. by rewrite Hs2, Hs, store_app, (assoc_L (∪)).
  - intros E2 [Hl Hsv']. apply (Hf2 E2). auto.
Qed.

Lemma pipe_failed_trans bs st st1 st2 :
  us_eg st1 = None -> piped bs st st1 -> pipe_failed st1 st2 -> pipe_failed st st2.
Proof.
  intros E (He & Hok & _) [He2 Hf2]. destruct (Hok E) as [Hs Hsv]. split; [by etransitivity|].
  intros [Hl Hsv']. apply Hf2. auto.
Qed.

Lemma eg_Go_wp msg title mt i n raw st :
  us_eg st = None ->
  let blob := if IsZstdMediaType mt then EncodeAll (po_ZstdLevel opts) raw else raw in
  wp (eg_Go (wrapM msg (uploadChunk opts mt title i n raw)))
    (fun d st' => piped [blob] st st' /\
       ((us_eg st' = None /\ d = Some (blob_descriptor mt title i n blob)) \/ us_eg st' <> None))
    (pipe_failed st) st.
Proof.
  intros E blob. unfold wp, eg_Go.
  pose proof (wp_wrapM msg _ _ _ _ (uploadChunk_wp mt title i n raw (us_reg st))) as Hw. unfold wp in Hw.
  destruct (wrapM msg _ (us_reg st)) as [[d|e|p] s']; cbn in *.
  - destruct Hw as [-> (He & Hs & Hsv)]. split; [|left; by rewrite E]. by split_and!; cbn; rewrite ?E.
  - destruct Hw as [He Hf]. rewrite E. split; [|by right]. by split_and!.
  - exact Hw.
Qed.

Lemma enqueue_loop_dead title mt chunkSize count n body rem st :
  us_eg st <> None ->
  wp (enqueue_loop None opts title mt chunkSize count n body rem) (fun _ st' => st' = st) (fun st' => st' = st) st.
Proof.
  intros E. destruct n as [|n]; [done|]. cbn. unfold wp, eg_err. by destruct (us_eg st).
Qed.

Lemma enqueue_loop_wp title mt chunkSize count n body b st :
  us_eg st = None -> (0 < chunkSize)%Z -> good_body body b ->
  n = length (split (Z.to_nat chunkSize) b) -> n <= count ->
  let blobs := (fun c => if IsZstdMediaType mt then EncodeAll (po_ZstdLevel opts) c else c) <$> split (Z.to_nat chunkSize) b in
  wp (enqueue_loop None opts title mt chunkSize count n body (Z.of_nat (length b)))
    (fun descs st' => piped blobs st st' /\
       (us_eg st' = None -> descs = imap (fun i => blob_descriptor mt title (count - n + i) count) blobs))
    (pipe_failed st) st.
Proof.
  intros E Hc. revert body b st E. induction n as [|n IH]; intros body b st E Hg Hn Hle blobs.
  { apply (wp_ret []). subst blobs. destruct (split (Z.to_nat chunkSize) b); [|done]. cbn.
    split; [|done]. split_and!; [done|split; [apply store_none|done]|]. by rewrite E. }
  assert (b <> []) as Hb by (intros ->; cbn in Hn; discriminate).
  rewrite split_step in Hn by (done || lia). cbn [length] in Hn. injection Hn as Hn.
  subst blobs. rewrite split_step by (done || lia). cbn [fmap list_fmap].
  set (want := Z.min chunkSize (Z.of_nat (length b))).
  assert (take (Z.to_nat want) b = take (Z.to_nat chunkSize) b) as Ht.
  { subst want. destruct (Z.min_spec chunkSize (Z.of_nat (length b))) as [[_ ->]|[Hm ->]]; [done|].
    rewrite Nat2Z.id. rewrite !take_ge; [done|lia..]. }
  assert (drop (Z.to_nat want) b = drop (Z.to_nat chunkSize) b) as Hd.
  { subst want. destruct (Z.min_spec chunkSize (Z.of_nat (length b))) as [[_ ->]|[Hm ->]]; [done|].
    rewrite Nat2Z.id. rewrite !drop_ge; [done|lia..]. }
  assert (Z.of_nat (length b) - want = Z.of_nat (length (drop (Z.to_nat chunkSize) b)))%Z as Hrem.
  { rewrite <- Hd, length_drop. subst want. lia. }
  destruct (read_full_good (1 + weight body) body b (Z.to_nat want) [] Hg) as (body' & Er & Hg');
    [lia|cbn; lia|subst want; cbn; lia|].
  cbn [length app] in *. rewrite Nat.sub_0_r in Er, Hg'. rewrite Ht in Er. rewrite Hd in Hg'.
  set (body1 := body') in *. set (rest := drop (Z.to_nat chunkSize) b) in *.
  set (data := take (Z.to_nat chunkSize) b) in *.
  eapply wp_eq.
  { cbn [enqueue_loop]. unfold eg_err. rewrite E. fold want.
    change (2 + weight body) with (Datatypes.S (1 + weight body)). rewrite Er, Hrem. reflexivity. }
  apply wp_bind. eapply wp_mono; [by apply eg_Go_wp| |done]. cbn beta.
  intros d st1 [Hp Hd1]. apply wp_bind.
  destruct Hd1 as [[E1 ->] | E1].
  - eapply wp_mono; [apply (IH body1 rest st1 E1 Hg'); [done|lia]| |].
    + cbn beta. intros descs st2 [Hp2 Hds]. apply wp_ret. split.
      * by apply (piped_trans [_] _ st st1 st2).
      * intros E2. rewrite (Hds E2). cbn [imap]. f_equal.
        -- f_equal. lia.
        -- apply imap_ext. intros i x _. cbn. f_equal. lia.
    + intros st2. by eapply pipe_failed_trans.
  - eapply wp_mono; [by apply enqueue_loop_dead| |]; cbn beta.
    + intros descs st2 ->. apply wp_ret. split; [|by intros]. destruct Hp as (He & _ & Hf). by split_and!.
    + intros st2 ->. destruct Hp as (He & _ & Hf). split; [done|auto].
Qed.

Lemma chunk_count chunkSize (b : bytes) :
  (0 < chunkSize <= 2 ^ 32)%Z -> (Z.of_nat (length b) <= 2 ^ 20 * chunkSize)%Z ->
  godiv (wrap64 (wrap64 (Z.of_nat (length b) + chunkSize) - 1)) chunkSize
    = Z.of_nat (length (split (Z.to_nat chunkSize) b))
  /\ (Z.of_nat (length (split (Z.to_nat chunkSize) b)) <= 2 ^ 20)%Z.
Proof.
  intros Hc Hb. rewrite split_length by lia. rewrite Z2Nat.id by lia.
  rewrite (wrap64_id (_ + _)), wrap64_id by (apply in_int64_spec; nia). unfold godiv.
  rewrite Z.quot_div_nonneg by nia. split; [done|].
  apply Z.lt_succ_r. apply Z.div_lt_upper_bound; nia.
Qed.

Lemma cut_media compress name :
  IsZstdMediaType (mode_media (Cut compress) name) = compress.
Proof. destruct compress; [apply is_zstd_ZstdMediaType|apply not_zstd_for_file]. Qed.

Lemma enqueueChunks_wp chunkSize compress hdr body b st :
  us_eg st = None -> (0 < chunkSize <= 2 ^ 32)%Z -> good_body body b ->
  h_Size hdr = Z.of_nat (length b) -> (h_Size hdr <= 2 ^ 20 * chunkSize)%Z ->
  let blobs := encode_piece opts (Cut compress) <$> split (Z.to_nat chunkSize) b in
  wp (enqueueChunks None opts hdr body chunkSize compress)
    (fun descs st' => piped blobs st st' /\
       (us_eg st' = None -> descs =
          imap (fun i => blob_descriptor (mode_media (Cut compress) (h_Name hdr)) (h_Name hdr) i (length blobs)) blobs))
    (pipe_failed st) st.
Proof.
  intros E Hc Hg Hs Hcap blobs. rewrite Hs in Hcap. destruct (chunk_count chunkSize b Hc Hcap) as [Hq Hle].
  unfold enqueueChunks. rewrite Hs, Hq.
  destruct (Z.ltb_spec (2 ^ 20) (Z.of_nat (length (split (Z.to_nat chunkSize) b)))); [lia|].
  destruct (Z.ltb_spec (Z.of_nat (length (split (Z.to_nat chunkSize) b))) 0); [lia|].
  rewrite Nat2Z.id. change (if compress then _ else _) with (mode_media (Cut compress) (h_Name hdr)).
  eapply wp_mono; [apply (enqueue_loop_wp _ _ _ _ _ body b st E); [lia|done|done|done]| |done].
  cbn beta. rewrite cut_media. subst blobs. rewrite length_fmap, Nat.sub_diag. cbn [Nat.add].
  intros descs st' [Hp Hd]. by destruct compress.
Qed.

(** Why a step may fail: the reference fails, or something is down. *)
Definition step_failed {A} (spec : result A) (st st' : push_state) : Prop :=
  extends (us_reg st) (us_reg st') /\ (is_ok spec = true -> ~ (local_ok /\ serving (us_reg st))).

Lemma onReg_wp {A} (m : M S A) Q F st :
  wp m (fun a s' => Q a {| us_reg := s'; us_eg := us_eg st |}) (fun s' => F {| us_reg := s'; us_eg := us_eg st |}) (us_reg st) ->
  wp (onReg m) Q F st.
Proof. unfold wp, onReg. destruct (m (us_reg st)) as [[a|e|p] s']; done. Qed.

(** One blob, uploaded whole: the plain and the spooled paths. *)
Lemma single_upload_wp chunkSize m hdr body b msg (st : push_state) :
  us_eg st = None -> good_body body b -> h_Size hdr = Z.of_nat (length b) ->
  m = entry_mode opts chunkSize (Z.of_nat (length b)) ->
  match m with Cut _ => False | _ => True end ->
  wp (wrapM msg (onReg (match m with
                       | Spool => uploadCompressedSpool env (po_ZstdLevel opts) (po_Name opts) hdr body
                       | _ => uploadTarEntry env (po_Name opts) hdr body
                       end)))
    (fun d st' => us_eg st' = None /\ piped (file_blobs opts chunkSize b) st st' /\ [d] = file_descs opts chunkSize (h_Name hdr) b)
    (pipe_failed st) st.
Proof.
  intros E Hg Hs Hm Hc. apply wp_wrapM, onReg_wp. rewrite E. unfold file_descs, file_blobs. rewrite <- Hm.
  destruct m; [| |done]; cbn [pieces fmap list_fmap encode_piece imap length mode_media].
  - eapply wp_mono; [apply (uploadSpooled_wp _ _ _ b)| |]; cbn beta.
    + rewrite Hs, (copy_entry_good _ b) by done. done.
    + intros room b'. rewrite Hs. by apply tar_entry_spooled.
    + intros d s' [-> (He & Hf & Hsv)]. by split_and!.
    + intros s' [He Hf]. by split.
  - eapply wp_mono; [apply (uploadSpooled_wp _ _ _ (stream_encode (po_ZstdLevel opts) b))| |]; cbn beta.
    + intros [_ ->]. by rewrite Hs, (copy_entry_good _ b).
    + intros room b'. destruct (zstd_NewWriter _); [done|]. rewrite Hs, (copy_entry_good _ b) by done.
      cbn [mbind result_bind]. destruct room as [[r e]|]; [|by intros [= <-]].
      destruct (stream_write_fails _ _ _); [done|]. destruct (_ <? _); [done|]. by intros [= <-].
    + intros d s' [-> (He & Hf & Hsv)]. by split_and!.
    + intros s' [He Hf]. by split.
Qed.

Lemma entry_file_wp chunkSize hdr body b acc st :
  us_eg st = None -> (0 <= chunkSize <= 2 ^ 32)%Z ->
  good_entry opts chunkSize (hdr, body) (hdr, b) ->
  h_Name hdr <> snapshotJSONName -> h_Typeflag hdr = TypeReg ->
  wp (entry_file None env opts chunkSize hdr body acc)
    (fun acc' st' => piped (file_blobs opts chunkSize b) st st'
       /\ (us_eg st' = None -> spec_entry opts chunkSize hdr b acc = Ok acc'))
    (step_failed (spec_entry opts chunkSize hdr b acc) st) st.
Proof.
  intros E Hc [_ Hg Hs Hcap] Hn Ht. cbn [fst snd] in *. unfold entry_file, spec_entry.
  apply String.eqb_neq in Hn as ->. rewrite Ht, Ascii.eqb_refl. cbn [negb].
  apply wp_bind, wp_lift. destruct (sparseFileMeta hdr) as [meta|e|p];
    [|by split|by split]. cbn [mbind result_bind is_ok]. set (files := <[_ := _]> _).
  set (spec := Ok _).
  assert (forall st', pipe_failed st st' -> step_failed spec st st') as Hfail by (intros st' [? ?]; by split).
  set (compress := (0 <? po_ZstdLevel opts)%Z && (compressMinBytes <=? h_Size hdr)%Z).
  set (cut := (0 <? chunkSize)%Z && (compress || (chunkSize <? h_Size hdr)%Z)).
  assert (entry_mode opts chunkSize (Z.of_nat (length b)) = if cut then Cut compress else if compress then Spool else Whole)
    as Hm by (unfold entry_mode; by rewrite <- Hs).
  rewrite Hs, Hm in Hcap. subst spec. rewrite Hm. destruct cut eqn:Ecut.
  - apply andb_true_iff in Ecut as [Hpos _]. apply Z.ltb_lt in Hpos. rewrite <- Hs in Hcap.
    apply wp_bind. eapply wp_mono; [apply (enqueueChunks_wp chunkSize compress hdr body b st E); (done || lia)| |done].
    unfold file_blobs, file_descs, file_blobs. rewrite Hm. intros descs st' [Hp Hd]. apply wp_ret. split; [done|].
    intros E'. rewrite (Hd E'). cbn [mode_encoded]. by rewrite orb_true_r.
  - assert (wp (wrapM ("upload " +:+ h_Name hdr)
                 (onReg (if compress then uploadCompressedSpool env (po_ZstdLevel opts) (po_Name opts) hdr body
                         else uploadTarEntry env (po_Name opts) hdr body)))
              (fun d st' => us_eg st' = None /\ piped (file_blobs opts chunkSize b) st st'
                 /\ [d] = file_descs opts chunkSize (h_Name hdr) b) (pipe_failed st) st) as Hw.
    { eapply wp_mono; [|intros d st' Hd; exact Hd|done].
      pose proof (single_upload_wp chunkSize (if compress then Spool else Whole) hdr body b
                    ("upload " +:+ h_Name hdr) st E Hg Hs) as Hw.
      destruct compress; apply Hw; done. }
    destruct compress; apply wp_bind; (eapply wp_mono; [exact Hw| |done]); intros d st' (E' & Hp & Hd);
      apply wp_ret; (split; [done|]); intros _; rewrite Hd; cbn [mode_encoded]; by rewrite ?orb_true_r, ?orb_false_r.
Qed.

Lemma entry_step_wp chunkSize hdr body b acc st :
  us_eg st = None -> (0 <= chunkSize <= 2 ^ 32)%Z -> good_entry opts chunkSize (hdr, body) (hdr, b) ->
  wp (entry_step None env opts chunkSize hdr body acc)
    (fun acc' st' => piped (entry_blobs opts chunkSize hdr b) st st'
       /\ (us_eg st' = None -> spec_entry opts chunkSize hdr b acc = Ok acc'))
    (step_failed (spec_entry opts chunkSize hdr b acc) st) st.
Proof.
  intros E Hc Hge. pose proof (gb_content _ _ (ge_body _ _ _ _ Hge)) as Hb. cbn in Hb.
  assert (piped [] st st) as Hnil by (split_and!; [done|split; [apply store_none|done]|by rewrite E]).
  unfold entry_step, entry_blobs. destruct (String.eqb_spec (h_Name hdr) snapshotJSONName) as [Hn|Hn]; cbn [orb].
  - unfold decodeExportEnvelope. rewrite Hb. unfold spec_entry. rewrite Hn, String.eqb_refl.
    apply wp_bind, wp_lift. destruct (decode_envelope b) as [cfg|e|p]; [by apply wp_ret|by split|by split].
  - destruct (Ascii.eqb_spec (h_Typeflag hdr) TypeReg) as [Ht|Ht]; cbn [negb].
    + destruct (Z.ltb_spec (h_Size hdr) 0) as [Hlt|_].
      { pose proof (ge_size _ _ _ _ Hge) as Hs. cbn in Hs. lia. }
      by apply entry_file_wp.
    + apply wp_ret. split; [done|]. intros _. unfold spec_entry.
      apply String.eqb_neq in Hn as ->. apply Ascii.eqb_neq in Ht as ->. done.
Qed.

Lemma read_loop_wp chunkSize entries entries' acc st :
  us_eg st = None -> (0 <= chunkSize <= 2 ^ 32)%Z -> Forall2 (good_entry opts chunkSize) entries entries' ->
  wp (read_loop None env opts chunkSize entries EOF acc)
    (fun acc' st' => piped (stream_blobs opts chunkSize entries') st st'
       /\ (us_eg st' = None -> spec_stream opts chunkSize entries' acc = Ok acc'))
    (step_failed (spec_stream opts chunkSize entries' acc) st) st.
Proof.
  intros E Hc HF. revert acc st E. induction HF as [|[hdr body] [hdr' b] es es' Hge HF IH]; intros acc st E.
  - eapply wp_eq; [cbn [read_loop]; unfold eg_err; by rewrite E|].
    apply (wp_lift (Ok acc)). split; [|done]. split_and!; [done|split; [apply store_none|done]|by rewrite E].
  - assert (hdr' = hdr) as -> by apply (ge_hdr _ _ _ _ Hge).
    eapply wp_eq; [cbn [read_loop]; unfold eg_err; rewrite E; reflexivity|].
    apply wp_bind. eapply wp_mono; [by apply entry_step_wp| |].
    + cbn beta. intros acc1 st1 [Hp Hs1]. destruct (us_eg st1) eqn:E1.
      * apply wp_eq with (m' := mret acc1); [destruct es as [|[]]; cbn [read_loop]; unfold eg_err; by rewrite E1|].
        apply wp_ret. destruct Hp as (He & _ & Hf). rewrite E1 in Hf.
        split; [|by rewrite E1]. split_and!; [done|by rewrite E1|]. intros _. by apply Hf.
      * cbn [spec_stream]. rewrite (Hs1 eq_refl). cbn [mbind result_bind].
        eapply wp_mono; [by apply IH| |]; cbn beta.
        -- intros acc2 st2 [Hp2 Hs2]. split; [|done]. by apply (piped_trans _ _ st st1 st2).
        -- intros st2 [He2 Hf2]. destruct Hp as (He & Hok & _). destruct (Hok E1) as [_ Hsv].
           split; [by etransitivity|]. intros Hspec [Hl Hs]. apply (Hf2 Hspec). auto.
    + intros st1 [He Hf]. split; [done|]. cbn [spec_stream]. intros Hspec. apply Hf.
      by destruct (spec_entry opts chunkSize hdr b acc).
Qed.

Definition push_failed {A} (spec : result A) (s s' : S) : Prop :=
  extends s s' /\ (is_ok spec = true -> ~ (local_ok /\ serving s)).

Lemma readAndUploadEntries_wp w chunkSize ts entries (s : S) :
  pipelineParams opts = Ok (w, chunkSize) -> good_stream opts chunkSize ts entries ->
  wp (readAndUploadEntries None env opts ts)
    (fun ue s' => spec_entries opts chunkSize entries = Ok ue
       /\ uploaded (po_Name opts) (stream_blobs opts chunkSize entries) s s')
    (push_failed (spec_entries opts chunkSize entries) s) s.
Proof.
  intros Hp [HF Hend]. pose proof (pipelineParams_chunk _ _ _ Hp) as Hc.
  unfold wp, readAndUploadEntries. rewrite Hp, Hend.
  destruct (if (0 <? po_ZstdLevel opts)%Z && (0 <? chunkSize)%Z then zstd_NewWriter (po_ZstdLevel opts) else None)
    as [encErr|] eqn:Ez.
  { split; [done|]. intros _ [[_ Hz] _]. destruct (_ && _); congruence. }
  pose proof (read_loop_wp chunkSize (ts_entries ts) entries loop_init {| us_reg := s; us_eg := None |}
                eq_refl ltac:(lia) HF) as Hw.
  unfold wp in Hw. unfold spec_entries. destruct (read_loop _ _ _ _ _ _ _ _) as [[acc|e|p] st]; cbn [us_reg] in *.
  - destruct Hw as [(He & Hok & Hf) Hs]. unfold settle. destruct (us_eg st) as [e|] eqn:E.
    + split; [done|]. intros _. by apply Hf.
    + rewrite (Hs eq_refl). destruct (Hok eq_refl). by split.
  - destruct Hw as [He Hf]. split; [done|]. intros Hspec. apply Hf. by destruct (spec_stream _ _ _ _).
  - destruct Hw as [He Hf]. split; [done|]. intros Hspec. apply Hf. by destruct (spec_stream _ _ _ _).
Qed.

(** What a push leaves behind when it succeeds: the registry as it was, the
    planned manifest under the tag, and the planned blobs it did not have; no
    other manifest and no other blob. *)
Record published (p : push_plan) (s s' : S) : Prop := {
  pub_manifest : manifests s' =
    <[(po_Name opts, cmpOr (po_Tag opts) "latest") := (manifest_bytes (pp_manifest p), MediaTypeOCIManifest)]> (manifests s);
  pub_blobs : blobs s' = blobs s ∪ store (po_Name opts) (pp_blobs p);
  pub_addressed : addressed (blobs s) -> addressed (blobs s');
  pub_stored : Forall (stored (po_Name opts) s') (pp_blobs p)
}.

Lemma Push_wp `{CocoonRunner} w chunkSize ex entries (s : S) :
  po_Name opts <> "" -> pipelineParams opts = Ok (w, chunkSize) ->
  Export (cmpOr (po_LocalName opts) (po_Name opts)) = Ok ex -> ex_wait ex = None ->
  good_stream opts chunkSize (ex_stream ex) entries ->
  wp (Push None env opts)
    (fun _ s' => exists p, plan_push opts chunkSize env entries = Ok p /\ published p s s')
    (fun _ => is_ok (plan_push opts chunkSize env entries) = true -> ~ (local_ok /\ serving s)) s.
Proof.
  destruct Hnames as [Hrepo Htag]. intros Hn Hp Hex Hwait Hgs. pose proof (session_state s) as [Hsb Hsm]. pose proof (serving_session s) as Hss.
  set (s0 := UploadSession s) in *.
  assert (wp (push_export None env opts (cmpOr (po_Tag opts) "latest") ex)
    (fun _ s' => exists p, plan_push opts chunkSize env entries = Ok p /\ published p s s')
    (fun _ => is_ok (plan_push opts chunkSize env entries) = true -> ~ (local_ok /\ serving s)) s0) as Hw;
    [|unfold wp, Push; apply String.eqb_neq in Hn as ->; by rewrite Hex].
  unfold push_export, publish. rewrite Hwait. apply wp_bind. eapply wp_mono; [by eapply readAndUploadEntries_wp| |]; cbn beta.
  - intros ue s1 [Hue (He1 & Hst1 & Hsv1)]. unfold plan_push. rewrite Hue. cbn [mbind result_bind].
    destruct (ue_cfg ue) as [cfg|]; [|apply (wp_lift (Err _)); cbn; discriminate].
    destruct (snapshotVersionMarkers (ue_encoded ue)) as [sv at_]. cbn [fst snd].
    set (c := snapshot_config env cfg (ue_files ue) sv). apply wp_bind, wp_wrapM. unfold uploadSnapshotConfig.
    apply wp_bind. eapply wp_mono; [by apply put_wp| |]; cbn beta.
    + intros _ s2 (He2 & Hst2 & Hsv2). apply wp_ret, wp_wrapM. unfold wp.
      fold (config_blob c). fold c. fold (config_descriptor c).
      pose proof (put_manifest_ok (po_Name opts) (cmpOr (po_Tag opts) "latest")
        (buildSnapshotManifest env opts (config_descriptor c) (ue_layers ue) at_) MediaTypeOCIManifest s2 Hrepo Htag) as Hpm.
      pose proof (put_manifest_blobs (po_Name opts) (cmpOr (po_Tag opts) "latest")
        (buildSnapshotManifest env opts (config_descriptor c) (ue_layers ue) at_) MediaTypeOCIManifest s2) as Hpb.
      pose proof (serving_manifest (po_Name opts) (cmpOr (po_Tag opts) "latest")
        (buildSnapshotManifest env opts (config_descriptor c) (ue_layers ue) at_) MediaTypeOCIManifest s2 Hrepo Htag) as Hsm'.
      assert (extends s0 s2) as He by (by etransitivity). destruct He as [Heb Hem Hea].
      destruct (PutManifest _ _ _ _ s2) as [[[]|e|pp] s3]; cbn [fst snd] in *.
      * assert (blobs s3 = blobs s ∪ store (po_Name opts) (stream_blobs opts chunkSize entries ++ [config_blob c])) as Hb3
          by (by rewrite Hpb, Hst2, Hst1, Hsb, store_app, (assoc_L (∪))).
        eexists. split; [done|]. constructor; cbn [pp_manifest pp_blobs].
        -- rewrite Hpm, Hem, Hsm by done. done.
        -- exact Hb3.
        -- rewrite Hpb, <- Hsb. done.
        -- by apply (store_stored _ _ s).
      * intros _ [Hl Hsv]. specialize (Hsm' (Hsv2 (Hsv1 (Hss Hsv)))). discriminate.
      * intros _ [Hl Hsv]. specialize (Hsm' (Hsv2 (Hsv1 (Hss Hsv)))). discriminate.
    + intros s2 [_ Hf] _ [Hl Hsv]. apply Hf. auto.
  - intros s1 [_ Hf] Hok [Hl Hsv]. apply Hf; [|auto]. unfold plan_push in Hok. by destruct (spec_entries _ _ _).
Qed.

(** C3: a push succeeds whenever everything around it does its part: on a
    registry that is up, with temporary files and encoders available, a
    complete export stream with valid metadata (the reference [plan_push]
    accepts it) is published, exactly: afterwards the registry holds what it
    held before, the planned blobs of the repository that were missing, each
    under its digest, and the planned manifest under the tag, and nothing
    else. *)
Theorem Push_succeeds `{CocoonRunner} w chunkSize ex entries p (s : S) :
  po_Name opts <> "" -> pipelineParams opts = Ok (w, chunkSize) ->
  Export (cmpOr (po_LocalName opts) (po_Name opts)) = Ok ex -> ex_wait ex = None ->
  good_stream opts chunkSize (ex_stream ex) entries ->
  plan_push opts chunkSize env entries = Ok p -> local_ok -> serving s ->
  exists s', Push None env opts s = (Ok (), s') /\ published p s s'.
Proof.
  intros Hn Hp Hex Hwait Hgs Hplan Hl Hs.
  pose proof (Push_wp w chunkSize ex entries s Hn Hp Hex Hwait Hgs) as Hw. unfold wp in Hw.
  rewrite Hplan in Hw. destruct (Push None env opts s) as [[[]|e|m] s'].
  - destruct Hw as (p' & [= <-] & Hpub). by exists s'.
  - exfalso. by apply Hw.
  - exfalso. by apply Hw.
Qed.

End Refine.

(** What a push that succeeded has published, whether or not the registry
    serves. *)
Lemma Push_published {S} `{RegistryOk S} `{Zstd} `{CocoonRunner} env opts (Hnames : names_ok opts) w chunkSize ex entries (s s' : S) :
  po_Name opts <> "" -> pipelineParams opts = Ok (w, chunkSize) ->
  Export (cmpOr (po_LocalName opts) (po_Name opts)) = Ok ex -> ex_wait ex = None ->
  good_stream opts chunkSize (ex_stream ex) entries -> Push None env opts s = (Ok (), s') ->
  exists p, plan_push opts chunkSize env entries = Ok p /\ published opts p s s'.
Proof.
  intros Hn Hp Hex Hwait Hgs Hrun.
  pose proof (@Push_wp _ _ _ _ _ never _ env opts Hnames _ w chunkSize ex entries s Hn Hp Hex Hwait Hgs) as Hw.
  by eapply wp_run in Hw.
Qed.
