(* ===== verification/PushSafe.v ===== *)
(** * PushSafe: what every push guarantees, whatever its stream

    For any export stream (truncated, malformed, with any metadata), any
    context and any registry that meets [RegistryOk], in success and in
    failure: uploads only add blobs under their own digests, and the manifest
    is published only when every layer and the config it names are stored. *)

From Stdlib Require Import ZArith Lia Ascii String.
From stdpp Require Import base gmap strings list.
From S2P Require Import Prelude GoStrings Sha256 Json Manifest GoIO OciUtil Registry Tar Zstd Snapshot SnapshotPush PushSpec.

Local Open Scope string_scope.
Local Open Scope nat_scope.

Section Safe.
Context {S : Type} `{RegistryOk S} `{Zstd}.
Context (ctx : option error) (env : PushEnv) (opts : PushOptions) (Hnames : names_ok opts).

(** The blob a descriptor names is in the repository. *)
Definition present (s : S) (d : Descriptor) : Prop := is_Some (blobs s !! (po_Name opts, d_Digest d)).

Lemma present_extends s s' d : extends s s' -> present s d -> present s' d.
Proof. intros [Hb _ _] [x Hx]. exists x. by eapply lookup_weaken. Qed.

Lemma put_safe b rewind (s : S) :
  wp (putBlobIfMissing (po_Name opts) (digest_of b) b rewind (Z.of_nat (length b)))
    (fun _ s' => extends s s' /\ stored (po_Name opts) s' b) (extends s) s.
Proof.
  eapply wp_mono; [by apply (@put_wp _ _ _ _ _ never _ env opts Hnames)| |]; cbn beta.
  - intros _ s' (He & Hb & _). apply store_stored, Forall_inv in Hb. by split.
  - by intros s' [He _].
Qed.

Lemma uploadSpooled_safe title mt write (s : S) :
  wp (uploadSpooled env (po_Name opts) title mt write) (fun d s' => extends s s' /\ present s' d) (extends s) s.
Proof.
  unfold uploadSpooled. destruct (tf_create _); [by apply wp_lift|].
  apply wp_bind, wp_lift. destruct (write _) as [b|e|p]; [|done|done].
  destruct (tf_tell _); [by apply wp_lift|]. apply wp_bind. eapply wp_mono; [apply put_safe| |done]. intros _ s' [He Hs]. by apply wp_ret.
Qed.

(** The pipeline: while the group is live, all the descriptors made so far
    are present. *)
Definition safe (st : push_state) (ds : list Descriptor) (st' : push_state) : Prop :=
  extends (us_reg st) (us_reg st') /\ (us_eg st' = None -> us_eg st = None /\ Forall (present (us_reg st')) ds).

Definition ext_pipe (st st' : push_state) : Prop := extends (us_reg st) (us_reg st').

Lemma eg_Go_safe msg mt title i n raw st :
  wp (eg_Go (wrapM msg (uploadChunk opts mt title i n raw)))
    (fun d st' => safe st (match d with Some d => [d] | None => [] end) st' /\ (us_eg st' = None -> is_Some d))
    (ext_pipe st) st.
Proof.
  assert (wp (wrapM msg (uploadChunk opts mt title i n raw)) (fun d s' => extends (us_reg st) s' /\ present s' d)
            (extends (us_reg st)) (us_reg st)) as Hw.
  { apply wp_wrapM. unfold uploadChunk. apply wp_bind. eapply wp_mono; [apply put_safe| |done].
    intros _ s' [He Hs]. by apply wp_ret. }
  unfold wp, eg_Go in *. destruct (wrapM msg _ (us_reg st)) as [[d|e|p] s'].
  - destruct Hw as [He Hp]. split; [|by eexists]. split; [done|]. cbn. intros E. split; [done|]. by constructor.
  - split; [|cbn; by destruct (us_eg st)]. split; [done|]. cbn. by destruct (us_eg st).
  - done.
Qed.

Lemma safe_trans st st1 st2 ds ds' : safe st ds st1 -> safe st1 ds' st2 -> safe st (ds ++ ds') st2.
Proof.
  intros [He Hf] [He2 Hf2]. split; [by etransitivity|]. intros E2. destruct (Hf2 E2) as [E1 Hd2].
  destruct (Hf E1) as [E Hd]. split; [done|]. apply Forall_app. split; [|done].
  eapply Forall_impl; [exact Hd|]. intros d. by apply present_extends.
Qed.

Lemma enqueue_loop_safe title mt chunkSize count n body rem st :
  wp (enqueue_loop ctx opts title mt chunkSize count n body rem) (fun ds st' => safe st ds st') (ext_pipe st) st.
Proof.
  revert body rem st. induction n as [|n IH]; intros body rem st.
  { apply (wp_ret []). split; [done|]. by split. }
  destruct (eg_err ctx st) as [e|] eqn:E.
  { eapply wp_eq with (m' := lift (Err e)); [cbn [enqueue_loop]; by rewrite E|]. by apply wp_lift. }
  destruct (read_full script_read (2 + weight body) body (Z.to_nat (Z.min chunkSize rem)) []) as [[[data|e|p] body']|] eqn:Er.
  2-4: eapply wp_eq; [cbn [enqueue_loop]; rewrite E, Er; reflexivity|]; by (apply wp_lift || done).
  eapply wp_eq; [cbn [enqueue_loop]; rewrite E, Er; reflexivity|].
  apply wp_bind. eapply wp_mono; [apply eg_Go_safe| |done]. cbn beta. intros d st1 [Hs1 Hd].
  apply wp_bind. eapply wp_mono; [apply IH| |]; cbn beta.
  - intros ds st2 Hs2. apply wp_ret. pose proof (safe_trans _ _ _ _ _ Hs1 Hs2) as Hs. split; [apply Hs|].
    intros E2. destruct Hs2 as [_ Hs2]. destruct (Hs2 E2) as [E1 _]. destruct (Hd E1) as [d' ->]. by apply Hs.
  - intros st2 He. unfold ext_pipe in *. destruct Hs1. by etransitivity.
Qed.

Lemma single_safe msg (m : M S Descriptor) st :
  wp m (fun d s' => extends (us_reg st) s' /\ present s' d) (extends (us_reg st)) (us_reg st) ->
  wp (wrapM msg (onReg m)) (fun d st' => safe st [d] st') (ext_pipe st) st.
Proof.
  intros Hw. apply wp_wrapM, onReg_wp. eapply wp_mono; [exact Hw| |done]. cbn.
  intros d s' [He Hp]. split; [done|]. intros E. split; [done|]. by constructor.
Qed.

Definition group_descs (acc : loop_acc) : list Descriptor := concat (cg_descs <$> la_groups acc).

Lemma entry_step_safe chunkSize hdr body acc st :
  wp (entry_step ctx env opts chunkSize hdr body acc)
    (fun acc' st' => exists ds, safe st ds st' /\ group_descs acc' = (group_descs acc ++ ds)%list) (ext_pipe st) st.
Proof.
  assert (safe st [] st) as Hnil by (split; [done|]; by split).
  assert (forall cfg files name ds enc,
    group_descs {| la_cfg := cfg; la_files := files;
      la_groups := (la_groups acc ++ [{| cg_name := name; cg_descs := ds |}])%list; la_encoded := enc |}
    = (group_descs acc ++ ds)%list) as Hadd.
  { intros. unfold group_descs. cbn. rewrite fmap_app, concat_app. cbn. by rewrite app_nil_r. }
  unfold entry_step. destruct (String.eqb _ _).
  { apply wp_bind, wp_lift. destruct (decodeExportEnvelope body); [|done|done]. apply wp_ret.
    exists []. split; [done|]. unfold group_descs. cbn. by rewrite app_nil_r. }
  destruct (negb _); [apply wp_ret; exists []; by rewrite app_nil_r|].
  destruct (_ <? 0)%Z; [by apply wp_lift|]. unfold entry_file. apply wp_bind, wp_lift.
  destruct (sparseFileMeta hdr) as [meta|e|p]; [|done|done].
  destruct (_ && (_ || _)).
  - apply wp_bind. unfold enqueueChunks. destruct (2 ^ 20 <? _)%Z; [by apply wp_lift|].
    destruct (_ <? 0)%Z; [by apply wp_lift|]. eapply wp_mono; [apply enqueue_loop_safe| |done]. cbn beta.
    intros ds st' Hs. apply wp_ret. exists ds. by rewrite Hadd.
  - destruct (_ && _); apply wp_bind; (eapply wp_mono; [apply single_safe, uploadSpooled_safe| |done]); cbn beta;
      intros d st' Hs; apply wp_ret; exists [d]; by rewrite Hadd.
Qed.

Lemma read_loop_safe chunkSize entries last acc st :
  wp (read_loop ctx env opts chunkSize entries last acc)
    (fun acc' st' => exists ds, safe st ds st' /\ group_descs acc' = (group_descs acc ++ ds)%list) (ext_pipe st) st.
Proof.
  assert (forall st acc, exists ds, safe st ds st /\ group_descs acc = (group_descs acc ++ ds)%list) as Hnil.
  { intros st0 acc0. exists []. rewrite app_nil_r. split; [|done]. split; [done|]. by split. }
  revert acc st. induction entries as [|[hdr body] es IH]; intros acc st; destruct (eg_err ctx st) as [e|] eqn:E.
  1,3: eapply wp_eq with (m' := lift (Ok acc)); [cbn [read_loop]; by rewrite E|]; by apply wp_lift.
  - eapply wp_eq with (m' := lift _); [cbn [read_loop]; by rewrite E|]. apply wp_lift. by destruct (errors_Is last IoEOF).
  - eapply wp_eq; [cbn [read_loop]; rewrite E; reflexivity|]. apply wp_bind.
    eapply wp_mono; [apply entry_step_safe| |done]. cbn beta. intros acc1 st1 (ds & Hs & Hd).
    eapply wp_mono; [apply IH| |]; cbn beta.
    + intros acc2 st2 (ds2 & Hs2 & Hd2). exists (ds ++ ds2)%list. split; [by eapply safe_trans|].
      by rewrite Hd2, Hd, (assoc_L (++)).
    + intros st2 He. unfold ext_pipe in *. destruct Hs. by etransitivity.
Qed.

Lemma readAndUploadEntries_safe ts (s : S) :
  wp (readAndUploadEntries ctx env opts ts)
    (fun ue s' => extends s s' /\ Forall (present s') (ue_layers ue)) (extends s) s.
Proof.
  unfold wp, readAndUploadEntries. destruct (pipelineParams opts) as [[w c]|e|p]; [|done|done].
  destruct (if (0 <? po_ZstdLevel opts)%Z && (0 <? c)%Z then zstd_NewWriter (po_ZstdLevel opts) else None); [done|].
  pose proof (read_loop_safe c (ts_entries ts) (ts_end ts) loop_init {| us_reg := s; us_eg := None |}) as Hw.
  unfold wp in Hw. destruct (read_loop _ _ _ _ _ _ _ _) as [[acc|e|p] st]; [|done|done].
  destruct Hw as (ds & [He Hf] & Hd). cbn [us_reg us_eg] in *. unfold settle.
  destruct (us_eg st); [done|]. destruct ctx; [done|]. split; [done|]. cbn [ue_layers].
  fold (group_descs acc). rewrite Hd. cbn. by apply Hf.
Qed.

(** The state a publishing step may leave: the old manifests, or the old ones
    and one whose blobs are all there. *)
Definition publishes_complete (s s' : S) : Prop :=
  blobs s ⊆ blobs s' /\ (addressed (blobs s) -> addressed (blobs s')) /\
  (manifests s' = manifests s
   \/ exists tag m, manifests s' = <[(po_Name opts, tag) := (manifest_bytes m, MediaTypeOCIManifest)]> (manifests s)
        /\ Forall (present s') (m_Config m :: m_Layers m)).

Lemma extends_complete s s' : extends s s' -> publishes_complete s s'.
Proof. intros [Hb Hm Ha]. split_and!; auto. Qed.

Lemma push_export_safe tag ex (s : S) :
  tag_ok tag -> wp (push_export ctx env opts tag ex) (fun _ s' => publishes_complete s s') (publishes_complete s) s.
Proof.
  intros Htag. unfold push_export. apply wp_bind. eapply wp_mono; [apply readAndUploadEntries_safe| |apply extends_complete]; cbn beta.
  intros ue s1 [He1 Hl]. unfold publish.
  destruct (ex_wait ex); [by apply wp_lift, extends_complete|].
  destruct (ue_cfg ue) as [cfg|]; [|by apply wp_lift, extends_complete].
  destruct (snapshotVersionMarkers _) as [sv at_]. apply wp_bind, wp_wrapM. unfold uploadSnapshotConfig.
  apply wp_bind. eapply wp_mono; [apply put_safe| |]; cbn beta.
  2:{ intros s2 He2. apply extends_complete. by etransitivity. }
  intros _ s2 [He2 Hc]. apply wp_ret, wp_wrapM. set (d := Build_Descriptor _ _ _ _ _).
  assert (extends s s2) as He by (by etransitivity).
  assert (Forall (present s2) (d :: ue_layers ue)) as Hall.
  { constructor; [done|]. eapply Forall_impl; [exact Hl|]. intros x. by apply present_extends. }
  assert (publishes_complete s (PutManifest (po_Name opts) tag (buildSnapshotManifest env opts d (ue_layers ue) at_)
            MediaTypeOCIManifest s2).2) as Hdone.
  { destruct He as [Hb Hm Ha]. unfold publishes_complete. rewrite put_manifest_blobs. split_and!; [done..|].
    destruct (put_manifest_fail (po_Name opts) tag (buildSnapshotManifest env opts d (ue_layers ue) at_)
                MediaTypeOCIManifest s2 (proj1 Hnames) Htag) as [-> | ->]; [by left|right].
    exists tag, (snapshot_manifest env opts d (ue_layers ue) at_). rewrite Hm. split; [done|].
    eapply Forall_impl; [exact Hall|]. intros x. unfold present. by rewrite put_manifest_blobs. }
  unfold wp. by destruct (PutManifest _ _ _ _ s2) as [[[]|e|p] s3].
Qed.

(** C4: manifests come last. Whatever the export stream holds, whatever the
    context and however the push ends (success, error or panic), the registry
    afterwards has every blob it had, stays content-addressed, and either its
    manifests are untouched or exactly one was written, whose config blob and
    layer blobs are all in the repository. *)
Theorem Push_manifest_last `{CocoonRunner} (s : S) :
  publishes_complete s (Push ctx env opts s).2.
Proof.
  unfold Push. destruct (String.eqb _ _); [by apply extends_complete|].
  assert (extends s (UploadSession s)) as Hs.
  { destruct (session_state s) as [Hb Hm]. constructor; by rewrite ?Hb, ?Hm. }
  destruct (Export _) as [ex|e|p]; [|by apply extends_complete|by apply extends_complete].
  pose proof (push_export_safe (cmpOr (po_Tag opts) "latest") ex (UploadSession s) (proj2 Hnames)) as Hw.
  assert (publishes_complete (UploadSession s) (push_export ctx env opts (cmpOr (po_Tag opts) "latest") ex (UploadSession s)).2) as Hp.
  { unfold wp in Hw. by destruct (push_export _ _ _ _ _ _) as [[[]|e|p] s']. }
  unfold publishes_complete in *. destruct (session_state s) as [Hb Hm]. by rewrite Hb, Hm in Hp.
Qed.

End Safe.
