(* ===== verification/PushPool.v ===== *)
(** * PushPool: the concurrent push (snapshot/pushpipeline.go)

    [readAndUploadEntries] reads the export stream, cuts files into chunks and
    hands every chunk to a goroutine of an error group with a limit; the
    goroutines compress, probe and upload, sharing the registry and two pools
    of buffers with the reader.  [SnapshotPush] runs each goroutine when it is
    started; here they run as they may: one step per blocking operation or
    registry request, in any interleaving, the caller's context cancelled at
    any moment.  The theorems say that nothing else changes. *)

From Stdlib Require Import ZArith Lia Ascii String.
From stdpp Require Import base gmap strings list relations.
From S2P Require Import Prelude GoStrings Sha256 Json Manifest GoIO OciUtil Registry Tar Zstd Snapshot SnapshotPush PushSpec PushSafe.

Local Open Scope nat_scope.

(** What the reader does with a piece of the stream: upload it itself, or
    hand it to a goroutine, compressed or not; the first chunk of an entry is
    preceded by the loop's own check of the context. *)
Inductive job_kind := Inline | Chunk (zip first : bool).

(** [j_blob]: what is stored for it; [j_desc]: its descriptor. *)
Record job := { j_kind : job_kind; j_blob : bytes; j_desc : Descriptor }.

(** A goroutine: not started, taking an output buffer, encoding into it,
    probing, putting, giving its buffer back, returning, releasing its place
    in the group, over.  [zip]: the buffer it still holds is an output
    buffer. *)
Inductive worker :=
  | WIdle
  | WTakeOut
  | WEncode
  | WHas (zip : bool)
  | WPut (zip : bool)
  | WRelease (zip : bool) (r : option error)
  | WReturn (r : option error)
  | WExit
  | WDone.

(** The reader: at the top of its loop, taking a raw buffer, reading, in
    [eg.Go], uploading by itself, in [eg.Wait], returned. *)
Inductive reader_pos :=
  | MLoop
  | MTake
  | MRead
  | MGo
  | MHas
  | MPut
  | MWait (readErr : option error)
  | MRet (r : option error).

Definition active (w : worker) : nat := match w with WIdle | WDone => 0 | _ => 1 end.

(** Buffers a goroutine and the reader hold. *)
Definition holds_raw (w : worker) : nat :=
  match w with WTakeOut | WEncode | WHas false | WPut false | WRelease false _ => 1 | _ => 0 end.
Definition holds_out (w : worker) : nat :=
  match w with WEncode | WHas true | WPut true | WRelease true _ => 1 | _ => 0 end.
Definition reader_raw (k : job_kind) (m : reader_pos) : nat :=
  match k, m with Chunk _ _, (MRead | MGo) => 1 | _, _ => 0 end.

Lemma holds_raw_active w : holds_raw w <= active w.
Proof. by destruct w as [| | |[]|[]|[]| | |]; cbn; lia. Qed.
Lemma holds_out_active w : holds_out w <= active w.
Proof. by destruct w as [| | |[]|[]|[]| | |]; cbn; lia. Qed.

Section pool.
Context {S : Type} `{RegistryOk S}.
Context (name : string) (workers : nat) (jobs : list job).

(** An error of the stream before piece [i], one while reading (or spooling)
    it, and one of the rewind between its probe and its upload. *)
Context (gap read rewind : nat -> option error).

Abbreviation n := (length jobs).

Record state := PS {
  p_main : reader_pos;
  p_next : nat;
  p_workers : list worker;
  p_raw : nat;
  p_out : nat;
  p_eg : option error;
  p_ctx : option error;
  p_reg : S;
  p_descs : list (option Descriptor)
}.

(** [newBufPool(workers + 1)] twice. *)
Definition start (s : S) : state :=
  PS MLoop 0 (replicate n WIdle) (Datatypes.S workers) (Datatypes.S workers) None None s (replicate n None).

(** [egCtx] is done, and what its [Err] says. *)
Definition cancelled (eg ctx : option error) : bool := bool_decide (is_Some eg) || bool_decide (is_Some ctx).

Definition ctx_error (eg ctx : option error) (e : error) : Prop :=
  ctx = Some e \/ is_Some eg /\ e = Esent CtxCanceled.

(** A registry request as the registry answers it, or failing in any way once
    the context is done. *)
Definition answer {A} (r : result A) : error + A :=
  match r with Ok a => inr a | Err e => inl e | Panic p => inl (Enew p) end.

Inductive probe (b : bytes) (cn : bool) (s : S) : error + bool -> S -> Prop :=
  | probe_answer : probe b cn s (answer (HasBlob name (digest_of b) s).1) (HasBlob name (digest_of b) s).2
  | probe_cancelled e : cn = true -> probe b cn s (inl e) s.

Inductive upload (b : bytes) (cn : bool) (s : S) : option error -> S -> Prop :=
  | upload_answer r s' :
      PutBlob name (digest_of b) b (Z.of_nat (length b)) s = (r, s') ->
      upload b cn s (match answer r with inl e => Some e | inr _ => None end) s'
  | upload_cancelled e s' : cn = true ->
      s' = s \/ s' = (PutBlob name (digest_of b) b (Z.of_nat (length b)) s).2 -> upload b cn s (Some e) s'.

(** [uploadChunk] of a job against the free buffers and the registry. *)
Inductive worker_step (j : job) (cn : bool) : worker * nat * nat * S -> worker * nat * nat * S -> Prop :=
  | w_take raw out s : worker_step j cn (WTakeOut, raw, Datatypes.S out, s) (WEncode, raw, out, s)
  | w_encode raw out s : raw < Datatypes.S workers -> worker_step j cn (WEncode, raw, out, s) (WHas true, Datatypes.S raw, out, s)
  | w_has_yes z raw out s s' : probe (j_blob j) cn s (inr true) s' ->
      worker_step j cn (WHas z, raw, out, s) (WRelease z None, raw, out, s')
  | w_has_no z raw out s s' : probe (j_blob j) cn s (inr false) s' ->
      worker_step j cn (WHas z, raw, out, s) (WPut z, raw, out, s')
  | w_has_fail z e raw out s s' : probe (j_blob j) cn s (inl e) s' ->
      worker_step j cn (WHas z, raw, out, s) (WRelease z (Some e), raw, out, s')
  | w_put z r raw out s s' : upload (j_blob j) cn s r s' ->
      worker_step j cn (WPut z, raw, out, s) (WRelease z r, raw, out, s')
  | w_release_raw r raw out s : raw < Datatypes.S workers ->
      worker_step j cn (WRelease false r, raw, out, s) (WReturn r, Datatypes.S raw, out, s)
  | w_release_out r raw out s : out < Datatypes.S workers ->
      worker_step j cn (WRelease true r, raw, out, s) (WReturn r, raw, Datatypes.S out, s)
  | w_exit raw out s : worker_step j cn (WExit, raw, out, s) (WDone, raw, out, s).

Definition running (ws : list worker) : nat := sum_list (active <$> ws).

Definition kind_at (i : nat) : job_kind := match jobs !! i with Some j => j_kind j | None => Inline end.

Definition spawned (zip : bool) : worker := if zip then WTakeOut else WHas false.

Inductive step : state -> state -> Prop :=
  | step_cancel m nx ws ra ou eg e s ds : step (PS m nx ws ra ou eg None s ds) (PS m nx ws ra ou eg (Some e) s ds)
  | step_worker m nx ws ra ou eg ctx s ds i j w w' ra' ou' s' :
      ws !! i = Some w -> jobs !! i = Some j ->
      worker_step j (cancelled eg ctx) (w, ra, ou, s) (w', ra', ou', s') ->
      step (PS m nx ws ra ou eg ctx s ds) (PS m nx (<[i := w']> ws) ra' ou' eg ctx s' ds)
  | step_return_ok m nx ws ra ou eg ctx s ds i j :
      ws !! i = Some (WReturn None) -> jobs !! i = Some j ->
      step (PS m nx ws ra ou eg ctx s ds) (PS m nx (<[i := WExit]> ws) ra ou eg ctx s (<[i := Some (j_desc j)]> ds))
  | step_return_err m nx ws ra ou eg ctx s ds i e :
      ws !! i = Some (WReturn (Some e)) ->
      step (PS m nx ws ra ou eg ctx s ds)
           (PS m nx (<[i := WExit]> ws) ra ou (Some (default e eg)) ctx s ds)
  | step_gap nx ws ra ou eg ctx s ds e : gap nx = Some e ->
      step (PS MLoop nx ws ra ou eg ctx s ds) (PS (MWait (Some e)) nx ws ra ou eg ctx s ds)
  | step_end ws ra ou eg ctx s ds :
      step (PS MLoop n ws ra ou eg ctx s ds) (PS (MWait None) n ws ra ou eg ctx s ds)
  | step_break nx ws ra ou eg ctx s ds :
      cancelled eg ctx = true -> (forall zip, kind_at nx <> Chunk zip false) ->
      step (PS MLoop nx ws ra ou eg ctx s ds) (PS (MWait None) nx ws ra ou eg ctx s ds)
  | step_ctx nx ws ra ou eg ctx s ds zip first e :
      ctx_error eg ctx e -> kind_at nx = Chunk zip first ->
      step (PS MLoop nx ws ra ou eg ctx s ds) (PS (MWait (Some e)) nx ws ra ou eg ctx s ds)
  | step_enter nx ws ra ou eg ctx s ds :
      nx < n -> cancelled eg ctx = false -> gap nx = None ->
      step (PS MLoop nx ws ra ou eg ctx s ds)
           (PS (match kind_at nx with Inline => MRead | Chunk _ _ => MTake end) nx ws ra ou eg ctx s ds)
  | step_take nx ws ra ou eg ctx s ds :
      step (PS MTake nx ws (Datatypes.S ra) ou eg ctx s ds) (PS MRead nx ws ra ou eg ctx s ds)
  | step_read nx ws ra ou eg ctx s ds : read nx = None ->
      step (PS MRead nx ws ra ou eg ctx s ds)
           (PS (match kind_at nx with Inline => MHas | Chunk _ _ => MGo end) nx ws ra ou eg ctx s ds)
  | step_read_fail nx ws ra ou eg ctx s ds e : read nx = Some e -> ra + reader_raw (kind_at nx) MRead <= Datatypes.S workers ->
      step (PS MRead nx ws ra ou eg ctx s ds)
           (PS (MWait (Some e)) nx ws (ra + reader_raw (kind_at nx) MRead) ou eg ctx s ds)
  | step_go nx ws ra ou eg ctx s ds zip first :
      running ws < workers -> kind_at nx = Chunk zip first ->
      step (PS MGo nx ws ra ou eg ctx s ds) (PS MLoop (Datatypes.S nx) (<[nx := spawned zip]> ws) ra ou eg ctx s ds)
  | step_has_yes nx ws ra ou eg ctx s ds j s' :
      jobs !! nx = Some j -> probe (j_blob j) (cancelled eg ctx) s (inr true) s' ->
      step (PS MHas nx ws ra ou eg ctx s ds)
           (PS MLoop (Datatypes.S nx) ws ra ou eg ctx s' (<[nx := Some (j_desc j)]> ds))
  | step_has_no nx ws ra ou eg ctx s ds j s' :
      jobs !! nx = Some j -> probe (j_blob j) (cancelled eg ctx) s (inr false) s' ->
      step (PS MHas nx ws ra ou eg ctx s ds) (PS MPut nx ws ra ou eg ctx s' ds)
  | step_has_fail nx ws ra ou eg ctx s ds j e s' :
      jobs !! nx = Some j -> probe (j_blob j) (cancelled eg ctx) s (inl e) s' ->
      step (PS MHas nx ws ra ou eg ctx s ds) (PS (MWait (Some e)) nx ws ra ou eg ctx s' ds)
  | step_put nx ws ra ou eg ctx s ds j s' :
      jobs !! nx = Some j -> rewind nx = None -> upload (j_blob j) (cancelled eg ctx) s None s' ->
      step (PS MPut nx ws ra ou eg ctx s ds)
           (PS MLoop (Datatypes.S nx) ws ra ou eg ctx s' (<[nx := Some (j_desc j)]> ds))
  | step_put_fail nx ws ra ou eg ctx s ds j e s' :
      jobs !! nx = Some j -> rewind nx = None -> upload (j_blob j) (cancelled eg ctx) s (Some e) s' ->
      step (PS MPut nx ws ra ou eg ctx s ds) (PS (MWait (Some e)) nx ws ra ou eg ctx s' ds)
  | step_seek_fail nx ws ra ou eg ctx s ds e : rewind nx = Some e ->
      step (PS MPut nx ws ra ou eg ctx s ds) (PS (MWait (Some e)) nx ws ra ou eg ctx s ds)
  | step_wait nx ws ra ou eg ctx s ds e : running ws = 0 ->
      step (PS (MWait e) nx ws ra ou eg ctx s ds) (PS (MRet (settle ctx e eg)) nx ws ra ou eg ctx s ds).

(** ** What uploads do to the registry

    Two goroutines may upload one digest, so an upload may store over what
    another has just stored: nothing disappears and digests still match. *)
Record grows (s s' : S) : Prop := {
  g_keys : forall k, is_Some (blobs s !! k) -> is_Some (blobs s' !! k);
  g_manifests : manifests s' = manifests s;
  g_addressed : addressed (blobs s) -> addressed (blobs s')
}.

#[global] Instance grows_preorder : PreOrder grows.
Proof.
  split; [by constructor|]. intros s1 s2 s3 [Hk Hm Ha] [Hk' Hm' Ha']. constructor; [auto|congruence|auto].
Qed.

Lemma stored_grows s s' b : grows s s' -> stored name s b -> stored name s' b.
Proof. intros [Hk _ _]. apply Hk. Qed.

Context (Hrepo : repo_ok name).

Lemma probe_grows b cn s r s' : probe b cn s r s' -> grows s s'.
Proof.
  intros [|e _]; [|done]. destruct (has_blob_state name (digest_of b) s) as [Hb Hm]. constructor; by rewrite ?Hb, ?Hm.
Qed.

Lemma probe_stored b cn s s' : probe b cn s (inr true) s' -> stored name s' b.
Proof.
  intros Hp. inversion Hp as [Ha Hs|]; subst. unfold stored. rewrite (proj1 (has_blob_state _ _ _)).
  apply (has_blob_ok name (digest_of b) s true); [done| |done].
  by destruct (HasBlob name (digest_of b) s).1; cbn in Ha; simplify_eq.
Qed.

Lemma put_grows b s : grows s (PutBlob name (digest_of b) b (Z.of_nat (length b)) s).2.
Proof.
  pose proof (put_blob_fail name b (Z.of_nat (length b)) s Hrepo) as Hf.
  pose proof (put_blob_manifests name (digest_of b) b (Z.of_nat (length b)) s) as Hm.
  constructor; [|done|].
  - intros k Hk. destruct Hf as [->| ->]; [done|]. destruct (decide (k = (name, digest_of b))) as [->|].
    + by rewrite lookup_insert_eq.
    + by rewrite lookup_insert_ne.
  - intros Ha. destruct Hf as [->| ->]; [done|]. by apply map_Forall_insert_2.
Qed.

Lemma upload_grows b cn s r s' : upload b cn s r s' -> grows s s'.
Proof.
  intros [r' s1 Hr|e s1 _ [->| ->]]; [|done|apply put_grows]. pose proof (put_grows b s) as Hg. by rewrite Hr in Hg.
Qed.

Lemma upload_stored b cn s s' : upload b cn s None s' -> stored name s' b.
Proof.
  intros Hu. inversion Hu as [r s1 Hr Ha|]; subst. destruct r as [[]|e|p]; cbn in Ha; try discriminate.
  pose proof (put_blob_ok name b (Z.of_nat (length b)) s Hrepo) as Hok. rewrite Hr in Hok. cbn in Hok.
  unfold stored. rewrite Hok by done. rewrite lookup_insert_eq. by eexists.
Qed.

(** ** The invariant *)

(** A piece is done: its blob is in the repository, its descriptor in place. *)
Definition done_at (s : S) (ds : list (option Descriptor)) (i : nat) (j : job) : Prop :=
  ds !! i = Some (Some (j_desc j)) /\ stored name s (j_blob j).

Definition worker_ok (s : S) (eg : option error) (ds : list (option Descriptor)) (nx i : nat) (j : job) (w : worker) : Prop :=
  match j_kind j with
  | Inline => w = WIdle /\ (i < nx -> done_at s ds i j)
  | Chunk zip _ =>
      match w with
      | WIdle => nx <= i
      | WTakeOut | WEncode => i < nx /\ zip = true
      | WHas z | WPut z => i < nx /\ zip = z
      | WRelease z r => i < nx /\ zip = z /\ (r = None -> stored name s (j_blob j))
      | WReturn r => i < nx /\ (r = None -> stored name s (j_blob j))
      | WExit | WDone => i < nx /\ (eg = None -> done_at s ds i j)
      end
  end.

Definition main_ok (m : reader_pos) (nx : nat) (ws : list worker) (eg ctx : option error) : Prop :=
  match m with
  | MLoop => nx <= n
  | MTake | MGo => nx < n /\ kind_at nx <> Inline
  | MRead => nx < n
  | MHas | MPut => nx < n /\ kind_at nx = Inline
  | MWait r => nx <= n /\ (r = None -> nx = n \/ is_Some eg \/ is_Some ctx)
  | MRet r => running ws = 0 /\ (r = None -> nx = n /\ eg = None)
  end.

Record pool_inv (s0 : S) (st : state) : Prop := {
  i_workers : length (p_workers st) = n;
  i_descs : length (p_descs st) = n;
  i_main : main_ok (p_main st) (p_next st) (p_workers st) (p_eg st) (p_ctx st);
  i_jobs : forall i j w, jobs !! i = Some j -> p_workers st !! i = Some w ->
    worker_ok (p_reg st) (p_eg st) (p_descs st) (p_next st) i j w;
  i_raw : p_raw st + reader_raw (kind_at (p_next st)) (p_main st) + sum_list (holds_raw <$> p_workers st) = Datatypes.S workers;
  i_out : p_out st + sum_list (holds_out <$> p_workers st) = Datatypes.S workers;
  i_running : running (p_workers st) <= workers;
  i_grows : grows s0 (p_reg st)
}.

Lemma worker_ok_grows s s' eg ds nx i j w : grows s s' -> worker_ok s eg ds nx i j w -> worker_ok s' eg ds nx i j w.
Proof.
  intros Hg. pose proof (stored_grows s s' (j_blob j) Hg) as Hs. unfold worker_ok, done_at.
  destruct (j_kind j), w; naive_solver.
Qed.

Lemma worker_step_ok j cn w ra ou s w' ra' ou' s' :
  worker_step j cn (w, ra, ou, s) (w', ra', ou', s') ->
  grows s s' /\ ra' + holds_raw w' = ra + holds_raw w /\ ou' + holds_out w' = ou + holds_out w
  /\ active w' <= active w /\ active w = 1
  /\ forall eg ds nx i, worker_ok s eg ds nx i j w -> worker_ok s' eg ds nx i j w'.
Proof.
  intros Hst. inversion Hst; subst; cbn [holds_raw holds_out active].
  all: try match goal with Hp : probe _ _ _ _ _ |- _ =>
    pose proof (probe_grows _ _ _ _ _ Hp); try pose proof (probe_stored _ _ _ _ Hp) end.
  all: try match goal with Hp : upload _ _ _ ?r _ |- _ =>
    pose proof (upload_grows _ _ _ _ _ Hp); assert (r = None -> stored name s' (j_blob j)) by (intros ->; by eapply upload_stored) end.
  all: (split_and!; [done|try destruct z; lia..|]); intros eg ds nx i; unfold worker_ok; destruct (j_kind j); naive_solver.
Qed.

Lemma running_active ws i w : ws !! i = Some w -> active w = 1 -> running ws <> 0.
Proof. intros Hw Ha Hr. pose proof (sum_pos active ws i w Hw). unfold running in Hr. lia. Qed.

(** The reader's position when a goroutine moves: it has not returned. *)
Lemma main_ok_worker m nx ws ws' eg eg' ctx i w :
  ws !! i = Some w -> active w = 1 -> (is_Some eg -> is_Some eg') ->
  main_ok m nx ws eg ctx -> main_ok m nx ws' eg' ctx.
Proof.
  intros Hw Ha He. pose proof (running_active _ _ _ Hw Ha). destruct m as [| | | | | |r|r]; cbn; [done..| |naive_solver].
  intros [? Hr]. split; [done|]. intros ->. destruct (Hr eq_refl) as [|[|]]; auto.
Qed.

(** Changing goroutine [k] changes what holds of [k] only. *)
Lemma workers_insert (P Q : nat -> job -> worker -> Prop) (ws : list worker) k w w' :
  ws !! k = Some w -> (forall i j x, jobs !! i = Some j -> ws !! i = Some x -> P i j x) ->
  (forall i j x, i <> k -> jobs !! i = Some j -> P i j x -> Q i j x) -> (forall j, jobs !! k = Some j -> P k j w -> Q k j w') ->
  forall i j x, jobs !! i = Some j -> <[k := w']> ws !! i = Some x -> Q i j x.
Proof.
  intros Hk HP Hother Hself i j x Hj Hx. destruct (decide (i = k)) as [->|Hne].
  - rewrite list_lookup_insert_eq in Hx by by eapply lookup_lt_Some. injection Hx as <-. eauto.
  - rewrite list_lookup_insert_ne in Hx by done. eauto.
Qed.

Lemma pool_inv_start s0 : pool_inv s0 (start s0).
Proof.
  constructor; cbn; [by rewrite length_replicate..|lia| | | | |done].
  - intros i j w Hj [-> Hi]%lookup_replicate. unfold worker_ok. destruct (j_kind j); [|lia]. split; [done|lia].
  - rewrite sum_replicate. destruct (kind_at 0); cbn; lia.
  - rewrite sum_replicate. cbn. lia.
  - unfold running. rewrite sum_replicate. cbn. lia.
Qed.

(** A step of a goroutine. *)
Lemma inv_worker s0 m nx ws ra ou eg ctx s ds i j w w' ra' ou' s' :
  ws !! i = Some w -> jobs !! i = Some j -> worker_step j (cancelled eg ctx) (w, ra, ou, s) (w', ra', ou', s') ->
  pool_inv s0 (PS m nx ws ra ou eg ctx s ds) -> pool_inv s0 (PS m nx (<[i := w']> ws) ra' ou' eg ctx s' ds).
Proof.
  intros Hw Hj Hst [Hlw Hld Hm Hjobs Hraw Hout Hrun Hg]. cbn in *.
  destruct (worker_step_ok _ _ _ _ _ _ _ _ _ _ Hst) as (Hgr & Hr & Ho & Ha & Ha1 & Hok).
  pose proof (sum_insert holds_raw _ _ _ w' Hw). pose proof (sum_insert holds_out _ _ _ w' Hw).
  pose proof (sum_insert active _ _ _ w' Hw). unfold running in *.
  constructor; cbn; [by rewrite length_insert|done| | |lia|lia|unfold running; lia|by etransitivity].
  - eapply main_ok_worker; [exact Hw|done| |exact Hm]. done.
  - eapply (workers_insert _ _ ws i w); [done|exact Hjobs| |].
    + intros i' j' x _ _. by apply worker_ok_grows.
    + intros j' Hj' Hx. simplify_eq. by apply Hok.
Qed.

(** A goroutine that returns: its descriptor is in place, or the group has
    failed. *)
Lemma inv_return s0 m nx ws ra ou eg eg' ctx s ds ds' i j r :
  ws !! i = Some (WReturn r) -> jobs !! i = Some j ->
  match r with None => eg' = eg /\ ds' = <[i := Some (j_desc j)]> ds | Some _ => is_Some eg' /\ ds' = ds end ->
  pool_inv s0 (PS m nx ws ra ou eg ctx s ds) -> pool_inv s0 (PS m nx (<[i := WExit]> ws) ra ou eg' ctx s ds').
Proof.
  intros Hw Hj Hr [Hlw Hld Hm Hjobs Hraw Hout Hrun Hg]. cbn in *.
  pose proof (sum_insert holds_raw _ _ _ WExit Hw). pose proof (sum_insert holds_out _ _ _ WExit Hw).
  pose proof (sum_insert active _ _ _ WExit Hw). unfold running in *. cbn in *.
  assert (length ds' = n) as Hld' by (destruct r; destruct Hr as [_ ->]; by rewrite ?length_insert).
  assert (eg' = None -> eg = None) as Heg by (destruct r; destruct Hr as [He _]; [intros ->; by destruct He|by intros <-]).
  constructor; cbn; [by rewrite length_insert|done| | |lia|lia|unfold running; lia|done].
  - eapply main_ok_worker; [exact Hw|done| |exact Hm]. destruct r; destruct Hr as [He _]; [done|by rewrite He].
  - eapply (workers_insert _ _ ws i _); [done|exact Hjobs| |].
    + intros i' j' x Hne Hj'. assert (ds' !! i' = ds !! i') as E
        by (destruct r; destruct Hr as [_ ->]; rewrite ?list_lookup_insert_ne by done; done).
      unfold worker_ok, done_at. rewrite E. destruct (j_kind j'), x; naive_solver.
    + intros j' Hj' Hx. simplify_eq. unfold worker_ok in *. destruct (j_kind j); [by destruct Hx|].
      destruct Hx as [Hlt Hs]. split; [done|]. intros He. destruct r as [e|]; destruct Hr as [Hr ->]; [by rewrite He in Hr; destruct Hr|].
      split; [|by apply Hs]. apply list_lookup_insert_eq. rewrite Hld. by eapply lookup_lt_Some.
Qed.

(** A move of the reader that starts no goroutine. *)
Lemma inv_main s0 m nx ws ra ou eg ctx s ds m' nx' ra' s' ds' :
  pool_inv s0 (PS m nx ws ra ou eg ctx s ds) -> grows s s' -> length ds' = n -> main_ok m' nx' ws eg ctx ->
  ra' + reader_raw (kind_at nx') m' = ra + reader_raw (kind_at nx) m ->
  (forall i j w, jobs !! i = Some j -> worker_ok s' eg ds nx i j w -> worker_ok s' eg ds' nx' i j w) ->
  pool_inv s0 (PS m' nx' ws ra' ou eg ctx s' ds').
Proof.
  intros [Hlw Hld Hm Hjobs Hraw Hout Hrun Hg] Hgr Hl Hm' Hr Hok. cbn in *.
  constructor; cbn; [done..| |lia|done|done|by etransitivity].
  intros i j w Hj Hw. apply Hok; [done|]. eapply worker_ok_grows; [done|]. by apply Hjobs.
Qed.

(** The same at the same place. *)
Lemma inv_stay s0 m nx ws ra ou eg ctx s ds m' ra' s' :
  pool_inv s0 (PS m nx ws ra ou eg ctx s ds) -> grows s s' -> main_ok m' nx ws eg ctx ->
  ra' + reader_raw (kind_at nx) m' = ra + reader_raw (kind_at nx) m ->
  pool_inv s0 (PS m' nx ws ra' ou eg ctx s' ds).
Proof. intros Hi Hg Hm Hr. eapply inv_main; try done. by apply (i_descs _ _ Hi). Qed.

(** The reader has uploaded a piece itself. *)
Lemma inv_inline s0 m nx ws ra ou eg ctx s ds s' j :
  pool_inv s0 (PS m nx ws ra ou eg ctx s ds) -> grows s s' -> stored name s' (j_blob j) ->
  jobs !! nx = Some j -> m = MHas \/ m = MPut ->
  pool_inv s0 (PS MLoop (Datatypes.S nx) ws ra ou eg ctx s' (<[nx := Some (j_desc j)]> ds)).
Proof.
  intros Hi Hg Hs Hj Hm. pose proof (i_descs _ _ Hi) as Hld. pose proof (i_main _ _ Hi) as Hmain. cbn in Hld, Hmain.
  assert (nx < n /\ kind_at nx = Inline) as [Hlt Hk] by (by destruct Hm as [-> | ->]).
  eapply inv_main; [exact Hi|done|by rewrite length_insert|cbn; lia| |].
  - cbn. rewrite Hk. destruct (kind_at (Datatypes.S nx)), Hm as [-> | ->]; done.
  - intros i j' w Hj' Hok. unfold kind_at in Hk. rewrite Hj in Hk. destruct (decide (i = nx)) as [->|Hne].
    + simplify_eq. unfold worker_ok in *. rewrite Hk in *. destruct Hok as [-> _]. split; [done|]. intros _. split; [|done].
      apply list_lookup_insert_eq. by rewrite Hld.
    + unfold worker_ok, done_at in *. rewrite list_lookup_insert_ne by done.
      destruct (j_kind j'), w; naive_solver lia.
Qed.

Lemma kind_at_lt nx : nx < n -> exists j, jobs !! nx = Some j /\ kind_at nx = j_kind j.
Proof. intros H'. unfold kind_at. destruct (jobs !! nx) as [j|] eqn:E; [eauto|]. apply lookup_ge_None in E. lia. Qed.

Lemma inv_go s0 nx ws ra ou eg ctx s ds zip first :
  running ws < workers -> kind_at nx = Chunk zip first ->
  pool_inv s0 (PS MGo nx ws ra ou eg ctx s ds) ->
  pool_inv s0 (PS MLoop (Datatypes.S nx) (<[nx := spawned zip]> ws) ra ou eg ctx s ds).
Proof.
  intros Hrn Hk [Hlw Hld [Hlt _] Hjobs Hraw Hout Hrun Hg]. cbn in *.
  destruct (kind_at_lt nx Hlt) as (j & Hj & Hkj).
  assert (ws !! nx = Some WIdle) as Hw.
  { destruct (ws !! nx) as [w|] eqn:E; [|apply lookup_ge_None in E; lia]. pose proof (Hjobs _ _ _ Hj E) as Hok.
    unfold worker_ok in Hok. rewrite <- Hkj, Hk in Hok. destruct w; naive_solver lia. }
  pose proof (sum_insert holds_raw _ _ _ (spawned zip) Hw). pose proof (sum_insert holds_out _ _ _ (spawned zip) Hw).
  pose proof (sum_insert active _ _ _ (spawned zip) Hw). unfold running in *. rewrite Hk in Hraw. cbn in *.
  constructor; cbn; [by rewrite length_insert|done|lia| |destruct (kind_at (Datatypes.S nx)), zip; cbn in *; lia
    |destruct zip; cbn in *; lia|unfold running; destruct zip; cbn in *; lia|done].
  eapply (workers_insert _ _ ws nx WIdle); [done|exact Hjobs| |].
  - intros i j' x Hne _ Hx. unfold worker_ok in *. destruct (j_kind j'), x; naive_solver lia.
  - intros j' Hj' _. simplify_eq. unfold worker_ok. rewrite <- Hkj, Hk. destruct zip; cbn; split; (lia || done).
Qed.

Lemma cancelled_cause eg ctx : cancelled eg ctx = true <-> is_Some eg \/ is_Some ctx.
Proof. unfold cancelled. by rewrite orb_true_iff, !bool_decide_eq_true. Qed.

Lemma settle_None ctx e eg : settle ctx e eg = None -> e = None /\ eg = None /\ ctx = None.
Proof. unfold settle. destruct e, eg, ctx; try done; by destruct (errors_Is _ _). Qed.

Lemma pool_inv_step s0 st st' : pool_inv s0 st -> step st st' -> pool_inv s0 st'.
Proof.
  intros Hi Hst. destruct Hst.
  - destruct Hi as [Hlw Hld Hm Hjobs Hraw Hout Hrun Hg]. cbn in *. constructor; cbn; try done.
    destruct m; cbn in *; try done. naive_solver.
  - by eapply inv_worker.
  - by eapply inv_return.
  - assert (exists j, jobs !! i = Some j) as [j Hj].
    { apply lookup_lt_is_Some_2. rewrite <- (i_workers _ _ Hi). by eapply lookup_lt_Some. }
    eapply (inv_return _ _ _ _ _ _ eg _ _ _ _ ds _ j (Some e)); try done.
  - eapply inv_stay; [exact Hi|done| |by destruct (kind_at nx)]. pose proof (i_main _ _ Hi). by cbn in *.
  - eapply inv_stay; [exact Hi|done| |by destruct (kind_at n)]. cbn. by auto.
  - eapply inv_stay; [exact Hi|done| |by destruct (kind_at nx)]. pose proof (i_main _ _ Hi). cbn in *. split; [done|].
    intros _. right. match goal with Hc : cancelled _ _ = true |- _ => by apply cancelled_cause in Hc end.
  - eapply inv_stay; [exact Hi|done| |by destruct (kind_at nx)]. pose proof (i_main _ _ Hi). by cbn in *.
  - eapply inv_stay; [exact Hi|done| |by destruct (kind_at nx)]. by destruct (kind_at nx) eqn:E; cbn; rewrite ?E.
  - eapply inv_stay; [exact Hi|done| |]; pose proof (i_main _ _ Hi) as Hm; cbn in Hm; destruct Hm as [Hlt Hk]; [done|].
    destruct (kind_at nx); cbn; [done|lia].
  - pose proof (i_main _ _ Hi) as Hm. cbn in Hm. eapply inv_stay; [exact Hi|done| |by destruct (kind_at nx)].
    by destruct (kind_at nx) eqn:E; cbn; rewrite ?E.
  - pose proof (i_main _ _ Hi) as Hm. cbn in Hm. eapply inv_stay; [exact Hi|done|cbn; split; [lia|done]|].
    cbn. destruct (kind_at nx); cbn; lia.
  - by eapply inv_go.
  - eapply inv_inline; [exact Hi|by eapply probe_grows|by eapply probe_stored|done|by left].
  - eapply inv_stay; [exact Hi|by eapply probe_grows| |by destruct (kind_at nx)]. apply (i_main _ _ Hi).
  - pose proof (i_main _ _ Hi) as Hm. cbn in Hm. eapply inv_stay; [exact Hi|by eapply probe_grows|cbn; split; [lia|done]|by destruct (kind_at nx)].
  - eapply inv_inline; [exact Hi|by eapply upload_grows|by eapply upload_stored|done|by right].
  - pose proof (i_main _ _ Hi) as Hm. cbn in Hm. eapply inv_stay; [exact Hi|by eapply upload_grows|cbn; split; [lia|done]|by destruct (kind_at nx)].
  - pose proof (i_main _ _ Hi) as Hm. cbn in Hm. eapply inv_stay; [exact Hi|done| |by destruct (kind_at nx)].
    cbn. split; [lia|done].
  - pose proof (i_main _ _ Hi) as Hm. cbn in Hm. eapply inv_stay; [exact Hi|done| |by destruct (kind_at nx)].
    cbn. split; [done|]. intros (-> & -> & ->)%settle_None. destruct Hm as [_ Hm]. destruct (Hm eq_refl) as [|[[? [=]]|[? [=]]]]. done.
Qed.

Definition reachable (s0 : S) : state -> Prop := rtc step (start s0).

Lemma pool_reachable_inv s0 st : reachable s0 st -> pool_inv s0 st.
Proof. apply (inv_rtc step (pool_inv s0)); [by intros x y Hx Hy; eapply pool_inv_step|apply pool_inv_start]. Qed.

(** ** Progress *)

Definition worker_rank (w : worker) : nat :=
  match w with
  | WIdle | WDone => 0 | WTakeOut => 7 | WEncode => 6 | WHas _ => 5 | WPut _ => 4 | WRelease _ _ => 3
  | WReturn _ => 2 | WExit => 1
  end.

Definition main_rank (m : reader_pos) : nat :=
  match m with MLoop => 6 | MTake => 5 | MRead => 4 | MGo | MHas => 3 | MPut => 2 | MWait _ => 1 | MRet _ => 0 end.

Definition measure (st : state) : nat :=
  12 * (n - p_next st) + main_rank (p_main st) + sum_list (worker_rank <$> p_workers st)
  + (match p_ctx st with None => 1 | _ => 0 end).

Lemma worker_step_rank j cn w ra ou s w' ra' ou' s' :
  worker_step j cn (w, ra, ou, s) (w', ra', ou', s') -> worker_rank w' < worker_rank w.
Proof. intros Hst. inversion Hst; subst; cbn; lia. Qed.

Lemma pool_step_measure s0 st st' : pool_inv s0 st -> step st st' -> measure st' < measure st.
Proof.
  intros Hi Hst. pose proof (i_main _ _ Hi) as Hm.
  destruct Hst; unfold measure; cbn in *; try lia.
  - match goal with Hw : ws !! i = Some _, Hs : worker_step _ _ _ _ |- _ =>
      pose proof (sum_insert worker_rank _ _ _ w' Hw); apply worker_step_rank in Hs end. lia.
  - match goal with Hw : ws !! i = Some _ |- _ => pose proof (sum_insert worker_rank _ _ _ WExit Hw) end. cbn in *. lia.
  - match goal with Hw : ws !! i = Some _ |- _ => pose proof (sum_insert worker_rank _ _ _ WExit Hw) end. cbn in *. lia.
  - destruct (kind_at nx); cbn; lia.
  - destruct (kind_at nx); cbn; lia.
  - destruct Hm as [Hlt _]. destruct (lookup_lt_is_Some_2 ws nx) as [w Hw]; [pose proof (i_workers _ _ Hi) as Hl; cbn in Hl; by rewrite Hl|].
    pose proof (sum_insert worker_rank _ _ _ (spawned zip) Hw). destruct zip; cbn in *; lia.
Qed.

(** A move of the program, not a cancellation by the caller. *)
Definition advances (st : state) : Prop := exists st', step st st' /\ p_ctx st' = p_ctx st.

Lemma advances_step st st' : step st st' -> p_ctx st' = p_ctx st -> advances st.
Proof. by exists st'. Qed.

Ltac advance_by s := eapply advances_step; [s|done].

(** A goroutine that is not over can move. *)
Lemma worker_moves s0 st i w : pool_inv s0 st -> p_workers st !! i = Some w -> active w = 1 -> advances st.
Proof.
  intros Hi Hw Ha. destruct st as [m nx ws ra ou eg ctx s ds]. destruct Hi as [Hlw Hld Hm Hjobs Hraw Hout Hrun Hg]. cbn in *.
  pose proof (sum_pos holds_raw _ _ _ Hw) as Hpr. pose proof (sum_pos holds_out _ _ _ Hw) as Hpo.
  assert (exists j, jobs !! i = Some j) as [j Hj].
  { apply lookup_lt_is_Some_2. rewrite <- Hlw. by eapply lookup_lt_Some. }
  set (cn := cancelled eg ctx).
  assert (forall w' ra' ou' s', worker_step j cn (w, ra, ou, s) (w', ra', ou', s') -> advances (PS m nx ws ra ou eg ctx s ds)) as Hgo
    by (intros; advance_by ltac:(by eapply step_worker)).
  pose proof (probe_answer (j_blob j) cn s) as Hp.
  destruct w as [| | |z|z|z r|r| |]; cbn in *; try discriminate.
  - destruct ou as [|ou]; [|by eapply Hgo, w_take]. exfalso.
    pose proof (sum_lt holds_out active ws i WTakeOut holds_out_active Hw ltac:(cbn; lia)). unfold running in *. lia.
  - eapply Hgo, w_encode. lia.
  - destruct (answer _) as [e|[]]; [by eapply Hgo, w_has_fail|by eapply Hgo, w_has_yes|by eapply Hgo, w_has_no].
  - destruct (PutBlob name (digest_of (j_blob j)) (j_blob j) (Z.of_nat (length (j_blob j))) s) as [r s'] eqn:Ep.
    eapply Hgo, w_put. by apply (upload_answer _ _ _ r).
  - destruct z; [eapply Hgo, w_release_out; lia|eapply Hgo, w_release_raw; lia].
  - destruct r as [e|]; [advance_by ltac:(by eapply step_return_err)|advance_by ltac:(by eapply step_return_ok)].
  - by eapply Hgo, w_exit.
Qed.

Lemma idle_or_moves s0 st : pool_inv s0 st -> running (p_workers st) = 0 \/ advances st.
Proof.
  intros Hi. destruct (decide (Exists (fun w => active w = 1) (p_workers st))) as [He|He].
  - right. apply Exists_exists in He as (w & Hw & Ha). apply list_elem_of_lookup_1 in Hw as [i Hw]. by eapply worker_moves.
  - left. apply sum_zero. intros i w Hw. assert (active w <> 1) as Hn.
    { intros Ha. apply He, Exists_exists. exists w. split; [by eapply list_elem_of_lookup_2|done]. }
    destruct w; cbn in *; congruence.
Qed.

Lemma pool_progress s0 st :
  0 < workers -> pool_inv s0 st -> (forall r, p_main st <> MRet r) -> advances st.
Proof.
  intros Hw Hi Hn. destruct (idle_or_moves s0 st Hi) as [Hidle|]; [|done].
  destruct st as [m nx ws ra ou eg ctx s ds]. pose proof (i_main _ _ Hi) as Hm. pose proof (i_raw _ _ Hi) as Hraw.
  pose proof (sum_le holds_raw active ws holds_raw_active) as Hle. unfold running in Hidle. cbn in *.
  destruct m as [| | | | | |r|r]; [..|by destruct (Hn r)]; cbn in Hm, Hraw.
  - destruct (gap nx) as [e|] eqn:Eg; [advance_by ltac:(by apply step_gap)|].
    destruct (decide (nx = n)) as [->|Hne]; [advance_by ltac:(by apply step_end)|].
    destruct (cancelled eg ctx) eqn:Ec; [|advance_by ltac:(apply step_enter; [lia|done..])].
    destruct (kind_at nx) as [|zip first] eqn:Ek; [advance_by ltac:(apply step_break; [done|]; intros ?; congruence)|].
    apply cancelled_cause in Ec as [He|[e He]].
    + advance_by ltac:(eapply step_ctx; [right; by split|done]).
    + advance_by ltac:(eapply step_ctx; [by left|done]).
  - destruct Hm as [Hlt Hk]. destruct ra as [|ra]; [|advance_by ltac:(by apply step_take)].
    destruct (kind_at nx); cbn in *; [done|lia].
  - destruct (read nx) as [e|] eqn:Er; [|advance_by ltac:(by apply step_read)].
    advance_by ltac:(apply step_read_fail; [done|]; destruct (kind_at nx); cbn in *; lia).
  - destruct Hm as [Hlt Hk]. destruct (kind_at nx) as [|zip first] eqn:Ek; [done|].
    advance_by ltac:(eapply step_go; [unfold running; lia|done]).
  - destruct Hm as [Hlt Hk]. destruct (kind_at_lt nx Hlt) as (j & Hj & _).
    pose proof (probe_answer (j_blob j) (cancelled eg ctx) s) as Hp.
    destruct (answer _) as [e|[]];
      [advance_by ltac:(by eapply step_has_fail)|advance_by ltac:(by eapply step_has_yes)|advance_by ltac:(by eapply step_has_no)].
  - destruct Hm as [Hlt Hk]. destruct (kind_at_lt nx Hlt) as (j & Hj & _).
    destruct (rewind nx) as [e|] eqn:Erw; [advance_by ltac:(by apply step_seek_fail)|].
    destruct (PutBlob name (digest_of (j_blob j)) (j_blob j) (Z.of_nat (length (j_blob j))) s) as [r s'] eqn:Ep.
    pose proof (upload_answer (j_blob j) (cancelled eg ctx) s r s' Ep) as Hu.
    destruct (answer r) as [e|]; [advance_by ltac:(by eapply step_put_fail)|advance_by ltac:(by eapply step_put)].
  - advance_by ltac:(by apply step_wait).
Qed.

(** Left alone, the push returns. *)
Lemma pool_finishes s0 st :
  0 < workers -> pool_inv s0 st -> exists st' r, rtc step st st' /\ p_ctx st' = p_ctx st /\ p_main st' = MRet r.
Proof.
  intros Hw. induction st as [st IH] using (induction_ltof1 _ measure). unfold ltof in IH. intros Hi.
  assert ((exists r, p_main st = MRet r) \/ forall r, p_main st <> MRet r) as [[r Hr]|Hn]
    by (destruct (p_main st); ((by left; eexists) || by right)).
  { by exists st, r. }
  destruct (pool_progress s0 st Hw Hi Hn) as (st1 & Hs & Hc).
  destruct (IH st1 (pool_step_measure s0 st st1 Hi Hs)) as (st' & r & Hr & Hc' & Hret); [by eapply pool_inv_step|].
  exists st', r. split_and!; [by eapply rtc_l|congruence|done].
Qed.

(** ** The properties *)

(** C7: the push neither deadlocks nor runs forever, and never waits for a
    buffer: with at least one worker, until the reader has returned some
    goroutine can move (a cancellation by the caller does not count as one); a
    goroutine about to take an output buffer finds one and so does the reader
    about to take a raw one (the limit of the group, not the pools, holds it
    back); and every interleaving, failures and a cancellation at any moment
    included, is at most [12 n + 7] steps long. *)
Theorem push_pool_live s0 st :
  0 < workers -> reachable s0 st ->
  ((forall r, p_main st <> MRet r) -> exists st', step st st' /\ p_ctx st' = p_ctx st)
  /\ (forall i, p_workers st !! i = Some WTakeOut -> 0 < p_out st)
  /\ (p_main st = MTake -> 0 < p_raw st)
  /\ (forall m st', nsteps step m (start s0) st' -> m <= 12 * n + 7).
Proof.
  intros Hw Hr. pose proof (pool_reachable_inv _ _ Hr) as Hi. split_and!.
  - by eapply pool_progress.
  - intros i Ht. pose proof (sum_lt holds_out active _ i WTakeOut holds_out_active Ht ltac:(cbn; lia)).
    pose proof (i_out _ _ Hi). pose proof (i_running _ _ Hi). unfold running in *. lia.
  - intros Hm. pose proof (i_raw _ _ Hi) as Hraw. pose proof (i_running _ _ Hi) as Hrun.
    pose proof (sum_le holds_raw active (p_workers st) holds_raw_active). rewrite Hm in Hraw. unfold running in Hrun.
    destruct (kind_at _); cbn in Hraw; lia.
  - intros m st' Hst. pose proof (nsteps_measure step (pool_inv s0) (fun x y Hx Hy => pool_inv_step s0 x y Hx Hy) measure m _ _
      (pool_step_measure s0) (pool_inv_start s0) Hst) as Hle.
    assert (measure (start s0) = 12 * n + 7) as E; [|lia].
    unfold measure, start. cbn. rewrite sum_replicate. cbn. lia.
Qed.

(** What a returned reader leaves behind. *)
Lemma pool_returned s0 st r :
  reachable s0 st -> p_main st = MRet r ->
  running (p_workers st) = 0 /\ p_raw st = Datatypes.S workers /\ p_out st = Datatypes.S workers
  /\ grows s0 (p_reg st)
  /\ (r = None -> p_descs st = Some <$> (j_desc <$> jobs) /\ Forall (stored name (p_reg st)) (j_blob <$> jobs)).
Proof.
  intros Hr Hm. pose proof (pool_reachable_inv _ _ Hr) as [Hlw Hld Hmain Hjobs Hraw Hout Hrun Hg].
  rewrite Hm in Hmain, Hraw. destruct Hmain as [Hidle Hok]. unfold running in Hidle.
  pose proof (sum_le holds_raw active (p_workers st) holds_raw_active). pose proof (sum_le holds_out active (p_workers st) holds_out_active).
  split_and!; [done|destruct (kind_at _); cbn in Hraw; lia|lia|done|].
  intros ->. destruct (Hok eq_refl) as [Hnx Heg].
  assert (forall i j, jobs !! i = Some j -> done_at (p_reg st) (p_descs st) i j) as Hall.
  { intros i j Hj. pose proof (lookup_lt_Some _ _ _ Hj) as Hlt.
    destruct (lookup_lt_is_Some_2 (p_workers st) i) as [w Hw]; [by rewrite Hlw|].
    pose proof (Hjobs _ _ _ Hj Hw) as Hwk. pose proof (sum_pos active _ _ _ Hw) as Ha. unfold worker_ok in Hwk.
    rewrite Hnx, Heg in Hwk. destruct (j_kind j); [by apply Hwk|]. destruct w; cbn in Ha; (lia || naive_solver). }
  split.
  - apply list_eq. intros i. rewrite !list_lookup_fmap. destruct (jobs !! i) as [j|] eqn:Ej; cbn.
    + by destruct (Hall i j Ej).
    + apply lookup_ge_None in Ej. apply lookup_ge_None. lia.
  - apply Forall_fmap, Forall_lookup. intros i j Hj. cbn. by destruct (Hall i j Hj).
Qed.


End pool.

(** ** The pieces of an export stream *)

Section stream.
Context `{Zstd} (opts : PushOptions) (chunkSize : Z).

Definition file_jobs (title : string) (b : bytes) : list job :=
  let m := entry_mode opts chunkSize (Z.of_nat (length b)) in
  imap (fun i blob =>
    {| j_kind := match m with Cut zip => Chunk zip (i =? 0) | _ => Inline end;
       j_blob := blob;
       j_desc := blob_descriptor (mode_media m title) title i (length (file_blobs opts chunkSize b)) blob |})
    (file_blobs opts chunkSize b).

Definition entry_jobs (e : tar_header * bytes) : list job :=
  if String.eqb (h_Name e.1) snapshotJSONName || negb (Ascii.eqb (h_Typeflag e.1) TypeReg) then []
  else file_jobs (h_Name e.1) e.2.

Definition stream_jobs (entries : list (tar_header * bytes)) : list job := concat (entry_jobs <$> entries).

Lemma file_jobs_blobs title b : j_blob <$> file_jobs title b = file_blobs opts chunkSize b.
Proof.
  unfold file_jobs. rewrite fmap_imap. etransitivity; [|apply list_fmap_id]. rewrite <- imap_const. by apply imap_ext.
Qed.

Lemma file_jobs_descs title b : j_desc <$> file_jobs title b = file_descs opts chunkSize title b.
Proof. unfold file_jobs, file_descs. rewrite fmap_imap. by apply imap_ext. Qed.

Lemma stream_jobs_blobs entries : j_blob <$> stream_jobs entries = stream_blobs opts chunkSize entries.
Proof.
  unfold stream_jobs, stream_blobs. induction entries as [|e es IH]; [done|]. cbn [fmap list_fmap concat].
  rewrite fmap_app, IH. f_equal. unfold entry_jobs, entry_blobs. destruct (_ || _); [done|]. apply file_jobs_blobs.
Qed.

Lemma stream_jobs_descs entries acc acc' :
  spec_stream opts chunkSize entries acc = Ok acc' ->
  concat (cg_descs <$> la_groups acc') = (concat (cg_descs <$> la_groups acc) ++ (j_desc <$> stream_jobs entries))%list.
Proof.
  revert acc. induction entries as [|[hdr b] es IH]; intros acc Hs; cbn [spec_stream] in Hs.
  { injection Hs as <-. by rewrite app_nil_r. }
  apply bind_Ok in Hs as (acc1 & H1 & Hs). rewrite (IH _ Hs). unfold stream_jobs. cbn [fmap list_fmap concat].
  rewrite fmap_app, (assoc_L (++)). f_equal. unfold spec_entry in H1. unfold entry_jobs. cbn [fst snd].
  destruct (String.eqb (h_Name hdr) snapshotJSONName); cbn [orb].
  - apply bind_Ok in H1 as (cfg & _ & [= <-]). cbn. by rewrite app_nil_r.
  - destruct (negb _); [injection H1 as <-; by rewrite app_nil_r|].
    apply bind_Ok in H1 as (meta & _ & [= <-]). cbn [la_groups].
    rewrite fmap_app, concat_app, file_jobs_descs. cbn. by rewrite app_nil_r.
Qed.

End stream.

Section Main.
Context {S : Type} `{RegistryOk S} `{Zstd}.
Context (env : PushEnv) (opts : PushOptions) (Hnames : names_ok opts).

(** C6: the interleaving does not matter. Take a complete export stream
    that the sequential [readAndUploadEntries] uploads, and let the goroutines
    of the concurrent one run in any order, as many at a time as
    [pipelineParams] allows: when its reader returns without an error, the
    descriptors it collected are the layers of the sequential run and every
    blob is stored. However it returns, no goroutine is left, both pools are
    full again, nothing that was in the registry is gone, digests still match
    and no manifest was touched. *)
Theorem concurrent_push w chunkSize ts entries ue gap read rewind (s s1 : S) st r :
  pipelineParams opts = Ok (w, chunkSize) -> good_stream opts chunkSize ts entries ->
  readAndUploadEntries None env opts ts s = (Ok ue, s1) ->
  reachable (po_Name opts) (Z.to_nat w) (stream_jobs opts chunkSize entries) gap read rewind s st -> p_main st = MRet r ->
  running (p_workers st) = 0 /\ p_raw st = Datatypes.S (Z.to_nat w) /\ p_out st = Datatypes.S (Z.to_nat w)
  /\ grows s (p_reg st)
  /\ (r = None -> p_descs st = Some <$> ue_layers ue
       /\ Forall (stored (po_Name opts) (p_reg st)) (stream_blobs opts chunkSize entries)
       /\ Forall (stored (po_Name opts) s1) (stream_blobs opts chunkSize entries)).
Proof.
  intros Hp Hgs Hrun Hr Hm.
  pose proof (@readAndUploadEntries_wp _ _ _ _ _ never _ env opts Hnames w chunkSize ts entries s Hp Hgs) as Hw.
  eapply wp_run in Hw; [|exact Hrun]. destruct Hw as [Hue (_ & Hst%store_stored & _)].
  destruct (pool_returned _ _ _ _ _ _ (proj1 Hnames) s st r Hr Hm) as (Hidle & Hraw & Hout & Hg & Hok).
  split_and!; [done..|]. intros Hnone. destruct (Hok Hnone) as [Hd Hs]. rewrite stream_jobs_blobs in Hs.
  split_and!; [|done|done]. rewrite Hd. f_equal. unfold spec_entries in Hue. apply bind_Ok in Hue as (acc & Hacc & [= <-]).
  cbn [ue_layers]. by rewrite (stream_jobs_descs _ _ _ _ _ Hacc).
Qed.

End Main.
