(* ===== verification/SnapshotPull.v ===== *)
(** * SnapshotPull: src/snapshot/pull.go and src/snapshot/pullencoded.go

    [Stream] and everything it calls: the config blob, the import envelope,
    the layer plan and its validation, the plain, the sequential and the
    windowed file streams.  The registry is the class [Downloader]; functions
    that write take and return the [tar_writer].

    The windowed stream hands the chunks to the writer in order, whatever
    order their fetches finish in ([Pipeline] shows that of the goroutines);
    a fetch is a function of the registry.  Its buffers have the capacity the
    pool was built with, and slicing past it panics. *)

From Stdlib Require Import ZArith Lia Ascii String.
From stdpp Require Import base gmap strings list.
From S2P Require Import Prelude GoStrings Json Manifest GoIO OciUtil Registry Tar Zstd Snapshot.

Local Open Scope string_scope.
Local Open Scope nat_scope.

Definition maxSnapshotConfigSize : Z := 64 * 2 ^ 20.
Definition defaultPullPrefetchBudget : Z := 4 * 2 ^ 30.
Definition maxBufferedChunkBytes : Z := 2 ^ 30.

(** The writer a stream goes to: the bytes it takes ([None]: all of them), and
    how far past them the [bufio.Writer] in front of it gets before it
    notices, which is at most its buffer of 256 KiB and depends on the sizes
    of the writes ([Bufio.bufio_reports_late]). *)
Record sink := { sk_room : option nat; sk_slack : nat }.

Definition unbounded : sink := {| sk_room := None; sk_slack := 0 |}.

(** What [bufio.Writer] over it takes. *)
Definition sink_reach (k : sink) : option nat := (fun r => r + sk_slack k) <$> sk_room k.

(** [so_Writer]: [None] is a nil writer. *)
Record StreamOptions := {
  so_Name : string;
  so_LocalName : string;
  so_Writer : option sink;
  so_Concurrency : Z;
  so_MemoryBudgetMiB : Z
}.

(** ** The import envelope *)

(** A JSON value decoded into [any] and printed again: objects become maps
    (the last of equal keys wins, printed in key order). A number is a
    [json.Number], its literal ([dec.UseNumber()]), printed as it was read. *)
Fixpoint any_of_json (j : json) : json :=
  match j with
  | JArr l => JArr (map any_of_json l)
  | JObj l =>
      e_map id (foldl (fun m kv => <[kv.1 := kv.2]> m) ∅ (map (fun kv => (kv.1, any_of_json kv.2)) l))
  | _ => j
  end.

(** Decoding into [map[string]any]; [None] is the nil map that [null] leaves. *)
Definition engine_map (j : json) : result (option (gmap string json)) :=
  match j with
  | JObj l => Ok (Some (foldl (fun m kv => <[kv.1 := kv.2]> m) ∅ (map (fun kv => (kv.1, any_of_json kv.2)) l)))
  | JNull => Ok None
  | _ => type_error
  end.

Inductive envelope :=
  | EnvSnapshot (e : snapshotExportEnvelope)
  | EnvEngine (e : engineExportEnvelope).

Definition envelope_json (e : envelope) : json :=
  match e with
  | EnvSnapshot e => snapshotExportEnvelope_json e
  | EnvEngine e => engineExportEnvelope_json e
  end.

Definition exportEnvelope (cfg : SnapshotConfig) (localName : string) : result envelope :=
  match sc_Engine cfg with
  | None =>
      Ok (EnvSnapshot {|
        sev_Version := 1;
        sev_Config := {|
          se_Engine := None; se_ID := sc_SnapshotID cfg; se_Name := localName;
          se_Description := sc_Description cfg; se_Image := sc_Image cfg;
          se_ImageDigest := sc_ImageDigest cfg; se_ImageType := sc_ImageType cfg;
          se_ImageBlobIDs := sc_ImageBlobIDs cfg; se_Hypervisor := sc_Hypervisor cfg;
          se_CPU := sc_CPU cfg; se_Memory := sc_Memory cfg; se_Storage := sc_Storage cfg;
          se_NICs := sc_NICs cfg; se_Network := sc_Network cfg; se_Windows := sc_Windows cfg |} |})
  | Some raw =>
      engine ← wrap "decode engine snapshot config" (engine_map raw);
      match engine with
      | None => Panic "assignment to entry in nil map"
      | Some m => Ok (EnvEngine {| eev_Version := 1; eev_Config := <["name" := JStr localName]> m |})
      end
  end.

Definition newline : bytes := bytes_of (String "010" "").

Definition MarshalEnvelope (cfg : SnapshotConfig) (localName : string) : result bytes :=
  e ← exportEnvelope cfg localName;
  Ok (bytes_of (marshal_indent (envelope_json e)) ++ newline)%list.

(** ** Layers *)

Definition validate_layer (encoded : bool) (layer : Descriptor) : result unit :=
  if (d_Size layer <? 0)%Z then
    Err (Enew ("layer " +:+ d_Digest layer +:+ " has negative size " +:+ formatInt (d_Size layer)))
  else if negb (IsSnapshotLayerMediaType (d_MediaType layer)) then
    Err (Enew ("layer " +:+ d_Digest layer +:+ " has unsupported mediaType " +:+ quoted (d_MediaType layer) +:+ " (snapshot needs a newer reader)"))
  else if String.eqb (Title layer) "" then
    Err (Enew ("layer " +:+ d_Digest layer +:+ " missing " +:+ AnnotationTitle +:+ " annotation"))
  else if negb encoded && IsZstdMediaType (d_MediaType layer) then
    Err (Enew ("layer " +:+ d_Digest layer +:+ " is zstd-compressed but manifest is not " +:+ ArtifactTypeSnapshotV2))
  else Ok ().

(** The files are visited in some order; the first chunked one is reported. *)
Definition validateSnapshotLayers (m : OCIManifest) (cfg : SnapshotConfig) : result unit :=
  let encoded := String.eqb (m_ArtifactType m) ArtifactTypeSnapshotV2 in
  _ ← traverse (validate_layer encoded) (m_Layers m);
  if encoded then Ok ()
  else
    _ ← traverse (fun kv : string * SnapshotFile =>
           if 0 <? length (sf_Chunks kv.2) then
             Err (Enew ("file " +:+ kv.1 +:+ " is chunked but manifest is not " +:+ ArtifactTypeSnapshotV2))
           else Ok ()) (map_to_list (sc_Files cfg));
    Ok ().

Definition pickIndexChild (m : OCIManifest) : result IndexManifest :=
  let amd64 c :=
    match im_Platform c with
    | Some p => String.eqb (pf_OS p) "linux" && String.eqb (pf_Architecture p) "amd64"
    | None => false
    end in
  match find amd64 (m_Manifests m) with
  | Some c => Ok c
  | None => Err (Enew "image-index has no linux/amd64 child")
  end.

(** [lp_chunks]: [None] for a layer streamed as it is. *)
Record layerPlan := {
  lp_title : string;
  lp_meta : SnapshotFile;
  lp_layer : Descriptor;
  lp_chunks : option (list Descriptor)
}.

Definition lp_encoded (e : layerPlan) : bool := match lp_chunks e with Some _ => true | None => false end.
Definition lp_zstd (e : layerPlan) : bool := IsZstdMediaType (d_MediaType (lp_layer e)).
Definition chunk_list (e : layerPlan) : list Descriptor := match lp_chunks e with Some l => l | None => [] end.

Definition resolveEncodedFile (layer : Descriptor) (fileMeta : SnapshotFile) (byDigest : gmap string Descriptor)
  : result (list Descriptor) :=
  let title := Title layer in
  if (sf_Size fileMeta <=? 0)%Z then Err (Enew (title +:+ ": encoded layer missing files[].size in snapshot config"))
  else if length (sf_Chunks fileMeta) =? 0 then Ok [layer]
  else
    traversei (fun i digest =>
      match byDigest !! digest with
      | Some desc => Ok desc
      | None => Err (Enew (title +:+ " chunk " +:+ formatInt (Z.of_nat i) +:+ " (" +:+ digest +:+ ") missing from manifest layers"))
      end) 0 (sf_Chunks fileMeta).

(** The chunks resolved: each listed digest's descriptor. *)
Lemma resolve_lookup title (byDigest : gmap string Descriptor) digests descs :
  traversei (fun i digest =>
      match byDigest !! digest with
      | Some desc => Ok desc
      | None => Err (Enew (title +:+ " chunk " +:+ formatInt (Z.of_nat i) +:+ " (" +:+ digest +:+ ") missing from manifest layers"))
      end) 0 digests = Ok descs <-> Forall2 (fun k d => byDigest !! k = Some d) digests descs.
Proof. apply traversei_Ok. intros i k d. by destruct (byDigest !! k); split; intros [= <-]. Qed.

Definition file_meta (cfg : SnapshotConfig) (title : string) : SnapshotFile :=
  match sc_Files cfg !! title with Some f => f | None => SnapshotFile_zero end.

Fixpoint plan_loop (cfg : SnapshotConfig) (byDigest : gmap string Descriptor) (emitted : gset string)
    (layers : list Descriptor) : result (list layerPlan) :=
  match layers with
  | [] => Ok []
  | layer :: layers' =>
      let title := Title layer in
      let fileMeta := file_meta cfg title in
      if (length (sf_Chunks fileMeta) =? 0) && negb (IsZstdMediaType (d_MediaType layer)) then
        rest ← plan_loop cfg byDigest emitted layers';
        Ok ({| lp_title := title; lp_meta := fileMeta; lp_layer := layer; lp_chunks := None |} :: rest)
      else if bool_decide (title ∈ emitted) then plan_loop cfg byDigest emitted layers'
      else
        descs ← resolveEncodedFile layer fileMeta byDigest;
        rest ← plan_loop cfg byDigest ({[title]} ∪ emitted) layers';
        Ok ({| lp_title := title; lp_meta := fileMeta; lp_layer := layer; lp_chunks := Some descs |} :: rest)
  end.

Definition by_digest (layers : list Descriptor) : gmap string Descriptor :=
  foldl (fun m l => <[d_Digest l := l]> m) ∅ layers.

Definition planLayers (cfg : SnapshotConfig) (layers : list Descriptor) : result (list layerPlan) :=
  plan_loop cfg (by_digest layers) ∅ layers.

Definition layerHeader (title : string) (size : Z) (fileMeta : SnapshotFile) (modTime : gotime) : result out_header :=
  let hdr pax :=
    {| o_Name := title; o_Size := size;
       o_Mode := if (sf_Mode fileMeta =? 0)%Z then 416 else sf_Mode fileMeta;
       o_ModTime := modTime; o_PAX := pax |} in
  if String.eqb (sf_SparseMap fileMeta) "" then Ok (hdr ∅)
  else if (sf_SparseSize fileMeta <=? 0)%Z then
    Err (Enew ("layer " +:+ title +:+ " has sparse map without sparse size"))
  else Ok (hdr (<[sparsePAXMap := sf_SparseMap fileMeta]>
                 {[ sparsePAXSize := formatInt (sf_SparseSize fileMeta) ]})).

(** ** Buffer sizes *)

Definition rawChunkStride (size n : Z) : Z :=
  if (n <=? 1)%Z || (size <=? 0)%Z then size else (godiv (size - 1) (n - 1) + 1)%Z.

Definition bufferCaps (e : layerPlan) : Z * Z :=
  let stored := foldl (fun m d => Z.max m (d_Size d)) 0%Z (chunk_list e) in
  if lp_zstd e then (stored, rawChunkStride (sf_Size (lp_meta e)) (Z.of_nat (length (chunk_list e))))
  else (0%Z, stored).

Record chunkPipeline := { cp_window : Z; cp_inputCap : Z; cp_outputCap : Z }.

(** Only files of two chunks or more are buffered. *)
Definition buffered (e : layerPlan) : bool := lp_encoded e && (2 <=? length (chunk_list e)).

Definition pipeline_caps (entries : list layerPlan) : Z * Z * bool :=
  foldl (fun acc e =>
    let '(i, o, z) := acc in
    if buffered e then
      let '(inputCap, outputCap) := bufferCaps e in (Z.max i inputCap, Z.max o outputCap, z || lp_zstd e)
    else acc) (0%Z, 0%Z, false) entries.

Section Pull.
Context {S : Type} `{Downloader S} `{Zstd}.

Definition newChunkPipeline (entries : list layerPlan) (prefetch budget : Z) : result chunkPipeline :=
  let '(inputCap, outputCap, anyZstd) := pipeline_caps entries in
  let p w := {| cp_window := w; cp_inputCap := inputCap; cp_outputCap := outputCap |} in
  if (outputCap <=? 0)%Z || (maxBufferedChunkBytes <? inputCap)%Z || (maxBufferedChunkBytes <? outputCap)%Z then Ok (p 0%Z)
  else
    let unit_ := (inputCap + outputCap)%Z in
    let window := Z.min prefetch (godiv (budget - outputCap) unit_) in
    if (outputCap <? budget)%Z && (2 <=? window)%Z then
      if anyZstd then
        match zstd_NewReader with
        | Some e => Err (Ewrap "init zstd decoder" e)
        | None => Ok (p window)
        end
      else Ok (p window)
    else Ok (p 0%Z).

Definition fileWindow (p : chunkPipeline) (e : layerPlan) : Z :=
  if (cp_window p <? 2)%Z || (length (chunk_list e) <? 2) then 0%Z
  else Z.min (cp_window p) (Z.of_nat (length (chunk_list e))).

Context (s : S) (name : string).

Definition get_blob (desc : Descriptor) : result reader :=
  wrap ("get blob " +:+ d_Digest desc) (GetBlob s name (d_Digest desc)).

(** [chunkPipeline.read] into a buffer of capacity [cap]. *)
Definition read_chunk (desc : Descriptor) (cap : Z) : result bytes :=
  body ← get_blob desc;
  if (d_Size desc <? 0)%Z || (cap <? d_Size desc)%Z then Panic "slice bounds out of range"
  else
    match read_full BlobSizeChecker_Read (checker_fuel body) (NewBlobSizeChecker body (d_Digest desc) (d_Size desc))
            (Z.to_nat (d_Size desc)) [] with
    | None => Panic "out of fuel"
    | Some (Panic m, _) => Panic m
    | Some (Err e, _) => Err e
    | Some (Ok stored, v) =>
        match @io_copy _ _ discard_writer BlobSizeChecker_Read (checker_fuel body) v () 0 with
        | None => Panic "out of fuel"
        | Some (_, Some e, _, _) => Err e
        | Some (_, None, _, _) => Ok stored
        end
    end.

Definition fetch (p : chunkPipeline) (desc : Descriptor) (compressed : bool) : result bytes :=
  if negb compressed then read_chunk desc (cp_outputCap p)
  else
    stored ← read_chunk desc (cp_inputCap p);
    wrap ("decode chunk " +:+ d_Digest desc) (DecodeAll (cp_outputCap p) stored).

(** ** The writers: [M tar_writer] *)

(** [chunkSource.WriteTo]: the chunks in order, each fetched, written and
    returned to the pool. *)
Fixpoint WriteTo (p : chunkPipeline) (zstd : bool) (descs : list Descriptor) (written : Z) : M tar_writer Z :=
  match descs with
  | [] => mret written
  | desc :: descs' => fun tw =>
      match fetch p desc zstd with
      | Err e => (Err e, tw)
      | Panic m => (Panic m, tw)
      | Ok data =>
          let '(n, err, tw') := w_write tw data in
          match err with
          | Some e => (Err e, tw')
          | None =>
              if negb (n =? length data) then (Err (Esent IoErrShortWrite), tw')
              else WriteTo p zstd descs' (written + Z.of_nat n)%Z tw'
          end
      end
  end.

(** The sequential reader: the chunks left, the open one first. *)
Record chunkStream := { cs_cur : option BlobSizeChecker; cs_descs : list Descriptor }.

Fixpoint cs_read (cur : option BlobSizeChecker) (descs : list Descriptor) (n : nat) : rd_result * chunkStream :=
  match descs with
  | [] => ({| rr_data := []; rr_err := Some EOF |}, {| cs_cur := None; cs_descs := [] |})
  | desc :: rest =>
      match match cur with
            | Some v => Ok v
            | None => body ← get_blob desc; Ok (NewBlobSizeChecker body (d_Digest desc) (d_Size desc))
            end with
      | Err e => ({| rr_data := []; rr_err := Some e |}, {| cs_cur := None; cs_descs := descs |})
      | Panic m => ({| rr_data := []; rr_err := Some (Enew m) |}, {| cs_cur := None; cs_descs := descs |})
      | Ok v =>
          let '(x, v') := BlobSizeChecker_Read v n in
          if is_EOF (rr_err x) then
            if 0 <? length (rr_data x) then
              ({| rr_data := rr_data x; rr_err := None |}, {| cs_cur := None; cs_descs := rest |})
            else cs_read None rest n
          else (x, {| cs_cur := Some v'; cs_descs := descs |})
      end
  end.

Definition chunkStream_Read (c : chunkStream) (n : nat) : rd_result * chunkStream :=
  cs_read (cs_cur c) (cs_descs c) n.

(** Reads enough to reach the end of every chunk. *)
Definition stream_fuel (descs : list Descriptor) : nat :=
  4 + sum_list ((fun d => match GetBlob s name (d_Digest d) with Ok body => checker_fuel body | _ => 1 end) <$> descs).

(** All a reader yields before its error, and that error: what the streaming
    decoder pulls from it. *)
Fixpoint drain_reader {R} (rd : R -> nat -> rd_result * R) (fuel : nat) (r : R) (acc : bytes) : bytes * error :=
  match fuel with
  | O => (acc, Enew "out of fuel")
  | Datatypes.S f =>
      let '(x, r') := rd r copy_buffer in
      match rr_err x with
      | Some e => ((acc ++ rr_data x)%list, e)
      | None => drain_reader rd f r' (acc ++ rr_data x)%list
      end
  end.

(** [io.Copy(tw, body)] *)
Definition copy_to_tar {R} (rd : R -> nat -> rd_result * R) (fuel : nat) (r : R) : M tar_writer Z := fun tw =>
  match io_copy rd fuel r tw 0 with
  | None => (Panic "out of fuel", tw)
  | Some (_, Some e, _, tw') => (Err e, tw')
  | Some (n, None, _, tw') => (Ok (Z.of_nat n), tw')
  end.

Definition copy_sequential (e : layerPlan) : M tar_writer Z :=
  let descs := chunk_list e in
  let cs := {| cs_cur := None; cs_descs := descs |} in
  if lp_zstd e then
    match zstd_NewReader with
    | Some err => lift (Err (Ewrap ("init zstd decoder for " +:+ lp_title e) err))
    | None =>
        let '(c, err) := drain_reader chunkStream_Read (stream_fuel descs) cs [] in
        let body := decode_reader c err in
        copy_to_tar script_read (2 + weight body) body
    end
  else copy_to_tar chunkStream_Read (stream_fuel descs) cs.

(** How the bytes of an encoded file get into the tar: a count or an error.
    [copy_file] is the schedule that fetches the chunks one after the other;
    the functions below take any ([Concurrent] gives them the others). *)
Definition copy_file (p : chunkPipeline) (e : layerPlan) : M tar_writer Z :=
  if (2 <=? fileWindow p e)%Z then WriteTo p (lp_zstd e) (chunk_list e) 0 else copy_sequential e.

Definition streamFile_by (copy : chunkPipeline -> layerPlan -> M tar_writer Z)
    (p : chunkPipeline) (e : layerPlan) (modTime : gotime) : M tar_writer unit :=
  hdr ← lift (layerHeader (lp_title e) (sf_Size (lp_meta e)) (lp_meta e) modTime);
  _ ← wrapM "write tar header" (tw_WriteHeader hdr);
  written ← wrapM ("stream " +:+ lp_title e) (copy p e);
  if negb (written =? sf_Size (lp_meta e))%Z then
    lift (Err (Enew (lp_title e +:+ " reconstructed to " +:+ formatInt written +:+ " bytes, want "
                     +:+ formatInt (sf_Size (lp_meta e)))))
  else mret ().

Definition copy_body (body : reader) (layer : Descriptor) : M tar_writer unit := fun tw =>
  let '(err, tw') := CopyBlobSized tw body (d_Digest layer) (d_Size layer) in
  (match err with Some e => Err e | None => Ok () end, tw').

Definition streamLayerToTar (layer : Descriptor) (fileMeta : SnapshotFile) (modTime : gotime) : M tar_writer unit :=
  hdr ← lift (layerHeader (Title layer) (d_Size layer) fileMeta modTime);
  _ ← wrapM "write tar header" (tw_WriteHeader hdr);
  body ← lift (get_blob layer);
  copy_body body layer.

(** [if _, err := tw.Write(data); err != nil] *)
Definition tw_WriteAll (msg : string) (data : bytes) : M tar_writer unit := fun tw =>
  let '(_, err, tw') := w_write tw data in
  (match err with Some e => Err (Ewrap msg e) | None => Ok () end, tw').

Definition writeTarFile (fname : string) (data : bytes) (mode : Z) (modTime : gotime) : M tar_writer unit :=
  _ ← wrapM ("write tar header " +:+ fname)
    (tw_WriteHeader {| o_Name := fname; o_Size := Z.of_nat (length data); o_Mode := mode;
                       o_ModTime := modTime; o_PAX := ∅ |});
  tw_WriteAll ("write tar body " +:+ fname) data.

Fixpoint stream_entries (copy : chunkPipeline -> layerPlan -> M tar_writer Z)
    (p : chunkPipeline) (entries : list layerPlan) (now : gotime) : M tar_writer unit :=
  match entries with
  | [] => mret ()
  | e :: entries' =>
      _ ← (if negb (lp_encoded e) then streamLayerToTar (lp_layer e) (lp_meta e) now else streamFile_by copy p e now);
      stream_entries copy p entries' now
  end.

Context (opts : StreamOptions) (now : gotime).

(** [bw.Flush()] once every write was accepted: what is past the room of the
    writer fails now. *)
Definition flush_writer (k : sink) : M tar_writer unit := fun tw =>
  (match tw_room tw with
   | Some free => if free <? sk_slack k then Err sink_err else Ok ()
   | None => Ok ()
   end, tw).

Definition writeImportTar_by (copy : chunkPipeline -> layerPlan -> M tar_writer Z)
    (cfg : SnapshotConfig) (layers : list Descriptor) : M tar_writer unit :=
  let prefetch := if (so_Concurrency opts <=? 0)%Z then defaultTransferConcurrency else so_Concurrency opts in
  let budget0 := shl20 (so_MemoryBudgetMiB opts) in
  let budget := if (budget0 <=? 0)%Z then defaultPullPrefetchBudget else budget0 in
  entries ← lift (planLayers cfg layers);
  pipe ← lift (newChunkPipeline entries prefetch budget);
  envelopeJSON ← lift (MarshalEnvelope cfg (cmpOr (so_LocalName opts) (so_Name opts)));
  _ ← wrapM "write snapshot envelope" (writeTarFile snapshotJSONName envelopeJSON 420 now);
  _ ← stream_entries copy pipe entries now;
  _ ← wrapM "close tar" tw_Close;
  flush_writer (default unbounded (so_Writer opts)).

Definition FetchSnapshotConfig (desc : Descriptor) : result SnapshotConfig :=
  if negb (String.eqb (d_MediaType desc) MediaTypeSnapshotConfig) then
    Err (Enew ("unexpected config mediaType " +:+ quoted (d_MediaType desc)))
  else if (maxSnapshotConfigSize <? d_Size desc)%Z then
    Err (Enew ("config blob too large: " +:+ formatInt (d_Size desc) +:+ " > " +:+ formatInt maxSnapshotConfigSize))
  else
    body ← wrap ("get config blob " +:+ d_Digest desc) (GetBlob s name (d_Digest desc));
    data ← wrap "read config blob" (read_all_limited body (maxSnapshotConfigSize + 1));
    if (maxSnapshotConfigSize <? Z.of_nat (length data))%Z then
      Err (Enew ("config blob exceeded cap " +:+ formatInt maxSnapshotConfigSize +:+ " while streaming"))
    else wrap "parse snapshot config" (unmarshal SnapshotConfig_unmarshal data).

End Pull.

Section Stream.
Context {S : Type} `{Downloader S} `{Zstd}.
Context (s : S) (opts : StreamOptions) (now : gotime).

Definition StreamParsed_by (copy : chunkPipeline -> layerPlan -> M tar_writer Z) (m : OCIManifest) : result unit * tar_writer :=
  let tw := tar_new (sink_reach (default unbounded (so_Writer opts))) in
  if String.eqb (so_Name opts) "" then (Err (Enew "snapshot stream: name is required"), tw)
  else match so_Writer opts with
  | None => (Err (Enew "snapshot stream: writer is required"), tw)
  | Some _ =>
      (cfg ← lift (wrap "fetch snapshot config" (FetchSnapshotConfig s (so_Name opts) (m_Config m)));
       _ ← lift (validateSnapshotLayers m cfg);
       writeImportTar_by s (so_Name opts) opts now copy cfg (m_Layers m)) tw
  end.

(** The manifest to stream: an index resolves to its linux/amd64 child. *)
Definition resolve_manifest (raw : bytes) : result OCIManifest :=
  m ← wrap "parse manifest" (Parse raw);
  m' ← (if bool_decide (ClassifyParsed m = KindImageIndex) then
          child ← pickIndexChild m;
          '(childRaw, _) ← wrap ("get child manifest " +:+ im_Digest child) (GetManifest s (so_Name opts) (im_Digest child));
          wrap "parse child manifest" (Parse childRaw)
        else Ok m);
  if bool_decide (ClassifyParsed m' = KindSnapshot) then Ok m'
  else Err (Enew ("manifest is " +:+ Kind_String (ClassifyParsed m') +:+ ", not a snapshot")).

Definition Stream_by (copy : chunkPipeline -> layerPlan -> M tar_writer Z) (raw : bytes) : result unit * tar_writer :=
  let tw := tar_new (sink_reach (default unbounded (so_Writer opts))) in
  if String.eqb (so_Name opts) "" then (Err (Enew "snapshot stream: name is required"), tw)
  else match resolve_manifest raw with
  | Ok m => StreamParsed_by copy m
  | Err e => (Err e, tw)
  | Panic p => (Panic p, tw)
  end.

(** The functions of the package. *)
Definition streamFile := streamFile_by (copy_file s (so_Name opts)).
Definition writeImportTar := writeImportTar_by s (so_Name opts) opts now (copy_file s (so_Name opts)).
Definition StreamParsed := StreamParsed_by (copy_file s (so_Name opts)).
Definition Stream := Stream_by (copy_file s (so_Name opts)).

End Stream.
