(* ===== verification/Pipeline.v ===== *)
(** * Pipeline: the concurrent chunk reader (snapshot/pullencoded.go)

    [newChunkSource] starts a producer goroutine, which starts one goroutine
    per chunk; [WriteTo] consumes their futures in order; [fetch] takes and
    returns buffers of the two pools.  This file models them as a step relation
    on the shared state, one step per blocking operation, in any
    interleaving, with a cancellation that may come at any moment.  The
    sequential [SnapshotPull.WriteTo] is the specification. *)

From Stdlib Require Import ZArith Lia Ascii String.
From stdpp Require Import base strings list relations.
From S2P Require Import Prelude GoStrings GoIO.

Local Open Scope nat_scope.

(** What a fetch goroutine yields, and one of its stages: an error or bytes. *)
Abbreviation outcome := (error + bytes)%type.

(** [fetch] at its blocking points.  A plain chunk takes an output buffer and
    reads into it; a compressed one takes an input buffer, reads, takes an
    output buffer and decodes.  [Sent] is the value in the future's channel;
    a successful one still holds its output buffer. *)
Inductive fetcher :=
  | Unspawned
  | RawTake
  | RawRead
  | ZTakeIn
  | ZRead
  | ZTakeOut (stored : bytes)
  | ZDecode (stored : bytes)
  | Sent (r : outcome)
  | Consumed.

(** The producer: in its [select], about to start the goroutine of the future
    it just sent, or gone (the channel is closed). *)
Inductive producer := PSend | PSpawn | PClosed.

(** [WriteTo]: receiving a future, waiting for its value, writing it; then the
    same in [drain], with what [WriteTo] will return; and its return. *)
Inductive consumer :=
  | CRecv (written : Z)
  | CWait (i : nat) (written : Z)
  | CWrite (i : nat) (data : bytes) (written : Z)
  | CDrain (written : Z) (e : error)
  | CDrainWait (i : nat) (written : Z) (e : error)
  | CRet (written : Z) (e : option error).

Section pipeline.
Context {W : Type} {dst : Writer W}.

(** The file: its chunks, compressed or not, what reading and decoding each
    yields; the file's window and the pipeline's, which sizes the pools. *)
Context (n : nat) (compressed : bool) (read : nat -> outcome) (decode : nat -> bytes -> outcome).
Context (window pool : nat).

(** The channel of futures, the goroutines by chunk, the free buffers of the
    two pools; [s_cancelled]: the context of the fetches is done; [s_external]:
    the caller's context was. *)
Record state := St {
  s_prod : producer;
  s_next : nat;
  s_chan : list nat;
  s_fetch : list fetcher;
  s_cons : consumer;
  s_in : nat;
  s_out : nat;
  s_cancelled : bool;
  s_external : bool;
  s_dst : W
}.

(** [newBufPool(p.window)] and [newBufPool(p.window + 1)], all free. *)
Definition start (w : W) : state :=
  St PSend 0 [] (replicate n Unspawned) (CRecv 0) pool (S pool) false false w.

(** A read fails as the registry says, or in any way once cancelled. *)
Definition read_fails (cancelled : bool) (i : nat) (e : error) : Prop := read i = inl e \/ cancelled = true.

(** [fetch] of chunk [i] against the free buffers.  A [put] blocks while its
    pool is full. *)
Inductive fetch_step (cancelled : bool) (i : nat) : fetcher * nat * nat -> fetcher * nat * nat -> Prop :=
  | raw_take fi fo : fetch_step cancelled i (RawTake, fi, S fo) (RawRead, fi, fo)
  | raw_read b fi fo : read i = inr b -> fetch_step cancelled i (RawRead, fi, fo) (Sent (inr b), fi, fo)
  | raw_fail e fi fo : read_fails cancelled i e -> fo < S pool ->
      fetch_step cancelled i (RawRead, fi, fo) (Sent (inl e), fi, S fo)
  | z_take_in fi fo : fetch_step cancelled i (ZTakeIn, S fi, fo) (ZRead, fi, fo)
  | z_read b fi fo : read i = inr b -> fetch_step cancelled i (ZRead, fi, fo) (ZTakeOut b, fi, fo)
  | z_fail e fi fo : read_fails cancelled i e -> fi < pool ->
      fetch_step cancelled i (ZRead, fi, fo) (Sent (inl e), S fi, fo)
  | z_take_out b fi fo : fetch_step cancelled i (ZTakeOut b, fi, S fo) (ZDecode b, fi, fo)
  | z_decode b d fi fo : decode i b = inr d -> fi < pool ->
      fetch_step cancelled i (ZDecode b, fi, fo) (Sent (inr d), S fi, fo)
  | z_decode_fail b e fi fo : decode i b = inl e -> fi < pool -> fo < S pool ->
      fetch_step cancelled i (ZDecode b, fi, fo) (Sent (inl e), S fi, S fo).

(** [n, err := w.Write(res.data)], then a short write is an error. *)
Definition write_chunk (w : W) (data : bytes) : Z * option error * W :=
  let '(k, err, w') := w_write w data in
  (Z.of_nat k, match err with
               | Some e => Some e
               | None => if k =? length data then None else Some (Esent IoErrShortWrite)
               end, w').

Inductive step : state -> state -> Prop :=
  | step_send nx ch fs c fi fo cn ex w : nx < n -> length ch < window - 1 ->
      step (St PSend nx ch fs c fi fo cn ex w) (St PSpawn nx (ch ++ [nx])%list fs c fi fo cn ex w)
  | step_stop nx ch fs c fi fo ex w : nx < n ->
      step (St PSend nx ch fs c fi fo true ex w) (St PClosed nx ch fs c fi fo true ex w)
  | step_close ch fs c fi fo cn ex w :
      step (St PSend n ch fs c fi fo cn ex w) (St PClosed n ch fs c fi fo cn ex w)
  | step_spawn nx ch fs c fi fo cn ex w :
      step (St PSpawn nx ch fs c fi fo cn ex w)
           (St PSend (S nx) ch (<[nx := if compressed then ZTakeIn else RawTake]> fs) c fi fo cn ex w)
  | step_fetch p nx ch fs c fi fo cn ex w i f f' fi' fo' :
      fs !! i = Some f -> fetch_step cn i (f, fi, fo) (f', fi', fo') ->
      step (St p nx ch fs c fi fo cn ex w) (St p nx ch (<[i := f']> fs) c fi' fo' cn ex w)
  | step_recv p nx i ch fs wr fi fo cn ex w :
      step (St p nx (i :: ch) fs (CRecv wr) fi fo cn ex w) (St p nx ch fs (CWait i wr) fi fo cn ex w)
  | step_done nx fs wr fi fo cn ex w :
      step (St PClosed nx [] fs (CRecv wr) fi fo cn ex w) (St PClosed nx [] fs (CRet wr None) fi fo true ex w)
  | step_got p nx ch fs i d wr fi fo cn ex w : fs !! i = Some (Sent (inr d)) ->
      step (St p nx ch fs (CWait i wr) fi fo cn ex w) (St p nx ch fs (CWrite i d wr) fi fo cn ex w)
  | step_failed p nx ch fs i e wr fi fo cn ex w : fs !! i = Some (Sent (inl e)) ->
      step (St p nx ch fs (CWait i wr) fi fo cn ex w) (St p nx ch (<[i := Consumed]> fs) (CDrain wr e) fi fo true ex w)
  | step_write p nx ch fs i d wr k fi fo cn ex w w' : write_chunk w d = (k, None, w') -> fo < S pool ->
      step (St p nx ch fs (CWrite i d wr) fi fo cn ex w)
           (St p nx ch (<[i := Consumed]> fs) (CRecv (wr + k)) fi (S fo) cn ex w')
  | step_write_failed p nx ch fs i d wr k e fi fo cn ex w w' : write_chunk w d = (k, Some e, w') -> fo < S pool ->
      step (St p nx ch fs (CWrite i d wr) fi fo cn ex w)
           (St p nx ch (<[i := Consumed]> fs) (CDrain (wr + k) e) fi (S fo) true ex w')
  | step_drain_recv p nx i ch fs wr e fi fo cn ex w :
      step (St p nx (i :: ch) fs (CDrain wr e) fi fo cn ex w) (St p nx ch fs (CDrainWait i wr e) fi fo cn ex w)
  | step_drain_put p nx ch fs i d wr e fi fo cn ex w : fs !! i = Some (Sent (inr d)) -> fo < S pool ->
      step (St p nx ch fs (CDrainWait i wr e) fi fo cn ex w)
           (St p nx ch (<[i := Consumed]> fs) (CDrain wr e) fi (S fo) cn ex w)
  | step_drain_skip p nx ch fs i e' wr e fi fo cn ex w : fs !! i = Some (Sent (inl e')) ->
      step (St p nx ch fs (CDrainWait i wr e) fi fo cn ex w)
           (St p nx ch (<[i := Consumed]> fs) (CDrain wr e) fi fo cn ex w)
  | step_drained nx fs wr e fi fo cn ex w :
      step (St PClosed nx [] fs (CDrain wr e) fi fo cn ex w) (St PClosed nx [] fs (CRet wr (Some e)) fi fo cn ex w)
  | step_cancel p nx ch fs c fi fo w :
      step (St p nx ch fs c fi fo false false w) (St p nx ch fs c fi fo true true w).

(** ** The specification *)

(** What chunk [i] is, whenever it is fetched. *)
Definition fetch_result (i : nat) : outcome :=
  if compressed then match read i with inl e => inl e | inr b => decode i b end else read i.

Definition results : list outcome := fetch_result <$> seq 0 n.

(** The chunks written one after the other, up to the first failure: what is
    returned, and the writer. *)
Fixpoint write_all (rs : list outcome) (written : Z) (w : W) : Z * option error * W :=
  match rs with
  | [] => (written, None, w)
  | inl e :: _ => (written, Some e, w)
  | inr d :: rs' =>
      let '(k, err, w') := write_chunk w d in
      match err with
      | Some e => ((written + k)%Z, Some e, w')
      | None => write_all rs' (written + k) w'
      end
  end.

(** ** Termination: every step lowers a measure *)

Definition rank (f : fetcher) : nat :=
  match f with
  | Unspawned => 6
  | RawTake | ZTakeIn => 5
  | RawRead | ZRead => 4
  | ZTakeOut _ => 3
  | ZDecode _ => 2
  | Sent _ => 1
  | Consumed => 0
  end.

Definition producer_rank (p : producer) (nx : nat) : nat :=
  match p with
  | PSend => 8 * (n - nx) + 1
  | PSpawn => 8 * (n - nx) - 4
  | PClosed => 0
  end.

Definition consumer_rank (c : consumer) : nat :=
  match c with
  | CWait _ _ | CDrainWait _ _ _ => 3
  | CWrite _ _ _ => 2
  | CRecv _ | CDrain _ _ => 1
  | CRet _ _ => 0
  end.

Definition measure (s : state) : nat :=
  producer_rank (s_prod s) (s_next s) + 3 * length (s_chan s) + sum_list (rank <$> s_fetch s)
  + consumer_rank (s_cons s) + (if s_cancelled s then 0 else 1).

(** ** The invariant *)

(** The future the consumer holds. *)
Definition held (c : consumer) : option nat :=
  match c with CWait i _ | CWrite i _ _ | CDrainWait i _ _ => Some i | _ => None end.

Definition held_count (c : consumer) : nat := match held c with Some _ => 1 | None => 0 end.

Definition sent (p : producer) (nx : nat) : nat := match p with PSpawn => S nx | _ => nx end.

(** Buffers a fetch holds. *)
Definition uses_out (f : fetcher) : nat := match f with RawRead | ZDecode _ | Sent (inr _) => 1 | _ => 0 end.
Definition uses_in (f : fetcher) : nat := match f with ZRead | ZTakeOut _ | ZDecode _ => 1 | _ => 0 end.

Definition stage_ok (i : nat) (cancelled : bool) (f : fetcher) : Prop :=
  match f with
  | RawTake | RawRead => compressed = false
  | ZTakeIn | ZRead => compressed = true
  | ZTakeOut b | ZDecode b => compressed = true /\ read i = inr b
  | Sent (inr d) => fetch_result i = inr d
  | Sent (inl e) => fetch_result i = inl e \/ cancelled = true
  | Unspawned | Consumed => True
  end.

(** Chunks below [k] are consumed, those from [nx] on not started. *)
Definition phase_ok (k nx i : nat) (f : fetcher) : Prop :=
  match f with
  | Consumed => i < k
  | Unspawned => k <= i /\ nx <= i
  | _ => k <= i < nx
  end.

Section invariant.
Variable w0 : W.

(** The first [k] chunks were written, completely. *)
Definition wrote (k : nat) (wr : Z) (w : W) : Prop := write_all (take k results) 0 w0 = (wr, None, w).

(** The run is the sequential one, cut after some chunk; and it is the whole
    sequential one unless the caller cancelled. *)
Definition ended (ex : bool) (wr : Z) (e : option error) (w : W) : Prop :=
  (exists k x, write_all (take k results) 0 w0 = (wr, x, w) /\ (x = None \/ x = e))
  /\ (ex = false -> write_all results 0 w0 = (wr, e, w)).

Definition consumer_ok (k : nat) (fs : list fetcher) (p : producer) (ch : list nat) (cn ex : bool) (w : W) (c : consumer) : Prop :=
  match c with
  | CRecv wr | CWait _ wr => wrote k wr w /\ cn = ex
  | CWrite i d wr => wrote k wr w /\ cn = ex /\ fs !! i = Some (Sent (inr d))
  | CDrain wr e | CDrainWait _ wr e => ended ex wr (Some e) w /\ cn = true
  | CRet wr e => ended ex wr e w /\ cn = true /\ p = PClosed /\ ch = []%list
  end.

Record inv_at (k : nat) (s : state) : Prop := {
  i_len : length (s_fetch s) = n;
  i_next : sent (s_prod s) (s_next s) <= n;
  i_low : k <= s_next s;
  i_closed : s_prod s = PClosed -> s_next s = n \/ s_cancelled s = true;
  i_queue : s_chan s = seq (k + held_count (s_cons s)) (length (s_chan s));
  i_sent : sent (s_prod s) (s_next s) = k + held_count (s_cons s) + length (s_chan s);
  i_cap : length (s_chan s) <= window - 1;
  i_held : forall i, held (s_cons s) = Some i -> i = k;
  i_out : s_out s + sum_list (uses_out <$> s_fetch s) = S pool;
  i_in : s_in s + sum_list (uses_in <$> s_fetch s) = pool;
  i_phase : forall i f, s_fetch s !! i = Some f -> phase_ok k (s_next s) i f;
  i_stage : forall i f, s_fetch s !! i = Some f -> stage_ok i (s_cancelled s) f;
  i_cons : consumer_ok k (s_fetch s) (s_prod s) (s_chan s) (s_cancelled s) (s_external s) (s_dst s) (s_cons s)
}.

Definition inv (s : state) : Prop := exists k, inv_at k s.

End invariant.

(** Every reachable state. *)
Definition reachable (w : W) : state -> Prop := rtc step (start w).

(** ** Counting buffers *)

(** At most [m - k] goroutines lie between the consumer and the producer. *)
Lemma sum_phase (g : fetcher -> nat) l k m :
  (forall i f, l !! i = Some f -> g f <= if decide (k <= i < m) then 1 else 0) -> sum_list (g <$> l) <= m - k.
Proof.
  revert k m. induction l as [|f l IH]; intros k m Hl; cbn; [lia|].
  pose proof (Hl 0 f eq_refl) as H0. specialize (IH (pred k) (pred m)).
  assert (sum_list (g <$> l) <= pred m - pred k) as IH'.
  { apply IH. intros i x Hi. pose proof (Hl (S i) x Hi) as Hx.
    destruct (decide (k <= S i < m)), (decide (pred k <= i < pred m)); lia. }
  destruct (decide (k <= 0 < m)); lia.
Qed.

Lemma uses_one (g : fetcher -> nat) k nx i f :
  (forall x, g x <= 1) -> g Consumed = 0 -> g Unspawned = 0 -> phase_ok k nx i f ->
  g f <= if decide (k <= i < nx) then 1 else 0.
Proof.
  intros H1 Hc Hu Hp. pose proof (H1 f). destruct (decide (k <= i < nx)); [lia|].
  destruct f; cbn in Hp; try lia.
Qed.

Lemma uses_out_le x : uses_out x <= 1.
Proof. by destruct x as [| | | | | | |[]|]; cbn; lia. Qed.
Lemma uses_in_le x : uses_in x <= 1.
Proof. by destruct x as [| | | | | | |[]|]; cbn; lia. Qed.

(** The goroutines in flight never exceed the window. *)
Lemma in_flight w0 k s : 0 < window -> inv_at w0 k s -> s_next s - k <= window.
Proof.
  intros Hw [? ? ? ? ? Hs Hc ? ? ? ? ? ?]. destruct s as [p nx ch fs c fi fo cn ex w]; cbn in *.
  unfold held_count in Hs. destruct (held c), p; cbn in Hs; lia.
Qed.

(** So a [take] never waits. *)
Lemma out_free w0 k s i f :
  0 < window -> window <= pool -> inv_at w0 k s -> s_fetch s !! i = Some f -> uses_out f = 0 -> 0 < s_out s.
Proof.
  intros Hw Hp Hi Hf Hu. pose proof (in_flight w0 k s Hw Hi) as Hfl. destruct Hi.
  assert (sum_list (uses_out <$> s_fetch s) <= s_next s - k); [|lia].
  apply sum_phase. intros j x Hj. by apply (uses_one uses_out); [apply uses_out_le| | |apply i_phase0].
Qed.

Lemma in_free w0 k s i :
  0 < window -> window <= pool -> inv_at w0 k s -> s_fetch s !! i = Some ZTakeIn -> 0 < s_in s.
Proof.
  intros Hw Hp Hi Hf. pose proof (in_flight w0 k s Hw Hi) as Hfl. destruct Hi.
  assert (sum_list (uses_in <$> <[i := ZRead]> (s_fetch s)) <= s_next s - k) as Hs.
  { apply sum_phase. intros j x Hj. apply (uses_one uses_in); [apply uses_in_le|done|done|].
    apply list_lookup_insert_Some in Hj as [(<- & <- & _)|[_ Hj]]; [|by apply i_phase0].
    exact (i_phase0 _ _ Hf). }
  pose proof (sum_insert uses_in _ _ _ ZRead Hf) as Hx. cbn in Hx. lia.
Qed.

(** A buffer in use leaves room in its pool. *)
Lemma out_room w0 k s i f : inv_at w0 k s -> s_fetch s !! i = Some f -> uses_out f = 1 -> s_out s < S pool.
Proof.
  intros [] Hf Hu. pose proof (sum_insert uses_out _ _ _ Unspawned Hf) as Hx. cbn in Hx. lia.
Qed.

Lemma in_room w0 k s i f : inv_at w0 k s -> s_fetch s !! i = Some f -> uses_in f = 1 -> s_in s < pool.
Proof.
  intros [] Hf Hu. pose proof (sum_insert uses_in _ _ _ Unspawned Hf) as Hx. cbn in Hx. lia.
Qed.

(** ** The sequential run, cut *)

Lemma write_all_app rs rs' wr w wr' w' :
  write_all rs wr w = (wr', None, w') -> write_all (rs ++ rs')%list wr w = write_all rs' wr' w'.
Proof.
  revert wr w. induction rs as [|[e|d] rs IH]; intros wr w Hr; cbn in *; [by injection Hr as -> ->|done|].
  destruct (write_chunk w d) as [[m [err|]] w1]; [done|]. by apply IH.
Qed.

Lemma results_lookup k : k < n -> results !! k = Some (fetch_result k).
Proof. intros Hk. unfold results. rewrite list_lookup_fmap, lookup_seq_lt by done. done. Qed.

Lemma results_split k : k < n -> results = (take k results ++ fetch_result k :: drop (S k) results)%list.
Proof. intros Hk. symmetry. apply take_drop_middle. by apply results_lookup. Qed.

Lemma take_results_S k : k < n -> take (S k) results = (take k results ++ [fetch_result k])%list.
Proof. intros Hk. apply take_S_r. by apply results_lookup. Qed.

Lemma wrote_next w0 k wr w d m w' :
  k < n -> wrote w0 k wr w -> fetch_result k = inr d -> write_chunk w d = (m, None, w') ->
  wrote w0 (S k) (wr + m) w'.
Proof.
  intros Hk Hw Hd Hc. unfold wrote in *. rewrite take_results_S, (write_all_app _ _ _ _ _ _ Hw) by done.
  rewrite Hd. cbn. by rewrite Hc.
Qed.

Lemma ended_write w0 k wr w d m e w' ex :
  k < n -> wrote w0 k wr w -> fetch_result k = inr d -> write_chunk w d = (m, Some e, w') ->
  ended w0 ex (wr + m) (Some e) w'.
Proof.
  intros Hk Hw Hd Hc. split.
  - exists (S k), (Some e). split; [|by right]. rewrite take_results_S, (write_all_app _ _ _ _ _ _ Hw) by done.
    rewrite Hd. cbn. by rewrite Hc.
  - intros _. rewrite (results_split k), (write_all_app _ _ _ _ _ _ Hw) by done. rewrite Hd. cbn. by rewrite Hc.
Qed.

Lemma ended_fetch w0 k wr w e ex :
  k < n -> wrote w0 k wr w -> (ex = false -> fetch_result k = inl e) -> ended w0 ex wr (Some e) w.
Proof.
  intros Hk Hw He. split.
  - exists k, None. by split; [|left].
  - intros Hx. rewrite (results_split k), (write_all_app _ _ _ _ _ _ Hw) by done. by rewrite (He Hx).
Qed.

Lemma ended_done w0 wr w ex k : wrote w0 k wr w -> (ex = false -> k = n) -> ended w0 ex wr None w.
Proof.
  intros Hw Hk. split; [exists k, None; by split; [|left]|]. intros Hx. rewrite (Hk Hx) in Hw. unfold wrote in Hw.
  rewrite take_ge in Hw; [done|]. unfold results. by rewrite length_fmap, length_seq.
Qed.

(** ** The invariant holds *)

Lemma inv_start w0 : inv_at w0 0 (start w0).
Proof.
  constructor; cbn; try done.
  - apply length_replicate.
  - lia.
  - lia.
  - rewrite (sum_replicate uses_out). cbn. lia.
  - rewrite (sum_replicate uses_in). cbn. lia.
  - intros i f [-> _]%lookup_replicate. cbn. lia.
  - by intros i f [-> _]%lookup_replicate.
Qed.

Definition is_sent (f : fetcher) : bool := match f with Sent _ => true | _ => false end.

(** A fetch step moves buffers between a goroutine and the pools. *)
Lemma fetch_step_ok cn i f fi fo f' fi' fo' :
  fetch_step cn i (f, fi, fo) (f', fi', fo') ->
  (fo' + uses_out f' = fo + uses_out f /\ fi' + uses_in f' = fi + uses_in f)
  /\ is_sent f = false /\ rank f' < rank f
  /\ (stage_ok i cn f -> stage_ok i cn f') /\ (forall k nx, phase_ok k nx i f -> phase_ok k nx i f').
Proof.
  inversion 1; subst; cbn; (split; [split; lia|]); (split; [done|]); (split; [lia|]); (split; [|done]).
  all: unfold fetch_result, read_fails in *.
  - done.
  - by intros ->.
  - intros ->. tauto.
  - done.
  - done.
  - intros ->. destruct (read i); [|naive_solver]. naive_solver.
  - done.
  - intros [-> ->]. done.
  - intros [-> ->]. by left.
Qed.

Lemma inv_fetch w0 k p nx ch fs c fi fo cn ex w i f f' fi' fo' :
  inv_at w0 k (St p nx ch fs c fi fo cn ex w) -> fs !! i = Some f -> fetch_step cn i (f, fi, fo) (f', fi', fo') ->
  inv_at w0 k (St p nx ch (<[i := f']> fs) c fi' fo' cn ex w).
Proof.
  intros [] Hf ((Ho & Hi) & Hs & _ & Hst & Hph)%fetch_step_ok. cbn in *.
  pose proof (sum_insert uses_out _ _ _ f' Hf). pose proof (sum_insert uses_in _ _ _ f' Hf).
  constructor; cbn; try done.
  - by rewrite length_insert.
  - lia.
  - lia.
  - intros j x [(<- & <- & _)|[_ Hj]]%list_lookup_insert_Some; [by apply Hph, i_phase0|by apply i_phase0].
  - intros j x [(<- & <- & _)|[_ Hj]]%list_lookup_insert_Some; [by apply Hst, i_stage0|by apply i_stage0].
  - destruct c; cbn in *; try done. destruct i_cons0 as (? & ? & Hj). split_and!; try done.
    rewrite list_lookup_insert_ne; [done|]. intros ->. rewrite Hf in Hj. by injection Hj as ->.
Qed.

(** The producer's steps. *)
Lemma inv_send w0 k nx ch fs c fi fo cn ex w :
  nx < n -> length ch < window - 1 -> inv_at w0 k (St PSend nx ch fs c fi fo cn ex w) ->
  inv_at w0 k (St PSpawn nx (ch ++ [nx])%list fs c fi fo cn ex w).
Proof.
  intros Hn Hl []. cbn in *. constructor; cbn; try done; rewrite ?length_app; cbn; try lia.
  - rewrite Nat.add_1_r, seq_S, <- i_queue0. by rewrite <- i_sent0.
  - destruct c; cbn in *; try done. by destruct i_cons0 as (? & ? & ? & ?).
Qed.

Lemma inv_close w0 k nx ch fs c fi fo cn ex w :
  nx = n \/ cn = true -> inv_at w0 k (St PSend nx ch fs c fi fo cn ex w) ->
  inv_at w0 k (St PClosed nx ch fs c fi fo cn ex w).
Proof.
  intros Hn []. cbn in *. constructor; cbn; try done.
  destruct c; cbn in *; try done. by destruct i_cons0 as (? & ? & ? & ?).
Qed.

Lemma spawn_fresh w0 k nx ch fs c fi fo cn ex w :
  inv_at w0 k (St PSpawn nx ch fs c fi fo cn ex w) -> fs !! nx = Some Unspawned.
Proof.
  intros []. cbn in *. destruct (lookup_lt_is_Some_2 fs nx ltac:(lia)) as [f Hf].
  pose proof (i_phase0 _ _ Hf) as Hp. destruct f; cbn in Hp; try lia. done.
Qed.

Lemma inv_spawn w0 k nx ch fs c fi fo cn ex w :
  inv_at w0 k (St PSpawn nx ch fs c fi fo cn ex w) ->
  inv_at w0 k (St PSend (S nx) ch (<[nx := if compressed then ZTakeIn else RawTake]> fs) c fi fo cn ex w).
Proof.
  intros Hinv. pose proof (spawn_fresh _ _ _ _ _ _ _ _ _ _ _ Hinv) as Hf. destruct Hinv. cbn in *.
  pose proof (i_phase0 _ _ Hf) as Hp. set (f' := if compressed then ZTakeIn else RawTake).
  assert (uses_out f' = 0 /\ uses_in f' = 0) as [Ho' Hi'] by (subst f'; by destruct compressed).
  pose proof (sum_insert uses_out _ _ _ f' Hf) as Ho. pose proof (sum_insert uses_in _ _ _ f' Hf) as Hi. cbn in Ho, Hi.
  constructor; cbn; rewrite ?length_insert; try done; try lia.
  - intros j x [(<- & <- & _)|[Hne Hj]]%list_lookup_insert_Some.
    + subst f'. cbn in Hp. destruct compressed; cbn; lia.
    + pose proof (i_phase0 _ _ Hj) as Hx. destruct x; cbn in *; lia.
  - intros j x [(<- & <- & _)|[_ Hj]]%list_lookup_insert_Some; [subst f'; by destruct compressed eqn:?|by apply i_stage0].
  - destruct c; cbn in *; try done; destruct i_cons0 as (? & ? & Hj); [|naive_solver]. split_and!; try done.
    rewrite list_lookup_insert_ne; [done|]. intros ->. by rewrite Hf in Hj.
Qed.

(** The consumer's steps. *)
Lemma inv_recv w0 k p nx i ch fs c c' fi fo cn ex w :
  held c = None -> held c' = Some i ->
  (consumer_ok w0 k fs p (i :: ch)%list cn ex w c -> consumer_ok w0 k fs p ch cn ex w c') ->
  inv_at w0 k (St p nx (i :: ch)%list fs c fi fo cn ex w) -> inv_at w0 k (St p nx ch fs c' fi fo cn ex w).
Proof.
  intros Hc Hc' Hok []. cbn in *. unfold held_count in *. rewrite Hc in *. rewrite Nat.add_0_r in i_queue0.
  injection i_queue0 as Hi Hq. constructor; cbn; unfold held_count; rewrite ?Hc'; try done; try lia.
  - rewrite Hq at 1. f_equal. lia.
  - intros j [= <-]. done.
  - by apply Hok.
Qed.

Lemma held_sent w0 k p nx ch fs c fi fo cn ex w i r :
  inv_at w0 k (St p nx ch fs c fi fo cn ex w) -> held c = Some i -> fs !! i = Some (Sent r) ->
  i = k /\ k < nx /\ k < n /\ stage_ok k cn (Sent r).
Proof.
  intros [] Hh Hf. cbn in *. pose proof (i_held0 i Hh) as ->. pose proof (i_phase0 _ _ Hf) as Hp. cbn in Hp.
  split_and!; [done|lia| |exact (i_stage0 _ _ Hf)]. unfold sent in *. destruct p; lia.
Qed.

Lemma inv_consume w0 k p nx ch fs c c' fi fo cn cn' ex w w' i r :
  inv_at w0 k (St p nx ch fs c fi fo cn ex w) -> held c = Some i -> fs !! i = Some (Sent r) ->
  held c' = None -> (cn = true -> cn' = true) ->
  consumer_ok w0 (S k) (<[i := Consumed]> fs) p ch cn' ex w' c' ->
  inv_at w0 (S k) (St p nx ch (<[i := Consumed]> fs) c' fi (fo + uses_out (Sent r)) cn' ex w').
Proof.
  intros Hinv Hh Hf Hh' Hcn Hok. destruct (held_sent _ _ _ _ _ _ _ _ _ _ _ _ _ _ Hinv Hh Hf) as (-> & Hk & Hkn & _).
  destruct Hinv. cbn in *. unfold held_count in *. rewrite Hh in *.
  pose proof (sum_insert uses_out _ _ _ Consumed Hf) as Ho. pose proof (sum_insert uses_in _ _ _ Consumed Hf) as Hi. cbn in Ho, Hi.
  constructor; cbn; unfold held_count; rewrite ?Hh', ?length_insert; try done; try lia.
  - intros Hp. destruct (i_closed0 Hp); [by left|right; auto].
  - rewrite i_queue0 at 1. f_equal. lia.
  - intros j x [(<- & <- & _)|[Hne Hj]]%list_lookup_insert_Some; [cbn; lia|].
    pose proof (i_phase0 _ _ Hj) as Hx. destruct x; cbn in *; lia.
  - intros j x [(<- & <- & _)|[Hne Hj]]%list_lookup_insert_Some; [done|].
    pose proof (i_stage0 _ _ Hj) as Hx. destruct x as [| | | | | | |[]|]; cbn in *; try done. destruct Hx; [by left|right; auto].
Qed.

Lemma inv_cancel w0 k p nx ch fs c fi fo w :
  inv_at w0 k (St p nx ch fs c fi fo false false w) -> inv_at w0 k (St p nx ch fs c fi fo true true w).
Proof.
  intros []. cbn in *. constructor; cbn; try done.
  - by right.
  - intros i f Hf. specialize (i_stage0 i f Hf). destruct f as [| | | | | | |[]|]; cbn in *; try done. by right.
  - destruct c; cbn in *; naive_solver.
Qed.

Lemma inv_finish w0 k nx fs c fi fo cn ex w wr e :
  held c = None -> (consumer_ok w0 k fs PClosed [] cn ex w c -> ended w0 ex wr e w) ->
  inv_at w0 k (St PClosed nx [] fs c fi fo cn ex w) -> inv_at w0 k (St PClosed nx [] fs (CRet wr e) fi fo true ex w).
Proof.
  intros Hc Hok []. cbn in *. unfold held_count in *. rewrite Hc in *. constructor; cbn; try done.
  - by right.
  - intros i f Hf. specialize (i_stage0 i f Hf). destruct f as [| | | | | | |[]|]; cbn in *; try done. by right.
  - split_and!; try done. by apply Hok.
Qed.

(** A [Sent] error read while nobody had cancelled is the chunk's own. *)
Lemma inv_step w0 s s' : inv w0 s -> step s s' -> inv w0 s'.
Proof.
  intros [k Hk] Hs. destruct Hs as
    [ | | | | | | p nx fs wr fi fo cn ex w | p nx ch fs i d wr fi fo cn ex w Hf | p nx ch fs i e wr fi fo cn ex w Hf
    | p nx ch fs i d wr m fi fo cn ex w w' Hw Hro | p nx ch fs i d wr m e fi fo cn ex w w' Hw Hro | | p nx ch fs i d wr e fi fo cn ex w Hf Hro
    | p nx ch fs i e' wr e fi fo cn ex w Hf | | ].
  - exists k. by apply inv_send.
  - exists k. apply inv_close; [by right|done].
  - exists k. apply inv_close; [by left|done].
  - exists k. by apply inv_spawn.
  - exists k. by eapply inv_fetch.
  - exists k. by eapply inv_recv; [..|exact Hk].
  - exists k. eapply inv_finish; [..|exact Hk]; [done|]. intros [Hw Hx]. apply (ended_done _ _ _ _ k); [done|].
    intros ->. destruct Hk. cbn in *. destruct (i_closed0 eq_refl); [lia|congruence].
  - exists k. destruct Hk. cbn in *. constructor; cbn; try done. by destruct i_cons0.
  - exists (S k). pose proof Hk as Hk'. destruct Hk as [? ? ? ? ? ? ? ? ? ? ? ? [Hw Hx]].
    destruct (held_sent _ _ _ _ _ _ _ _ _ _ _ _ _ _ Hk' eq_refl Hf) as (-> & _ & Hkn & Hst).
    rewrite <- (Nat.add_0_r fo) at 1. apply (inv_consume _ _ _ _ _ _ _ _ _ _ _ _ _ _ _ _ _ Hk' eq_refl Hf); [done|done|].
    split; [|done]. apply (ended_fetch _ k); [done|done|]. intros ->. cbn in Hst, Hx. destruct Hst; [done|congruence].
  - exists (S k). pose proof Hk as Hk'. destruct Hk as [? ? ? ? ? ? ? ? ? ? ? ? (Hwr & Hx & Hf)]. cbn in Hf.
    destruct (held_sent _ _ _ _ _ _ _ _ _ _ _ _ _ _ Hk' eq_refl Hf) as (-> & _ & Hkn & Hst).
    rewrite <- (Nat.add_1_r fo). apply (inv_consume _ _ _ _ _ _ _ _ _ _ _ _ _ _ _ _ _ Hk' eq_refl Hf); [done|done|].
    split; [|done]. by eapply wrote_next.
  - exists (S k). pose proof Hk as Hk'. destruct Hk as [? ? ? ? ? ? ? ? ? ? ? ? (Hwr & Hx & Hf)]. cbn in Hf.
    destruct (held_sent _ _ _ _ _ _ _ _ _ _ _ _ _ _ Hk' eq_refl Hf) as (-> & _ & Hkn & Hst).
    rewrite <- (Nat.add_1_r fo). apply (inv_consume _ _ _ _ _ _ _ _ _ _ _ _ _ _ _ _ _ Hk' eq_refl Hf); [done|done|].
    split; [|done]. by eapply ended_write.
  - exists k. by eapply inv_recv; [..|exact Hk].
  - exists (S k). pose proof (i_cons _ _ _ Hk) as He. cbn in He. rewrite <- (Nat.add_1_r fo).
    by apply (inv_consume _ _ _ _ _ _ _ _ _ _ _ _ _ _ _ _ _ Hk eq_refl Hf).
  - exists (S k). pose proof (i_cons _ _ _ Hk) as He. cbn in He. rewrite <- (Nat.add_0_r fo) at 1.
    by apply (inv_consume _ _ _ _ _ _ _ _ _ _ _ _ _ _ _ _ _ Hk eq_refl Hf).
  - exists k. pose proof (i_cons _ _ _ Hk) as He. cbn in He. destruct He as [He ->]. eapply inv_finish; [..|exact Hk]; [done|]. by intros _.
  - exists k. by apply inv_cancel.
Qed.

Lemma inv_reachable w0 s : reachable w0 s -> inv w0 s.
Proof. intros Hr. apply (inv_rtc step (inv w0) (inv_step w0) (start w0)); [exists 0; apply inv_start|done]. Qed.

(** ** Progress *)

(** A move of the program, not a cancellation by the caller. *)
Definition moves (s : state) : Prop := exists s', step s s' /\ s_external s' = s_external s.

Lemma moves_step s s' : step s s' -> s_external s' = s_external s -> moves s.
Proof. by exists s'. Qed.

Ltac move_by step := eapply moves_step; [step|done].

(** A goroutine past its start can always take its next step. *)
Lemma fetch_progress w0 k s i f :
  0 < window -> window <= pool -> inv_at w0 k s -> s_fetch s !! i = Some f ->
  f <> Unspawned -> f <> Consumed -> is_sent f = false ->
  exists f' fi' fo', fetch_step (s_cancelled s) i (f, s_in s, s_out s) (f', fi', fo').
Proof.
  intros Hw Hp Hi Hf Hu Hc Hs.
  pose proof (out_free w0 k s i f Hw Hp Hi Hf) as Hout. pose proof (out_room w0 k s i f Hi Hf) as Hro.
  pose proof (in_room w0 k s i f Hi Hf) as Hri.
  destruct f as [| | | | |b|b| |]; try done; cbn in Hout, Hro, Hri.
  - specialize (Hout eq_refl). destruct (s_out s) as [|fo]; [lia|]. eexists _, _, _. constructor.
  - destruct (read i) as [e|b] eqn:E; eexists _, _, _; [apply raw_fail; [by left|auto]|by apply raw_read].
  - pose proof (in_free w0 k s i Hw Hp Hi Hf) as Hin. destruct (s_in s) as [|fi]; [lia|]. eexists _, _, _. constructor.
  - destruct (read i) as [e|b] eqn:E; eexists _, _, _; [apply z_fail; [by left|auto]|by apply z_read].
  - specialize (Hout eq_refl). destruct (s_out s) as [|fo]; [lia|]. eexists _, _, _. constructor.
  - destruct (decode i b) as [e|d] eqn:E; eexists _, _, _; [eapply z_decode_fail; eauto|eapply z_decode; eauto].
Qed.

(** The chunk the consumer waits for moves on, or is ready. *)
Lemma held_progress w0 k s i :
  0 < window -> window <= pool -> inv_at w0 k s -> held (s_cons s) = Some i -> s_prod s <> PSpawn ->
  moves s \/ exists r, s_fetch s !! i = Some (Sent r).
Proof.
  intros Hw Hp Hi Hh Hsp. pose proof (i_held _ _ _ Hi _ Hh) as ->.
  assert (k < s_next s) as Hk.
  { pose proof (i_sent _ _ _ Hi) as Hs. unfold held_count in Hs. rewrite Hh in Hs. destruct (s_prod s); cbn in Hs; done || lia. }
  destruct (lookup_lt_is_Some_2 (s_fetch s) k) as [f Hf].
  { rewrite (i_len _ _ _ Hi). pose proof (i_next _ _ _ Hi). unfold sent in *. destruct (s_prod s); lia. }
  pose proof (i_phase _ _ _ Hi _ _ Hf) as Hph. destruct (is_sent f) eqn:Es.
  { right. destruct f; try done. by eexists. }
  left. destruct (fetch_progress w0 k s k f Hw Hp Hi Hf) as (f' & fi' & fo' & Hst); [intros ->; cbn in Hph; lia..|done|].
  destruct s as [p nx ch fs c fi fo cn ex w]. cbn in *. move_by ltac:(by eapply step_fetch).
Qed.

Definition returned (s : state) : bool := match s_cons s with CRet _ _ => true | _ => false end.

Lemma consumer_progress w0 k s :
  0 < window -> window <= pool -> inv_at w0 k s -> returned s = false -> s_prod s <> PSpawn ->
  (s_prod s = PClosed \/ s_chan s <> []) -> moves s.
Proof.
  intros Hw Hp Hi Hr Hsp Hq. destruct (held (s_cons s)) as [i|] eqn:Eh.
  - destruct (held_progress w0 k s i Hw Hp Hi Eh Hsp) as [?|[r Hf]]; [done|].
    pose proof (out_room w0 k s i _ Hi Hf) as Hro. pose proof (i_cons _ _ _ Hi) as Hc.
    destruct s as [p nx ch fs c fi fo cn ex w]. cbn in *. destruct c; try done; injection Eh as ->.
    + destruct r; [move_by ltac:(by eapply step_failed)|move_by ltac:(by eapply step_got)].
    + destruct Hc as (_ & _ & Hc). rewrite Hc in Hf. injection Hf as <-.
      destruct (write_chunk w data) as [[m [e|]] w'] eqn:Ew;
        [move_by ltac:(eapply step_write_failed; eauto)|move_by ltac:(eapply step_write; eauto)].
    + destruct r; [move_by ltac:(by eapply step_drain_skip)|move_by ltac:(eapply step_drain_put; eauto)].
  - destruct s as [p nx ch fs c fi fo cn ex w]. cbn in *. destruct ch as [|i ch].
    + destruct Hq as [->|?]; [|done]. destruct c; try done; [move_by ltac:(apply step_done)|move_by ltac:(apply step_drained)].
    + destruct c; try done; [move_by ltac:(apply step_recv)|move_by ltac:(apply step_drain_recv)].
Qed.

Lemma progress w0 k s :
  2 <= window -> window <= pool -> inv_at w0 k s -> returned s = false -> moves s.
Proof.
  intros Hw Hp Hi Hr. destruct (s_prod s) eqn:Ep.
  - destruct (decide (s_next s = n)) as [Hn|Hn].
    { destruct s as [p nx ch fs c fi fo cn ex w]. cbn in *. subst. move_by ltac:(apply step_close). }
    assert (s_next s < n) by (pose proof (i_next _ _ _ Hi) as Hl; rewrite Ep in Hl; cbn in Hl; lia).
    destruct (decide (length (s_chan s) < window - 1)) as [Hc|Hc].
    { destruct s as [p nx ch fs c fi fo cn ex w]. cbn in *. subst. move_by ltac:(by apply step_send). }
    apply (consumer_progress w0 k); [lia|done|done|done|congruence|]. right. intros E. rewrite E in Hc. cbn in Hc. lia.
  - destruct s as [p nx ch fs c fi fo cn ex w]. cbn in *. subst. move_by ltac:(apply step_spawn).
  - apply (consumer_progress w0 k); [lia|done|done|done|congruence|by left].
Qed.

(** ** Every run ends *)

Lemma step_measure w0 s s' : inv w0 s -> step s s' -> measure s' < measure s.
Proof.
  intros [k Hk] Hs. pose proof (i_next _ _ _ Hk) as Hn. pose proof (i_len _ _ _ Hk) as Hl. pose proof (i_phase _ _ _ Hk) as Hph.
  pose proof (i_cons _ _ _ Hk) as Hc.
  assert (s_prod s = PSpawn -> s_fetch s !! s_next s = Some Unspawned) as Hfresh.
  { destruct s as [p nx ch fs c fi fo cn ex w]. cbn. intros ->. by eapply spawn_fresh. }
  clear Hk. destruct Hs; unfold measure; cbn [s_prod s_next s_chan s_fetch s_cons s_cancelled sent consumer_ok] in *; rewrite ?length_app;
    cbn [length producer_rank consumer_rank app];
    try match goal with H : ?fs !! ?i = Some ?f |- context [<[?i := ?f']> ?fs] =>
          pose proof (sum_insert rank _ _ _ f' H) as Hi; cbn [rank] in Hi end; cbn match; try lia; try (destruct cn; cbn match; lia).
  - pose proof (sum_insert rank _ _ _ (if compressed then ZTakeIn else RawTake) (Hfresh eq_refl)) as Hi.
    assert (rank (if compressed then ZTakeIn else RawTake) = 5) as Hr by by destruct compressed.
    rewrite Hr in Hi. cbn [rank] in Hi. lia.
  - apply fetch_step_ok in H0 as (_ & _ & Hr & _). lia.
  - destruct Hc as (_ & _ & Hf). pose proof (sum_insert rank _ _ _ Consumed Hf) as Hi. cbn [rank] in Hi. lia.
  - destruct Hc as (_ & _ & Hf). pose proof (sum_insert rank _ _ _ Consumed Hf) as Hi. cbn [rank] in Hi. destruct cn; cbn match; lia.
Qed.

Lemma measure_start w0 : measure (start w0) = 14 * n + 3.
Proof. unfold measure, start. cbn [s_prod s_next s_chan s_fetch s_cons s_cancelled producer_rank consumer_rank length]. rewrite sum_replicate. cbn. lia. Qed.

Lemma nsteps_bound w0 m s s' : inv w0 s -> nsteps step m s s' -> m + measure s' <= measure s.
Proof. apply (nsteps_measure step (inv w0)); [apply inv_step|apply step_measure]. Qed.

(** So some run ends, without a cancellation by the caller. *)
Lemma uncancelled_run w0 s :
  2 <= window -> window <= pool -> inv w0 s -> exists s', rtc step s s' /\ s_external s' = s_external s /\ returned s' = true.
Proof.
  intros Hw Hp. induction s as [s IH] using (induction_ltof1 _ measure). unfold ltof in IH. intros Hi.
  destruct (returned s) eqn:Er; [by exists s|]. pose proof Hi as [k Hk].
  destruct (progress w0 k s Hw Hp Hk Er) as (s1 & Hs & He).
  destruct (IH s1 (step_measure w0 s s1 Hi Hs) (inv_step w0 s s1 Hi Hs)) as (s' & Hr & He' & Hret).
  exists s'. split_and!; [by eapply rtc_l|congruence|done].
Qed.

(** Where [WriteTo] has returned every goroutine is over. *)
Lemma returned_idle w0 k s wr e i f :
  inv_at w0 k s -> s_cons s = CRet wr e -> s_fetch s !! i = Some f -> f = Unspawned \/ f = Consumed.
Proof.
  intros Hi Hc Hf. pose proof (i_phase _ _ _ Hi _ _ Hf) as Hp. pose proof (i_sent _ _ _ Hi) as Hs.
  pose proof (i_cons _ _ _ Hi) as Hok. rewrite Hc in Hok, Hs. cbn in Hok, Hs. destruct Hok as (_ & _ & Hpr & Hch).
  rewrite Hpr, Hch in Hs. cbn in Hs. destruct f; cbn in Hp; try lia; auto.
Qed.

Lemma sum_idle (g : fetcher -> nat) l :
  g Unspawned = 0 -> g Consumed = 0 -> (forall i f, l !! i = Some f -> f = Unspawned \/ f = Consumed) ->
  sum_list (g <$> l) = 0.
Proof. intros Hu Hc Hl. apply sum_zero. intros i f Hf. by destruct (Hl i f Hf) as [->| ->]. Qed.

(** C11: prefetching neither deadlocks nor runs forever: with a window of at
    least two and pools sized for the pipeline's window, from every reachable
    state some goroutine can move until [WriteTo] has returned (without the
    caller cancelling), no [take] from
    a buffer pool ever has to wait, and every interleaving, a cancellation at
    any moment included, is at most [14 n + 3] steps long. *)
Theorem chunkSource_terminates w0 s :
  2 <= window -> window <= pool -> reachable w0 s ->
  (returned s = false -> exists s', step s s' /\ s_external s' = s_external s)
  /\ (forall i f, s_fetch s !! i = Some f -> f = RawTake \/ (exists b, f = ZTakeOut b) -> 0 < s_out s)
  /\ (forall i, s_fetch s !! i = Some ZTakeIn -> 0 < s_in s)
  /\ (forall m s', nsteps step m (start w0) s' -> m <= 14 * n + 3).
Proof.
  intros Hw Hp Hr. destruct (inv_reachable w0 s Hr) as [k Hk]. split_and!.
  - exact (progress w0 k s Hw Hp Hk).
  - intros i f Hf Ht. eapply (out_free w0 k s i f); [lia|done..|]. destruct Ht as [->|[b ->]]; done.
  - intros i Hf. eapply (in_free w0 k s i); [lia|done..].
  - intros m s' Hst. rewrite <- (measure_start w0).
    pose proof (nsteps_bound w0 m (start w0) s' (ex_intro _ 0 (inv_start w0)) Hst). lia.
Qed.

(** What a returned [WriteTo] has written. *)
Lemma returned_writes w0 s wr e :
  reachable w0 s -> s_cons s = CRet wr e ->
  (s_external s = false -> write_all results 0 w0 = (wr, e, s_dst s))
  /\ (exists k x, write_all (take k results) 0 w0 = (wr, x, s_dst s) /\ (x = None \/ x = e)).
Proof.
  intros Hr Hc. destruct (inv_reachable w0 s Hr) as [k Hk]. pose proof (i_cons _ _ _ Hk) as Hok. rewrite Hc in Hok.
  destruct Hok as ([Hcut Hall] & _). by split.
Qed.

(** C10: prefetching changes nothing: whatever the interleaving, when
    [WriteTo] returns without the caller having cancelled, it returns what the
    sequential run over the chunks returns and leaves the destination as that
    run does; under a cancellation the destination is that of the sequential
    run cut after some chunk; and in every case both pools are full again. *)
Theorem chunkSource_refines w0 s wr e :
  reachable w0 s -> s_cons s = CRet wr e ->
  (s_external s = false -> write_all results 0 w0 = (wr, e, s_dst s))
  /\ (exists k x, write_all (take k results) 0 w0 = (wr, x, s_dst s) /\ (x = None \/ x = e))
  /\ s_in s = pool /\ s_out s = S pool.
Proof.
  intros Hr Hc. destruct (returned_writes w0 s wr e Hr Hc) as [Hall Hcut]. destruct (inv_reachable w0 s Hr) as [k Hk].
  split_and!; [done|done| |].
  - pose proof (i_in _ _ _ Hk) as Hi. rewrite sum_idle in Hi; [lia|done|done|]. intros i f. by eapply returned_idle.
  - pose proof (i_out _ _ _ Hk) as Ho. rewrite sum_idle in Ho; [lia|done|done|]. intros i f. by eapply returned_idle.
Qed.

End pipeline.

(** ** A run: two plain chunks, the second one read first *)

Definition two_reads (i : nat) : outcome := inr (bytes_of (if i =? 0 then "ab" else "cd")).
Definition no_decode (i : nat) (b : bytes) : outcome := inr b.
Abbreviation demo_step := (step (W := bytes) 2 false two_reads no_decode 2 2).
Definition demo_start : state (W := bytes) := start 2 2 [].
Definition demo_end : state (W := bytes) :=
  St PClosed 2 [] [Consumed; Consumed] (CRet 4 None) 2 3 true false (bytes_of "abcd").

Lemma demo_run : rtc demo_step demo_start demo_end.
Proof.
  eapply rtc_l; [eapply step_send; cbn; lia|]. eapply rtc_l; [eapply step_spawn|].
  eapply rtc_l; [eapply step_recv|].
  eapply rtc_l; [eapply step_send; cbn; lia|]. eapply rtc_l; [eapply step_spawn|].
  eapply rtc_l; [eapply (step_fetch _ _ _ _ _ _ _ _ _ _ _ _ _ _ _ _ 1); [reflexivity|apply raw_take]|].
  eapply rtc_l; [eapply (step_fetch _ _ _ _ _ _ _ _ _ _ _ _ _ _ _ _ 1); [reflexivity|by apply raw_read]|].
  eapply rtc_l; [eapply (step_fetch _ _ _ _ _ _ _ _ _ _ _ _ _ _ _ _ 0); [reflexivity|apply raw_take]|].
  eapply rtc_l; [eapply (step_fetch _ _ _ _ _ _ _ _ _ _ _ _ _ _ _ _ 0); [reflexivity|by apply raw_read]|].
  eapply rtc_l; [eapply step_got; reflexivity|]. eapply rtc_l; [eapply step_write; [reflexivity|lia]|].
  eapply rtc_l; [eapply step_recv|]. eapply rtc_l; [eapply step_got; reflexivity|].
  eapply rtc_l; [eapply step_write; [reflexivity|lia]|].
  eapply rtc_l; [eapply step_close|]. eapply rtc_l; [eapply step_done|]. apply rtc_refl.
Qed.

Lemma chunkSource_terminates_witness :
  exists s', demo_step demo_start s' /\ s_external s' = false.
Proof.
  exact (proj1 (chunkSource_terminates 2 false two_reads no_decode 2 2 [] demo_start
    (le_n 2) (le_n 2) (rtc_refl _ _)) eq_refl).
Defined.

Lemma chunkSource_refines_witness :
  write_all (results 2 false two_reads no_decode) 0 ([] : bytes) = (4%Z, None, bytes_of "abcd").
Proof.
  exact (proj1 (chunkSource_refines 2 false two_reads no_decode 2 2 [] demo_end 4 None demo_run eq_refl) eq_refl).
Defined.
