(* ===== verification/PullSpec.v ===== *)
(** * PullSpec: what a stream writes when the registry delivers

    [chunk_ok]: a blob of the declared size is there.  [delivers]: a planned
    entry reassembles to given bytes.  The lemmas show that the buffered
    (windowed) and the sequential paths both write exactly those bytes, and
    that a whole plan is written entry by entry. *)

From Stdlib Require Import ZArith Lia Ascii String.
From stdpp Require Import base gmap strings list.
From S2P Require Import Prelude GoStrings Json Manifest GoIO OciUtil Registry Tar Zstd Snapshot SnapshotPull.

Local Open Scope string_scope.
Local Open Scope nat_scope.

(** ** Buffer sizes *)

Lemma foldl_max_le (ds : list Descriptor) m :
  (m <= foldl (fun m d => Z.max m (d_Size d)) m ds)%Z
  /\ Forall (fun d => d_Size d <= foldl (fun m d => Z.max m (d_Size d)) m ds)%Z ds.
Proof.
  revert m. induction ds as [|d ds IH]; intros m; cbn; [split; [lia|constructor]|].
  destruct (IH (Z.max m (d_Size d))) as [H1 H2]. split; [lia|]. constructor; [lia|done].
Qed.

(** A stored chunk of a buffered entry fits the buffer it is read into, and
    its content, when compressed, the output buffer of the stride. *)
Definition caps_cover (i o : Z) (e : layerPlan) : Prop :=
  Forall (fun d => d_Size d <= if lp_zstd e then i else o)%Z (chunk_list e)
  /\ (lp_zstd e = true -> rawChunkStride (sf_Size (lp_meta e)) (Z.of_nat (length (chunk_list e))) <= o)%Z.

Lemma caps_cover_mono i o i' o' e : (i <= i')%Z -> (o <= o')%Z -> caps_cover i o e -> caps_cover i' o' e.
Proof.
  intros Hi Ho [H1 H2]. split.
  - eapply Forall_impl; [exact H1|]. cbn. intros d. destruct (lp_zstd e); lia.
  - intros Hz. specialize (H2 Hz). lia.
Qed.

Lemma bufferCaps_cover e : caps_cover (bufferCaps e).1 (bufferCaps e).2 e.
Proof.
  unfold bufferCaps, caps_cover. destruct (foldl_max_le (chunk_list e) 0) as [_ H].
  destruct (lp_zstd e); cbn; split; (done || (intros; done) || lia).
Qed.

Definition caps_step (acc : Z * Z * bool) (e : layerPlan) : Z * Z * bool :=
  let '(i, o, z) := acc in
  if buffered e then
    let '(inputCap, outputCap) := bufferCaps e in (Z.max i inputCap, Z.max o outputCap, z || lp_zstd e)
  else acc.

Lemma caps_step_mono acc e :
  (acc.1.1 <= (caps_step acc e).1.1)%Z /\ (acc.1.2 <= (caps_step acc e).1.2)%Z.
Proof.
  destruct acc as [[i o] z]. unfold caps_step. destruct (buffered e); [|cbn; lia].
  destruct (bufferCaps e). cbn. lia.
Qed.

Lemma pipeline_caps_fold_mono entries acc :
  (acc.1.1 <= (foldl caps_step acc entries).1.1)%Z /\ (acc.1.2 <= (foldl caps_step acc entries).1.2)%Z.
Proof.
  revert acc. induction entries as [|e es IH]; intros acc; cbn [foldl]; [lia|].
  pose proof (IH (caps_step acc e)). pose proof (caps_step_mono acc e). lia.
Qed.

Lemma pipeline_caps_cover entries e :
  e ∈ entries -> buffered e = true ->
  caps_cover (pipeline_caps entries).1.1 (pipeline_caps entries).1.2 e.
Proof.
  change (pipeline_caps entries) with (foldl caps_step (0%Z, 0%Z, false) entries).
  generalize (0%Z, 0%Z, false). induction entries as [|e' es IH]; intros acc Hin Hb; [by apply elem_of_nil in Hin|].
  cbn [foldl]. apply elem_of_cons in Hin as [<-|Hin]; [|by apply IH].
  pose proof (pipeline_caps_fold_mono es (caps_step acc e)) as [H1 H2].
  eapply caps_cover_mono; [exact H1|exact H2|].
  destruct acc as [[i o] z]. unfold caps_step. rewrite Hb.
  pose proof (bufferCaps_cover e) as Hc. destruct (bufferCaps e) as [ic oc]. cbn in *.
  eapply caps_cover_mono; [| |exact Hc]; lia.
Qed.

Lemma newChunkPipeline_caps `{Zstd} entries prefetch budget p :
  newChunkPipeline entries prefetch budget = Ok p ->
  cp_inputCap p = (pipeline_caps entries).1.1 /\ cp_outputCap p = (pipeline_caps entries).1.2.
Proof.
  unfold newChunkPipeline. destruct (pipeline_caps entries) as [[i o] z]. cbn [fst snd].
  repeat case_match; intros [= <-]; done.
Qed.

(** The stride is no smaller than the chunk size of a file cut evenly. *)
Lemma rawChunkStride_covers (size n c : Z) :
  (0 < c)%Z -> (0 < size)%Z -> n = ((size + c - 1) / c)%Z -> (Z.min size c <= rawChunkStride size n)%Z.
Proof.
  intros Hc Hs ->. unfold rawChunkStride.
  destruct (Z.leb_spec ((size + c - 1) / c) 1) as [H1|H1]; cbn [orb]; [lia|].
  destruct (Z.leb_spec size 0); [lia|]. unfold godiv. rewrite Z.quot_div_nonneg by lia.
  assert (((size + c - 1) / c - 1) * c <= size - 1)%Z as Hle.
  { pose proof (Z.mul_div_le (size + c - 1) c Hc). nia. }
  assert (c <= (size - 1) / ((size + c - 1) / c - 1))%Z; [|lia].
  apply Z.div_le_lower_bound; lia.
Qed.

Section Deliver.
Context {S : Type} `{Downloader S} `{Zstd}.
Context (s : S) (name : string).

(** The blob a descriptor names is there, with the declared size. *)
Definition chunk_ok (d : Descriptor) (b : bytes) : Prop :=
  d_Size d = Z.of_nat (length b) /\ exists body, GetBlob s name (d_Digest d) = Ok body /\ good_body body b.

Lemma chunk_blob d b :
  chunk_ok d b -> exists body, GetBlob s name (d_Digest d) = Ok body /\ get_blob s name d = Ok body /\ good_body body b.
Proof. intros [_ (body & Hb & Hg)]. exists body. unfold get_blob. by rewrite Hb. Qed.

Lemma read_chunk_ok d b cap :
  chunk_ok d b -> (d_Size d <= cap)%Z -> read_chunk s name d cap = Ok b.
Proof.
  intros Hok Hcap. destruct (chunk_blob _ _ Hok) as (body & _ & Hg & Hgood). destruct Hok as [Hsz _].
  unfold read_chunk. rewrite Hg. cbn [mbind result_bind].
  destruct (Z.ltb_spec (d_Size d) 0); [lia|]. destruct (Z.ltb_spec cap (d_Size d)); [lia|]. cbn [orb].
  pose proof (checker_src_new body b (d_Digest d) (d_Size d) Hgood Hsz) as Hsrc.
  destruct (read_full_src _ _ (checker_fuel body) _ _ _ (Z.to_nat (d_Size d)) []
    checker_src_step checker_src_strict Hsrc) as (v' & k' & E & Hv' & Hk'); [unfold checker_fuel; lia|cbn; lia|].
  rewrite E. cbn [app].
  destruct (@io_copy_src _ _ _ discard_ok _ _ (checker_fuel body) v' [] k' () 0 checker_src_step Hv')
    as (v2 & E2); [unfold checker_fuel; lia|done|].
  by rewrite E2.
Qed.

(** *** The windowed path *)

Lemma WriteTo_ok p zstd descs bs tw written :
  Forall2 (fun d b => fetch s name p d zstd = Ok b) descs bs ->
  w_accepts tw (length (concat bs)) ->
  WriteTo s name p zstd descs written tw = (Ok (written + Z.of_nat (length (concat bs)))%Z, w_app tw (concat bs)).
Proof.
  intros HF. revert tw written. induction HF as [|d b ds bs Hd HF IH]; intros tw written Ha.
  - cbn [WriteTo concat length Z.of_nat]. by rewrite w_app_nil, Z.add_0_r.
  - cbn [WriteTo concat]. rewrite Hd. cbn [concat] in Ha. rewrite length_app in Ha.
    rewrite (w_write_ok tw b) by (eapply w_accepts_le; [|exact Ha]; lia).
    rewrite Nat.eqb_refl. cbn [negb]. rewrite IH by by apply w_accepts_app.
    rewrite w_app_app, length_app. f_equal. f_equal. lia.
Qed.

(** *** The sequential path *)

Definition open_cost (d : Descriptor) : nat :=
  match GetBlob s name (d_Digest d) with Ok body => checker_fuel body | _ => 1 end.

Definition stream_src (c : chunkStream) (b : bytes) (k : nat) : Prop :=
  match cs_cur c with
  | None => exists bs, Forall2 chunk_ok (cs_descs c) bs /\ b = concat bs /\ 1 + sum_list (open_cost <$> cs_descs c) <= k
  | Some v => exists d rest b0 k0 bs, cs_descs c = d :: rest /\ checker_src v b0 k0 /\ Forall2 chunk_ok rest bs
                /\ b = (b0 ++ concat bs)%list /\ 1 + k0 + sum_list (open_cost <$> rest) <= k
  end.

(** What one read of the chunk stream does to the bytes left. *)
Definition reads_on (c : chunkStream) (b : bytes) (k n : nat) : Prop :=
  let r := chunkStream_Read s name c n in
  exists b', b = (rr_data r.1 ++ b')%list
    /\ (rr_err r.1 = None /\ (exists k', k' < k /\ stream_src r.2 b' k')
        \/ rr_err r.1 = Some EOF /\ b' = [] /\ rr_data r.1 = []).

Lemma reads_on_open v d rest b0 k0 bs n k :
  n <> 0 -> checker_src v b0 k0 -> Forall2 chunk_ok rest bs -> 1 + k0 + sum_list (open_cost <$> rest) <= k ->
  (forall k', 1 + sum_list (open_cost <$> rest) <= k' -> reads_on {| cs_cur := None; cs_descs := rest |} (concat bs) k' n) ->
  reads_on {| cs_cur := Some v; cs_descs := d :: rest |} (b0 ++ concat bs)%list k n.
Proof.
  intros Hn Hv HF Hk IH. destruct (checker_src_step v b0 k0 n Hn Hv) as (b0' & Hb & Hcase).
  pose proof (checker_src_strict v b0 k0 n Hn Hv) as Hs.
  unfold reads_on, chunkStream_Read. cbn [cs_cur cs_descs cs_read].
  destruct (BlobSizeChecker_Read v n) as [x v'] eqn:E. cbn [fst snd] in *.
  destruct Hcase as [(Ee & k' & Hk' & Hv') | [Ee ->]].
  - rewrite Ee. cbn [is_EOF fst snd]. exists (b0' ++ concat bs)%list. rewrite Hb, (assoc_L (++)). split; [done|].
    left. split; [done|]. exists (1 + k' + sum_list (open_cost <$> rest)). split; [lia|].
    by exists d, rest, b0', k', bs.
  - rewrite (Hs ltac:(congruence)) in *. rewrite Ee. cbn [is_EOF errors_Is EOF].
    rewrite bool_decide_true by done. cbn [length Nat.ltb Nat.leb]. subst b0. cbn [app].
    destruct (IH (1 + sum_list (open_cost <$> rest)) ltac:(done)) as (b' & Hb' & Hc). exists b'.
    split; [exact Hb'|]. destruct Hc as [(Ee' & k' & Hk' & Hs')|Hc]; [left|by right].
    split; [exact Ee'|]. exists k'. split; [lia|exact Hs'].
Qed.

Lemma reads_on_closed descs bs n k :
  n <> 0 -> Forall2 chunk_ok descs bs -> 1 + sum_list (open_cost <$> descs) <= k ->
  reads_on {| cs_cur := None; cs_descs := descs |} (concat bs) k n.
Proof.
  intros Hn HF. revert k. induction HF as [|d b descs bs Hd HF IH]; intros k Hk.
  - exists []. cbn. auto.
  - destruct (chunk_blob _ _ Hd) as (body & Hraw & Hg & Hgood). pose proof Hd as [Hsz _].
    cbn [fmap list_fmap sum_list sum_list_with foldr] in Hk.
    assert (chunkStream_Read s name {| cs_cur := None; cs_descs := d :: descs |} n
            = chunkStream_Read s name {| cs_cur := Some (NewBlobSizeChecker body (d_Digest d) (d_Size d)); cs_descs := d :: descs |} n)
      as E by (unfold chunkStream_Read; cbn [cs_cur cs_descs cs_read]; by rewrite Hg).
    unfold reads_on. rewrite E. cbn [concat].
    apply (reads_on_open _ _ _ _ (weight body + 2)); [done|by apply checker_src_new|done| |done].
    unfold open_cost in Hk at 1. rewrite Hraw in Hk. unfold checker_fuel in Hk. cbn in Hk |- *. lia.
Qed.

Lemma stream_src_step : src_step (chunkStream_Read s name) stream_src.
Proof.
  intros [cur descs] b k n Hn Hsrc.
  assert (reads_on {| cs_cur := cur; cs_descs := descs |} b k n) as (b' & Hb & Hc).
  { destruct cur as [v|]; cbn in Hsrc.
    - destruct Hsrc as (d & rest & b0 & k0 & bs & -> & Hv & HF & -> & Hk).
      eapply reads_on_open; [done|done|done|done|]. intros k' Hk'. by apply reads_on_closed.
    - destruct Hsrc as (bs & HF & -> & Hk). by apply reads_on_closed. }
  exists b'. split; [done|]. destruct Hc as [?|(? & ? & ?)]; auto.
Qed.

Lemma stream_src_new descs bs :
  Forall2 chunk_ok descs bs ->
  stream_src {| cs_cur := None; cs_descs := descs |} (concat bs) (1 + sum_list (open_cost <$> descs)).
Proof. intros HF. by exists bs. Qed.

Lemma stream_fuel_enough descs : 1 + sum_list (open_cost <$> descs) < stream_fuel s name descs.
Proof. unfold stream_fuel, open_cost. lia. Qed.

End Deliver.

Lemma drain_src {R} (rd : R -> nat -> rd_result * R) I fuel r b k acc :
  src_step rd I -> I r b k -> k < fuel -> drain_reader rd fuel r acc = ((acc ++ b)%list, EOF).
Proof.
  intros Hstep. revert r b k acc. induction fuel as [|f IH]; intros r b k acc HI Hk; [lia|]. cbn [drain_reader].
  destruct (Hstep r b k copy_buffer copy_buffer_pos HI) as (b' & Hb & Hcase).
  destruct (rd r copy_buffer) as [x r'] eqn:E. cbn [fst snd] in *.
  destruct Hcase as [(Ee & k' & Hk' & HI') | [Ee ->]]; rewrite Ee.
  - rewrite (IH r' b' k' _ HI') by lia. by rewrite Hb, (assoc_L (++)).
  - rewrite app_nil_r in Hb. by rewrite Hb.
Qed.

(** ** Entries *)

Lemma layerHeader_fields title size meta now hdr :
  layerHeader title size meta now = Ok hdr -> o_Name hdr = title /\ o_Size hdr = size.
Proof. unfold layerHeader. repeat case_match; by intros [= <-]. Qed.

Section Entries.
Context {S : Type} `{Downloader S} `{ZstdOk}.
Context (s : S) (name : string).

(** The bytes a planned entry stands for. *)
Inductive delivers (e : layerPlan) (b : bytes) : Prop :=
  | del_layer :
      lp_chunks e = None -> Title (lp_layer e) = lp_title e -> chunk_ok s name (lp_layer e) b -> delivers e b
  | del_plain ds bs :
      lp_chunks e = Some ds -> lp_zstd e = false -> Forall2 (chunk_ok s name) ds bs -> b = concat bs ->
      sf_Size (lp_meta e) = Z.of_nat (length b) -> delivers e b
  | del_zstd ds cs bs :
      lp_chunks e = Some ds -> lp_zstd e = true -> Forall2 (chunk_ok s name) ds cs -> Forall2 zframe cs bs -> b = concat bs ->
      sf_Size (lp_meta e) = Z.of_nat (length b) ->
      Forall (fun c => Z.of_nat (length c) <= rawChunkStride (sf_Size (lp_meta e)) (Z.of_nat (length ds)))%Z bs ->
      zstd_NewReader = None -> delivers e b.

(** The sequential path and, when the pipeline's buffers cover the entry, the
    windowed path write the same bytes. *)
Lemma copy_sequential_ok e b tw :
  lp_encoded e = true -> delivers e b -> w_accepts tw (length b) ->
  copy_sequential s name e tw = (Ok (Z.of_nat (length b)), w_app tw b).
Proof.
  intros Henc Hd Ha. unfold copy_sequential, copy_to_tar.
  destruct Hd as [Hc _ _ | ds bs Hc Hz HF -> _ | ds cs bs Hc Hz HF Hfr -> _ _ Hnr].
  { unfold lp_encoded in Henc. by rewrite Hc in Henc. }
  - rewrite Hz. unfold chunk_list. rewrite Hc.
    destruct (io_copy_src _ _ (stream_fuel s name ds) {| cs_cur := None; cs_descs := ds |} (concat bs) _ tw 0
      (stream_src_step s name) (stream_src_new s name ds bs HF) (stream_fuel_enough s name ds) Ha) as (r' & E).
    rewrite E. done.
  - rewrite Hz, Hnr. unfold chunk_list. rewrite Hc.
    rewrite (drain_src _ _ _ _ _ _ [] (stream_src_step s name) (stream_src_new s name ds cs HF) (stream_fuel_enough s name ds)).
    cbn [app].
    destruct (io_copy_good (2 + weight (decode_reader (concat cs) EOF)) _ (concat bs) tw 0
      (decode_reader_ok cs bs Hfr)) as (r' & E); [lia|done|].
    rewrite E. done.
Qed.

Lemma fetch_plain p ds bs :
  Forall2 (chunk_ok s name) ds bs -> Forall (fun d => d_Size d <= cp_outputCap p)%Z ds ->
  Forall2 (fun d b => fetch s name p d false = Ok b) ds bs.
Proof.
  induction 1 as [|d b ds bs Hd HF IH]; intros Hc; constructor; apply Forall_cons in Hc as [? ?]; [|by apply IH].
  by apply read_chunk_ok.
Qed.

Lemma fetch_zstd p ds cs bs :
  Forall2 (chunk_ok s name) ds cs -> Forall2 zframe cs bs ->
  Forall (fun d => d_Size d <= cp_inputCap p)%Z ds -> Forall (fun b => Z.of_nat (length b) <= cp_outputCap p)%Z bs ->
  Forall2 (fun d b => fetch s name p d true = Ok b) ds bs.
Proof.
  intros HF. revert bs. induction HF as [|d c ds cs Hd HF IH]; intros bs Hfr Hi Ho; inversion Hfr as [|? b ? bs' Hb Hfr']; subst;
    constructor; apply Forall_cons in Hi as [? ?]; apply Forall_cons in Ho as [? ?]; [|by apply IH].
  unfold fetch. cbn [negb]. rewrite (read_chunk_ok s name d c) by done. cbn [mbind result_bind].
  by rewrite (decode_all_ok _ _ b).
Qed.

(** Every chunk of an entry that delivers, and that the buffers cover, is
    fetched, and the pieces make up the file. *)
Lemma fetch_delivers p e b :
  lp_encoded e = true -> delivers e b -> caps_cover (cp_inputCap p) (cp_outputCap p) e ->
  exists bs, Forall2 (fun d b => fetch s name p d (lp_zstd e) = Ok b) (chunk_list e) bs /\ b = concat bs.
Proof.
  intros Henc Hd [Hcap Hstride].
  destruct Hd as [Hc _ _ | ds bs Hc Hz HF -> _ | ds cs bs Hc Hz HF Hfr -> _ Hraw _].
  { unfold lp_encoded in Henc. by rewrite Hc in Henc. }
  all: rewrite Hz in *; unfold chunk_list in *; rewrite Hc in *; exists bs; (split; [|done]).
  - by apply fetch_plain.
  - eapply fetch_zstd; [done|done|done|]. eapply Forall_impl; [exact Hraw|]. cbn. specialize (Hstride eq_refl). lia.
Qed.

Lemma WriteTo_delivers p e b tw :
  lp_encoded e = true -> delivers e b -> caps_cover (cp_inputCap p) (cp_outputCap p) e -> w_accepts tw (length b) ->
  WriteTo s name p (lp_zstd e) (chunk_list e) 0 tw = (Ok (Z.of_nat (length b)), w_app tw b).
Proof.
  intros Henc Hd Hcap Ha. destruct (fetch_delivers p e b Henc Hd Hcap) as (bs & HF & ->).
  by apply (WriteTo_ok s name p (lp_zstd e) _ bs tw 0).
Qed.

Lemma delivers_size e b : lp_encoded e = true -> delivers e b -> sf_Size (lp_meta e) = Z.of_nat (length b).
Proof. intros Henc [Hc _ _ | |]; [|done|done]. unfold lp_encoded in Henc. by rewrite Hc in Henc. Qed.

(** A way of copying the encoded files that writes them as they are
    delivered: that of the package, and the schedules of [Concurrent]. *)
Definition copies (copy : chunkPipeline -> layerPlan -> M tar_writer Z) : Prop :=
  forall p e b tw,
    lp_encoded e = true -> delivers e b -> (buffered e = true -> caps_cover (cp_inputCap p) (cp_outputCap p) e) ->
    w_accepts tw (length b) -> copy p e tw = (Ok (Z.of_nat (length b)), w_app tw b).

(** A file whose window is two or more is one the pipeline buffers. *)
Lemma windowed_buffered p e : lp_encoded e = true -> (2 <= fileWindow p e)%Z -> buffered e = true.
Proof.
  intros Henc Hw. unfold buffered. rewrite Henc. unfold fileWindow in Hw.
  destruct (Nat.ltb_spec (length (chunk_list e)) 2) as [Hlt|Hge].
  - rewrite orb_true_r in Hw. lia.
  - cbn [andb]. by apply Nat.leb_le.
Qed.

Lemma copy_file_copies : copies (copy_file s name).
Proof.
  intros p e b tw Henc Hd Hcov Ha. unfold copy_file.
  destruct (Z.leb_spec 2 (fileWindow p e)) as [Hw|_]; [|by apply copy_sequential_ok].
  apply WriteTo_delivers; [done|done| |done]. by apply Hcov, (windowed_buffered p).
Qed.

Context (copy : chunkPipeline -> layerPlan -> M tar_writer Z) (Hcopy : copies copy).

Lemma streamFile_ok p e b now hdr tw done :
  lp_encoded e = true -> delivers e b ->
  (buffered e = true -> caps_cover (cp_inputCap p) (cp_outputCap p) e) ->
  layerHeader (lp_title e) (sf_Size (lp_meta e)) (lp_meta e) now = Ok hdr ->
  encodable hdr = true -> hasSuffix (lp_title e) "/" = false -> tw_ready tw done ->
  exists tw', streamFile_by copy p e now tw = (Ok (), tw') /\ tw_ready tw' (done ++ [(hdr, b)])%list.
Proof.
  intros Henc Hd Hcov Hh He Hs Hr. destruct (layerHeader_fields _ _ _ _ _ Hh) as [Hn Hz].
  pose proof (delivers_size e b Henc Hd) as Hsize.
  destruct (tw_entry tw done hdr b Hr He) as (t' & Ew & Ha & Hr'); [by rewrite Hn|by rewrite Hz|].
  exists (w_app t' b). split; [|done]. unfold streamFile_by, mbind, M_bind, wrapM, lift. rewrite Hh, Ew. cbn [wrap fst snd].
  rewrite (Hcopy p e b t' Henc Hd Hcov Ha). cbn [wrap fst snd]. by rewrite Hsize, Z.eqb_refl.
Qed.

Lemma streamLayerToTar_ok e b now hdr tw done :
  lp_chunks e = None -> delivers e b ->
  layerHeader (lp_title e) (d_Size (lp_layer e)) (lp_meta e) now = Ok hdr ->
  encodable hdr = true -> hasSuffix (lp_title e) "/" = false -> tw_ready tw done ->
  exists tw', streamLayerToTar s name (lp_layer e) (lp_meta e) now tw = (Ok (), tw')
    /\ tw_ready tw' (done ++ [(hdr, b)])%list.
Proof.
  intros Hnone Hd Hh He Hs Hr. destruct (layerHeader_fields _ _ _ _ _ Hh) as [Hn Hz].
  destruct Hd as [_ Ht Hok | ds bs Hc _ _ _ _ | ds cs bs Hc _ _ _ _ _ _ _]; [|congruence|congruence].
  destruct (chunk_blob _ _ _ _ Hok) as (body & _ & Hg & Hgood). destruct Hok as [Hsz _].
  destruct (tw_entry tw done hdr b Hr He) as (t' & Ew & Ha & Hr'); [by rewrite Hn|by rewrite Hz|].
  exists (w_app t' b). split; [|done]. unfold streamLayerToTar, copy_body. rewrite Ht.
  unfold mbind, M_bind, wrapM, lift. rewrite Hh, Ew, Hg. cbn [wrap fst snd].
  by rewrite (CopyBlobSized_good t' body b).
Qed.

(** The header an entry is written under. *)
Definition entry_header (e : layerPlan) (now : gotime) : result out_header :=
  layerHeader (lp_title e) (if lp_encoded e then sf_Size (lp_meta e) else d_Size (lp_layer e)) (lp_meta e) now.

(** What a whole plan needs to be written, and the tar entries it gives. *)
Record writable (p : chunkPipeline) (now : gotime) (e : layerPlan) (x : out_header * bytes) : Prop := {
  wb_header : entry_header e now = Ok x.1;
  wb_encodable : encodable x.1 = true;
  wb_file : hasSuffix (lp_title e) "/" = false;
  wb_delivers : delivers e x.2;
  wb_caps : buffered e = true -> caps_cover (cp_inputCap p) (cp_outputCap p) e
}.

Lemma stream_entries_ok p now entries out tw done :
  Forall2 (writable p now) entries out -> tw_ready tw done ->
  exists tw', stream_entries s name copy p entries now tw = (Ok (), tw') /\ tw_ready tw' (done ++ out)%list.
Proof.
  intros HF. revert tw done. induction HF as [|e [hdr b] es out [Hh He Hs Hd Hc] HF IH]; intros tw done Hr.
  - exists tw. by rewrite app_nil_r.
  - cbn [fst snd] in *. cbn [stream_entries].
    assert (exists tw1, (if negb (lp_encoded e) then streamLayerToTar s name (lp_layer e) (lp_meta e) now
                         else streamFile_by copy p e now) tw = (Ok (), tw1)
              /\ tw_ready tw1 (done ++ [(hdr, b)])%list) as (tw1 & E1 & Hr1).
    { unfold entry_header in Hh. destruct (lp_encoded e) eqn:Henc; cbn [negb].
      - by apply streamFile_ok.
      - apply streamLayerToTar_ok; try done. unfold lp_encoded in Henc. by destruct (lp_chunks e). }
    destruct (IH tw1 (done ++ [(hdr, b)])%list Hr1) as (tw2 & E2 & Hr2). exists tw2. split.
    + unfold mbind, M_bind. by rewrite E1.
    + by rewrite <- (assoc_L (++)) in Hr2.
Qed.

(** The whole tar: the envelope, the entries, and the end of the archive. *)
Lemma writeTarFile_ok fname data mode now tw done :
  encodable {| o_Name := fname; o_Size := Z.of_nat (length data); o_Mode := mode; o_ModTime := now; o_PAX := ∅ |} = true ->
  hasSuffix fname "/" = false -> tw_ready tw done ->
  exists tw', writeTarFile fname data mode now tw = (Ok (), tw')
    /\ tw_ready tw' (done ++ [({| o_Name := fname; o_Size := Z.of_nat (length data); o_Mode := mode;
                                   o_ModTime := now; o_PAX := ∅ |}, data)])%list.
Proof.
  intros He Hs Hr. set (hdr := Build_out_header _ _ _ _ _) in *.
  destruct (tw_entry tw done hdr data Hr He) as (t' & Ew & Ha & Hr'); [done..|].
  exists (w_app t' data). split; [|done]. unfold writeTarFile, tw_WriteAll, mbind, M_bind, wrapM. fold hdr.
  rewrite Ew. cbn [wrap fst snd]. by rewrite (w_write_ok t' data Ha).
Qed.

Lemma tw_Close_ok tw done :
  tw_ready tw done -> tw_closed tw = false ->
  exists tw', tw_Close tw = (Ok (), tw') /\ tw_done tw' = done /\ tw_closed tw' = true /\ tw_room tw' = None.
Proof. intros Hr Hc. unfold tw_Close. rewrite Hc, Hr. cbn [tw_room sink_takes]. rewrite Nat.eqb_refl. by eexists. Qed.

Lemma tw_ready_open tw done : tw_ready tw done -> tw_closed tw = false.
Proof. unfold tw_ready, tw_flush. repeat case_match; intros [= H']; subst; try done. Qed.

(** The header of the envelope's entry: one USTAR block below 8 GiB. *)
Lemma envelope_encodable n now :
  fits_octal 11 (Z.of_nat n) = true ->
  encodable {| o_Name := snapshotJSONName; o_Size := Z.of_nat n; o_Mode := 420; o_ModTime := now; o_PAX := ∅ |} = true.
Proof. intros Hn. unfold encodable, header_size. cbn [o_Name o_Size o_Mode o_PAX]. by rewrite Hn. Qed.

Lemma writeImportTar_ok opts now cfg layers p entries env out :
  planLayers cfg layers = Ok entries ->
  newChunkPipeline entries
    (if (so_Concurrency opts <=? 0)%Z then defaultTransferConcurrency else so_Concurrency opts)
    (if (shl20 (so_MemoryBudgetMiB opts) <=? 0)%Z then defaultPullPrefetchBudget else shl20 (so_MemoryBudgetMiB opts)) = Ok p ->
  MarshalEnvelope cfg (cmpOr (so_LocalName opts) (so_Name opts)) = Ok env ->
  Forall2 (writable p now) entries out -> fits_octal 11 (Z.of_nat (length env)) = true -> so_Writer opts = Some unbounded ->
  exists tw, writeImportTar_by s name opts now copy cfg layers (tar_new None) = (Ok (), tw)
    /\ tw_closed tw = true
    /\ tw_done tw = ({| o_Name := snapshotJSONName; o_Size := Z.of_nat (length env); o_Mode := 420;
                        o_ModTime := now; o_PAX := ∅ |}, env) :: out.
Proof.
  intros Hp Hn Hm HF He Hw. unfold writeImportTar_by, mbind, M_bind, lift, wrapM. rewrite Hp, Hn, Hm.
  destruct (writeTarFile_ok snapshotJSONName env 420 now (tar_new None) []) as (t1 & E1 & Hr1);
    [by apply envelope_encodable|done..|].
  rewrite E1. cbn [wrap fst snd].
  destruct (stream_entries_ok p now entries out t1 _ HF Hr1) as (t2 & E2 & Hr2). rewrite E2.
  destruct (tw_Close_ok t2 _ Hr2 (tw_ready_open _ _ Hr2)) as (t3 & E3 & Hd3 & Hc3 & Ho3). rewrite E3.
  exists t3. unfold flush_writer. cbn [wrap fst snd]. by rewrite Ho3, Hd3.
Qed.

End Entries.
