(* ===== verification/PullPipeline.v ===== *)
(** * PullPipeline: the concurrent reader implements [SnapshotPull.WriteTo]

    The step relation of [Pipeline], instantiated with the reads and decodes
    of [SnapshotPull.fetch], against the sequential [WriteTo] the rest of the
    development uses for a prefetched file. *)

From Stdlib Require Import ZArith Lia Ascii String.
From stdpp Require Import base gmap strings list.
From S2P Require Import Prelude GoStrings Json Manifest GoIO OciUtil Registry Tar Zstd Snapshot SnapshotPull Pipeline PullSpec.

Local Open Scope nat_scope.

(** A panic ends the program, not the goroutine's future: it has no outcome. *)
Definition outcome_of (r : result bytes) : option outcome :=
  match r with Ok b => Some (inr b) | Err e => Some (inl e) | Panic _ => None end.

Definition outcome_or (r : result bytes) : outcome := default (inl (Enew "panic")) (outcome_of r).

Definition never_panics (r : result bytes) : Prop := is_Some (outcome_of r).

Section link.
Context {S : Type} `{Downloader S} `{Zstd} (s : S) (name : string) (p : chunkPipeline) (e : layerPlan).

Let chunk (i : nat) : Descriptor := nth i (chunk_list e) (lp_layer e).

(** The two stages of [fetch] on chunk [i]. *)
Definition read_stage (i : nat) : outcome :=
  outcome_or (read_chunk s name (chunk i) (if lp_zstd e then cp_inputCap p else cp_outputCap p)).
Definition decode_stage (i : nat) (stored : bytes) : outcome :=
  outcome_or (wrap ("decode chunk " +:+ d_Digest (chunk i))%string (DecodeAll (cp_outputCap p) stored)).

Definition file_step : state (W := tar_writer) -> state -> Prop :=
  step (length (chunk_list e)) (lp_zstd e) read_stage decode_stage (Z.to_nat (fileWindow p e)) (Z.to_nat (cp_window p)).
Definition file_start (tw : tar_writer) : state := start (length (chunk_list e)) (Z.to_nat (cp_window p)) tw.

(** [fetch] is its two stages. *)
Lemma fetch_stages i :
  never_panics (fetch s name p (chunk i) (lp_zstd e)) ->
  outcome_of (fetch s name p (chunk i) (lp_zstd e)) = Some (fetch_result (lp_zstd e) read_stage decode_stage i).
Proof.
  unfold never_panics, fetch, fetch_result, read_stage, decode_stage. destruct (lp_zstd e); cbn [negb].
  - destruct (read_chunk _ _ _ _) as [b|er|m]; cbn [mbind result_bind outcome_of outcome_or default is_Some id from_option]; [|done|by intros [? ?]].
    unfold outcome_or. destruct (DecodeAll _ _); [intros _; reflexivity|intros _; reflexivity|by intros [? ?]].
  - unfold outcome_or. destruct (read_chunk _ _ _ _); cbn; [done|done|by intros [? ?]].
Qed.

(** The writes of the two loops agree. *)
Lemma WriteTo_write_all descs rs wr tw :
  Forall2 (fun d r => outcome_of (fetch s name p d (lp_zstd e)) = Some r) descs rs ->
  WriteTo s name p (lp_zstd e) descs wr tw
  = let '(n, err, tw') := write_all rs wr tw in (match err with None => Ok n | Some er => Err er end, tw').
Proof.
  intros HF. revert wr tw. induction HF as [|d r descs rs Hr HF IH]; intros wr tw; [done|].
  cbn [WriteTo write_all]. destruct (fetch s name p d (lp_zstd e)) as [b|er|m]; [|by injection Hr as <-|done].
  injection Hr as <-. unfold write_chunk. destruct (w_write tw b) as [[k [er|]] tw']; [done|].
  destruct (Nat.eqb_spec k (length b)) as [->|Hk]; cbn [negb]; [apply IH|done].
Qed.

Lemma results_fetched :
  Forall (fun d => never_panics (fetch s name p d (lp_zstd e))) (chunk_list e) ->
  Forall2 (fun d r => outcome_of (fetch s name p d (lp_zstd e)) = Some r) (chunk_list e)
    (results (length (chunk_list e)) (lp_zstd e) read_stage decode_stage).
Proof.
  intros HF. apply Forall2_same_length_lookup_2.
  { unfold results. by rewrite length_fmap, length_seq. }
  intros i d r Hd Hr. unfold results in Hr. apply list_lookup_fmap_Some in Hr as (j & -> & Hj%lookup_seq). destruct Hj as [-> _].
  assert (d = chunk i) as -> by (unfold chunk; symmetry; by apply nth_lookup_Some).
  apply fetch_stages. rewrite Forall_lookup in HF. by apply (HF i).
Qed.

(** A finished run that the caller did not cancel. *)
Lemma finished_WriteTo tw st wr err :
  Forall (fun d => never_panics (fetch s name p d (lp_zstd e))) (chunk_list e) ->
  rtc file_step (file_start tw) st -> s_cons st = CRet wr err -> s_external st = false ->
  WriteTo s name p (lp_zstd e) (chunk_list e) 0 tw
  = (match err with None => Ok wr | Some er => Err er end, s_dst st).
Proof.
  intros HF Hr Hc Hx. rewrite (WriteTo_write_all _ _ 0 tw (results_fetched HF)).
  by rewrite (proj1 (returned_writes _ _ _ _ _ _ _ _ _ _ Hr Hc) Hx).
Qed.

(** Chunks that were all fetched. *)
Lemma results_delivered bs :
  Forall2 (fun d b => fetch s name p d (lp_zstd e) = Ok b) (chunk_list e) bs ->
  results (length (chunk_list e)) (lp_zstd e) read_stage decode_stage = inr <$> bs.
Proof.
  intros HF. assert (Forall (fun d => never_panics (fetch s name p d (lp_zstd e))) (chunk_list e)) as Hq.
  { apply Forall_lookup. intros i d Hd. destruct (Forall2_lookup_l _ _ _ _ _ HF Hd) as (b & _ & E). rewrite E. by eexists. }
  pose proof (results_fetched Hq) as HR. revert HF HR. generalize (results (length (chunk_list e)) (lp_zstd e) read_stage decode_stage).
  clear Hq. generalize (chunk_list e). intros ds rs HF. revert rs. induction HF as [|d b ds bs Hd HF IH]; intros rs HR; inversion HR as [|? r ? rs' Hr HR']; subst; [done|].
  rewrite Hd in Hr. injection Hr as <-. cbn. f_equal. by apply IH.
Qed.

Lemma write_all_delivered (bs : list bytes) wr tw :
  w_accepts tw (length (concat bs)) ->
  write_all (inr <$> bs) wr tw = ((wr + Z.of_nat (length (concat bs)))%Z, None, w_app tw (concat bs)).
Proof.
  revert wr tw. induction bs as [|b bs IH]; intros wr tw Ha.
  - cbn [fmap list_fmap write_all concat length Z.of_nat]. by rewrite w_app_nil, Z.add_0_r.
  - cbn [fmap list_fmap write_all concat] in *. rewrite length_app in Ha. unfold write_chunk.
    rewrite (w_write_ok tw b) by (eapply w_accepts_le; [|exact Ha]; lia). rewrite Nat.eqb_refl.
    rewrite IH by by apply w_accepts_app. rewrite w_app_app, length_app. do 2 f_equal. lia.
Qed.

(** One that he may have cancelled, and that reports no error: it has written
    the first of the chunks. *)
Lemma cut_WriteTo tw st wr bs :
  Forall2 (fun d b => fetch s name p d (lp_zstd e) = Ok b) (chunk_list e) bs -> w_accepts tw (length (concat bs)) ->
  rtc file_step (file_start tw) st -> s_cons st = CRet wr None ->
  exists k, wr = Z.of_nat (length (concat (take k bs))) /\ s_dst st = w_app tw (concat (take k bs)).
Proof.
  intros HF Ha Hr Hc. destruct (returned_writes _ _ _ _ _ _ _ _ _ _ Hr Hc) as [_ (k & x & Hw & Hx)].
  assert (x = None) as -> by (by destruct Hx). rewrite (results_delivered bs HF), <- fmap_take in Hw.
  exists k. rewrite write_all_delivered in Hw; [by injection Hw as <- <-|].
  eapply w_accepts_le; [|exact Ha]. rewrite <- (take_drop k bs) at 2. rewrite concat_app, length_app. lia.
Qed.

(** In every interleaving of the producer, the fetches and the consumer, a
    prefetched file that the caller does not cancel is written exactly as the
    sequential loop over [fetch] writes it: same bytes to the same tar writer,
    same count, same error. *)
Theorem concurrent_WriteTo tw st wr err :
  Forall (fun d => never_panics (fetch s name p d (lp_zstd e))) (chunk_list e) ->
  rtc file_step (file_start tw) st -> s_cons st = CRet wr err -> s_external st = false ->
  WriteTo s name p (lp_zstd e) (chunk_list e) 0 tw
  = (match err with None => Ok wr | Some er => Err er end, s_dst st).
Proof. apply finished_WriteTo. Qed.

End link.
