(* ===== verification/RoundTrip.v ===== *)
(** * RoundTrip: what is pushed can be streamed back

    From an export stream through [Push] into a registry, and from its
    manifest through [Stream] into an import tar: every regular file comes
    back under its name with its bytes, its mode and its sparse map, whichever
    way it was stored (whole, compressed, chunked, both). *)

From Stdlib Require Import ZArith Lia Ascii String.
From stdpp Require Import base gmap strings list.
From S2P Require Import Prelude GoStrings Sha256 Json Manifest GoIO OciUtil Registry Tar Zstd Snapshot SnapshotPush PushSpec SnapshotPull PullSpec.

Local Open Scope string_scope.
Local Open Scope nat_scope.

(** ** The files of a stream *)

Definition is_file (e : tar_header * bytes) : bool :=
  negb (String.eqb (h_Name e.1) snapshotJSONName) && Ascii.eqb (h_Typeflag e.1) TypeReg.
Definition files_of (entries : list (tar_header * bytes)) : list (tar_header * bytes) := List.filter is_file entries.
Definition file_names (entries : list (tar_header * bytes)) : list string := (fun e => h_Name e.1) <$> files_of entries.

Lemma Title_blob mt title i n b : Title (blob_descriptor mt title i n b) = title.
Proof.
  unfold Title, map_get, blob_descriptor, title_annotations. cbn [d_Annotations].
  destruct (1 <? n); by simplify_map_eq.
Qed.

Lemma decode_envelope_engine data cfg :
  decode_envelope data = Ok cfg -> exists l, se_Engine cfg = Some (JObj l).
Proof.
  unfold decode_envelope. intros H. apply bind_Ok in H as (env & _ & H).
  destruct env as [[| | | | |l]|]; try discriminate. apply wrap_Ok in H.
  unfold snapshotExportConfig_unmarshal in H. inv_ok. by exists l.
Qed.

Section Files.
Context `{Zstd} (opts : PushOptions) (chunkSize : Z).

Lemma length_file_descs name b : length (file_descs opts chunkSize name b) = length (file_blobs opts chunkSize b).
Proof. unfold file_descs. by rewrite length_imap. Qed.

Lemma digests_file_descs name b : d_Digest <$> file_descs opts chunkSize name b = digest_of <$> file_blobs opts chunkSize b.
Proof.
  unfold file_descs. generalize (mode_media (entry_mode opts chunkSize (Z.of_nat (length b))) name).
  intros mt. generalize (length (file_blobs opts chunkSize b)). intros n.
  rewrite <- (imap_const digest_of), fmap_imap. done.
Qed.

Lemma elem_of_file_descs name b d :
  d ∈ file_descs opts chunkSize name b ->
  exists i blob, blob ∈ file_blobs opts chunkSize b
    /\ d = blob_descriptor (mode_media (entry_mode opts chunkSize (Z.of_nat (length b))) name) name i
             (length (file_blobs opts chunkSize b)) blob.
Proof.
  unfold file_descs. intros (i & blob & Hd & Hl)%elem_of_lookup_imap_1. exists i, blob.
  split; [by eapply list_elem_of_lookup_2|done].
Qed.

(** The metadata the config records for a file. *)
Definition file_record (meta : SnapshotFile) (hdr : tar_header) (b : bytes) : SnapshotFile :=
  let f := with_size meta (h_Size hdr) in
  if length (file_blobs opts chunkSize b) <? 2 then f
  else with_chunks f (digest_of <$> file_blobs opts chunkSize b).

Definition file_group (e : tar_header * bytes) : chunkGroup :=
  {| cg_name := h_Name e.1; cg_descs := file_descs opts chunkSize (h_Name e.1) e.2 |}.

Definition file_encoded (e : tar_header * bytes) : bool :=
  mode_encoded (entry_mode opts chunkSize (Z.of_nat (length e.2))).

Inductive step_case (e : tar_header * bytes) (acc acc1 : loop_acc) : Prop :=
  | sc_file meta :
      is_file e = true -> sparseFileMeta e.1 = Ok meta ->
      la_groups acc1 = (la_groups acc ++ [file_group e])%list ->
      la_files acc1 = <[h_Name e.1 := with_size meta (h_Size e.1)]> (la_files acc) ->
      la_encoded acc1 = la_encoded acc || file_encoded e -> la_cfg acc1 = la_cfg acc -> step_case e acc acc1
  | sc_other :
      is_file e = false -> la_groups acc1 = la_groups acc -> la_files acc1 = la_files acc ->
      la_encoded acc1 = la_encoded acc ->
      la_cfg acc1 = la_cfg acc \/ (exists data cfg, decode_envelope data = Ok cfg /\ la_cfg acc1 = Some cfg) ->
      step_case e acc acc1.

Lemma spec_entry_case hdr b acc acc1 :
  spec_entry opts chunkSize hdr b acc = Ok acc1 -> step_case (hdr, b) acc acc1.
Proof.
  unfold spec_entry. destruct (String.eqb (h_Name hdr) snapshotJSONName) eqn:En.
  { intros H1. apply bind_Ok in H1 as (cfg & Hcfg & [= <-]). apply sc_other; cbn; try done.
    - unfold is_file. cbn. by rewrite En.
    - right. eauto. }
  destruct (Ascii.eqb (h_Typeflag hdr) TypeReg) eqn:Et; cbn [negb].
  - intros H1. apply bind_Ok in H1 as (meta & Hm & [= <-]). eapply sc_file; try done.
    unfold is_file. cbn. by rewrite En, Et.
  - intros [= <-]. apply sc_other; try done; [|by left]. unfold is_file. cbn. by rewrite En, Et.
Qed.

(** What the loop has accumulated after the entries. *)
Record accumulated (entries : list (tar_header * bytes)) (acc acc' : loop_acc) : Prop := {
  ac_groups : la_groups acc' = (la_groups acc ++ (file_group <$> files_of entries))%list;
  ac_encoded : la_encoded acc' = la_encoded acc || existsb file_encoded (files_of entries);
  ac_files : Forall (fun e => exists meta, sparseFileMeta e.1 = Ok meta
               /\ la_files acc' !! h_Name e.1 = Some (with_size meta (h_Size e.1))) (files_of entries);
  ac_other : forall k, k ∉ file_names entries -> la_files acc' !! k = la_files acc !! k;
  ac_cfg : la_cfg acc' = la_cfg acc \/ exists data cfg, decode_envelope data = Ok cfg /\ la_cfg acc' = Some cfg
}.

Lemma spec_stream_files entries acc acc' :
  spec_stream opts chunkSize entries acc = Ok acc' -> NoDup (file_names entries) -> accumulated entries acc acc'.
Proof.
  revert acc. induction entries as [|[hdr b] es IH]; intros acc Hs Hnd.
  { injection Hs as <-. constructor; cbn; rewrite ?app_nil_r, ?orb_false_r; auto. }
  cbn [spec_stream] in Hs. apply bind_Ok in Hs as (acc1 & H1 & Hs). apply spec_entry_case in H1.
  unfold file_names in Hnd. unfold files_of in Hnd. cbn [List.filter] in Hnd.
  destruct H1 as [meta Hf Hm Hg Hfl He Hc | Hf Hg Hfl He Hc]; rewrite Hf in Hnd.
  - apply NoDup_cons in Hnd as [Hn Hnd]. destruct (IH _ Hs Hnd) as [Ig Ie If Ik Ic].
    assert (files_of ((hdr, b) :: es) = (hdr, b) :: files_of es) as E by (unfold files_of; cbn [List.filter]; by rewrite Hf).
    constructor; unfold file_names; rewrite ?E.
    + by rewrite Ig, Hg, <- (assoc_L (++)).
    + cbn [existsb]. by rewrite Ie, He, orb_assoc.
    + constructor; [|exact If]. exists meta. split; [done|]. rewrite Ik by exact Hn. rewrite Hfl. apply lookup_insert_eq.
    + intros k Hk. cbn [fmap list_fmap fst] in Hk. apply not_elem_of_cons in Hk as [Hk1 Hk2].
      rewrite Ik by exact Hk2. rewrite Hfl. by apply lookup_insert_ne.
    + destruct Ic as [->|?]; [by left|by right].
  - destruct (IH _ Hs Hnd) as [Ig Ie If Ik Ic].
    assert (files_of ((hdr, b) :: es) = files_of es) as E by (unfold files_of; cbn [List.filter]; by rewrite Hf).
    constructor; unfold file_names; rewrite ?E; [congruence|congruence|done| |].
    + intros k Hk. by rewrite Ik, Hfl.
    + destruct Ic as [->|?]; [done|by right].
Qed.

(** The chunk lists added at the end. *)
Lemma record_chunks_other groups files k :
  k ∉ (cg_name <$> groups) -> fold_left record_chunks groups files !! k = files !! k.
Proof.
  revert files. induction groups as [|g gs IH]; intros files Hk; [done|]. cbn [fold_left].
  apply not_elem_of_cons in Hk as [Hk1 Hk2]. rewrite IH by done. unfold record_chunks.
  destruct (_ <? 2); [done|]. by apply lookup_insert_ne.
Qed.

Lemma record_chunks_lookup groups files g f :
  NoDup (cg_name <$> groups) -> g ∈ groups -> files !! cg_name g = Some f ->
  fold_left record_chunks groups files !! cg_name g
    = Some (if length (cg_descs g) <? 2 then f else with_chunks f (d_Digest <$> cg_descs g)).
Proof.
  revert files. induction groups as [|g' gs IH]; intros files Hnd Hin Hf; [by apply elem_of_nil in Hin|].
  cbn [fold_left]. cbn in Hnd. apply NoDup_cons in Hnd as [Hn Hnd]. apply elem_of_cons in Hin as [<-|Hin].
  - rewrite record_chunks_other by done. unfold record_chunks. rewrite Hf.
    destruct (_ <? 2); [done|]. apply lookup_insert_eq.
  - apply (IH (record_chunks files g')); [done|done|]. unfold record_chunks.
    destruct (length (cg_descs g') <? 2); [done|].
    rewrite lookup_insert_ne; [done|]. intros E. apply Hn. rewrite E. by apply list_elem_of_fmap_2.
Qed.

Lemma spec_entries_files entries ue :
  spec_entries opts chunkSize entries = Ok ue -> NoDup (file_names entries) ->
  ue_layers ue = concat ((fun e => file_descs opts chunkSize (h_Name e.1) e.2) <$> files_of entries)
  /\ ue_encoded ue = existsb file_encoded (files_of entries)
  /\ Forall (fun e => exists meta, sparseFileMeta e.1 = Ok meta
       /\ ue_files ue !! h_Name e.1 = Some (file_record meta e.1 e.2)) (files_of entries)
  /\ (forall k, k ∉ file_names entries -> ue_files ue !! k = None)
  /\ (ue_cfg ue = None \/ exists data cfg, decode_envelope data = Ok cfg /\ ue_cfg ue = Some cfg).
Proof.
  intros Hs Hnd. unfold spec_entries in Hs. apply bind_Ok in Hs as (acc & Hs & [= <-]).
  apply spec_stream_files in Hs as [Hg He Hf Hk Hc]; [|done]. cbn [ue_layers ue_encoded ue_files ue_cfg la_groups loop_init app] in *.
  assert (cg_name <$> la_groups acc = file_names entries) as Hnames.
  { rewrite Hg, <- list_fmap_compose. done. }
  split_and!; [|done| | |done].
  - rewrite Hg, <- list_fmap_compose. done.
  - apply Forall_forall. intros e Hin. rewrite Forall_forall in Hf. destruct (Hf e Hin) as (meta & Hm & Hl).
    exists meta. split; [done|]. rewrite (record_chunks_lookup _ _ (file_group e) (with_size meta (h_Size e.1))).
    + cbn [file_group cg_descs]. rewrite length_file_descs, digests_file_descs. done.
    + by rewrite Hnames.
    + rewrite Hg. by apply list_elem_of_fmap_2.
    + done.
  - intros k Hn. rewrite record_chunks_other by by rewrite Hnames. by rewrite Hk.
Qed.

End Files.

(** ** The plan of a pushed manifest *)

Lemma elem_of_concat {A} (x : A) ls : x ∈ concat ls <-> exists l, l ∈ ls /\ x ∈ l.
Proof.
  induction ls as [|l ls IH]; cbn.
  - split; [by intros ?%elem_of_nil|intros (l & ?%elem_of_nil & _); done].
  - rewrite elem_of_app, IH. split.
    + intros [Hx|(l' & Hl & Hx)]; [exists l|exists l']; (split; [|done]); by constructor.
    + intros (l' & Hl & Hx). apply elem_of_cons in Hl as [->|Hl]; [by left|right; eauto].
Qed.

Lemma by_digest_lookup layers d :
  d ∈ layers -> exists d', by_digest layers !! d_Digest d = Some d' /\ d' ∈ layers /\ d_Digest d' = d_Digest d.
Proof.
  unfold by_digest. intros Hd.
  assert (forall (m : gmap string Descriptor) ls k,
    (exists d', foldl (fun m l => <[d_Digest l := l]> m) m ls !! k = Some d' /\ d' ∈ ls /\ d_Digest d' = k)
    \/ (foldl (fun m l => <[d_Digest l := l]> m) m ls !! k = m !! k /\ forall d', d' ∈ ls -> d_Digest d' <> k)) as Hall.
  { intros m ls k. revert m. induction ls as [|l ls IH]; intros m; cbn [foldl].
    - right. split; [done|]. by intros d' ?%elem_of_nil.
    - destruct (IH (<[d_Digest l := l]> m)) as [(d' & H1 & H2 & H3)|[H1 H2]].
      + left. exists d'. split_and!; [done|by constructor|done].
      + destruct (decide (d_Digest l = k)) as [<-|Hne].
        * left. exists l. split_and!; [|by constructor|done]. rewrite H1. apply lookup_insert_eq.
        * right. split; [by rewrite H1, lookup_insert_ne|]. intros d' Hd'. apply elem_of_cons in Hd' as [->|?]; auto. }
  destruct (Hall ∅ layers (d_Digest d)) as [(d' & ? & ? & ?)|[_ Hno]]; [eauto|]. by destruct (Hno d Hd).
Qed.

Section Plan.
Context `{Zstd} (opts : PushOptions) (chunkSize : Z).
Context (Hchunk : (0 <= chunkSize)%Z).

Lemma media_zstd m name :
  IsZstdMediaType (mode_media m name) = match m with Whole | Cut false => false | Spool | Cut true => true end.
Proof. destruct m as [| |[]]; cbn [mode_media]; (apply not_zstd_for_file || apply is_zstd_ZstdMediaType). Qed.

(** What each mode says about the file. *)
Lemma mode_facts b :
  match entry_mode opts chunkSize (Z.of_nat (length b)) with
  | Whole => True
  | Spool => (0 < Z.of_nat (length b))%Z
  | Cut compress => (0 < chunkSize)%Z /\ (0 < Z.of_nat (length b))%Z
      /\ 1 <= length (split (Z.to_nat chunkSize) b)
      /\ (compress = false -> 2 <= length (split (Z.to_nat chunkSize) b))
  end.
Proof.
  unfold entry_mode. set (sz := Z.of_nat (length b)). unfold compressMinBytes.
  destruct (0 <? po_ZstdLevel opts)%Z; destruct (Z.leb_spec (2 ^ 20) sz); cbn [andb];
    destruct (Z.ltb_spec 0 chunkSize); cbn [andb orb]; try lia; try done;
    try (destruct (Z.ltb_spec chunkSize sz); [|done]).
  all: pose proof (split_length (Z.to_nat chunkSize) b ltac:(lia)) as Hl; rewrite Z2Nat.id in Hl by lia; fold sz in Hl.
  all: split_and!; [lia|lia| |]; try (intros ?; try discriminate).
  all: match goal with
       | |- 1 <= _ => enough (1 <= Z.of_nat (length (split (Z.to_nat chunkSize) b)))%Z by lia
       | |- 2 <= _ => enough (2 <= Z.of_nat (length (split (Z.to_nat chunkSize) b)))%Z by lia
       end; rewrite Hl; apply Z.div_le_lower_bound; lia.
Qed.

Lemma file_blobs_mode b :
  file_blobs opts chunkSize b =
    encode_piece opts (entry_mode opts chunkSize (Z.of_nat (length b)))
      <$> pieces chunkSize (entry_mode opts chunkSize (Z.of_nat (length b))) b.
Proof. done. Qed.

(** The layers of a file uploaded in this mode are compressed. *)
Definition mode_zstd (m : upload_mode) : bool := match m with Whole | Cut false => false | Spool | Cut true => true end.

Lemma file_descs_media name b d :
  d ∈ file_descs opts chunkSize name b ->
  Title d = name /\ IsZstdMediaType (d_MediaType d) = mode_zstd (entry_mode opts chunkSize (Z.of_nat (length b))).
Proof.
  intros (i & blob & _ & ->)%elem_of_file_descs. split; [apply Title_blob|]. apply media_zstd.
Qed.

(** A later layer of an encoded file already planned is skipped. *)
Lemma plan_skip cfg byD emitted title ls tail :
  title ∈ emitted -> Forall (fun d => Title d = title) ls ->
  (length (sf_Chunks (file_meta cfg title)) <> 0 \/ Forall (fun d => IsZstdMediaType (d_MediaType d) = true) ls) ->
  plan_loop cfg byD emitted (ls ++ tail) = plan_loop cfg byD emitted tail.
Proof.
  intros Hin Ht Hz. induction ls as [|d ls IH]; [done|]. cbn [app plan_loop].
  apply Forall_cons in Ht as [-> Ht].
  assert ((length (sf_Chunks (file_meta cfg title)) =? 0) && negb (IsZstdMediaType (d_MediaType d)) = false) as ->.
  { destruct Hz as [Hz|Hz]; [by apply Nat.eqb_neq in Hz as ->|].
    apply Forall_cons in Hz as [-> _]. apply andb_false_r. }
  rewrite bool_decide_true by done. apply IH; [done|]. destruct Hz as [?|Hz]; [by left|right].
  by apply Forall_cons in Hz as [_ ?].
Qed.

(** The planned entry of a file. *)
Record planned (f : SnapshotFile) (e : tar_header * bytes) (lp : layerPlan) : Prop := {
  pl_title : lp_title lp = h_Name e.1;
  pl_meta : lp_meta lp = f;
  pl_layer : lp_layer lp ∈ file_descs opts chunkSize (h_Name e.1) e.2;
  pl_chunks : match entry_mode opts chunkSize (Z.of_nat (length e.2)) with
              | Whole => lp_chunks lp = None
              | _ => exists ds, lp_chunks lp = Some ds
                       /\ Forall2 (fun d blob => d_Digest d = digest_of blob /\ d_Size d = Z.of_nat (length blob))
                            ds (file_blobs opts chunkSize e.2)
              end
}.

Definition file_layers (files : list (tar_header * bytes)) : list Descriptor :=
  concat ((fun e => file_descs opts chunkSize (h_Name e.1) e.2) <$> files).

(** Blobs that share a digest among those of [files] are equal. *)
Definition distinct_digests (bs : list bytes) : Prop :=
  forall x y, x ∈ bs -> y ∈ bs -> digest_of x = digest_of y -> x = y.

Lemma by_digest_file files e blob :
  distinct_digests (concat ((fun e => file_blobs opts chunkSize e.2) <$> files)) ->
  e ∈ files -> blob ∈ file_blobs opts chunkSize e.2 ->
  exists d, by_digest (file_layers files) !! digest_of blob = Some d
    /\ d_Digest d = digest_of blob /\ d_Size d = Z.of_nat (length blob).
Proof.
  intros Hdd He Hb.
  assert (digest_of blob ∈ d_Digest <$> file_descs opts chunkSize (h_Name e.1) e.2) as Hin.
  { rewrite digests_file_descs. by apply list_elem_of_fmap_2. }
  apply list_elem_of_fmap_1 in Hin as (d & Hdig & Hd).
  assert (d ∈ file_layers files) as Hdl.
  { apply elem_of_concat. eexists. split; [by apply (list_elem_of_fmap_2 (fun e => file_descs opts chunkSize (h_Name e.1) e.2))|done]. }
  destruct (by_digest_lookup _ _ Hdl) as (d' & Hl & Hd' & Hdig'). rewrite Hdig. exists d'. split_and!; [done|congruence|].
  apply elem_of_concat in Hd' as (ds & Hds & Hd'). apply list_elem_of_fmap_1 in Hds as (e' & -> & He').
  apply elem_of_file_descs in Hd' as (i & blob' & Hb' & ->). cbn [d_Size d_Digest blob_descriptor] in *.
  assert (blob' = blob) as ->; [|done]. apply Hdd; [| |congruence].
  - apply elem_of_concat. eexists. split; [|exact Hb']. by apply (list_elem_of_fmap_2 (fun e => file_blobs opts chunkSize e.2)).
  - apply elem_of_concat. eexists. split; [|exact Hb]. by apply (list_elem_of_fmap_2 (fun e => file_blobs opts chunkSize e.2)).
Qed.

Lemma resolve_chunks layer f byD (blobs : list bytes) :
  (0 < sf_Size f)%Z -> sf_Chunks f = digest_of <$> blobs -> blobs <> [] ->
  (forall blob, blob ∈ blobs -> exists d, byD !! digest_of blob = Some d
     /\ d_Digest d = digest_of blob /\ d_Size d = Z.of_nat (length blob)) ->
  exists ds, resolveEncodedFile layer f byD = Ok ds
    /\ Forall2 (fun d blob => d_Digest d = digest_of blob /\ d_Size d = Z.of_nat (length blob)) ds blobs.
Proof.
  intros Hs Hc Hne Hl. unfold resolveEncodedFile. destruct (Z.leb_spec (sf_Size f) 0); [lia|].
  rewrite Hc, length_fmap. destruct (Nat.eqb_spec (length blobs) 0) as [E|_].
  { by apply length_zero_iff_nil in E. }
  enough (exists ds, Forall2 (fun k d => byD !! k = Some d) (digest_of <$> blobs) ds
    /\ Forall2 (fun d blob => d_Digest d = digest_of blob /\ d_Size d = Z.of_nat (length blob)) ds blobs) as (ds & HF & Hd)
    by (exists ds; split; [by apply resolve_lookup|done]).
  clear Hc Hne. induction blobs as [|blob blobs IH]; [by exists []|].
  destruct (Hl blob) as (d & Hd & Hdd); [by constructor|].
  destruct IH as (ds & E & HF); [intros b Hb; apply Hl; by constructor|].
  exists (d :: ds). split; by constructor.
Qed.

(** A file's record in the config, from metadata without chunks. *)
Definition recorded (cfg : SnapshotConfig) (e : tar_header * bytes) : Prop :=
  exists meta, sparseFileMeta e.1 = Ok meta /\ file_meta cfg (h_Name e.1) = file_record opts chunkSize meta e.1 e.2.

Lemma sparseFileMeta_chunks hdr meta : sparseFileMeta hdr = Ok meta -> sf_Chunks meta = [] /\ sf_Size meta = 0%Z.
Proof. unfold sparseFileMeta. repeat case_match; intros [= <-]; done. Qed.

Lemma file_record_fields meta e :
  sparseFileMeta e.1 = Ok meta ->
  sf_Size (file_record opts chunkSize meta e.1 e.2) = h_Size e.1
  /\ sf_Chunks (file_record opts chunkSize meta e.1 e.2) =
       (if length (file_blobs opts chunkSize e.2) <? 2 then [] else digest_of <$> file_blobs opts chunkSize e.2).
Proof.
  intros [Hc _]%sparseFileMeta_chunks. unfold file_record. by destruct (_ <? 2).
Qed.

(** An encoded file is not empty, and its layers are compressed or several. *)
Lemma encoded_facts b :
  entry_mode opts chunkSize (Z.of_nat (length b)) <> Whole ->
  (0 < Z.of_nat (length b))%Z /\ 1 <= length (file_blobs opts chunkSize b)
  /\ (mode_zstd (entry_mode opts chunkSize (Z.of_nat (length b))) = false -> 2 <= length (file_blobs opts chunkSize b)).
Proof.
  intros Hm. rewrite file_blobs_mode, length_fmap. pose proof (mode_facts b) as Hf.
  destruct (entry_mode _ _ _) as [| |compress]; [done|by split_and!; [|cbn; lia|]|].
  destruct Hf as (_ & ? & ? & Hge). split_and!; [done..|]. intros Hz. apply Hge. by destruct compress.
Qed.

(** The layers of a file: one at least, all of the file's title and kind. *)
Lemma file_descs_cons e :
  exists d ds, file_descs opts chunkSize (h_Name e.1) e.2 = d :: ds
    /\ Forall (fun d => Title d = h_Name e.1) (d :: ds)
    /\ Forall (fun d => IsZstdMediaType (d_MediaType d) = mode_zstd (entry_mode opts chunkSize (Z.of_nat (length e.2)))) (d :: ds)
    /\ Datatypes.S (length ds) = length (file_blobs opts chunkSize e.2).
Proof.
  pose proof (length_file_descs opts chunkSize (h_Name e.1) e.2) as Hlen.
  assert (1 <= length (file_blobs opts chunkSize e.2)) as Hpos.
  { destruct (decide (entry_mode opts chunkSize (Z.of_nat (length e.2)) = Whole)) as [E|E]; [|by apply encoded_facts].
    by rewrite file_blobs_mode, E. }
  pose proof (fun d => file_descs_media (h_Name e.1) e.2 d) as Hmedia.
  destruct (file_descs opts chunkSize (h_Name e.1) e.2) as [|d ds]; [cbn in Hlen; lia|].
  exists d, ds. split_and!; [done| | |done]; apply Forall_forall; intros d' Hd'; by apply Hmedia in Hd' as [? ?].
Qed.

(** Resolving an encoded file gives its blobs, in order. *)
Lemma resolve_file cfg all e d ds :
  distinct_digests (concat ((fun e => file_blobs opts chunkSize e.2) <$> all)) -> e ∈ all ->
  recorded cfg e -> h_Size e.1 = Z.of_nat (length e.2) ->
  entry_mode opts chunkSize (Z.of_nat (length e.2)) <> Whole ->
  file_descs opts chunkSize (h_Name e.1) e.2 = d :: ds ->
  exists cs, resolveEncodedFile d (file_meta cfg (h_Name e.1)) (by_digest (file_layers all)) = Ok cs
    /\ Forall2 (fun d blob => d_Digest d = digest_of blob /\ d_Size d = Z.of_nat (length blob)) cs (file_blobs opts chunkSize e.2).
Proof.
  intros Hdd He (meta & Hm & Hrec) Hsz (Hpos & Hge & _)%encoded_facts Eds.
  destruct (file_record_fields meta e Hm) as [Hfs Hfc]. rewrite Hrec.
  destruct (Nat.ltb_spec (length (file_blobs opts chunkSize e.2)) 2) as [Hlt|Hge'].
  - unfold resolveEncodedFile. rewrite Hfs, Hfc. destruct (Z.leb_spec (h_Size e.1) 0); [lia|]. cbn.
    exists [d]. split; [done|]. unfold file_descs in Eds.
    destruct (file_blobs opts chunkSize e.2) as [|blob [|]] eqn:Eb; [cbn in *; lia| |cbn in *; lia].
    injection Eds as <- _. by repeat constructor.
  - apply resolve_chunks; [lia|done|intros E; rewrite E in Hge'; cbn in Hge'; lia|].
    intros blob Hb. by eapply by_digest_file.
Qed.

(** What one file adds to the plan, whatever follows it. *)
Lemma plan_file cfg all e emitted :
  distinct_digests (concat ((fun e => file_blobs opts chunkSize e.2) <$> all)) -> e ∈ all ->
  recorded cfg e -> h_Size e.1 = Z.of_nat (length e.2) -> h_Name e.1 ∉ emitted ->
  exists lp emitted', planned (file_meta cfg (h_Name e.1)) e lp
    /\ (forall k, k ∈ emitted' -> k = h_Name e.1 \/ k ∈ emitted)
    /\ forall tail, plan_loop cfg (by_digest (file_layers all)) emitted
                      (file_descs opts chunkSize (h_Name e.1) e.2 ++ tail)
                  = (rest ← plan_loop cfg (by_digest (file_layers all)) emitted' tail; Ok (lp :: rest)).
Proof.
  intros Hdd He Hrec Hsz Hem. destruct (file_descs_cons e) as (d & ds & Eds & Ht & Hz & Hlen).
  pose proof Hrec as (meta & Hm & Hfm). destruct (file_record_fields meta e Hm) as [_ Hfc].
  assert (d ∈ file_descs opts chunkSize (h_Name e.1) e.2) as Hd by (rewrite Eds; constructor).
  apply Forall_cons in Ht as [Ht Hts]. apply Forall_cons in Hz as [Hz Hzs].
  destruct (decide (entry_mode opts chunkSize (Z.of_nat (length e.2)) = Whole)) as [Em|Em].
  - rewrite file_blobs_mode, Em in Hlen, Hfc. destruct ds; [|discriminate Hlen]. cbn in Hfc.
    eexists {| lp_title := h_Name e.1; lp_meta := file_meta cfg (h_Name e.1); lp_layer := d; lp_chunks := None |}, emitted.
    split; [constructor; cbn; [done|done|exact Hd|by rewrite Em]|]. split; [auto|]. intros tail.
    rewrite Eds. cbn [app plan_loop]. by rewrite Ht, Hz, Em, Hfm, Hfc.
  - destruct (resolve_file cfg all e d ds Hdd He Hrec Hsz Em Eds) as (cs & Hres & Hcs).
    destruct (encoded_facts _ Em) as (_ & _ & Hge2).
    assert (sf_Chunks (file_meta cfg (h_Name e.1)) <> [] \/ mode_zstd (entry_mode opts chunkSize (Z.of_nat (length e.2))) = true) as Henc.
    { destruct (mode_zstd _); [by right|left]. specialize (Hge2 eq_refl). rewrite Hfm, Hfc.
      destruct (Nat.ltb_spec (length (file_blobs opts chunkSize e.2)) 2); [lia|].
      intros E. apply (f_equal length) in E. rewrite length_fmap in E. cbn in E. lia. }
    eexists {| lp_title := h_Name e.1; lp_meta := file_meta cfg (h_Name e.1); lp_layer := d; lp_chunks := Some cs |},
      ({[h_Name e.1]} ∪ emitted).
    split; [constructor; cbn; [done|done|exact Hd|]; destruct (entry_mode _ _ _); [done|by exists cs..]|].
    split; [set_solver|]. intros tail. rewrite Eds. cbn [app plan_loop]. rewrite Ht.
    assert ((length (sf_Chunks (file_meta cfg (h_Name e.1))) =? 0) && negb (IsZstdMediaType (d_MediaType d)) = false) as ->.
    { rewrite Hz. destruct Henc as [Hc| ->]; [|by rewrite andb_false_r]. revert Hc. destruct (sf_Chunks (file_meta cfg (h_Name e.1))); [intros []; reflexivity|intros _; reflexivity]. }
    rewrite bool_decide_false by done. rewrite Hres. cbn [mbind result_bind].
    rewrite (plan_skip _ _ _ (h_Name e.1)); [done|set_solver|done|].
    destruct Henc as [Hc|Hmz]; [left; by intros ?%length_zero_iff_nil|right]. by rewrite Hmz in Hzs.
Qed.

Lemma plan_files cfg all files emitted :
  distinct_digests (concat ((fun e => file_blobs opts chunkSize e.2) <$> all)) ->
  Forall (fun e => e ∈ all /\ recorded cfg e /\ h_Size e.1 = Z.of_nat (length e.2)) files ->
  NoDup ((fun e => h_Name e.1) <$> files) -> (forall e, e ∈ files -> h_Name e.1 ∉ emitted) ->
  exists lps, plan_loop cfg (by_digest (file_layers all)) emitted (file_layers files) = Ok lps
    /\ Forall2 (fun e lp => planned (file_meta cfg (h_Name e.1)) e lp) files lps.
Proof.
  intros Hdd HF. revert emitted. induction HF as [|e files (He & Hrec & Hsz) HF IH]; intros emitted Hnd Hem.
  { exists []. by split. }
  cbn in Hnd. apply NoDup_cons in Hnd as [Hn Hnd].
  destruct (plan_file cfg all e emitted Hdd He Hrec Hsz) as (lp & emitted' & Hpl & Hem' & Hrun).
  { apply Hem. constructor. }
  destruct (IH emitted' Hnd) as (lps & E & HF2).
  { intros e' He' Hin. destruct (Hem' _ Hin) as [Heq|Hin'].
    - apply Hn. rewrite <- Heq. by apply (list_elem_of_fmap_2 (fun e => h_Name e.1)).
    - apply (Hem e'); [by constructor|done]. }
  exists (lp :: lps). split; [|by constructor].
  change (file_layers (e :: files)) with (file_descs opts chunkSize (h_Name e.1) e.2 ++ file_layers files)%list.
  by rewrite Hrun, E.
Qed.

End Plan.

(** ** The blobs are there *)

Section Back.
Context {S : Type} `{RegistryOk S} `{ZstdOk} `{CocoonRunner}.
Context (opts : PushOptions) (Hnames : names_ok opts) (chunkSize : Z) (Hchunk : (0 <= chunkSize)%Z).

(** No two different blobs, one of them pushed and the other pushed or in the
    repository afterwards, have the same digest. *)
Definition no_collision (bs : list bytes) (s' : S) : Prop :=
  forall x y, x ∈ bs -> (y ∈ bs \/ exists k, blobs s' !! k = Some y) -> digest_of x = digest_of y -> x = y.

Lemma stored_chunk bs s' d b :
  addressed (blobs s') -> no_collision bs s' -> b ∈ bs -> stored (po_Name opts) s' b ->
  d_Digest d = digest_of b -> d_Size d = Z.of_nat (length b) -> chunk_ok s' (po_Name opts) d b.
Proof.
  intros Ha Hnc Hb [y Hy] Hd Hs. split; [done|]. rewrite Hd. destruct Hnames as [Hrepo _]. apply get_blob_ok; [done|].
  assert (b = y) as ->; [|done]. apply Hnc; [done|by right; eauto|]. by apply (Ha _ _ Hy).
Qed.

Lemma stored_chunks bs s' ds blobs_ :
  addressed (blobs s') -> no_collision bs s' -> (forall b, b ∈ blobs_ -> b ∈ bs /\ stored (po_Name opts) s' b) ->
  Forall2 (fun d blob => d_Digest d = digest_of blob /\ d_Size d = Z.of_nat (length blob)) ds blobs_ ->
  Forall2 (chunk_ok s' (po_Name opts)) ds blobs_.
Proof.
  intros Ha Hnc Hin HF. induction HF as [|d b ds blobs_ [Hd Hs] HF IH]; constructor.
  - destruct (Hin b) as [? ?]; [constructor|]. by eapply stored_chunk.
  - apply IH. intros b' Hb'. apply Hin. by constructor.
Qed.

Lemma pieces_stride b :
  (0 < chunkSize)%Z -> (0 < Z.of_nat (length b))%Z ->
  Forall (fun c => Z.of_nat (length c) <= rawChunkStride (Z.of_nat (length b))
                     (Z.of_nat (length (split (Z.to_nat chunkSize) b))))%Z (split (Z.to_nat chunkSize) b).
Proof.
  intros Hc Hb. pose proof (split_length (Z.to_nat chunkSize) b ltac:(lia)) as Hl. rewrite Z2Nat.id in Hl by lia.
  pose proof (rawChunkStride_covers _ _ _ Hc Hb Hl) as Hcov.
  pose proof (split_Forall (Z.to_nat chunkSize) b) as Hsz. rewrite Forall_forall in Hsz.
  apply Forall_forall. intros c Hin. specialize (Hsz c Hin).
  assert (length c <= length b); [|lia].
  assert (length b = length (concat (split (Z.to_nat chunkSize) b))) as -> by (rewrite split_concat by lia; done).
  rewrite length_concat_sum.
  clear - Hin. induction Hin as [|c' l Hin IH]; cbn; [|]; unfold sum_list in *; cbn in *; lia.
Qed.

(** A planned file reassembles to the bytes that were pushed. *)
Lemma planned_delivers bs s' f e lp :
  addressed (blobs s') -> no_collision bs s' ->
  (forall b, b ∈ file_blobs opts chunkSize e.2 -> b ∈ bs /\ stored (po_Name opts) s' b) ->
  planned opts chunkSize f e lp -> sf_Size f = h_Size e.1 -> h_Size e.1 = Z.of_nat (length e.2) ->
  zstd_NewReader = None ->
  delivers s' (po_Name opts) lp e.2.
Proof.
  intros Ha Hnc Hin [Ht Hm Hl Hch] Hf Hsz Hnr. pose proof (mode_facts opts chunkSize Hchunk e.2) as Hmode.
  apply file_descs_media in Hl as HL. destruct HL as [Hlt Hlz].
  destruct (entry_mode opts chunkSize (Z.of_nat (length e.2))) as [| |compress] eqn:Em.
  - apply del_layer; [done|congruence|]. apply elem_of_file_descs in Hl as (i & blob & Hb & ->).
    destruct (Hin blob Hb) as [Hb' Hs]. rewrite file_blobs_mode, Em in Hb. cbn in Hb.
    apply list_elem_of_singleton in Hb as ->. by eapply stored_chunk.
  - destruct Hch as (ds & Hds & HF). pose proof (stored_chunks _ _ _ _ Ha Hnc Hin HF) as HF'.
    rewrite file_blobs_mode, Em in HF'. cbn in HF'. eapply (del_zstd _ _ _ _ ds _ [e.2]); try done.
    + repeat constructor.
    + cbn. by rewrite app_nil_r.
    + rewrite Hm, Hf. done.
    + rewrite Hm, Hf. apply Forall2_length in HF'. cbn in HF'. rewrite HF'. constructor; [|constructor].
      change (rawChunkStride (h_Size e.1) (Z.of_nat 1)) with (h_Size e.1). lia.
  - destruct Hch as (ds & Hds & HF), Hmode as (Hc & Hpos & Hge & Hge2).
    pose proof (stored_chunks _ _ _ _ Ha Hnc Hin HF) as HF'. rewrite file_blobs_mode, Em in HF'. cbn [pieces] in HF'.
    assert (e.2 = concat (split (Z.to_nat chunkSize) e.2)) as Hcat by (rewrite split_concat; [done|lia]).
    destruct compress.
    + eapply (del_zstd _ _ _ _ ds _ (split (Z.to_nat chunkSize) e.2)); try done.
      * clear. induction (split (Z.to_nat chunkSize) e.2); constructor; [constructor|done].
      * by rewrite Hm, Hf.
      * rewrite Hm, Hf, Hsz. apply Forall2_length in HF' as ->. rewrite length_fmap. by apply pieces_stride.
    + eapply (del_plain _ _ _ _ ds (split (Z.to_nat chunkSize) e.2)); try done.
      * cbn [encode_piece] in HF'. by rewrite list_fmap_id in HF'.
      * by rewrite Hm, Hf.
Qed.

(** ** The tar that comes back *)

(** The header a file comes back under. *)
Definition restored_header (e : tar_header * bytes) (now : gotime) : result out_header :=
  meta ← sparseFileMeta e.1;
  layerHeader (h_Name e.1) (h_Size e.1) meta now.

(** Names and metadata an import tar can carry: a regular file's name, a
    header some tar format can hold (no NUL in the name, a mode of seven octal
    digits when there are PAX records, those within 1 MiB), a positive sparse
    size. *)
Record restorable (e : tar_header * bytes) : Prop := {
  rs_name : h_Name e.1 <> "";
  rs_file : hasSuffix (h_Name e.1) "/" = false;
  rs_header : forall now hdr, restored_header e now = Ok hdr -> encodable hdr = true;
  rs_sparse : forall meta, sparseFileMeta e.1 = Ok meta -> sf_SparseMap meta = "" \/ (0 < sf_SparseSize meta)%Z
}.

Lemma layerHeader_record e meta now :
  layerHeader (h_Name e.1) (h_Size e.1) (file_record opts chunkSize meta e.1 e.2) now
  = layerHeader (h_Name e.1) (h_Size e.1) meta now.
Proof. unfold layerHeader, file_record. by destruct (_ <? 2). Qed.

Lemma sparseFileMeta_mode hdr meta : sparseFileMeta hdr = Ok meta -> sf_Mode meta = h_Mode hdr.
Proof. unfold sparseFileMeta. repeat case_match; by intros [= <-]. Qed.

Lemma restored_ok e meta now :
  restorable e -> sparseFileMeta e.1 = Ok meta ->
  exists hdr, layerHeader (h_Name e.1) (h_Size e.1) meta now = Ok hdr /\ encodable hdr = true.
Proof.
  intros [_ _ Hhdr Hsp] Hm. specialize (Hsp meta Hm). specialize (Hhdr now).
  unfold restored_header in Hhdr. rewrite Hm in Hhdr. cbn [mbind result_bind] in Hhdr.
  enough (exists hdr, layerHeader (h_Name e.1) (h_Size e.1) meta now = Ok hdr) as [hdr E] by (exists hdr; split; [done|by apply Hhdr]).
  unfold layerHeader. destruct (String.eqb_spec (sf_SparseMap meta) "") as [_|Hne]; [eauto|].
  destruct Hsp as [?|Hpos]; [done|]. destruct (Z.leb_spec (sf_SparseSize meta) 0); [lia|]. eauto.
Qed.

(** *** The pieces of [Stream] on a pushed artifact *)

Lemma newChunkPipeline_total entries prefetch budget :
  zstd_NewReader = None -> exists p, newChunkPipeline entries prefetch budget = Ok p.
Proof.
  intros Hnr. unfold newChunkPipeline. rewrite Hnr. destruct (pipeline_caps entries) as [[i o] z].
  repeat case_match; eauto.
Qed.

Lemma FetchSnapshotConfig_ok bs s' c :
  addressed (blobs s') -> no_collision bs s' -> config_blob c ∈ bs -> stored (po_Name opts) s' (config_blob c) ->
  SnapshotConfig_wf c -> (Z.of_nat (length (config_blob c)) <= maxSnapshotConfigSize)%Z ->
  FetchSnapshotConfig s' (po_Name opts) (config_descriptor c) = Ok c.
Proof.
  intros Ha Hnc Hin Hst Hwf Hcap.
  destruct (stored_chunk bs s' (config_descriptor c) (config_blob c) Ha Hnc Hin Hst eq_refl eq_refl)
    as [_ (body & Hg & Hgood)].
  unfold FetchSnapshotConfig. cbn [d_MediaType config_descriptor d_Size]. rewrite String.eqb_refl. cbn [negb].
  destruct (Z.ltb_spec maxSnapshotConfigSize (Z.of_nat (length (config_blob c)))); [lia|].
  rewrite Hg. cbn [wrap mbind result_bind].
  rewrite read_all_limited_good by apply Hgood. rewrite (gb_content _ _ Hgood). cbn [wrap mbind result_bind].
  rewrite take_ge by lia. destruct (Z.ltb_spec maxSnapshotConfigSize (Z.of_nat (length (config_blob c)))); [lia|].
  unfold config_blob. by rewrite SnapshotConfig_read_back.
Qed.

Lemma MarshalEnvelope_ok c localName l :
  sc_Engine c = Some (JObj l) -> exists env, MarshalEnvelope c localName = Ok env.
Proof. intros Hl. unfold MarshalEnvelope, exportEnvelope. rewrite Hl. cbn. by eexists. Qed.

Lemma traverse_unit {A} (f : A -> result unit) l :
  Forall (fun a => f a = Ok ()) l -> exists us, traverse f l = Ok us.
Proof. induction 1 as [|a l Ha HF [us IH]]; cbn; [by eexists|]. rewrite Ha. cbn. rewrite IH. by eexists. Qed.

Lemma validate_ok m cfg files encoded :
  m_Layers m = file_layers opts chunkSize files ->
  m_ArtifactType m = (snapshotVersionMarkers encoded).2 ->
  encoded = existsb (file_encoded opts chunkSize) files ->
  Forall (fun e => h_Name e.1 <> "") files ->
  Forall (fun e => recorded opts chunkSize cfg e) files ->
  (forall k, k ∉ ((fun e => h_Name e.1) <$> files) -> sc_Files cfg !! k = None) ->
  validateSnapshotLayers m cfg = Ok ().
Proof.
  intros Hl Hat Henc Hnms Hrec Hother. unfold validateSnapshotLayers.
  assert (String.eqb (m_ArtifactType m) ArtifactTypeSnapshotV2 = encoded) as -> by (rewrite Hat; by destruct encoded).
  destruct (traverse_unit (validate_layer encoded) (m_Layers m)) as (us & ->).
  { rewrite Hl. apply Forall_forall. intros d Hd. apply elem_of_concat in Hd as (ds & Hds & Hd).
    apply list_elem_of_fmap_1 in Hds as (e & -> & He). pose proof (file_descs_media _ _ _ _ _ Hd) as [Ht Hz].
    apply elem_of_file_descs in Hd as (i & blob & _ & ->). unfold validate_layer. cbn [d_Size d_MediaType blob_descriptor] in *.
    destruct (Z.ltb_spec (Z.of_nat (length blob)) 0); [lia|].
    assert (IsSnapshotLayerMediaType (mode_media (entry_mode opts chunkSize (Z.of_nat (length e.2))) (h_Name e.1)) = true) as ->.
    { destruct (entry_mode _ _ _) as [| |[]]; cbn [mode_media];
        rewrite ?IsSnapshotLayerMediaType_zstd by apply not_zstd_for_file; apply IsSnapshotLayerMediaType_file. }
    rewrite Ht. rewrite Forall_forall in Hnms. specialize (Hnms e He). apply String.eqb_neq in Hnms as ->.
    cbn [negb]. rewrite Hz. destruct encoded; [done|]. cbn [negb andb].
    assert (file_encoded opts chunkSize e = false) as Hne.
    { destruct (file_encoded opts chunkSize e) eqn:E; [|done]. symmetry in Henc.
      rewrite (proj2 (existsb_exists _ _)) in Henc; [done|]. exists e. split; [by apply list_elem_of_In|done]. }
    unfold file_encoded in Hne. by destruct (entry_mode opts chunkSize _) as [| |[]]. }
  cbn [mbind result_bind]. destruct encoded; [done|].
  destruct (traverse_unit (fun kv : string * SnapshotFile =>
    if 0 <? length (sf_Chunks kv.2) then Err (Enew ("file " +:+ kv.1 +:+ " is chunked but manifest is not " +:+ ArtifactTypeSnapshotV2))
    else Ok ()) (map_to_list (sc_Files cfg))) as (us' & ->); [|done].
  apply Forall_forall. intros [k f] Hkf. apply elem_of_map_to_list in Hkf. cbn [fst snd].
  destruct (decide (k ∈ (fun e => h_Name e.1) <$> files)) as [Hk|Hk]; [|by rewrite Hother in Hkf].
  apply list_elem_of_fmap_1 in Hk as (e & -> & He). rewrite Forall_forall in Hrec.
  destruct (Hrec e He) as (meta & Hm & Hf). unfold file_meta in Hf. rewrite Hkf in Hf. subst f.
  destruct (file_record_fields opts chunkSize meta e Hm) as [_ ->].
  assert (file_encoded opts chunkSize e = false) as Hne.
  { destruct (file_encoded opts chunkSize e) eqn:E; [|done]. symmetry in Henc.
    rewrite (proj2 (existsb_exists _ _)) in Henc; [done|]. exists e. split; [by apply list_elem_of_In|done]. }
  unfold file_encoded in Hne. rewrite file_blobs_mode. by destruct (entry_mode opts chunkSize _).
Qed.

(** A tar entry for every file. *)
Definition restores (now : gotime) (e : tar_header * bytes) (x : out_header * bytes) : Prop :=
  restored_header e now = Ok x.1 /\ x.2 = e.2.

Lemma writable_files bs s' cfg p now files lps :
  addressed (blobs s') -> no_collision bs s' -> zstd_NewReader = None ->
  Forall (fun e => recorded opts chunkSize cfg e /\ h_Size e.1 = Z.of_nat (length e.2) /\ restorable e
            /\ forall b, b ∈ file_blobs opts chunkSize e.2 -> b ∈ bs /\ stored (po_Name opts) s' b) files ->
  Forall2 (fun e lp => planned opts chunkSize (file_meta cfg (h_Name e.1)) e lp) files lps ->
  Forall (fun lp => buffered lp = true -> caps_cover (cp_inputCap p) (cp_outputCap p) lp) lps ->
  exists out, Forall2 (writable s' (po_Name opts) p now) lps out /\ Forall2 (restores now) files out.
Proof.
  intros Ha Hnc Hnr HF HP. induction HP as [|e lp files lps Hp HP IH]; intros Hcaps.
  { exists []. by split. }
  apply Forall_cons in HF as [(Hrec & Hsz & Hres & Hin) HF]. apply Forall_cons in Hcaps as [Hcap Hcaps].
  destruct (IH HF Hcaps) as (out & Hw & Hr). destruct Hrec as (meta & Hm & Hrec).
  destruct (file_record_fields opts chunkSize meta e Hm) as [Hfs _]. rewrite Hrec in Hp.
  pose proof (planned_delivers bs s' _ e lp Ha Hnc Hin Hp Hfs Hsz Hnr) as Hd.
  destruct (restored_ok e meta now Hres Hm) as (hdr & Hh & He). destruct Hp as [Ht Hmeta Hl Hc].
  exists ((hdr, e.2) :: out). split; constructor; [|done| |done].
  - constructor; cbn [fst snd]; [|done|rewrite Ht; apply Hres|done|done].
    unfold entry_header. rewrite Ht, Hmeta.
    assert ((if lp_encoded lp then sf_Size (file_record opts chunkSize meta e.1 e.2) else d_Size (lp_layer lp)) = h_Size e.1) as ->;
      [|by rewrite layerHeader_record].
    unfold lp_encoded. destruct Hd as [Hnone _ [Hs _] | ds bs' Hds _ _ _ _ | ds cs bs' Hds _ _ _ _ _ _ _].
    + by rewrite Hnone, Hs.
    + by rewrite Hds.
    + by rewrite Hds.
  - split; cbn [fst snd]; [|done]. unfold restored_header. by rewrite Hm.
Qed.

(** What is assumed of the artifact [p] of the stream's [entries], pushed with
    [opts] into a registry that ends in [s']. *)
Record restorable_push (entries : list (tar_header * bytes)) (env : PushEnv) (p : push_plan) (s' : S) : Prop := {
  rp_plan : plan_push opts chunkSize env entries = Ok p;
  rp_names : NoDup (file_names entries);
  rp_files : Forall restorable (files_of entries);
  rp_config : SnapshotConfig_wf (pp_config p);
  rp_config_size : (Z.of_nat (length (config_blob (pp_config p))) <= maxSnapshotConfigSize)%Z;
  rp_manifest : OCIManifest_wf (pp_manifest p);
  rp_no_collision : no_collision (pp_blobs p) s'
}.

Lemma entry_blobs_file e : is_file e = true -> entry_blobs opts chunkSize e.1 e.2 = file_blobs opts chunkSize e.2.
Proof.
  intros Hf. unfold is_file in Hf. apply andb_true_iff in Hf as [Hf1 Hf2]. unfold entry_blobs.
  apply negb_true_iff in Hf1. by rewrite Hf1, Hf2.
Qed.

Lemma file_blob_pushed entries e b :
  e ∈ files_of entries -> b ∈ file_blobs opts chunkSize e.2 -> b ∈ stream_blobs opts chunkSize entries.
Proof.
  intros He Hb. apply list_elem_of_In, filter_In in He as [He Hf]. apply list_elem_of_In in He.
  unfold stream_blobs. apply elem_of_concat. exists (entry_blobs opts chunkSize e.1 e.2).
  split; [by apply (list_elem_of_fmap_2 (fun e => entry_blobs opts chunkSize e.1 e.2))|]. by rewrite entry_blobs_file.
Qed.

(** Blobs of files that share a digest are equal when no pushed blob collides. *)
Lemma distinct_file_blobs entries bs s' :
  no_collision (stream_blobs opts chunkSize entries ++ bs)%list s' ->
  distinct_digests (concat ((fun e => file_blobs opts chunkSize e.2) <$> files_of entries)).
Proof.
  intros Hnc x y Hx Hy Hxy.
  assert (forall z, z ∈ concat ((fun e => file_blobs opts chunkSize e.2) <$> files_of entries) ->
    z ∈ (stream_blobs opts chunkSize entries ++ bs)%list) as Hz.
  { intros z Hz. apply elem_of_app. left. apply elem_of_concat in Hz as (l & Hl & Hz).
    apply list_elem_of_fmap_1 in Hl as (e & -> & He). by eapply file_blob_pushed. }
  apply Hnc; [by apply Hz|left; by apply Hz|done].
Qed.

(** [Stream] of a snapshot's manifest is [StreamParsed]. *)
Lemma Stream_manifest s' so now copy m :
  OCIManifest_wf m -> ClassifyParsed m = KindSnapshot -> so_Name so <> "" ->
  Stream_by s' so now copy (manifest_bytes m) = StreamParsed_by s' so now copy m.
Proof.
  intros Hm Hk Hne%String.eqb_neq. unfold Stream_by. rewrite Hne. unfold resolve_manifest, manifest_bytes.
  rewrite Parse_read_back by done. cbn [wrap mbind result_bind]. rewrite Hk, bool_decide_false by done.
  cbn [mbind result_bind]. by rewrite Hk, bool_decide_true by done.
Qed.

(** A stream of the pushed repository into a writer that takes everything;
    its envelope is under 8 GiB. *)
Record receives (p : push_plan) (so : StreamOptions) : Prop := {
  rc_name : so_Name so = po_Name opts;
  rc_writer : so_Writer so = Some unbounded;
  rc_envelope : forall envelope, MarshalEnvelope (pp_config p) (cmpOr (so_LocalName so) (po_Name opts)) = Ok envelope ->
    fits_octal 11 (Z.of_nat (length envelope)) = true
}.

(** A complete import tar: the envelope, then every file of the export, as
    it was. *)
Definition restored_tar (p : push_plan) (localName : string) (now : gotime) (entries : list (tar_header * bytes))
    (tw : tar_writer) : Prop :=
  exists envelope out,
    MarshalEnvelope (pp_config p) localName = Ok envelope
    /\ tw_closed tw = true
    /\ tw_done tw = ({| o_Name := snapshotJSONName; o_Size := Z.of_nat (length envelope); o_Mode := 420;
                        o_ModTime := now; o_PAX := ∅ |}, envelope) :: out
    /\ Forall2 (restores now) (files_of entries) out.

Lemma stream_back entries env p s' so now copy :
  addressed (blobs s') -> Forall (fun e => h_Size e.1 = Z.of_nat (length e.2)) (files_of entries) ->
  restorable_push entries env p s' -> Forall (stored (po_Name opts) s') (pp_blobs p) ->
  receives p so -> po_Name opts <> "" -> zstd_NewReader = None ->
  copies s' (po_Name opts) copy ->
  exists tw,
    Stream_by s' so now copy (manifest_bytes (pp_manifest p)) = (Ok (), tw)
    /\ restored_tar p (cmpOr (so_LocalName so) (po_Name opts)) now entries tw.
Proof.
  intros Ha Hsizes [Hplan Hnd Hfiles Hcwf Hcsz Hmwf Hnc] Hst [Hn Hwr Henvsz] Hne Hnr Hcopy.
  unfold plan_push in Hplan. apply bind_Ok in Hplan as (ue & Hue & Hplan).
  apply spec_entries_files in Hue as (Hl & Henc & Hrec & Hother & Hcfg); [|done].
  destruct (ue_cfg ue) as [cfg|] eqn:Ecfg; [|discriminate].
  destruct Hcfg as [?|(data & cfg' & Hdec & [= <-])]; [discriminate|].
  apply decode_envelope_engine in Hdec as (l & Hengine).
  destruct (snapshotVersionMarkers (ue_encoded ue)) as [sv at_] eqn:Emark. cbn [fst snd] in Hplan.
  injection Hplan as <-. cbn [pp_config pp_manifest pp_blobs] in *.
  set (c := snapshot_config env cfg (ue_files ue) sv) in *. set (m := snapshot_manifest _ _ _ _ _) in *.
  apply Forall_app in Hst as [Hst Hstc]. apply Forall_inv in Hstc.
  assert (config_blob c ∈ (stream_blobs opts chunkSize entries ++ [config_blob c])%list) as Hcin
    by (apply elem_of_app; right; constructor).
  assert (Forall (fun e => recorded opts chunkSize c e) (files_of entries)) as Hrec'.
  { eapply Forall_impl; [exact Hrec|]. intros e (meta & Hm & Hf). exists meta. split; [done|].
    unfold file_meta, c, snapshot_config. cbn [sc_Files]. by rewrite Hf. }
  assert (distinct_digests (concat ((fun e => file_blobs opts chunkSize e.2) <$> files_of entries))) as Hdd by by eapply distinct_file_blobs.
  destruct (plan_files opts chunkSize Hchunk c (files_of entries) (files_of entries) ∅ Hdd) as (lps & Hlps & Hpl).
  { apply Forall_forall. intros e He. rewrite Forall_forall in Hrec', Hsizes. split_and!; auto. }
  { exact Hnd. }
  { intros e _. apply not_elem_of_empty. }
  destruct (newChunkPipeline_total lps
    (if (so_Concurrency so <=? 0)%Z then defaultTransferConcurrency else so_Concurrency so)
    (if (shl20 (so_MemoryBudgetMiB so) <=? 0)%Z then defaultPullPrefetchBudget else shl20 (so_MemoryBudgetMiB so)) Hnr) as (pipe & Hpipe).
  destruct (newChunkPipeline_caps _ _ _ _ Hpipe) as [Hic Hoc].
  destruct (writable_files (stream_blobs opts chunkSize entries ++ [config_blob c])%list s' c pipe now (files_of entries) lps) as (out & Hw & Hr); try done.
  { apply Forall_forall. intros e He. rewrite Forall_forall in Hrec', Hsizes, Hfiles. split_and!; auto.
    intros b Hb. pose proof (file_blob_pushed _ _ _ He Hb) as Hin. split; [apply elem_of_app; by left|].
    rewrite Forall_forall in Hst. by apply Hst. }
  { apply Forall_forall. intros lp Hlp Hbuf. rewrite Hic, Hoc. by apply pipeline_caps_cover. }
  destruct (MarshalEnvelope_ok c (cmpOr (so_LocalName so) (so_Name so)) l Hengine) as (envelope & Henv).
  destruct (writeImportTar_ok s' (po_Name opts) copy Hcopy so now c (m_Layers m) pipe lps envelope out) as (tw & Etw & Hclosed & Hdone);
    [by unfold planLayers; cbn [m_Layers m snapshot_manifest]; rewrite Hl|done|done|done|by apply Henvsz; rewrite <- Hn|done|].
  exists tw. split; [|exists envelope, out; split_and!; [by rewrite <- Hn|done..]].
  rewrite Stream_manifest; [|done|by destruct (ue_encoded ue); injection Emark as _ <-|by rewrite Hn].
  apply String.eqb_neq in Hne as Hne'.
  unfold StreamParsed_by. rewrite Hn, Hne', Hwr. unfold mbind, M_bind, lift. change (m_Config m) with (config_descriptor c).
  rewrite (FetchSnapshotConfig_ok (stream_blobs opts chunkSize entries ++ [config_blob c])%list) by done.
  cbn [wrap]. rewrite (validate_ok m c (files_of entries) (ue_encoded ue)); [exact Etw|exact Hl| |exact Henc| |exact Hrec'|exact Hother].
  - unfold m, snapshot_manifest. cbn [m_ArtifactType]. by rewrite Emark.
  - eapply Forall_impl; [exact Hfiles|]. by intros e [].
Qed.

Lemma good_stream_sizes ts entries :
  good_stream opts chunkSize ts entries ->
  Forall (fun e => h_Size e.1 = Z.of_nat (length e.2)) (files_of entries).
Proof.
  intros [HF _]. apply Forall_forall. intros e He. apply list_elem_of_In, filter_In in He as [He _].
  apply list_elem_of_In in He. induction HF as [|x y xs ys Hxy HF IH]; [by apply elem_of_nil in He|].
  apply elem_of_cons in He as [->|He]; [|by apply IH].
  rewrite (ge_hdr _ _ _ _ Hxy). apply (ge_size _ _ _ _ Hxy).
Qed.

End Back.

Section Main.
Context {S : Type} `{RegistryOk S} `{ZstdOk} `{CocoonRunner}.
Context (opts : PushOptions) (Hnames : names_ok opts) (chunkSize : Z).

(** The round trip, for any registry that meets the contract. *)
Lemma push_then_stream w ex entries env p s s' so now :
  po_Name opts <> "" -> pipelineParams opts = Ok (w, chunkSize) ->
  Export (cmpOr (po_LocalName opts) (po_Name opts)) = Ok ex -> ex_wait ex = None ->
  good_stream opts chunkSize (ex_stream ex) entries -> addressed (blobs s) ->
  Push None env opts s = (Ok (), s') ->
  restorable_push opts chunkSize entries env p s' ->
  receives opts p so -> zstd_NewReader = None ->
  exists tw,
    GetManifest s' (po_Name opts) (cmpOr (po_Tag opts) "latest") = Ok (manifest_bytes (pp_manifest p), MediaTypeOCIManifest)
    /\ Stream s' so now (manifest_bytes (pp_manifest p)) = (Ok (), tw)
    /\ restored_tar p (cmpOr (so_LocalName so) (po_Name opts)) now entries tw.
Proof.
  intros Hn Hp Hex Hwait Hgs Ha Hrun Hrp Hrc Hnr.
  assert (0 <= chunkSize)%Z as Hchunk by (pose proof (pipelineParams_chunk _ _ _ Hp); lia).
  destruct (Push_published env opts Hnames w chunkSize ex entries s s' Hn Hp Hex Hwait Hgs Hrun) as (p' & Hp' & [Hm Hb Had Hst]).
  rewrite (rp_plan _ _ _ _ _ _ Hrp) in Hp'. injection Hp' as <-.
  destruct (stream_back opts Hnames chunkSize Hchunk entries env p s' so now (copy_file s' (po_Name opts)) (Had Ha) (good_stream_sizes _ _ _ _ Hgs) Hrp Hst Hrc Hn Hnr (copy_file_copies _ _))
    as (tw & Hs & Hr).
  exists tw. split_and!; [|unfold Stream; rewrite (rc_name _ _ _ Hrc); exact Hs|exact Hr]. destruct Hnames. apply get_manifest_ok; [done..|]. rewrite Hm. apply lookup_insert_eq.
Qed.

(** C1: the round trip. A push that succeeds, from a complete export stream
    into a content-addressed registry, leaves a manifest under its tag from
    which [Stream] writes a complete import tar: first the snapshot.json
    envelope, then, in the order of the export, every regular file under its
    own name with exactly the bytes that were exported, its mode and its
    sparse map, whether the push stored it whole, compressed, cut into chunks
    or both, and whether the stream reads it windowed or sequentially.
    [restorable_push] asks for distinct file names a tar can carry, valid
    UTF-8 strings, a config under the reader's cap and no digest collision
    among the blobs involved. *)
Theorem push_stream_roundtrip w ex entries env p s s' so now :
  po_Name opts <> "" -> pipelineParams opts = Ok (w, chunkSize) ->
  Export (cmpOr (po_LocalName opts) (po_Name opts)) = Ok ex -> ex_wait ex = None ->
  good_stream opts chunkSize (ex_stream ex) entries -> addressed (blobs s) ->
  Push None env opts s = (Ok (), s') ->
  restorable_push opts chunkSize entries env p s' ->
  receives opts p so -> zstd_NewReader = None ->
  exists tw,
    GetManifest s' (po_Name opts) (cmpOr (po_Tag opts) "latest") = Ok (manifest_bytes (pp_manifest p), MediaTypeOCIManifest)
    /\ Stream s' so now (manifest_bytes (pp_manifest p)) = (Ok (), tw)
    /\ restored_tar p (cmpOr (so_LocalName so) (po_Name opts)) now entries tw.
Proof. by apply push_then_stream. Qed.

End Main.
