(* ===== verification/Samples.v ===== *)
(** * Samples: concrete runs

    A small export, pushed into an in-memory registry and streamed back: the
    inputs at which the theorems on push and stream are instantiated. *)

From Stdlib Require Import ZArith Lia Ascii String.
From stdpp Require Import base gmap strings list.
From S2P Require Import Prelude GoStrings Sha256 Json Manifest GoIO OciUtil Registry Tar Zstd Snapshot SnapshotPush PushSpec PushSafe SnapshotPull PullSpec RoundTrip.

Local Open Scope string_scope.
Local Open Scope nat_scope.

Definition noon : gotime := {| t_rfc3339 := "2026-01-02T12:00:00Z"; t_rfc3339nano := "2026-01-02T12:00:00.5Z" |}.
Definition sample_env : PushEnv := {| pe_now := noon; pe_temp _ := sound_file |}.

Definition sample_opts : PushOptions :=
  {| po_Name := "team/vm"; po_LocalName := "vm"; po_Tag := ""; po_BaseImage := "base:1"; po_Source := ""; po_Revision := "r1";
     po_Annotations := {[ "owner" := "me" ]}; po_ZstdLevel := 0; po_ChunkSizeMiB := 0; po_Concurrency := 0;
     po_MemoryBudgetMiB := 0 |}.

(** An engine config with a field the program does not know. *)
Definition sample_envelope_json : json :=
  JObj [ ("version", JNum "1");
         ("config", JObj [ ("id", JStr "snap-1"); ("name", JStr "vm"); ("cpu", JNum "4"); ("memory", JNum "1024");
                           ("vsock", JObj [ ("cid", JNum "3") ]) ]) ].

Definition file_hdr (name : string) (b : bytes) (mode : Z) (pax : gmap string string) : tar_header :=
  {| h_Name := name; h_Size := Z.of_nat (length b); h_Mode := mode; h_Typeflag := TypeReg; h_PAX := pax |}.

Definition envelope_bytes : bytes := bytes_of (marshal sample_envelope_json).
Definition memory_bytes : bytes := bytes_of "guest memory".
Definition disk_bytes : bytes := bytes_of "sparse disk data".

Definition sample_entries : list (tar_header * bytes) :=
  [ (file_hdr snapshotJSONName envelope_bytes 420 ∅, envelope_bytes);
    (file_hdr "memory-ranges" memory_bytes 0 ∅, memory_bytes);
    (file_hdr "overlay.qcow2" disk_bytes 384 (<[sparsePAXMap := "0,8"]> {[ sparsePAXSize := "4096" ]}), disk_bytes) ].

(** Bodies arrive five bytes at a time. *)
Definition in_pieces (b : bytes) : reader :=
  (fun c => (c, None)) <$> split 5 b.

Definition sample_export : export :=
  {| ex_stream := {| ts_entries := (fun e => (e.1, in_pieces e.2)) <$> sample_entries; ts_end := EOF |};
     ex_wait := None |}.

#[global] Instance sample_runner : CocoonRunner := fun name =>
  if String.eqb name "vm" then Ok sample_export else Err (Enew "no such snapshot").

Lemma in_pieces_good b : good_body (in_pieces b) b.
Proof.
  unfold in_pieces.
  assert (forall l : list bytes, Forall (fun c => c <> []) l ->
    good_body ((fun c : bytes => (c, None : option error)) <$> l) (concat l)) as Hall.
  { induction 1 as [|c l Hc HF [IHc IHf IHe IHl]]; [by constructor|]. constructor; cbn; [by rewrite IHc|done|done|].
    cbn in IHl. unfold no_stall in *. rewrite IHl, andb_true_r. apply bool_decide_eq_true. by left. }
  rewrite <- (split_concat 5 b) at 2 by lia. apply Hall.
  unfold split. generalize (length b). intros f. revert b. induction f as [|f IH]; intros b; [constructor|].
  destruct b; cbn; [constructor|]. by constructor.
Qed.

Lemma sample_good_stream : good_stream sample_opts 0 (ex_stream sample_export) sample_entries.
Proof.
  constructor; [|done]. repeat constructor; try apply in_pieces_good.
Qed.

Definition sample_plan : push_plan :=
  match plan_push sample_opts 0 sample_env sample_entries with
  | Ok p => p
  | _ => {| pp_config := sample_config; pp_manifest := sample_manifest; pp_blobs := [] |}
  end.

Definition sample_after : MemRegistry := (Push None sample_env sample_opts mem_empty).2.

Definition sample_stream : StreamOptions :=
  {| so_Name := "team/vm"; so_LocalName := "copy"; so_Writer := Some unbounded; so_Concurrency := 0; so_MemoryBudgetMiB := 0 |}.

(** [no_collision], checked blob against blob. *)
Definition collision_free (bs : list bytes) (store : list bytes) : bool :=
  let all := (fun b => (digest_of b, b)) <$> (bs ++ store)%list in
  forallb (fun x => forallb (fun y => negb (String.eqb x.1 y.1) || bool_decide (x.2 = y.2)) all) all.

Lemma collision_free_ok {S} `{RegistryOk S} bs (s' : S) :
  collision_free bs (snd <$> map_to_list (blobs s')) = true -> no_collision bs s'.
Proof.
  intros Hc x y Hx Hy Hxy. unfold collision_free in Hc. rewrite forallb_forall in Hc.
  set (store := snd <$> map_to_list (blobs s')) in *.
  assert (forall z, z ∈ bs \/ (exists k, blobs s' !! k = Some z) ->
    In (digest_of z, z) ((fun b => (digest_of b, b)) <$> (bs ++ store)%list)) as Hin.
  { intros z Hz. apply list_elem_of_In, (list_elem_of_fmap_2 (fun b => (digest_of b, b))), elem_of_app.
    destruct Hz as [Hz|(k & Hk)]; [by left|right]. subst store. apply list_elem_of_fmap. exists (k, z).
    split; [done|]. by apply elem_of_map_to_list. }
  pose proof (Hc _ (Hin x (or_introl Hx))) as Hc1. rewrite forallb_forall in Hc1.
  specialize (Hc1 _ (Hin y Hy)). cbn [fst snd] in Hc1. rewrite Hxy, String.eqb_refl in Hc1. cbn [negb orb] in Hc1.
  by apply bool_decide_eq_true in Hc1.
Qed.

Lemma sample_push_runs : Push None sample_env sample_opts mem_empty = (Ok (), sample_after).
Proof.
  assert ((Push None sample_env sample_opts mem_empty).1 = Ok ()) as E by (vm_compute; reflexivity).
  unfold sample_after. by rewrite <- E, <- surjective_pairing.
Qed.

(** What was pushed can be restored from any registry without collisions. *)
Lemma sample_restorable_in {S} `{RegistryOk S} (s' : S) :
  no_collision (pp_blobs sample_plan) s' ->
  restorable_push sample_opts 0 sample_entries sample_env sample_plan s'.
Proof.
  constructor.
  - vm_compute. reflexivity.
  - apply (bool_decide_unpack _). vm_compute. exact I.
  - apply Forall_forall. intros e He. apply list_elem_of_In, filter_In in He as [He Hf].
    repeat destruct He as [<-|He]; try (by vm_compute in Hf).
    all: constructor; [discriminate|reflexivity| |].
    all: try (intros now hdr Hh; vm_compute in Hh; injection Hh as <-; vm_compute; reflexivity).
    all: intros meta; vm_compute; intros [= <-]; auto.
  - apply (bool_decide_unpack _). vm_compute. exact I.
  - vm_compute. intros H'. discriminate H'.
  - apply (bool_decide_unpack _). vm_compute. exact I.
  - done.
Qed.

Lemma sample_restorable : restorable_push sample_opts 0 sample_entries sample_env sample_plan sample_after.
Proof. apply sample_restorable_in, collision_free_ok. vm_compute. reflexivity. Qed.

Lemma sample_names : names_ok (S := MemRegistry) sample_opts.
Proof. split; exact I. Qed.

Lemma Push_succeeds_witness :
  exists s', Push None sample_env sample_opts mem_empty = (Ok (), s') /\ published sample_opts sample_plan mem_empty s'.
Proof.
  apply (Push_succeeds sample_env sample_opts sample_names 8 0 sample_export sample_entries sample_plan mem_empty).
  - discriminate.
  - reflexivity.
  - reflexivity.
  - reflexivity.
  - exact sample_good_stream.
  - vm_compute. reflexivity.
  - split; reflexivity.
  - reflexivity.
Defined.

Lemma sample_receives : receives sample_opts sample_plan sample_stream.
Proof.
  constructor; [done..|]. intros envelope He.
  assert (match MarshalEnvelope (pp_config sample_plan) "copy" with Ok e => fits_octal 11 (Z.of_nat (length e)) | _ => false end = true)
    as Hall by (vm_compute; reflexivity).
  change (cmpOr _ _) with "copy" in He. by rewrite He in Hall.
Qed.

Lemma push_stream_roundtrip_witness :
  exists tw,
    GetManifest sample_after "team/vm" "latest" = Ok (manifest_bytes (pp_manifest sample_plan), MediaTypeOCIManifest)
    /\ Stream sample_after sample_stream noon (manifest_bytes (pp_manifest sample_plan)) = (Ok (), tw)
    /\ restored_tar sample_plan "copy" noon sample_entries tw.
Proof.
  apply (push_stream_roundtrip sample_opts sample_names 0 8 sample_export sample_entries sample_env sample_plan
           mem_empty sample_after sample_stream noon).
  - discriminate.
  - reflexivity.
  - reflexivity.
  - reflexivity.
  - exact sample_good_stream.
  - apply map_Forall_empty.
  - exact sample_push_runs.
  - exact sample_restorable.
  - exact sample_receives.
  - reflexivity.
Defined.

(** A registry that refuses the third upload. *)
Definition mem_small : MemRegistry := {| mr_blobs := ∅; mr_manifests := ∅; mr_room := Some 2 |}.

Lemma Push_manifest_last_witness :
  is_ok (Push None sample_env sample_opts mem_small).1 = false
  /\ publishes_complete sample_opts mem_small (Push None sample_env sample_opts mem_small).2.
Proof. split; [vm_compute; reflexivity|]. apply (Push_manifest_last None sample_env sample_opts sample_names mem_small). Defined.
