(* ===== verification/PushRun.v ===== *)
(** * PushRun: a schedule of the concurrent push

    One run among those of [PushPool], as a function: the goroutine started
    first moves first, the reader when none can.  It gives the theorems of
    [PushPool] something to run on. *)

From Stdlib Require Import ZArith Lia Ascii String.
From stdpp Require Import base gmap strings list relations.
From S2P Require Import Prelude GoStrings Sha256 Json Manifest GoIO OciUtil Registry Tar Zstd Snapshot SnapshotPush PushSpec PushSafe PushPool SnapshotPull PullSpec RoundTrip Samples.

Local Open Scope string_scope.
Local Open Scope nat_scope.

Section schedule.
Context {S : Type} `{RegistryOk S}.
Context (name : string) (workers : nat) (jobs : list job) (gap read rewind : nat -> option error).

Definition worker_next (j : job) (w : worker) (ra ou : nat) (s : S) : option (worker * nat * nat * S) :=
  let b := j_blob j in
  match w with
  | WTakeOut => match ou with Datatypes.S ou' => Some (WEncode, ra, ou', s) | O => None end
  | WEncode => if ra <? Datatypes.S workers then Some (WHas true, Datatypes.S ra, ou, s) else None
  | WHas z =>
      let '(r, s') := HasBlob name (digest_of b) s in
      Some (match answer r with inl e => WRelease z (Some e) | inr true => WRelease z None | inr false => WPut z end, ra, ou, s')
  | WPut z =>
      let '(r, s') := PutBlob name (digest_of b) b (Z.of_nat (length b)) s in
      Some (WRelease z (match answer r with inl e => Some e | inr _ => None end), ra, ou, s')
  | WRelease false r => if ra <? Datatypes.S workers then Some (WReturn r, Datatypes.S ra, ou, s) else None
  | WRelease true r => if ou <? Datatypes.S workers then Some (WReturn r, ra, Datatypes.S ou, s) else None
  | WExit => Some (WDone, ra, ou, s)
  | _ => None
  end.

Definition main_next (st : state (S := S)) : option state :=
  let '(PS m nx ws ra ou eg ctx s ds) := st in
  match m with
  | MLoop =>
      match gap nx with
      | Some e => Some (PS (MWait (Some e)) nx ws ra ou eg ctx s ds)
      | None =>
          if nx =? length jobs then Some (PS (MWait None) nx ws ra ou eg ctx s ds)
          else if (nx <? length jobs) && negb (cancelled eg ctx) then
            Some (PS (match kind_at jobs nx with Inline => MRead | Chunk _ _ => MTake end) nx ws ra ou eg ctx s ds)
          else None
      end
  | MTake => match ra with Datatypes.S ra' => Some (PS MRead nx ws ra' ou eg ctx s ds) | O => None end
  | MRead =>
      match read nx with
      | None => Some (PS (match kind_at jobs nx with Inline => MHas | Chunk _ _ => MGo end) nx ws ra ou eg ctx s ds)
      | Some _ => None
      end
  | MGo =>
      match kind_at jobs nx with
      | Chunk zip _ =>
          if running ws <? workers then Some (PS MLoop (Datatypes.S nx) (<[nx := spawned zip]> ws) ra ou eg ctx s ds) else None
      | Inline => None
      end
  | MHas =>
      match jobs !! nx with
      | Some j =>
          let '(r, s') := HasBlob name (digest_of (j_blob j)) s in
          Some (match answer r with
                | inl e => PS (MWait (Some e)) nx ws ra ou eg ctx s' ds
                | inr true => PS MLoop (Datatypes.S nx) ws ra ou eg ctx s' (<[nx := Some (j_desc j)]> ds)
                | inr false => PS MPut nx ws ra ou eg ctx s' ds
                end)
      | None => None
      end
  | MPut =>
      match jobs !! nx with
      | Some j =>
          let '(r, s') :=
            match rewind nx with
            | Some e => (Err e, s)
            | None => PutBlob name (digest_of (j_blob j)) (j_blob j) (Z.of_nat (length (j_blob j))) s
            end in
          Some (match answer r with
                | inl e => PS (MWait (Some e)) nx ws ra ou eg ctx s' ds
                | inr _ => PS MLoop (Datatypes.S nx) ws ra ou eg ctx s' (<[nx := Some (j_desc j)]> ds)
                end)
      | None => None
      end
  | MWait e => if running ws =? 0 then Some (PS (MRet (settle ctx e eg)) nx ws ra ou eg ctx s ds) else None
  | MRet _ => None
  end.

Definition next (st : state (S := S)) : option state :=
  let '(PS m nx ws ra ou eg ctx s ds) := st in
  match list_find (fun w => active w = 1) ws with
  | Some (i, w) =>
      match jobs !! i with
      | Some j =>
          match w with
          | WReturn None => Some (PS m nx (<[i := WExit]> ws) ra ou eg ctx s (<[i := Some (j_desc j)]> ds))
          | WReturn (Some e) => Some (PS m nx (<[i := WExit]> ws) ra ou (Some (default e eg)) ctx s ds)
          | _ => '(w', ra', ou', s') ← worker_next j w ra ou s; Some (PS m nx (<[i := w']> ws) ra' ou' eg ctx s' ds)
          end
      | None => None
      end
  | None => main_next st
  end.

Fixpoint run (fuel : nat) (st : state) : state :=
  match fuel with
  | O => st
  | Datatypes.S f => match next st with Some st' => run f st' | None => st end
  end.

Abbreviation pool_step := (step name workers jobs gap read rewind).

Lemma worker_next_step j cn w ra ou s x : worker_next j w ra ou s = Some x -> worker_step name workers j cn (w, ra, ou, s) x.
Proof.
  pose proof (probe_answer name (j_blob j) cn s) as Hp. unfold worker_next. destruct w as [| | |z|z|[] r|r| |]; try discriminate.
  - destruct ou; [done|]. intros [= <-]. constructor.
  - destruct (Nat.ltb_spec ra (Datatypes.S workers)); [|done]. intros [= <-]. by constructor.
  - destruct (HasBlob _ _ s) as [r s']. cbn in Hp. intros [= <-]. destruct (answer r) as [e|[]]; by constructor.
  - destruct (PutBlob _ _ _ _ s) as [r s'] eqn:Ep. intros [= <-]. constructor. by apply upload_answer.
  - destruct (Nat.ltb_spec ou (Datatypes.S workers)); [|done]. intros [= <-]. by constructor.
  - destruct (Nat.ltb_spec ra (Datatypes.S workers)); [|done]. intros [= <-]. by constructor.
  - intros [= <-]. constructor.
Qed.

Lemma main_next_step st st' : main_next st = Some st' -> pool_step st st'.
Proof.
  destruct st as [m nx ws ra ou eg ctx s ds]. unfold main_next. destruct m as [| | | | | |e|r]; [..|done].
  - destruct (gap nx) eqn:Eg; [intros [= <-]; by apply step_gap|].
    destruct (Nat.eqb_spec nx (length jobs)) as [->|]; [intros [= <-]; apply step_end|].
    destruct (_ && _) eqn:E; [|done]. intros [= <-]. apply andb_true_iff in E as [?%Nat.ltb_lt ?%negb_true_iff]. by apply step_enter.
  - destruct ra; [done|]. intros [= <-]. apply step_take.
  - destruct (read nx) eqn:Er; [done|]. intros [= <-]. by apply step_read.
  - destruct (kind_at jobs nx) as [|zip first] eqn:Ek; [done|]. destruct (Nat.ltb_spec (running ws) workers); [|done].
    intros [= <-]. by eapply step_go.
  - destruct (jobs !! nx) as [j|] eqn:Ej; [|done].
    pose proof (probe_answer name (j_blob j) (cancelled eg ctx) s) as Hp. destruct (HasBlob _ _ s) as [r s']. cbn in Hp.
    intros [= <-]. destruct (answer r) as [e|[]]; [by eapply step_has_fail|by eapply step_has_yes|by eapply step_has_no].
  - destruct (jobs !! nx) as [j|] eqn:Ej; [|done].
    destruct (rewind nx) eqn:Erw; [intros [= <-]; by apply step_seek_fail|].
    destruct (PutBlob _ _ _ _ s) as [r s'] eqn:Ep.
    pose proof (upload_answer name (j_blob j) (cancelled eg ctx) s r s' Ep) as Hu.
    intros [= <-]. destruct (answer r) as [e|]; [by eapply step_put_fail|by eapply step_put].
  - destruct (Nat.eqb_spec (running ws) 0); [|done]. intros [= <-]. by apply step_wait.
Qed.

Lemma next_step st st' : next st = Some st' -> pool_step st st'.
Proof.
  destruct st as [m nx ws ra ou eg ctx s ds]. unfold next.
  destruct (list_find _ ws) as [[i w]|] eqn:El; [|apply main_next_step].
  apply list_find_Some in El as (Hw & Ha & _). destruct (jobs !! i) as [j|] eqn:Ej; [|done].
  assert (forall x, ('(w', ra', ou', s') ← worker_next j w ra ou s; Some (PS m nx (<[i := w']> ws) ra' ou' eg ctx s' ds)) = Some x ->
    pool_step (PS m nx ws ra ou eg ctx s ds) x) as Hstep.
  { intros x. destruct (worker_next j w ra ou s) as [[[[w' ra'] ou'] s']|] eqn:En; [|done]. intros [= <-].
    eapply step_worker; [done..|]. by apply worker_next_step. }
  destruct w as [| | |z|z|z r|[e|]| |]; try (by apply Hstep).
  - intros [= <-]. by apply step_return_err.
  - intros [= <-]. by apply step_return_ok.
Qed.

Lemma run_reachable fuel st : rtc pool_step st (run fuel st).
Proof.
  revert st. induction fuel as [|f IH]; intros st; cbn; [done|].
  destruct (next st) as [st'|] eqn:En; [|done]. eapply rtc_l; [by apply next_step|apply IH].
Qed.

End schedule.

(** ** Runs over the in-memory registry *)

Definition no_error (i : nat) : option error := None.

(** Three chunks, two of them alike, for two goroutines. *)
Definition demo_jobs : list job :=
  (fun x : bool * string =>
     {| j_kind := Chunk x.1 true; j_blob := bytes_of x.2; j_desc := blob_descriptor "t" "f" 0 1 (bytes_of x.2) |})
  <$> [(true, "one"); (false, "two"); (false, "two")].

Abbreviation demo_run := (run "r" 2 demo_jobs no_error no_error no_error).

Definition demo_state : state (S := MemRegistry) := demo_run 4 (start 2 demo_jobs mem_empty).

Lemma demo_repo : repo_ok (S := MemRegistry) "r".
Proof. exact I. Qed.

Lemma push_pool_live_witness :
  p_workers demo_state !! 0 = Some WTakeOut
  /\ 0 < p_out demo_state /\ (exists st', step "r" 2 demo_jobs no_error no_error no_error demo_state st' /\ p_ctx st' = None)
  /\ (forall m st', nsteps (step "r" 2 demo_jobs no_error no_error no_error) m (start 2 demo_jobs mem_empty) st' -> m <= 43).
Proof.
  assert (reachable "r" 2 demo_jobs no_error no_error no_error mem_empty demo_state) as Hr by apply run_reachable.
  destruct (push_pool_live (S := MemRegistry) "r" 2 demo_jobs no_error no_error no_error demo_repo mem_empty demo_state ltac:(lia) Hr)
    as (Hgo & Hout & _ & Hb).
  assert (p_workers demo_state !! 0 = Some WTakeOut) as Hw by (vm_compute; reflexivity).
  split_and!; [done|by apply (Hout 0)| |].
  - exact (Hgo ltac:(intros r; vm_compute; discriminate)).
  - intros m st' Hm. apply Hb in Hm. cbn in Hm. lia.
Defined.

Definition sample_uploaded : result uploadedEntries * MemRegistry :=
  readAndUploadEntries None sample_env sample_opts (ex_stream sample_export) mem_empty.

Definition sample_ue : uploadedEntries :=
  match sample_uploaded.1 with
  | Ok ue => ue
  | _ => {| ue_cfg := None; ue_files := ∅; ue_layers := []; ue_encoded := false |}
  end.

Abbreviation sample_jobs := (stream_jobs sample_opts 0 sample_entries).

Definition sample_end : state (S := MemRegistry) :=
  run "team/vm" 8 sample_jobs no_error no_error no_error 40 (start 8 sample_jobs mem_empty).

Lemma sample_uploaded_eq :
  readAndUploadEntries None sample_env sample_opts (ex_stream sample_export) mem_empty = (Ok sample_ue, sample_uploaded.2).
Proof.
  assert (is_ok sample_uploaded.1 = true) as Hok by (vm_compute; reflexivity).
  fold sample_uploaded. unfold sample_ue. destruct sample_uploaded as [[ue|e|p] s1]; [done|discriminate Hok..].
Qed.

Lemma concurrent_push_witness :
  p_main sample_end = MRet None
  /\ p_descs sample_end = Some <$> ue_layers sample_ue
  /\ Forall (stored "team/vm" (p_reg sample_end)) (stream_blobs sample_opts 0 sample_entries).
Proof.
  assert (p_main sample_end = MRet None) as Hm by (vm_compute; reflexivity).
  assert (reachable "team/vm" 8 sample_jobs no_error no_error no_error mem_empty sample_end) as Hr by apply run_reachable.
  destruct (concurrent_push sample_env sample_opts sample_names 8 0 (ex_stream sample_export) sample_entries sample_ue
              no_error no_error no_error mem_empty sample_uploaded.2 sample_end None eq_refl sample_good_stream sample_uploaded_eq Hr Hm)
    as (_ & _ & _ & _ & Hok).
  destruct (Hok eq_refl) as (Hd & Hs & _). split_and!; [exact Hm|exact Hd|exact Hs].
Defined.
