(* ===== verification/Oci.v ===== *)
(** * Oci: src/oci/oci.go and src/oci/registry.go

    [OCIRegistry], the registry client the snapshot package is given, over the
    third-party go-containerregistry module.  That module's operations are the
    class [Remote] (the model's parameters) and what the client relies on of
    them is the class [RemoteOk].  [oci_registry_ok] discharges the contract
    [RegistryOk] of the push and pull theorems from it. *)

From Stdlib Require Import ZArith Lia Ascii String.
From stdpp Require Import base gmap strings list.
From S2P Require Import Prelude GoStrings Sha256 GoIO OciUtil Registry.

Local Open Scope string_scope.

(** ** What a layer and a manifest offer to the module *)

(** An [io.ReadSeeker]: what it holds, where it stands, why it cannot seek. *)
Record ReadSeeker := { rs_data : bytes; rs_pos : nat; rs_Seek : option error }.

(** The methods of [v1.Layer] and [remote.Taggable], as their results. *)
Record v1_Layer (Hash : Type) := {
  l_Digest : result Hash;
  l_Size : result Z;
  l_Compressed : result bytes;
  l_MediaType : string;
  l_DiffID : result Hash;
  l_Uncompressed : result bytes
}.
Arguments l_Digest {Hash} _.
Arguments l_Size {Hash} _.
Arguments l_Compressed {Hash} _.

Record Taggable := { t_RawManifest : result bytes; t_MediaType : string }.

(** The fields of [http.Transport] the program sets; [t_other]: the others. *)
Record http_Transport (Other : Type) := {
  t_ForceAttemptHTTP2 : bool;
  t_NextProtos : list string;
  t_MinVersion : Z;
  t_MaxIdleConnsPerHost : Z;
  t_other : Other
}.
Arguments t_other {Other} _.

(** ** The third-party module

    [W] is the registry behind the network.  References and repositories are
    what the module parses names to; options configure a call. *)
Class Remote (W : Type) := {
  Reference : Type;
  Repository : Type;
  Hash : Type;
  ParseReference : string -> result Reference;
  NewDigest : string -> result Reference;
  NewRepository : string -> result Repository;
  NewHash : string -> result Hash;
  Hash_zero : Hash;
  (** documented accessors: a reference's repository and its tag or digest *)
  Repository_Name : Repository -> string;
  Reference_Context : Reference -> Repository;
  Identifier : Reference -> string;
  Hash_String : Hash -> string;

  Keychain : Type;
  Other : Type;
  Option : Type;
  ProxyFromEnvironment : Other;
  WithAuthFromKeychain : Keychain -> Option;
  WithTransport : http_Transport Other -> Option;
  WithContext : option error -> Option;
  Puller : Type;
  Pusher : Type;
  NewPuller : list Option -> result Puller;
  NewPusher : list Option -> result Pusher;
  ReusePuller : Puller -> Option;
  ReusePusher : Pusher -> Option;

  Layer : Type;
  OCILayer : string;
  remote_Get : list Option -> Reference -> W -> result (bytes * string);
  remote_Head : list Option -> Reference -> W -> result unit;
  remote_Layer : list Option -> Reference -> W -> result Layer;
  Layer_Size : Layer -> W -> result Z;
  Layer_Compressed : Layer -> W -> result reader;
  remote_WriteLayer : list Option -> Repository -> v1_Layer Hash -> M W unit;
  remote_Put : list Option -> Reference -> Taggable -> M W unit;
  remote_Delete : list Option -> Reference -> M W unit
}.

(** ** The client *)

(** [Registry] extends the two interfaces of the snapshot package. *)
Class Registry (S : Type) `{Uploader S, Downloader S} := {
  HasManifest : S -> string -> string -> result bool;
  DeleteManifest : string -> string -> M S unit
}.

Definition maxRegistryConnsPerHost : Z := 32.
Definition VersionTLS12 : Z := 771.
Definition StatusNotFound : Z := 404.

Definition errBlobUncompressed : error := Enew "cocoon blob layers expose only compressed bytes".

Definition isNotFound (err : error) : bool :=
  match errors_AsTransport err with
  | Some status => (status =? StatusNotFound)%Z
  | None => false
  end.

Definition ignoreNotFound (err : error) (action : string) : option error :=
  if isNotFound err then None else Some (Ewrap action err).

Section Client.
Context {W : Type} `{Remote W}.

Record OCIRegistry := {
  oci_base : string;
  oci_pull : list Option;
  oci_opts : list Option
}.

(** [DefaultTransport]: [None] when it is not an [*http.Transport]. *)
Definition bulkTransport (DefaultTransport : option (http_Transport Other)) : http_Transport Other :=
  let rest := match DefaultTransport with Some t => t_other t | None => ProxyFromEnvironment end in
  {| t_ForceAttemptHTTP2 := false; t_NextProtos := ["http/1.1"]; t_MinVersion := VersionTLS12;
     t_MaxIdleConnsPerHost := maxRegistryConnsPerHost; t_other := rest |}.

Definition NewOCIRegistry (DefaultTransport : option (http_Transport Other)) (base : string) (keychain : Keychain)
  : OCIRegistry :=
  let pull := [WithAuthFromKeychain keychain; WithTransport (bulkTransport DefaultTransport)] in
  let pull := match NewPuller pull with Ok puller => (pull ++ [ReusePuller puller])%list | _ => pull end in
  {| oci_base := base; oci_pull := pull; oci_opts := pull |}.

Definition withPusher (pull : list Option) : list Option :=
  match NewPusher pull with
  | Ok pusher => (pull ++ [ReusePusher pusher])%list
  | _ => pull
  end.

Definition OCIRegistry_UploadSession (r : OCIRegistry) : OCIRegistry :=
  {| oci_base := oci_base r; oci_pull := oci_pull r; oci_opts := withPusher (oci_pull r) |}.

Context (ctx : option error).

Definition callOpts (r : OCIRegistry) : list Option := (oci_opts r ++ [WithContext ctx])%list.

(** A digest contains a colon, a tag cannot. *)
Definition parseRef (r : OCIRegistry) (repo reference : string) : result Reference :=
  let sep := if containsByte reference ":" then "@" else ":" in
  wrap ("parse ref " +:+ repo +:+ sep +:+ reference)
    (ParseReference (oci_base r +:+ "/" +:+ repo +:+ sep +:+ reference)).

Definition OCIRegistry_GetManifest (r : OCIRegistry) (repo tag : string) (w : W) : result (bytes * string) :=
  ref ← parseRef r repo tag;
  match remote_Get (callOpts r) ref w with
  | Err err =>
      Err (Ewrap ("get manifest " +:+ repo +:+ ":" +:+ tag)
             (if isNotFound err then Esent ErrManifestNotFound else err))
  | desc => desc
  end.

Definition OCIRegistry_GetBlob (r : OCIRegistry) (repo digest : string) (w : W) : result reader :=
  ref ← wrap ("parse digest " +:+ repo +:+ "@" +:+ digest) (NewDigest (oci_base r +:+ "/" +:+ repo +:+ "@" +:+ digest));
  layer ← wrap ("get blob " +:+ repo +:+ "@" +:+ digest) (remote_Layer (callOpts r) ref w);
  Layer_Compressed layer w.

(** [layer.Size()] issues the HEAD request. *)
Definition OCIRegistry_HasBlob (r : OCIRegistry) (repo digest : string) (w : W) : result bool :=
  ref ← wrap ("parse digest " +:+ repo +:+ "@" +:+ digest) (NewDigest (oci_base r +:+ "/" +:+ repo +:+ "@" +:+ digest));
  match (layer ← remote_Layer (callOpts r) ref w; Layer_Size layer w) with
  | Ok _ => Ok true
  | Panic p => Panic p
  | Err err =>
      match ignoreNotFound err ("head blob " +:+ repo +:+ "@" +:+ digest) with
      | None => Ok false
      | Some e => Err e
      end
  end.

Definition OCIRegistry_HasManifest (r : OCIRegistry) (repo tag : string) (w : W) : result bool :=
  ref ← parseRef r repo tag;
  match remote_Head (callOpts r) ref w with
  | Ok _ => Ok true
  | Panic p => Panic p
  | Err err =>
      match ignoreNotFound err ("head manifest " +:+ repo +:+ ":" +:+ tag) with
      | None => Ok false
      | Some e => Err e
      end
  end.

(** ** Uploads *)

Record streamLayer := { sl_hash : Hash; sl_size : Z; sl_body : ReadSeeker }.

(** [Compressed] rewinds the body, wherever it stands. *)
Definition streamLayer_Compressed (l : streamLayer) : result bytes :=
  match rs_Seek (sl_body l) with
  | Some err => Err (Ewrap "rewind blob" err)
  | None => Ok (rs_data (sl_body l))
  end.

Definition streamLayer_Layer (l : streamLayer) : v1_Layer Hash :=
  {| l_Digest := Ok (sl_hash l); l_Size := Ok (sl_size l); l_Compressed := streamLayer_Compressed l;
     l_MediaType := OCILayer; l_DiffID := Err errBlobUncompressed; l_Uncompressed := Err errBlobUncompressed |}.

Record rawManifest := { rm_data : bytes; rm_mediaType : string }.

Definition rawManifest_Taggable (m : rawManifest) : Taggable :=
  {| t_RawManifest := Ok (rm_data m); t_MediaType := rm_mediaType m |}.

Definition OCIRegistry_PutBlob (r : OCIRegistry) (repo digest : string) (body : ReadSeeker) (size : Z) : M W unit :=
  repoRef ← lift (wrap ("parse repo " +:+ repo) (NewRepository (oci_base r +:+ "/" +:+ repo)));
  hash ← lift (wrap ("parse digest " +:+ digest) (NewHash digest));
  wrapM ("put blob " +:+ repo +:+ "@" +:+ digest)
    (remote_WriteLayer (callOpts r) repoRef (streamLayer_Layer {| sl_hash := hash; sl_size := size; sl_body := body |})).

Definition OCIRegistry_PutManifest (r : OCIRegistry) (repo tag : string) (data : bytes) (contentType : string) : M W unit :=
  ref ← lift (parseRef r repo tag);
  wrapM ("put manifest " +:+ repo +:+ ":" +:+ tag)
    (remote_Put (callOpts r) ref (rawManifest_Taggable {| rm_data := data; rm_mediaType := contentType |})).

(** [if err := ...; err != nil { return ignoreNotFound(err, action) }] *)
Definition ignoring (action : string) (call : M W unit) : M W unit := fun w =>
  match call w with
  | (Err err, w') => (match ignoreNotFound err action with None => Ok () | Some e => Err e end, w')
  | done => done
  end.

(** A missing manifest counts as removed. *)
Definition OCIRegistry_DeleteManifest (r : OCIRegistry) (repo reference : string) : M W unit :=
  ref ← lift (parseRef r repo reference);
  ignoring ("delete manifest " +:+ repo +:+ ":" +:+ reference) (remote_Delete (callOpts r) ref).

End Client.

Arguments OCIRegistry W {_}.

(** ** What the module promises

    [rblobs] and [rtags] are what the registry holds, by repository name and
    digest or tag.  The names of references are those they were parsed from; a
    404 means that the registry does not have what was asked for; what it has
    can be read back; a write or a deletion that succeeds does just that, and
    one that fails may or may not have happened. *)

Definition ref_key {W} `{Remote W} (ref : Reference) : string * string :=
  (Repository_Name (Reference_Context ref), Identifier ref).

(** The registry answered with status 404. *)
Definition answered_404 (err : error) : Prop := errors_AsTransport err = Some 404%Z.

Lemma isNotFound_404 err : isNotFound err = true <-> answered_404 err.
Proof.
  unfold isNotFound, answered_404, StatusNotFound. destruct (errors_AsTransport err) as [status|]; [|done].
  rewrite Z.eqb_eq. split; [by intros ->|by intros [= ->]].
Qed.

Definition plain_tag (t : string) : Prop := t <> "" /\ containsByte t ":" = false.

Definition changed {A} (m m' after : A) : Prop := m' = m \/ m' = after.

Class RemoteOk (W : Type) `{Remote W} := {
  rblobs : W -> blob_store;
  rtags : W -> manifest_store;
  (** calls whose context is not cancelled: the last context given counts *)
  live : list Option -> Prop;
  live_context opts : live (opts ++ [WithContext None])%list;

  digest_key n d R ref :
    NewRepository n = Ok R -> NewDigest (n +:+ "@" +:+ d) = Ok ref -> ref_key ref = (Repository_Name R, d);
  digest_parses n data R :
    NewRepository n = Ok R -> exists ref, NewDigest (n +:+ "@" +:+ digest_of data) = Ok ref;
  tag_key n t R ref :
    NewRepository n = Ok R -> plain_tag t -> ParseReference (n +:+ ":" +:+ t) = Ok ref ->
    ref_key ref = (Repository_Name R, t);
  hash_string d h : NewHash d = Ok h -> Hash_String h = d;

  head_blob_ok opts ref l n w :
    remote_Layer opts ref w = Ok l -> Layer_Size l w = Ok n -> is_Some (rblobs w !! ref_key ref);
  head_blob_404 opts ref e w :
    (l ← remote_Layer opts ref w; Layer_Size l w) = Err e -> answered_404 e -> rblobs w !! ref_key ref = None;
  head_tag_ok opts ref w :
    plain_tag (Identifier ref) -> remote_Head opts ref w = Ok () -> is_Some (rtags w !! ref_key ref);
  head_tag_404 opts ref e w :
    plain_tag (Identifier ref) -> remote_Head opts ref w = Err e -> answered_404 e -> rtags w !! ref_key ref = None;
  get_blob opts ref b w :
    live opts -> rblobs w !! ref_key ref = Some b ->
    exists l r, remote_Layer opts ref w = Ok l /\ Layer_Compressed l w = Ok r /\ good_body r b;
  get_tag opts ref x w : live opts -> rtags w !! ref_key ref = Some x -> remote_Get opts ref w = Ok x;
  get_tag_404 opts ref e w :
    plain_tag (Identifier ref) -> remote_Get opts ref w = Err e -> answered_404 e -> rtags w !! ref_key ref = None;
  get_foreign opts ref e w : remote_Get opts ref w = Err e -> errors_Is e ErrManifestNotFound = false;
  stored_tag_parses n t R x w :
    NewRepository n = Ok R -> plain_tag t -> rtags w !! (Repository_Name R, t) = Some x ->
    exists ref, ParseReference (n +:+ ":" +:+ t) = Ok ref;

  write_tags opts R l w : rtags (remote_WriteLayer opts R l w).2 = rtags w;
  write_changes opts R l h data w :
    l_Digest l = Ok h -> Hash_String h = digest_of data -> l_Compressed l = Ok data ->
    changed (rblobs w) (rblobs (remote_WriteLayer opts R l w).2) (<[(Repository_Name R, digest_of data) := data]> (rblobs w));
  write_ok opts R l h data w :
    l_Digest l = Ok h -> Hash_String h = digest_of data -> l_Compressed l = Ok data ->
    l_Size l = Ok (Z.of_nat (length data)) -> (remote_WriteLayer opts R l w).1 = Ok () ->
    rblobs (remote_WriteLayer opts R l w).2 = <[(Repository_Name R, digest_of data) := data]> (rblobs w);
  put_blobs opts ref m w : rblobs (remote_Put opts ref m w).2 = rblobs w;
  put_changes opts ref data mt w :
    plain_tag (Identifier ref) ->
    changed (rtags w) (rtags (remote_Put opts ref {| t_RawManifest := Ok data; t_MediaType := mt |} w).2)
      (<[ref_key ref := (data, mt)]> (rtags w));
  put_ok opts ref data mt w :
    plain_tag (Identifier ref) ->
    (remote_Put opts ref {| t_RawManifest := Ok data; t_MediaType := mt |} w).1 = Ok () ->
    rtags (remote_Put opts ref {| t_RawManifest := Ok data; t_MediaType := mt |} w).2 = <[ref_key ref := (data, mt)]> (rtags w);
  delete_ok opts ref w :
    plain_tag (Identifier ref) -> (remote_Delete opts ref w).1 = Ok () ->
    rtags (remote_Delete opts ref w).2 = delete (ref_key ref) (rtags w);
  delete_changes opts ref w :
    plain_tag (Identifier ref) ->
    changed (rtags w) (rtags (remote_Delete opts ref w).2) (delete (ref_key ref) (rtags w));
  delete_404 opts ref e w :
    plain_tag (Identifier ref) -> (remote_Delete opts ref w).1 = Err e -> answered_404 e ->
    rtags (remote_Delete opts ref w).2 !! ref_key ref = None
}.

(** ** One base's view of a registry

    The entries of [m] whose repository is below [base]. *)
Section View.
Context {A : Type} (base : string).

Definition view (m : gmap (string * string) A) : gmap (string * string) A :=
  map_fold (fun k x acc =>
    match cutPrefix k.1 (base +:+ "/") with
    | Some repo => <[(repo, k.2) := x]> acc
    | None => acc
    end) ∅ m.

Lemma below_inj (r r' : string) : base +:+ "/" +:+ r = base +:+ "/" +:+ r' -> r = r'.
Proof. intros H. apply (inj (String.append base)) in H. by injection H. Qed.

Lemma view_lookup m repo d : view m !! (repo, d) = m !! (base +:+ "/" +:+ repo, d).
Proof.
  unfold view. induction m as [|[n d'] x m Hn Hfresh IH] using map_first_key_ind; [by rewrite map_fold_empty|].
  rewrite map_fold_insert_first_key by done. cbn [fst snd].
  destruct (cutPrefix n (base +:+ "/")) as [r|] eqn:Ec.
  - apply cutPrefix_Some in Ec as ->. rewrite <- sapp_assoc.
    destruct (decide ((r, d') = (repo, d))) as [[= -> ->]|Hne]; [by rewrite !lookup_insert_eq|].
    rewrite !lookup_insert_ne; [done| |done]. intros E. injection E as E ->. apply Hne. by rewrite (below_inj _ _ E).
  - rewrite lookup_insert_ne; [done|]. intros E. apply (f_equal fst) in E. cbn [fst] in E. subst n. by rewrite sapp_assoc, cutPrefix_app in Ec.
Qed.

Lemma view_insert m repo d x : view (<[(base +:+ "/" +:+ repo, d) := x]> m) = <[(repo, d) := x]> (view m).
Proof.
  apply map_eq. intros [r d']. rewrite view_lookup.
  destruct (decide ((r, d') = (repo, d))) as [[= -> ->]|Hne]; [by rewrite !lookup_insert_eq|].
  rewrite !lookup_insert_ne; [by rewrite view_lookup|done|]. intros E. injection E as E ->. apply Hne. by rewrite (below_inj _ _ E).
Qed.

End View.

(** ** The contract of the snapshot package

    A client of [base] with a live context: the options of its calls and the
    registry behind it. *)

Record client (W : Type) `{Remote W} (base : string) (pull : list Option) := { c_opts : list Option; c_remote : W }.
Arguments c_opts {W _ base pull} _.
Arguments c_remote {W _ base pull} _.

Section Instances.
Context {W : Type} `{RemoteOk W} (base : string) (pull : list Option).

Abbreviation oci := (client W base pull).

(** Repositories under [base] are called what they are named: true of every
    base that starts with a registry host, but for Docker Hub's aliases. *)
Class BaseNamed : Prop := base_named :
  forall repo R, NewRepository (base +:+ "/" +:+ repo) = Ok R -> Repository_Name R = base +:+ "/" +:+ repo.

Definition reg (c : oci) : OCIRegistry W := {| oci_base := base; oci_pull := pull; oci_opts := c_opts c |}.

Definition on_client {A} (call : OCIRegistry W -> M W A) : M oci A := fun c =>
  let '(a, w') := call (reg c) (c_remote c) in (a, {| c_opts := c_opts c; c_remote := w' |}).

#[global] Instance oci_uploader : Uploader oci := {
  HasBlob repo d c := (OCIRegistry_HasBlob None (reg c) repo d (c_remote c), c);
  PutBlob repo d data n :=
    on_client (fun r => OCIRegistry_PutBlob None r repo d {| rs_data := data; rs_pos := 0; rs_Seek := None |} n);
  PutManifest repo t data ct := on_client (fun r => OCIRegistry_PutManifest None r repo t data ct);
  UploadSession c := {| c_opts := oci_opts (OCIRegistry_UploadSession (reg c)); c_remote := c_remote c |}
}.

#[global] Instance oci_downloader : Downloader oci := {
  GetManifest c repo t := OCIRegistry_GetManifest None (reg c) repo t (c_remote c);
  GetBlob c repo d := OCIRegistry_GetBlob None (reg c) repo d (c_remote c)
}.

(** src/oci/registry.go: [Registry], the backend shared by nodes and operator. *)
#[global] Instance oci_registry : Registry oci := {
  HasManifest c repo t := OCIRegistry_HasManifest None (reg c) repo t (c_remote c);
  DeleteManifest repo t := on_client (fun r => OCIRegistry_DeleteManifest None r repo t)
}.

#[global] Instance oci_names : RefNames oci := {
  repo_ok repo := is_ok (NewRepository (base +:+ "/" +:+ repo)) = true;
  tag_ok := plain_tag
}.

Lemma repo_ok_inv repo : repo_ok repo -> exists R, NewRepository (base +:+ "/" +:+ repo) = Ok R.
Proof. cbn. destruct (NewRepository _); cbn; [eauto|discriminate..]. Qed.

Context `{!BaseNamed}.

(** Where a digest or a tag of a repository under [base] is kept. *)
Lemma digest_key_base repo d R ref :
  NewRepository (base +:+ "/" +:+ repo) = Ok R ->
  NewDigest (base +:+ "/" +:+ repo +:+ "@" +:+ d) = Ok ref -> ref_key ref = (base +:+ "/" +:+ repo, d).
Proof.
  intros HR Hd. rewrite <- (base_named _ _ HR). apply (digest_key (base +:+ "/" +:+ repo)); [done|].
  by rewrite <- !sapp_assoc.
Qed.

Lemma parseRef_tag ctx_opts repo t R :
  NewRepository (base +:+ "/" +:+ repo) = Ok R -> plain_tag t ->
  let r := {| oci_base := base; oci_pull := pull; oci_opts := ctx_opts |} in
  match parseRef r repo t with
  | Ok ref => ref_key ref = (base +:+ "/" +:+ repo, t)
  | _ => forall x w, rtags w !! (base +:+ "/" +:+ repo, t) <> Some x
  end.
Proof.
  intros HR Ht r. unfold parseRef. destruct Ht as [Hne Hc]. rewrite Hc. cbn [oci_base r].
  assert (base +:+ "/" +:+ repo +:+ ":" +:+ t = (base +:+ "/" +:+ repo) +:+ ":" +:+ t) as -> by by rewrite <- !sapp_assoc.
  destruct (ParseReference _) as [ref|e|p] eqn:Ep; cbn [wrap].
  1: { rewrite <- (base_named _ _ HR). by apply (tag_key (base +:+ "/" +:+ repo)). }
  all: intros x w Hx; rewrite <- (base_named _ _ HR) in Hx;
    destruct (stored_tag_parses _ _ _ _ _ HR (conj Hne Hc) Hx) as [ref Href]; congruence.
Qed.

(** *** The operations, in terms of the two stores *)

Lemma has_blob_spec (c : oci) repo d :
  repo_ok repo ->
  match OCIRegistry_HasBlob None (reg c) repo d (c_remote c) with
  | Ok b => b = true <-> is_Some (rblobs (c_remote c) !! (base +:+ "/" +:+ repo, d))
  | _ => True
  end.
Proof.
  intros [R HR]%repo_ok_inv. unfold OCIRegistry_HasBlob. cbn [oci_base reg].
  destruct (NewDigest _) as [ref|e|p] eqn:Ed; cbn [wrap mbind result_bind]; [|done..].
  rewrite <- (digest_key_base _ _ _ _ HR Ed). set (o := callOpts _ _).
  destruct (layer ← remote_Layer o ref (c_remote c); Layer_Size layer (c_remote c)) as [n|e|p] eqn:El; [| |done].
  - apply bind_Ok in El as (l & Hl & Hn). pose proof (head_blob_ok _ _ _ _ _ Hl Hn). naive_solver.
  - unfold ignoreNotFound. destruct (isNotFound e) eqn:En; [|done].
    rewrite (head_blob_404 _ _ _ _ El (proj1 (isNotFound_404 e) En)). split; [done|intros [? [=]]].
Qed.

Lemma put_blob_spec (c : oci) repo data n :
  repo_ok repo ->
  let '(r, c') := PutBlob repo (digest_of data) data n c in
  let after := <[(base +:+ "/" +:+ repo, digest_of data) := data]> (rblobs (c_remote c)) in
  changed (rblobs (c_remote c)) (rblobs (c_remote c')) after
  /\ (r = Ok () -> n = Z.of_nat (length data) -> rblobs (c_remote c') = after).
Proof.
  intros [R HR]%repo_ok_inv. cbn [PutBlob oci_uploader]. unfold on_client, OCIRegistry_PutBlob. cbn [oci_base reg].
  rewrite HR. rewrite <- (base_named _ _ HR). unfold wrapM, mbind, M_bind, lift. cbn [wrap].
  destruct (NewHash (digest_of data)) as [h|e|p] eqn:Eh; cbn [wrap]; [|by split; [left|]..].
  apply hash_string in Eh. set (l := streamLayer_Layer _). set (o := callOpts _ _).
  pose proof (write_changes o R l h data (c_remote c) eq_refl Eh eq_refl) as Hc.
  pose proof (write_ok o R l h data (c_remote c) eq_refl Eh eq_refl) as Hok.
  destruct (remote_WriteLayer o R l (c_remote c)) as [[[]|e|p] w']; cbn [fst snd wrap] in *; (split; [done|]); [|done..].
  intros _ ->. by apply Hok.
Qed.

Lemma put_manifest_spec (c : oci) repo t data ct :
  repo_ok repo -> tag_ok t ->
  let '(r, c') := PutManifest repo t data ct c in
  let after := <[(base +:+ "/" +:+ repo, t) := (data, ct)]> (rtags (c_remote c)) in
  changed (rtags (c_remote c)) (rtags (c_remote c')) after
  /\ (r = Ok () -> rtags (c_remote c') = after).
Proof.
  intros [R HR]%repo_ok_inv Ht. cbn [PutManifest oci_uploader]. unfold on_client, OCIRegistry_PutManifest.
  pose proof (parseRef_tag (c_opts c) repo t R HR Ht) as Hk. cbn zeta in Hk. fold (reg c) in Hk.
  set (k := (base +:+ "/" +:+ repo, t)) in *.
  unfold wrapM, mbind, M_bind, lift.
  destruct (parseRef (reg c) repo t) as [ref|e|p]; [|by split; [left|]..].
  rewrite <- Hk. assert (plain_tag (Identifier ref)) as Hid by (by injection Hk as _ ->).
  set (o := callOpts _ _).
  pose proof (put_changes o ref data ct (c_remote c) Hid) as Hc.
  pose proof (put_ok o ref data ct (c_remote c) Hid) as Hok.
  unfold rawManifest_Taggable. cbn [rm_data rm_mediaType].
  destruct (remote_Put o ref _ (c_remote c)) as [[[]|e|p] w']; cbn [fst snd wrap] in *; (split; [done|]); [|done..]. done.
Qed.

(** Probing, reading and deleting by tag. *)
Lemma has_manifest_spec (c : oci) repo t :
  repo_ok repo -> tag_ok t ->
  match OCIRegistry_HasManifest None (reg c) repo t (c_remote c) with
  | Ok b => b = true <-> is_Some (rtags (c_remote c) !! (base +:+ "/" +:+ repo, t))
  | _ => True
  end.
Proof.
  intros [R HR]%repo_ok_inv Ht. unfold OCIRegistry_HasManifest.
  pose proof (parseRef_tag (c_opts c) repo t R HR Ht) as Hk. cbn zeta in Hk. fold (reg c) in Hk.
  set (k := (base +:+ "/" +:+ repo, t)) in *.
  destruct (parseRef (reg c) repo t) as [ref|e|p]; cbn [mbind result_bind]; [|done..].
  assert (plain_tag (Identifier ref)) as Hid by (by injection Hk as _ ->). rewrite <- Hk. set (o := callOpts _ _).
  destruct (remote_Head o ref (c_remote c)) as [[]|e|p] eqn:Eh; [| |done].
  - pose proof (head_tag_ok _ _ _ Hid Eh). naive_solver.
  - unfold ignoreNotFound. destruct (isNotFound e) eqn:En; [|done].
    rewrite (head_tag_404 _ _ _ _ Hid Eh (proj1 (isNotFound_404 e) En)). split; [done|intros [? [=]]].
Qed.

Lemma delete_manifest_spec (c : oci) repo t :
  repo_ok repo -> tag_ok t ->
  let '(r, w') := OCIRegistry_DeleteManifest None (reg c) repo t (c_remote c) in
  let key := (base +:+ "/" +:+ repo, t) in
  changed (rtags (c_remote c)) (rtags w') (delete key (rtags (c_remote c)))
  /\ (r = Ok () -> rtags w' = delete key (rtags (c_remote c))).
Proof.
  intros [R HR]%repo_ok_inv Ht. unfold OCIRegistry_DeleteManifest.
  pose proof (parseRef_tag (c_opts c) repo t R HR Ht) as Hk. cbn zeta in Hk. fold (reg c) in Hk.
  set (k := (base +:+ "/" +:+ repo, t)) in *. unfold mbind, M_bind, lift.
  destruct (parseRef (reg c) repo t) as [ref|e|p]; cbn [wrap]; [|by split; [left|]..].
  rewrite <- Hk. assert (plain_tag (Identifier ref)) as Hid by (by injection Hk as _ ->).
  unfold ignoring. set (o := callOpts _ _).
  pose proof (delete_ok o ref (c_remote c) Hid) as Hok. pose proof (delete_changes o ref (c_remote c) Hid) as Hf.
  pose proof (fun e => delete_404 o ref e (c_remote c) Hid) as Hm.
  destruct (remote_Delete o ref (c_remote c)) as [[[]|e|p] w']; cbn [fst snd] in *.
  - split; [right|intros _]; by apply Hok.
  - split; [done|]. unfold ignoreNotFound. destruct (isNotFound e) eqn:En; [|done].
    intros _. destruct Hf as [E|E]; [|done]. rewrite E. symmetry. apply delete_id. rewrite <- E. by apply (Hm e), isNotFound_404.
  - done.
Qed.

#[global, refine] Instance oci_registry_ok : RegistryOk oci := {
  blobs c := view base (rblobs (c_remote c));
  manifests c := view base (rtags (c_remote c))
}.
Proof.
  - done.
  - intros repo d c b Hr Hb. rewrite view_lookup. pose proof (has_blob_spec c repo d Hr) as Hs.
    cbn [HasBlob oci_uploader fst] in Hb. by rewrite Hb in Hs.
  - intros repo d data n c. cbn [PutBlob oci_uploader]. unfold on_client, OCIRegistry_PutBlob.
    unfold wrapM, mbind, M_bind, lift.
    destruct (NewRepository _) as [R| |]; cbn [wrap]; [|done..]. destruct (NewHash d) as [h| |]; cbn [wrap]; [|done..].
    set (o := callOpts _ _). set (l := streamLayer_Layer _).
    pose proof (write_tags o R l (c_remote c)) as Hw. destruct (remote_WriteLayer o R l (c_remote c)). cbn in *. by rewrite Hw.
  - intros repo data n c Hr Hok Hn. pose proof (put_blob_spec c repo data n Hr) as Hs.
    destruct (PutBlob _ _ _ _ c) as [r c']. cbn [fst snd] in *. destruct Hs as [_ Hs]. by rewrite (Hs Hok Hn), view_insert.
  - intros repo data n c Hr. pose proof (put_blob_spec c repo data n Hr) as Hs.
    destruct (PutBlob _ _ _ _ c) as [r c']. cbn [fst snd] in *. destruct Hs as [[-> | ->] _]; [by left|right]. apply view_insert.
  - done.
  - intros repo t data ct c Hr Ht. pose proof (put_manifest_spec c repo t data ct Hr Ht) as Hs.
    destruct (PutManifest _ _ _ _ c) as [r c']. cbn [fst snd] in *. destruct Hs as [[-> | ->] _]; [by left|right]. apply view_insert.
  - intros repo t data ct c. cbn [PutManifest oci_uploader]. unfold on_client, OCIRegistry_PutManifest.
    unfold wrapM, mbind, M_bind, lift. destruct (parseRef _ _ _) as [ref| |]; [|done..]. set (o := callOpts _ _). set (m := rawManifest_Taggable _).
    pose proof (put_blobs o ref m (c_remote c)) as Hw. destruct (remote_Put o ref m (c_remote c)). cbn in *. by rewrite Hw.
  - intros repo t data ct c Hr Ht Hok. pose proof (put_manifest_spec c repo t data ct Hr Ht) as Hs.
    destruct (PutManifest _ _ _ _ c) as [r c']. cbn [fst snd] in *. destruct Hs as [_ Hs]. by rewrite (Hs Hok), view_insert.
  - intros repo data c b Hr Hb. rewrite view_lookup in Hb. apply repo_ok_inv in Hr as [R HR].
    destruct (digest_parses _ data R HR) as [ref Hd]. rewrite <- !sapp_assoc in Hd.
    rewrite <- (digest_key_base _ _ _ _ HR Hd) in Hb.
    destruct (get_blob (callOpts None (reg c)) ref b (c_remote c) (live_context _) Hb) as (l & r & Hl & Hc & Hg). exists r. split; [|done].
    cbn [GetBlob oci_downloader]. unfold OCIRegistry_GetBlob. cbn [oci_base reg]. rewrite Hd. cbn [wrap mbind result_bind].
    by rewrite Hl.
  - intros repo t c data ct Hr Ht Hx. rewrite view_lookup in Hx. apply repo_ok_inv in Hr as [R HR].
    cbn [GetManifest oci_downloader]. unfold OCIRegistry_GetManifest.
    pose proof (parseRef_tag (c_opts c) repo t R HR Ht) as Hk. cbn zeta in Hk. fold (reg c) in Hk.
    destruct (parseRef (reg c) repo t) as [ref|e|p]; [|by destruct (Hk _ _ Hx)..].
    rewrite <- Hk in Hx. cbn [mbind result_bind]. by rewrite (get_tag (callOpts None (reg c)) _ _ _ (live_context _) Hx).
Defined.

(** ** Probes, reads and deletions by tag *)

(** C26: what the client says of a tag agrees with the registry, and absence
    is reported for a 404 only: any other failure of the registry is an error.
    The probe answers whether the tag is there, and says no exactly when the
    registry answers with a 404; the read returns what is there, and reports
    [ErrManifestNotFound] exactly for a 404, hence only when nothing is there;
    a deletion succeeds exactly when the registry deletes the tag or answers
    with a 404, and then that tag is gone and no other, so that deleting twice
    is deleting once. *)
Theorem OCIRegistry_tags (c : oci) repo t ref :
  repo_ok repo -> tag_ok t -> parseRef (reg c) repo t = Ok ref ->
  let key := (base +:+ "/" +:+ repo, t) in
  let has := OCIRegistry_HasManifest None (reg c) repo t (c_remote c) in
  let get := OCIRegistry_GetManifest None (reg c) repo t (c_remote c) in
  let del := OCIRegistry_DeleteManifest None (reg c) repo t (c_remote c) in
  let opts := callOpts None (reg c) in
  (forall b, has = Ok b -> (b = true <-> is_Some (rtags (c_remote c) !! key)))
  /\ (has = Ok false <-> exists e, remote_Head opts ref (c_remote c) = Err e /\ answered_404 e)
  /\ (forall x, rtags (c_remote c) !! key = Some x -> get = Ok x)
  /\ ((exists e, get = Err e /\ errors_Is e ErrManifestNotFound = true)
      <-> exists e, remote_Get opts ref (c_remote c) = Err e /\ answered_404 e)
  /\ ((exists e, get = Err e /\ errors_Is e ErrManifestNotFound = true) -> rtags (c_remote c) !! key = None)
  /\ (del.1 = Ok () -> rtags del.2 = delete key (rtags (c_remote c)))
  /\ (del.1 = Ok () <->
       (remote_Delete opts ref (c_remote c)).1 = Ok ()
       \/ exists e, (remote_Delete opts ref (c_remote c)).1 = Err e /\ answered_404 e).
Proof.
  intros Hr Ht Hp key has get del opts.
  pose proof (has_manifest_spec c repo t Hr Ht) as Hh. pose proof (delete_manifest_spec c repo t Hr Ht) as Hd.
  destruct (repo_ok_inv _ Hr) as [R HR]. pose proof (parseRef_tag (c_opts c) repo t R HR Ht) as Hk.
  cbn zeta in Hk. fold (reg c) in Hk. rewrite Hp in Hk. fold key in Hk.
  assert (plain_tag (Identifier ref)) as Hid by (by injection Hk as _ ->).
  assert ((exists e, get = Err e /\ errors_Is e ErrManifestNotFound = true)
      <-> exists e, remote_Get opts ref (c_remote c) = Err e /\ answered_404 e) as Hget.
  { subst get. unfold OCIRegistry_GetManifest. rewrite Hp. cbn [mbind result_bind]. fold opts.
    destruct (remote_Get opts ref (c_remote c)) as [x|e|p] eqn:Eg; [by split; intros (? & [=] & _)| |by split; intros (? & [=] & _)].
    pose proof (get_foreign _ _ _ _ Eg) as Hf. setoid_rewrite <- isNotFound_404.
    split; [intros (e' & [= <-] & He)|intros (e' & [= <-] & ->); eauto].
    exists e. split; [done|]. destruct (isNotFound e); [done|]. cbn in He. congruence. }
  split_and!; [| | |exact Hget|rewrite Hget| |].
  - intros b Hb. unfold has in Hb. by rewrite Hb in Hh.
  - subst has. unfold OCIRegistry_HasManifest. rewrite Hp. cbn [mbind result_bind]. fold opts. setoid_rewrite <- isNotFound_404.
    destruct (remote_Head opts ref (c_remote c)) as [[]|e|p]; [by split; [|intros (? & [=] & _)]| |by split; [|intros (? & [=] & _)]].
    unfold ignoreNotFound. destruct (isNotFound e) eqn:En; split; [eauto|done|done|]. intros (e' & [= <-] & He). congruence.
  - intros x Hx. subst get. unfold OCIRegistry_GetManifest. rewrite Hp. cbn [mbind result_bind]. fold opts.
    rewrite <- Hk in Hx. by rewrite (get_tag opts ref x _ (live_context _) Hx).
  - intros (e & He & Hn). rewrite <- Hk. by apply (get_tag_404 _ _ _ _ Hid He).
  - intros Hw. subst del. destruct (OCIRegistry_DeleteManifest None (reg c) repo t (c_remote c)) as [r w']. by apply Hd.
  - subst del. unfold OCIRegistry_DeleteManifest. rewrite Hp. unfold mbind, M_bind, lift, ignoring. fold opts. setoid_rewrite <- isNotFound_404.
    destruct (remote_Delete opts ref (c_remote c)) as [[[]|e|p] w']; cbn [fst].
    + split; [by left|done].
    + unfold ignoreNotFound. destruct (isNotFound e) eqn:En; split; [by eauto|done|done|].
      intros [?|(e' & [= <-] & He)]; congruence.
    + split; [done|]. by intros [?|(? & ? & _)].
Qed.

End Instances.

(** ** A registry in memory

    An instance of the module's contract: names are [repo], [repo:tag] and
    [repo@digest], and what is not there is answered with a 404. *)
Module InMemory.

Record world := { w_blobs : blob_store; w_tags : manifest_store }.

Definition valid_repo (n : string) : bool := negb (containsByte n ":") && negb (containsByte n "@").

Definition bad_name {A} : result A := Err (Enew "could not parse reference").

Definition parse_digest (s : string) : result (string * string) :=
  match cut s "@" with
  | Some (n, d) => if valid_repo n && containsByte d ":" then Ok (n, d) else bad_name
  | None => bad_name
  end.

Definition parse_reference (s : string) : result (string * string) :=
  match cut s ":" with
  | Some (n, t) =>
      if valid_repo n && negb (String.eqb t "") && negb (containsByte t ":") then Ok (n, t) else parse_digest s
  | None => bad_name
  end.

Inductive call_option := Auth | Transport | Context (ctx : option error) | Reuse.

Definition cancelled (opts : list call_option) : bool :=
  foldl (fun acc o => match o with Context ctx => bool_decide (is_Some ctx) | _ => acc end) false opts.

(** A call of a live context. *)
Definition calling {A} (opts : list call_option) (r : result A) : result A :=
  if cancelled opts then Err (Esent CtxCanceled) else r.

Definition answer {A} (x : option A) : result A :=
  match x with Some a => Ok a | None => Err (Etransport StatusNotFound) end.

Definition write_layer (opts : list call_option) (R : string) (l : v1_Layer string) : M world unit := fun w =>
  match calling opts (h ← l_Digest l; data ← l_Compressed l; n ← l_Size l; Ok (h, data, n)) with
  | Ok (h, data, n) =>
      if String.eqb h (digest_of data) && (n =? Z.of_nat (length data))%Z then
        (Ok (), {| w_blobs := <[(R, h) := data]> (w_blobs w); w_tags := w_tags w |})
      else (Err (Etransport 400), w)
  | Err e => (Err e, w)
  | Panic p => (Panic p, w)
  end.

Definition put (opts : list call_option) (ref : string * string) (m : Taggable) : M world unit := fun w =>
  match calling opts (t_RawManifest m) with
  | Ok data => (Ok (), {| w_blobs := w_blobs w; w_tags := <[ref := (data, t_MediaType m)]> (w_tags w) |})
  | Err e => (Err e, w)
  | Panic p => (Panic p, w)
  end.

Definition remove (opts : list call_option) (ref : string * string) : M world unit := fun w =>
  match calling opts (answer (w_tags w !! ref)) with
  | Ok _ => (Ok (), {| w_blobs := w_blobs w; w_tags := delete ref (w_tags w) |})
  | Err e => (Err e, w)
  | Panic p => (Panic p, w)
  end.

#[global] Instance remote : Remote world := {
  Reference := string * string; Repository := string; Hash := string;
  ParseReference := parse_reference; NewDigest := parse_digest;
  NewRepository n := if valid_repo n then Ok n else bad_name;
  NewHash d := if containsByte d ":" then Ok d else bad_name;
  Hash_zero := ""; Repository_Name n := n; Reference_Context := fst; Identifier := snd; Hash_String d := d;
  Keychain := unit; Other := unit; Option := call_option; ProxyFromEnvironment := ();
  WithAuthFromKeychain _ := Auth; WithTransport _ := Transport; WithContext := Context;
  Puller := unit; Pusher := unit; NewPuller _ := Ok (); NewPusher _ := Ok (); ReusePuller _ := Reuse; ReusePusher _ := Reuse;
  Layer := string * string; OCILayer := "application/vnd.oci.image.layer.v1.tar+gzip";
  remote_Get opts ref w := calling opts (answer (w_tags w !! ref));
  remote_Head opts ref w := calling opts ((fun _ => ()) <$> answer (w_tags w !! ref));
  remote_Layer opts ref w := calling opts (Ok ref);
  Layer_Size l w := (fun b => Z.of_nat (length b)) <$> answer (w_blobs w !! l);
  Layer_Compressed l w := (fun b => body_script (length b) b) <$> answer (w_blobs w !! l);
  remote_WriteLayer := write_layer; remote_Put := put; remote_Delete := remove
}.

Lemma calling_live {A} opts (r : result A) : cancelled opts = false -> calling opts r = r.
Proof. unfold calling. by intros ->. Qed.

Lemma calling_Ok {A} opts (r : result A) a : calling opts r = Ok a -> r = Ok a.
Proof. unfold calling. by destruct (cancelled opts). Qed.

Lemma calling_404 {A} opts (r : result A) e : calling opts r = Err e -> answered_404 e -> r = Err e.
Proof. unfold calling. destruct (cancelled opts); [|done]. intros [= <-]. discriminate. Qed.

Lemma answer_Ok {A} (x : option A) a : answer x = Ok a -> x = Some a.
Proof. by destruct x; [intros [= ->]|]. Qed.

Lemma answer_Err {A} (x : option A) e : answer x = Err e -> x = None.
Proof. by destruct x. Qed.

Lemma fmap_Err {A B} (f : A -> B) (r : result A) e : (f <$> r) = Err e -> r = Err e.
Proof. destruct r; [done|by intros [= ->]|done]. Qed.

Lemma valid_repo_inv n : valid_repo n = true -> containsByte n ":" = false /\ containsByte n "@" = false.
Proof. unfold valid_repo. intros [?%negb_true_iff ?%negb_true_iff]%andb_true_iff. done. Qed.

Lemma repository_inv n R : NewRepository n = Ok R -> R = n /\ valid_repo n = true.
Proof. cbn. destruct (valid_repo n); [|done]. by intros [= <-]. Qed.

Lemma cut_at n c r : containsByte n c = false -> cut (n +:+ String c "" +:+ r) c = Some (n, r).
Proof. intros Hn. by apply cut_Some. Qed.

Lemma parse_tag n t :
  valid_repo n = true -> plain_tag t -> parse_reference (n +:+ ":" +:+ t) = Ok (n, t).
Proof.
  intros Hn [Hne Hc]. destruct (valid_repo_inv _ Hn) as [Hn1 _]. unfold parse_reference. rewrite cut_at by done.
  apply String.eqb_neq in Hne. by rewrite Hn, Hne, Hc.
Qed.

#[global, refine] Instance remote_ok : RemoteOk world := {
  rblobs := w_blobs; rtags := w_tags; live opts := cancelled opts = false
}.
Proof.
  - intros opts. unfold cancelled. by rewrite foldl_app.
  - intros n d R ref [-> Hn]%repository_inv. destruct (valid_repo_inv _ Hn) as [_ Ha]. cbn [NewDigest remote].
    unfold parse_digest. rewrite cut_at by done. rewrite Hn. cbn [andb]. destruct (containsByte d ":"); [|done]. by intros [= <-].
  - intros n data R [-> Hn]%repository_inv. destruct (valid_repo_inv _ Hn) as [_ Ha]. exists (n, digest_of data).
    cbn [NewDigest remote]. unfold parse_digest. rewrite cut_at by done. by rewrite Hn.
  - intros n t R ref [-> Hn]%repository_inv Ht. cbn [ParseReference remote]. rewrite parse_tag by done. by intros [= <-].
  - intros d h. cbn. destruct (containsByte d ":"); [|done]. by intros [= ->].
  - intros opts ref l n w Hl Hs. apply calling_Ok in Hl. injection Hl as ->.
    apply fmap_Ok in Hs as (b & Hb%answer_Ok & _). by exists b.
  - intros opts ref e w Hl He. cbn [remote_Layer Layer_Size remote] in Hl. unfold calling in Hl.
    destruct (cancelled opts); cbn [mbind result_bind] in Hl; [injection Hl as <-; discriminate He|].
    apply fmap_Err, answer_Err in Hl. unfold ref_key. cbn. by rewrite <- surjective_pairing.
  - intros opts ref w _ Hh. apply calling_Ok, fmap_Ok in Hh as (x & Hx%answer_Ok & _). exists x.
    unfold ref_key. cbn. by rewrite <- surjective_pairing.
  - intros opts ref e w _ Hh He. apply (calling_404 _ _ _ Hh) in He. unfold ref_key. cbn. rewrite <- surjective_pairing.
    by apply fmap_Err, answer_Err in He.
  - intros opts ref b w Hlv Hb. unfold ref_key in Hb. cbn in Hb. rewrite <- surjective_pairing in Hb.
    exists ref, (body_script (length b) b). cbn [remote_Layer Layer_Compressed remote].
    rewrite calling_live, Hb by done. split_and!; [done..|by apply body_script_good].
  - intros opts ref x w Hlv Hx. unfold ref_key in Hx. cbn in Hx. rewrite <- surjective_pairing in Hx.
    cbn [remote_Get remote]. by rewrite calling_live, Hx.
  - intros opts ref e w _ Hg He. apply (calling_404 _ _ _ Hg), answer_Err in He. unfold ref_key. cbn. by rewrite <- surjective_pairing.
  - intros opts ref e w Hg. cbn [remote_Get remote] in Hg. unfold calling in Hg.
    destruct (cancelled opts); [by injection Hg as <-|]. unfold answer in Hg.
    destruct (w_tags w !! _); [discriminate|by injection Hg as <-].
  - intros n t R x w [-> Hn]%repository_inv Ht _. exists (n, t). by apply parse_tag.
  - intros opts R l w. cbn. unfold write_layer. by repeat case_match.
  - intros opts R l h data w Hd Hh Hc. cbn in *. unfold write_layer. rewrite Hd, Hc. subst h.
    destruct (calling opts _) as [[[h' data'] n]|e|p] eqn:Ec; [|by left..].
    apply calling_Ok in Ec. destruct (l_Size l); [|done..]. injection Ec as <- <- <-.
    destruct (_ && _); [by right|by left].
  - intros opts R l h data w Hd Hh Hc Hs. cbn in *. unfold write_layer. rewrite Hd, Hc, Hs. cbn. subst h.
    unfold calling. destruct (cancelled opts); [done|]. by rewrite String.eqb_refl, Z.eqb_refl.
  - intros opts ref m w. cbn. unfold put. by destruct (calling opts _).
  - intros opts ref data mt w _. cbn. unfold put. destruct (calling opts _) as [x| |] eqn:Ec; [|by left..].
    apply calling_Ok in Ec. injection Ec as <-. right. unfold ref_key. cbn. by rewrite <- surjective_pairing.
  - intros opts ref data mt w _. cbn. unfold put. destruct (calling opts _) as [x| |] eqn:Ec; [|done..].
    apply calling_Ok in Ec. injection Ec as <-. unfold ref_key. cbn. by rewrite <- surjective_pairing.
  - intros opts ref w _. cbn. unfold remove, ref_key. cbn. rewrite <- surjective_pairing. by destruct (calling opts _).
  - intros opts ref w _. cbn. unfold remove, ref_key. cbn. rewrite <- surjective_pairing.
    destruct (calling opts _); [by right|by left..].
  - intros opts ref e w _. cbn. unfold remove, ref_key. cbn. rewrite <- surjective_pairing.
    destruct (calling opts _) as [|e'|] eqn:Ec; [done| |done]. cbn. intros [= ->] He.
    apply (calling_404 _ _ _ Ec), answer_Err in He. done.
Defined.

#[global] Instance base_named_any base : BaseNamed (W := world) base.
Proof. intros repo R [-> _]%repository_inv. done. Qed.

End InMemory.
