(* ===== verification/OciProps.v ===== *)
(** * OciProps: the registry client and the snapshot package together

    Push and Stream through an [OCIRegistry]: the theorems of the snapshot
    package hold over any remote registry that keeps the module's promises.
    The witnesses run over [InMemory]. *)

From Stdlib Require Import ZArith Lia Ascii String.
From stdpp Require Import base gmap strings list.
From S2P Require Import Prelude GoStrings Sha256 Json Manifest GoIO OciUtil Registry Tar Zstd Snapshot SnapshotPush PushSpec PushSafe SnapshotPull PullSpec RoundTrip Samples Oci.

Local Open Scope string_scope.

(** A client made by [NewOCIRegistry], in front of the registry [w]. *)
Definition connect {W} `{Remote W} (transport : option (http_Transport Other)) (base : string) (keychain : Keychain) (w : W)
  : client W base (oci_pull (NewOCIRegistry transport base keychain)) :=
  {| c_opts := oci_opts (NewOCIRegistry transport base keychain); c_remote := w |}.

Section Main.
Context {W : Type} `{RemoteOk W} `{ZstdOk} `{CocoonRunner}.
Context (transport : option (http_Transport Other)) (base : string) (keychain : Keychain) `{!BaseNamed base}.

(** C9: what is pushed through the registry client can be pulled through
    it. Over any registry that keeps the module's promises and any base that
    names its own repositories, a push that succeeds leaves its manifest under
    [base/name:tag] of the registry, and a stream by the same client writes a
    complete import tar with every regular file of the export, in order, its
    bytes, mode and sparse map. *)
Theorem oci_push_stream opts chunkSize nworkers ex entries env p w s' so now :
  is_ok (NewRepository (base +:+ "/" +:+ po_Name opts)) = true -> plain_tag (cmpOr (po_Tag opts) "latest") ->
  po_Name opts <> "" -> pipelineParams opts = Ok (nworkers, chunkSize) ->
  Export (cmpOr (po_LocalName opts) (po_Name opts)) = Ok ex -> ex_wait ex = None ->
  good_stream opts chunkSize (ex_stream ex) entries ->
  addressed (blobs (connect transport base keychain w)) ->
  Push None env opts (connect transport base keychain w) = (Ok (), s') ->
  restorable_push opts chunkSize entries env p s' ->
  receives opts p so -> zstd_NewReader = None ->
  exists tw,
    rtags (c_remote s') !! (base +:+ "/" +:+ po_Name opts, cmpOr (po_Tag opts) "latest")
      = Some (manifest_bytes (pp_manifest p), MediaTypeOCIManifest)
    /\ Stream s' so now (manifest_bytes (pp_manifest p)) = (Ok (), tw)
    /\ restored_tar p (cmpOr (so_LocalName so) (po_Name opts)) now entries tw.
Proof.
  intros Hr Ht Hn Hp Hex Hwait Hgs Ha Hrun Hrp Hrc Hnr.
  assert (names_ok (S := client W base (oci_pull (NewOCIRegistry transport base keychain))) opts) as Hnames by done.
  destruct (push_then_stream opts Hnames chunkSize nworkers ex entries env p (connect transport base keychain w) s' so now
              Hn Hp Hex Hwait Hgs Ha Hrun Hrp Hrc Hnr) as (tw & _ & Hs & HF).
  exists tw. split_and!; try done.
  pose proof (Push_published env opts Hnames nworkers chunkSize ex entries (connect transport base keychain w) s' Hn Hp Hex Hwait Hgs Hrun) as (p' & Hp' & Hpub).
  rewrite (rp_plan _ _ _ _ _ _ Hrp) in Hp'. injection Hp' as <-.
  pose proof (pub_manifest _ _ _ _ Hpub) as Hm. apply (f_equal (fun m => m !! (po_Name opts, cmpOr (po_Tag opts) "latest"))) in Hm.
  rewrite lookup_insert_eq in Hm. cbn [manifests oci_registry_ok] in Hm. by rewrite view_lookup in Hm.
Qed.

End Main.

(** *** Witnesses *)

Import InMemory.

Definition no_transport : option (http_Transport Other) := None.
Definition empty_world : world := {| w_blobs := ∅; w_tags := ∅ |}.
Definition host : string := "registry.example/proj".

Abbreviation host_client := (client world host (oci_pull (NewOCIRegistry no_transport host ()))).

Definition oci_after : host_client := (Push None sample_env sample_opts (connect no_transport host () empty_world)).2.

Lemma oci_push_runs : Push None sample_env sample_opts (connect no_transport host () empty_world) = (Ok (), oci_after).
Proof.
  assert ((Push None sample_env sample_opts (connect no_transport host () empty_world)).1 = Ok ()) as E by (vm_compute; reflexivity).
  unfold oci_after. by rewrite <- E, <- surjective_pairing.
Qed.

Lemma oci_restorable : restorable_push (S := host_client) sample_opts 0 sample_entries sample_env sample_plan oci_after.
Proof. apply sample_restorable_in, collision_free_ok. vm_compute. reflexivity. Qed.

Lemma oci_push_stream_witness :
  exists tw,
    rtags (c_remote oci_after) !! (host +:+ "/" +:+ po_Name sample_opts, cmpOr (po_Tag sample_opts) "latest")
      = Some (manifest_bytes (pp_manifest sample_plan), MediaTypeOCIManifest)
    /\ Stream oci_after sample_stream noon (manifest_bytes (pp_manifest sample_plan)) = (Ok (), tw)
    /\ restored_tar sample_plan (cmpOr (so_LocalName sample_stream) (po_Name sample_opts)) noon sample_entries tw.
Proof.
  apply (oci_push_stream no_transport host () sample_opts 0 8 sample_export sample_entries sample_env sample_plan
           empty_world oci_after sample_stream noon).
  - reflexivity.
  - by split.
  - discriminate.
  - reflexivity.
  - reflexivity.
  - reflexivity.
  - exact sample_good_stream.
  - apply (bool_decide_unpack _). vm_compute. exact I.
  - exact oci_push_runs.
  - exact oci_restorable.
  - exact sample_receives.
  - reflexivity.
Defined.

(** A tag that is there, one that is not. *)
Definition tagged_world : world := {| w_blobs := ∅; w_tags := {[ (host +:+ "/" +:+ "vm", "v1") := (bytes_of "{}", "m") ]} |}.
Definition tagged : host_client := connect no_transport host () tagged_world.

Lemma OCIRegistry_tags_witness :
  let registry := reg host (oci_pull (NewOCIRegistry no_transport host ())) tagged in
  OCIRegistry_GetManifest None registry "vm" "v1" tagged_world = Ok (bytes_of "{}", "m")
  /\ OCIRegistry_HasManifest None registry "vm" "v2" tagged_world = Ok false
  /\ w_tags (OCIRegistry_DeleteManifest None registry "vm" "v1" tagged_world).2 = ∅
  /\ (OCIRegistry_DeleteManifest None registry "vm" "v2" tagged_world).1 = Ok ().
Proof.
  destruct (OCIRegistry_tags host (oci_pull (NewOCIRegistry no_transport host ())) tagged "vm" "v1" (host +:+ "/" +:+ "vm", "v1")
              ltac:(reflexivity) ltac:(by split) ltac:(reflexivity)) as (_ & _ & Hget & _ & _ & Hdel & _).
  destruct (OCIRegistry_tags host (oci_pull (NewOCIRegistry no_transport host ())) tagged "vm" "v2" (host +:+ "/" +:+ "vm", "v2")
              ltac:(reflexivity) ltac:(by split) ltac:(reflexivity)) as (_ & Hhas & _ & _ & _ & _ & Hagain).
  split_and!.
  - apply Hget. reflexivity.
  - apply Hhas. exists (Etransport 404). split; reflexivity.
  - apply Hdel. vm_compute. reflexivity.
  - apply Hagain. right. exists (Etransport 404). split; reflexivity.
Defined.
