(* ===== verification/PushProps.v ===== *)
(** * PushProps: bounds, formats and limits of the push *)

From Stdlib Require Import ZArith Lia Ascii String.
From stdpp Require Import base gmap strings list.
From S2P Require Import Prelude GoStrings Sha256 Json Manifest GoIO OciUtil Registry Tar Zstd Snapshot SnapshotPush PushSpec SnapshotPull PullSpec RoundTrip Samples.

Local Open Scope string_scope.
Local Open Scope Z_scope.

(** ** The memory budget *)

(** The budget in bytes, and the workers asked for. *)
Definition budget_of (opts : PushOptions) : Z :=
  if shl20 (po_MemoryBudgetMiB opts) <=? 0 then defaultPushMemoryBudgetMiB * 2 ^ 20 else shl20 (po_MemoryBudgetMiB opts).
Definition workers_of (opts : PushOptions) : Z :=
  if po_Concurrency opts <=? 0 then defaultTransferConcurrency else po_Concurrency opts.

(** C20: when chunking is on, [pipelineParams] solves [2(workers+1) x chunk <=
    budget]: at least one worker and no more than asked for, both buffer pools
    together within the budget, and no larger count of workers (up to the one
    asked for) would fit. *)
Theorem pipelineParams_optimal opts w c :
  pipelineParams opts = Ok (w, c) -> c <> 0 ->
  c = po_ChunkSizeMiB opts * 2 ^ 20
  /\ 1 <= w <= workers_of opts
  /\ 2 * (w + 1) * c <= budget_of opts
  /\ (forall w', w < w' <= workers_of opts -> budget_of opts < 2 * (w' + 1) * c).
Proof.
  unfold pipelineParams, maxChunkSizeMiB. fold (workers_of opts) (budget_of opts).
  destruct (Z.ltb_spec 4096 (po_ChunkSizeMiB opts)) as [|Hle]; [done|].
  rewrite shl20_small by lia.
  destruct (Z.eqb_spec (Z.max (po_ChunkSizeMiB opts) 0 * 2 ^ 20) 0); [by intros [= _ <-]|].
  set (ch := Z.max (po_ChunkSizeMiB opts) 0 * 2 ^ 20) in *.
  destruct (Z.ltb_spec (budget_of opts) (4 * ch)) as [|Hb]; [done|]. intros [= <- <-] _.
  assert (0 < ch) by lia. assert (1 <= workers_of opts) by (unfold workers_of, defaultTransferConcurrency; destruct (Z.leb_spec (po_Concurrency opts) 0); lia).
  unfold godiv. rewrite Z.quot_div_nonneg by lia.
  pose proof (Z.mul_div_le (budget_of opts) (2 * ch) ltac:(lia)) as Hd.
  pose proof (Z.mul_succ_div_gt (budget_of opts) (2 * ch) ltac:(lia)) as Hu.
  assert (2 <= budget_of opts / (2 * ch)) by (apply Z.div_le_lower_bound; lia).
  split_and!; [lia|lia|lia| |].
  - destruct (Z.min_spec (workers_of opts) (budget_of opts / (2 * ch) - 1)) as [[? ->]|[? ->]]; nia.
  - intros w' [Hw1 Hw2]. assert (budget_of opts / (2 * ch) - 1 < w') by lia. nia.
Qed.

Lemma pipelineParams_optimal_witness :
  let opts := {| po_Name := "n"; po_LocalName := ""; po_Tag := ""; po_BaseImage := ""; po_Source := ""; po_Revision := "";
                 po_Annotations := ∅; po_ZstdLevel := 3; po_ChunkSizeMiB := 512; po_Concurrency := 16; po_MemoryBudgetMiB := 0 |} in
  512 * 2 ^ 20 = po_ChunkSizeMiB opts * 2 ^ 20 /\ 1 <= 8 <= workers_of opts
  /\ 2 * (8 + 1) * (512 * 2 ^ 20) <= budget_of opts
  /\ (forall w', 8 < w' <= workers_of opts -> budget_of opts < 2 * (w' + 1) * (512 * 2 ^ 20)).
Proof.
  intros opts. apply (pipelineParams_optimal opts 8 (512 * 2 ^ 20)); [reflexivity | discriminate].
Defined.

(** ** Chunk counts *)

(** C24: a tar header whose size is within a chunk of [2^63] overflows the
    chunk count: the 64-bit sum wraps negative, the sanity cap lets it
    through, and [make] panics instead of the cap's error being returned. *)
Theorem enqueueChunks_overflow_panics {S} `{Uploader S} `{Zstd} ctx opts hdr body chunkSize compress
    (st : push_state (S := S)) :
  0 < chunkSize <= 2 ^ 32 -> h_Size hdr < 2 ^ 63 -> 2 ^ 63 < h_Size hdr + chunkSize ->
  enqueueChunks ctx opts hdr body chunkSize compress st = (Panic "makeslice: len out of range", st).
Proof.
  intros Hc Hs Ho. unfold enqueueChunks.
  assert (wrap64 (h_Size hdr + chunkSize) = h_Size hdr + chunkSize - 2 ^ 64) as E.
  { unfold wrap64. rewrite (Z.mod_eq _ (2 ^ 64)) by lia.
    replace ((h_Size hdr + chunkSize + 2 ^ 63) / 2 ^ 64) with 1; [lia|].
    apply Z.div_unique with (r := h_Size hdr + chunkSize + 2 ^ 63 - 2 ^ 64); lia. }
  rewrite E, wrap64_id by (apply in_int64_spec; lia). unfold godiv.
  set (q := Z.quot (h_Size hdr + chunkSize - 2 ^ 64 - 1) chunkSize).
  assert (q < 0) as Hq.
  { subst q. rewrite <- (Z.opp_involutive (h_Size hdr + chunkSize - 2 ^ 64 - 1)), Z.quot_opp_l by lia.
    rewrite Z.quot_div_nonneg by lia.
    assert (1 <= - (h_Size hdr + chunkSize - 2 ^ 64 - 1) / chunkSize); [|lia].
    apply Z.div_le_lower_bound; lia. }
  destruct (Z.ltb_spec (2 ^ 20) q); [lia|]. by destruct (Z.ltb_spec q 0); [|lia].
Qed.

Lemma enqueueChunks_overflow_panics_witness :
  enqueueChunks None sample_opts
    {| h_Name := "disk.raw"; h_Size := 2 ^ 63 - 1; h_Mode := 420; h_Typeflag := TypeReg; h_PAX := ∅ |}
    [] (2 ^ 20) false {| us_reg := mem_empty; us_eg := None |}
  = (Panic "makeslice: len out of range", {| us_reg := mem_empty; us_eg := None |}).
Proof. apply enqueueChunks_overflow_panics; cbn; lia. Defined.

(** ** Sparse files *)

(** The sparse map of a pushed entry survives the config: the header a
    stream writes from [sparseFileMeta] carries the same two PAX records, for
    every map and every positive size printed as a decimal, together with the
    mode (0 comes back as 0640); an entry without a sparse map comes back
    without PAX records. *)
Theorem sparse_roundtrip hdr now sparseMap size :
  sparseMap <> "" -> 0 < size < 2 ^ 63 ->
  (h_PAX hdr !! sparsePAXMap = Some sparseMap -> h_PAX hdr !! sparsePAXSize = Some (formatInt size) ->
   restored_header (hdr, []) now =
     Ok {| o_Name := h_Name hdr; o_Size := h_Size hdr; o_Mode := if h_Mode hdr =? 0 then 416 else h_Mode hdr;
           o_ModTime := now; o_PAX := <[sparsePAXMap := sparseMap]> {[ sparsePAXSize := formatInt size ]} |})
  /\ (h_PAX hdr !! sparsePAXMap = None ->
      restored_header (hdr, []) now =
        Ok {| o_Name := h_Name hdr; o_Size := h_Size hdr; o_Mode := if h_Mode hdr =? 0 then 416 else h_Mode hdr;
              o_ModTime := now; o_PAX := ∅ |}).
Proof.
  intros Hne Hsz. unfold restored_header, sparseFileMeta. cbn [fst]. split.
  - intros -> ->. rewrite parseInt64_formatInt by (apply in_int64_spec; lia). cbn [mbind result_bind].
    unfold layerHeader. cbn [sf_Mode sf_SparseMap sf_SparseSize]. apply String.eqb_neq in Hne as ->.
    by destruct (Z.leb_spec size 0); [lia|].
  - intros ->. done.
Qed.

Lemma sparse_roundtrip_witness :
  restored_header (file_hdr "overlay.qcow2" disk_bytes 0 (<[sparsePAXMap := "0,8"]> {[ sparsePAXSize := "4096" ]}), []) noon
  = Ok {| o_Name := "overlay.qcow2"; o_Size := 16; o_Mode := 416; o_ModTime := noon;
          o_PAX := <[sparsePAXMap := "0,8"]> {[ sparsePAXSize := "4096" ]} |}.
Proof.
  exact (proj1 (sparse_roundtrip (file_hdr "overlay.qcow2" disk_bytes 0 (<[sparsePAXMap := "0,8"]> {[ sparsePAXSize := "4096" ]}))
    noon "0,8" 4096 ltac:(discriminate) ltac:(lia)) eq_refl eq_refl).
Defined.

(** ** The v1 format *)

(** The layer of a file in a v1 artifact: its bytes as they are. *)
Definition v1_layer (e : tar_header * bytes) : Descriptor :=
  {| d_MediaType := MediaTypeForCocoonFile (h_Name e.1); d_Digest := digest_of e.2; d_Size := Z.of_nat (length e.2);
     d_Annotations := {[ AnnotationTitle := h_Name e.1 ]}; d_ArtifactType := "" |}.

Lemma pipelineParams_off opts : po_ChunkSizeMiB opts <= 0 -> pipelineParams opts = Ok (workers_of opts, 0).
Proof.
  intros Hc. unfold pipelineParams, maxChunkSizeMiB. destruct (Z.ltb_spec 4096 (po_ChunkSizeMiB opts)); [lia|].
  rewrite Z.max_r by done. done.
Qed.

Section V1.
Context {S : Type} `{RegistryOk S} `{Zstd} `{CocoonRunner}.
Context (env : PushEnv) (opts : PushOptions) (Hnames : names_ok opts).

Lemma v1_mode (b : bytes) : po_ZstdLevel opts <= 0 -> entry_mode opts 0 (Z.of_nat (length b)) = Whole.
Proof. intros Hz. unfold entry_mode. by destruct (Z.ltb_spec 0 (po_ZstdLevel opts)); [lia|]. Qed.

Lemma v1_descs e : po_ZstdLevel opts <= 0 -> file_descs opts 0 (h_Name e.1) e.2 = [v1_layer e].
Proof. intros Hz. unfold file_descs, file_blobs. by rewrite v1_mode. Qed.

(** C19: with compression and chunking off, a successful push publishes a
    v1-compatible artifact: artifact type and schema version v1, and for every
    regular file, in order, exactly one uncompressed layer with the file's
    name, media type, size and bytes, none of them listed as chunked. *)
Theorem push_v1_compatible ex entries (s s' : S) :
  po_ZstdLevel opts <= 0 -> po_ChunkSizeMiB opts <= 0 -> po_Name opts <> "" ->
  Export (cmpOr (po_LocalName opts) (po_Name opts)) = Ok ex -> ex_wait ex = None ->
  good_stream opts 0 (ex_stream ex) entries -> NoDup (file_names entries) ->
  Push None env opts s = (Ok (), s') ->
  exists p, manifests s' !! (po_Name opts, cmpOr (po_Tag opts) "latest") = Some (manifest_bytes (pp_manifest p), MediaTypeOCIManifest)
    /\ m_ArtifactType (pp_manifest p) = ArtifactTypeSnapshot
    /\ sc_SchemaVersion (pp_config p) = "v1"
    /\ m_Config (pp_manifest p) = config_descriptor (pp_config p)
    /\ m_Layers (pp_manifest p) = v1_layer <$> files_of entries
    /\ map_Forall (fun _ f => sf_Chunks f = []) (sc_Files (pp_config p)).
Proof.
  intros Hz Hp%pipelineParams_off Hn Hex Hwait Hgs Hnd Hrun.
  destruct (Push_published env opts Hnames _ 0 ex entries s s' Hn Hp Hex Hwait Hgs Hrun) as (p & Hplan & [Hm _ _ _]). exists p.
  split; [rewrite Hm; apply lookup_insert_eq|].
  unfold plan_push in Hplan. apply bind_Ok in Hplan as (ue & Hue & Hplan).
  apply spec_entries_files in Hue as (Hl & Henc & Hrec & Hother & _); [|done].
  assert (ue_encoded ue = false) as Hfalse.
  { rewrite Henc. apply not_true_is_false. intros (e & _ & He)%existsb_exists. unfold file_encoded in He.
    by rewrite v1_mode in He. }
  rewrite Hfalse in Hplan. destruct (ue_cfg ue) as [cfg|]; [|discriminate]. injection Hplan as <-. cbn.
  split_and!; [done..| |].
  - rewrite Hl. clear - Hz. induction (files_of entries) as [|e es IH]; [done|]. cbn [fmap list_fmap concat].
    rewrite v1_descs by done. cbn [app]. by f_equal.
  - intros k f Hf. destruct (decide (k ∈ file_names entries)) as [Hk|Hk]; [|by rewrite Hother in Hf].
    apply list_elem_of_fmap_1 in Hk as (e & -> & He). rewrite Forall_forall in Hrec.
    destruct (Hrec e He) as (meta & Hmeta & Hf'). rewrite Hf in Hf'. injection Hf' as ->.
    destruct (file_record_fields opts 0 meta e Hmeta) as [_ ->].
    rewrite file_blobs_mode, v1_mode by done. done.
Qed.

End V1.

Lemma push_v1_compatible_witness :
  exists p, manifests sample_after !! ("team/vm", "latest") = Some (manifest_bytes (pp_manifest p), MediaTypeOCIManifest)
    /\ m_ArtifactType (pp_manifest p) = ArtifactTypeSnapshot
    /\ sc_SchemaVersion (pp_config p) = "v1"
    /\ m_Config (pp_manifest p) = config_descriptor (pp_config p)
    /\ m_Layers (pp_manifest p) = v1_layer <$> files_of sample_entries
    /\ map_Forall (fun _ f => sf_Chunks f = []) (sc_Files (pp_config p)).
Proof.
  apply (push_v1_compatible sample_env sample_opts sample_names sample_export sample_entries mem_empty sample_after).
  - discriminate.
  - discriminate.
  - discriminate.
  - reflexivity.
  - reflexivity.
  - exact sample_good_stream.
  - apply (bool_decide_unpack _). vm_compute. exact I.
  - exact sample_push_runs.
Defined.
