(* ===== verification/PullSink.v ===== *)
(** * PullSink: what a stream that succeeds has handed to its writer

    The tar writer writes to a [bufio.Writer], which reports the failures of
    the writer behind it late, at the latest in the final [Flush].  Every
    function that writes keeps the account of the archive's bytes, so a stream
    that returns no error is a stream whose every byte was taken. *)

From Stdlib Require Import ZArith Lia Ascii String.
From stdpp Require Import base gmap strings list.
From S2P Require Import Prelude GoStrings Sha256 Json Manifest GoIO OciUtil Registry Tar Zstd Snapshot SnapshotPush PushSpec SnapshotPull PullSpec RoundTrip Samples.

Local Open Scope string_scope.
Local Open Scope nat_scope.

(** ** Functions that keep an invariant of the state *)

Definition keeps {S A} (I : S -> Prop) (m : M S A) : Prop := forall s, I s -> I (m s).2.

Section keeps.
Context {S : Type} (I : S -> Prop).

Lemma keeps_lift {A} (r : result A) : keeps I (lift r).
Proof. by intros s. Qed.
Lemma keeps_ret {A} (a : A) : keeps I (mret a).
Proof. by intros s. Qed.
Lemma keeps_wrapM {A} msg (m : M S A) : keeps I m -> keeps I (wrapM msg m).
Proof. by intros Hm s Hs; apply Hm. Qed.
Lemma keeps_bind {A B} (m : M S A) (f : A -> M S B) : keeps I m -> (forall a, keeps I (f a)) -> keeps I (m ≫= f).
Proof. intros Hm Hf s Hs. unfold mbind, M_bind. specialize (Hm s Hs). destruct (m s) as [[a|e|p] s']; [by apply Hf|done..]. Qed.

Lemma keeps_Ok {A} (m : M S A) s a s' : keeps I m -> I s -> m s = (Ok a, s') -> I s'.
Proof. intros Hm Hs E. specialize (Hm s Hs). by rewrite E in Hm. Qed.

End keeps.

Create HintDb keeps.
#[export] Hint Resolve keeps_lift keeps_ret keeps_wrapM keeps_bind : keeps.

(** A copy keeps what every write keeps. *)
Lemma io_copy_keeps {R W} `{Writer W} (I : W -> Prop) (rd : R -> nat -> rd_result * R) fuel r w n x :
  (forall v b, I v -> I (w_write v b).2) -> I w -> io_copy rd fuel r w n = Some x -> I x.2.
Proof.
  intros HI. revert r w n. induction fuel as [|f IH]; intros r w n Hw; [done|]. rewrite io_copy_S. cbn zeta.
  destruct (rd r copy_buffer) as [y r'].
  assert (I (if length (rr_data y) =? 0 then (0, None, w) else w_write w (rr_data y)).2) as Hw'
    by (destruct (_ =? 0); [done|by apply HI]).
  destruct (if length (rr_data y) =? 0 then _ else _) as [[nw ew] w']. cbn [snd] in Hw'.
  destruct ew; [intros ?; by simplify_eq|]. destruct (negb _); [intros ?; by simplify_eq|].
  destruct (rr_err y); [|by apply IH]. destruct (bool_decide _); intros ?; by simplify_eq.
Qed.

Section account.
Context {S : Type} `{Downloader S} `{Zstd} (s : S) (name : string) (reach : option nat).

Abbreviation kept m := (keeps (accounted reach) m).

Lemma kept_WriteHeader h : kept (tw_WriteHeader h).
Proof. intros tw. apply accounted_header. Qed.

Lemma kept_WriteAll msg data : kept (tw_WriteAll msg data).
Proof. intros tw Ha. unfold tw_WriteAll. apply (accounted_write reach tw data) in Ha. by destruct (w_write tw data) as [[k err] tw']. Qed.

Lemma kept_copy {R} (rd : R -> nat -> rd_result * R) fuel r : kept (copy_to_tar rd fuel r).
Proof.
  intros tw Ha. unfold copy_to_tar. destruct (io_copy rd fuel r tw 0) as [[[[n [e|]] r'] tw']|] eqn:E; [..|done];
    apply io_copy_keeps with (I := accounted reach) in E; try done; intros v b; apply accounted_write.
Qed.

Lemma kept_WriteTo p zstd descs n : kept (WriteTo s name p zstd descs n).
Proof.
  revert n. induction descs as [|d ds IH]; intros n tw Ha; [done|]. cbn [WriteTo].
  destruct (fetch s name p d zstd) as [b|e|m]; [|done..]. pose proof (accounted_write reach tw b Ha) as Hw.
  destruct (w_write tw b) as [[k [e|]] tw']; [done|]. destruct (negb _); [done|]. by apply IH.
Qed.

#[local] Hint Resolve kept_WriteHeader kept_WriteAll kept_copy kept_WriteTo : keeps.

Lemma kept_copy_file p e : kept (copy_file s name p e).
Proof.
  unfold copy_file. destruct (2 <=? _)%Z; [auto with keeps|]. unfold copy_sequential. destruct (lp_zstd e); [|auto with keeps].
  destruct zstd_NewReader; [auto with keeps|]. destruct (drain_reader _ _ _ _). auto with keeps.
Qed.

Lemma kept_streamFile copy p e now : (forall p e, kept (copy p e)) -> kept (streamFile_by copy p e now).
Proof.
  intros Hcopy. unfold streamFile_by. apply keeps_bind; [auto with keeps|]. intros hdr. apply keeps_bind; [auto with keeps|]. intros _.
  apply keeps_bind; [by apply keeps_wrapM|]. intros n. destruct (negb _); auto with keeps.
Qed.

Lemma kept_streamLayer layer meta now : kept (streamLayerToTar s name layer meta now).
Proof.
  unfold streamLayerToTar. do 3 (apply keeps_bind; [auto with keeps|intros ?]). intros tw Ha. unfold copy_body, CopyBlobSized.
  destruct (io_copy _ _ _ tw 0) as [[[[n err] r] tw']|] eqn:E; [|done].
  apply io_copy_keeps with (I := accounted reach) in E; [done| |done]. intros v b. apply accounted_write.
Qed.

Lemma kept_stream_entries copy p entries now : (forall p e, kept (copy p e)) -> kept (stream_entries s name copy p entries now).
Proof.
  intros Hcopy. induction entries as [|e es IH]; cbn [stream_entries]; [auto with keeps|].
  apply keeps_bind; [|done]. destruct (negb _); [apply kept_streamLayer|by apply kept_streamFile].
Qed.

Lemma kept_writeTarFile fname data mode now : kept (writeTarFile fname data mode now).
Proof. unfold writeTarFile. apply keeps_bind; [auto with keeps|intros _; auto with keeps]. Qed.

(** An import tar that was written without an error: complete, its trailer
    written, and the buffer's content taken too. *)
Lemma writeImportTar_taken opts now copy cfg layers k tw tw' :
  (forall p e, kept (copy p e)) -> so_Writer opts = Some k -> accounted reach tw ->
  writeImportTar_by s name opts now copy cfg layers tw = (Ok (), tw') ->
  tw_closed tw' = true /\ tw_cur tw' = None
  /\ exists free, (fun r => archive tw' + 1024 + r) <$> free = reach
       /\ match free with Some f => sk_slack k <= f | None => True end.
Proof.
  intros Hcopy Hk Ha Hrun. unfold writeImportTar_by in Hrun.
  apply M_bind_Ok in Hrun as (es & t0 & [_ ->]%lift_Ok & Hrun). apply M_bind_Ok in Hrun as (pipe & t0 & [_ ->]%lift_Ok & Hrun).
  apply M_bind_Ok in Hrun as (env & t0 & [_ ->]%lift_Ok & Hrun).
  apply M_bind_Ok in Hrun as ([] & t1 & H1%wrapM_Ok & Hrun). apply (keeps_Ok _ _ _ _ _ (kept_writeTarFile _ _ _ _) Ha) in H1.
  apply M_bind_Ok in Hrun as ([] & t2 & H2 & Hrun). apply (keeps_Ok _ _ _ _ _ (kept_stream_entries _ _ _ _ Hcopy) H1) in H2.
  apply M_bind_Ok in Hrun as ([] & t3 & H3%wrapM_Ok & Hrun). apply (accounted_close reach) in H3 as (Hc & Hcur & Hr); [|done].
  unfold flush_writer in Hrun. rewrite Hk in Hrun. cbn [default from_option id] in Hrun. injection Hrun as Hf <-.
  split_and!; [done..|]. exists (tw_room t3). split; [done|].
  destruct (tw_room t3) as [f|]; [|done]. by destruct (Nat.ltb_spec f (sk_slack k)).
Qed.

End account.

(** C13: no error is lost in the buffer. When [Stream] returns no error, the
    archive is closed and complete and the writer has taken every byte of it:
    headers, bodies, padding and trailer fit in what it takes, however late
    the buffered writer reports (the slack), whatever the manifest and the
    registry. *)
Theorem stream_reaches_writer {S} `{Downloader S} `{Zstd} (s : S) opts now raw k tw :
  so_Writer opts = Some k -> Stream s opts now raw = (Ok (), tw) ->
  tw_closed tw = true /\ tw_cur tw = None
  /\ forall room, sk_room k = Some room -> archive tw + 1024 <= room.
Proof.
  intros Hk. unfold Stream, Stream_by. destruct (String.eqb _ _) eqn:En; [done|].
  destruct (resolve_manifest s opts raw) as [m|e|p]; [|done..]. unfold StreamParsed_by. rewrite En, Hk. intros Hrun.
  apply M_bind_Ok in Hrun as (cfg & t0 & [_ ->]%lift_Ok & Hrun). apply M_bind_Ok in Hrun as ([] & t0 & [_ ->]%lift_Ok & Hrun).
  destruct (writeImportTar_taken s (so_Name opts) _ opts now _ cfg _ k _ tw (kept_copy_file _ _ _) Hk (accounted_new (sink_reach k)) Hrun)
    as (Hc & Hcur & free & Hfree & Hslack).
  split_and!; [done..|]. intros room Hroom. unfold sink_reach in Hfree. rewrite Hroom in Hfree.
  destruct free as [f|]; [|done]. cbn in Hfree, Hslack. injection Hfree as Hfree. lia.
Qed.

(** The sample's archive takes 5120 bytes; the buffer reports 100 bytes late. *)
Definition tight (room : Z) : StreamOptions :=
  {| so_Name := "team/vm"; so_LocalName := "copy";
     so_Writer := Some {| sk_room := Some (Z.to_nat room); sk_slack := 100 |};
     so_Concurrency := 0; so_MemoryBudgetMiB := 0 |}.

Definition tight_after : tar_writer := (Stream sample_after (tight 5120) noon (manifest_bytes (pp_manifest sample_plan))).2.

Lemma tight_stream : Stream sample_after (tight 5120) noon (manifest_bytes (pp_manifest sample_plan)) = (Ok (), tight_after).
Proof. unfold tight_after. apply pair_fst. vm_compute. reflexivity. Qed.

Lemma stream_reaches_writer_witness :
  tw_closed tight_after = true /\ archive tight_after + 1024 <= Z.to_nat 5120.
Proof.
  destruct (stream_reaches_writer sample_after (tight 5120) noon (manifest_bytes (pp_manifest sample_plan))
              {| sk_room := Some (Z.to_nat 5120); sk_slack := 100 |} tight_after eq_refl tight_stream) as (Hc & _ & Hr).
  split; [exact Hc|exact (Hr (Z.to_nat 5120) eq_refl)].
Defined.

(** One byte less, and only the final flush notices. *)
Example stream_one_byte_short :
  let '(r, tw) := Stream sample_after (tight 5119) noon (manifest_bytes (pp_manifest sample_plan)) in
  r = Err sink_err /\ tw_closed tw = true.
Proof. vm_compute. by split. Qed.
