(* ===== verification/PullProps.v ===== *)
(** * PullProps: validation and limits of the stream *)

From Stdlib Require Import ZArith Lia Ascii String.
From stdpp Require Import base gmap strings list.
From S2P Require Import Prelude GoStrings Sha256 Json Manifest GoIO OciUtil Registry Tar Zstd Snapshot SnapshotPush PushSpec SnapshotPull Pipeline PullSpec PullPipeline RoundTrip Samples.

Local Open Scope string_scope.
Local Open Scope nat_scope.

(** ** Validation *)

(** A layer the reader can decode, in a manifest that is [encoded] or not. *)
Definition layer_valid (encoded : bool) (d : Descriptor) : Prop :=
  (0 <= d_Size d)%Z /\ IsSnapshotLayerMediaType (d_MediaType d) = true /\ Title d <> ""
  /\ (encoded = false -> IsZstdMediaType (d_MediaType d) = false).

Lemma validate_layer_spec encoded d : validate_layer encoded d = Ok () <-> layer_valid encoded d.
Proof.
  unfold validate_layer, layer_valid. destruct (Z.ltb_spec (d_Size d) 0); [split; [done|intros (? & _); lia]|].
  destruct (IsSnapshotLayerMediaType (d_MediaType d)); cbn [negb]; [|split; [done|by intros (_ & ? & _)]].
  destruct (String.eqb_spec (Title d) ""); [split; [done|by intros (_ & _ & ? & _)]|].
  destruct encoded; cbn [negb andb]; [by split_and!|].
  destruct (IsZstdMediaType (d_MediaType d)); [split; [done|intros (_ & _ & _ & Hz); by specialize (Hz eq_refl)]|].
  by split_and!.
Qed.

Lemma traverse_all {A} (f : A -> result unit) l :
  (exists us, traverse f l = Ok us) <-> Forall (fun a => f a = Ok ()) l.
Proof.
  split; [|apply traverse_unit]. intros [us H]. apply traverse_Ok in H.
  induction H as [|a [] l us Ha HF IH]; by constructor.
Qed.

Lemma validate_spec m cfg :
  validateSnapshotLayers m cfg = Ok () <->
    Forall (layer_valid (String.eqb (m_ArtifactType m) ArtifactTypeSnapshotV2)) (m_Layers m)
    /\ (m_ArtifactType m <> ArtifactTypeSnapshotV2 -> map_Forall (fun _ f => sf_Chunks f = []) (sc_Files cfg)).
Proof.
  unfold validateSnapshotLayers. set (encoded := String.eqb (m_ArtifactType m) ArtifactTypeSnapshotV2).
  assert (Forall (layer_valid encoded) (m_Layers m) <-> exists us, traverse (validate_layer encoded) (m_Layers m) = Ok us) as ->.
  { rewrite traverse_all. split; intros HF; (eapply Forall_impl; [exact HF|]); intros d; apply validate_layer_spec. }
  destruct (traverse (validate_layer encoded) (m_Layers m)) as [us|e|p]; cbn [mbind result_bind].
  2,3: split; [done|by intros [[? ?] _]].
  subst encoded. destruct (String.eqb_spec (m_ArtifactType m) ArtifactTypeSnapshotV2) as [->|Hne].
  { split; [|done]. intros _. split; [eauto|done]. }
  match goal with |- context [traverse ?f ?l] => set (g := f); set (fs := l) end.
  assert (map_Forall (fun _ f => sf_Chunks f = []) (sc_Files cfg) <-> exists us, traverse g fs = Ok us) as Hiff.
  { rewrite traverse_all. subst fs. rewrite map_Forall_to_list. apply Forall_iff. intros [k f]. subst g. cbn.
    destruct (sf_Chunks f); cbn; by split. }
  destruct (traverse g fs) as [us'|e|p]; cbn [mbind result_bind].
  - split; [|done]. intros _. split; [eauto|]. intros _. apply Hiff. eauto.
  - split; [done|]. intros [_ H]. apply H, Hiff in Hne as [? ?]. done.
  - split; [done|]. intros [_ H]. apply H, Hiff in Hne as [? ?]. done.
Qed.

(** [validateSnapshotLayers] accepts exactly the manifests whose layers
    all have a size of at least zero, an allowed media type and a title, and
    which use compression or chunking only under the v2 artifact type. *)
Theorem validateSnapshotLayers_iff m cfg :
  validateSnapshotLayers m cfg = Ok () <->
    Forall (layer_valid (String.eqb (m_ArtifactType m) ArtifactTypeSnapshotV2)) (m_Layers m)
    /\ (m_ArtifactType m <> ArtifactTypeSnapshotV2 -> map_Forall (fun _ f => sf_Chunks f = []) (sc_Files cfg)).
Proof. apply validate_spec. Qed.

(** C14: fail closed: unless the config is fetched, every layer validates,
    the plan resolves and the envelope can be made, a stream writes nothing
    at all, whatever the registry. *)
Theorem stream_fails_closed {S} `{Downloader S} `{Zstd} (s : S) opts now m room :
  so_Writer opts = Some room ->
  (StreamParsed s opts now m).2 = tar_new (sink_reach room)
  \/ exists cfg entries,
       FetchSnapshotConfig s (so_Name opts) (m_Config m) = Ok cfg
       /\ validateSnapshotLayers m cfg = Ok () /\ planLayers cfg (m_Layers m) = Ok entries
       /\ is_ok (MarshalEnvelope cfg (cmpOr (so_LocalName opts) (so_Name opts))) = true.
Proof.
  intros Hw. unfold StreamParsed, StreamParsed_by. rewrite Hw. destruct (String.eqb _ _); [by left|].
  unfold mbind, M_bind, lift. destruct (FetchSnapshotConfig s (so_Name opts) (m_Config m)) as [cfg|e|p]; cbn [wrap]; [|by left..].
  destruct (validateSnapshotLayers m cfg) as [[]|e|p] eqn:Ev; [|by left..].
  unfold writeImportTar_by, mbind, M_bind, lift.
  destruct (planLayers cfg (m_Layers m)) as [entries|e|p] eqn:Ep; [|by left..].
  destruct (newChunkPipeline _ _ _); [|by left..].
  destruct (MarshalEnvelope _ _) eqn:Em; [|by left..]. right. exists cfg, entries. by rewrite Em.
Qed.

Lemma stream_fails_closed_witness :
  (StreamParsed mem_empty sample_stream noon sample_manifest).2 = tar_new None
  \/ exists cfg entries,
       FetchSnapshotConfig mem_empty "team/vm" (m_Config sample_manifest) = Ok cfg
       /\ validateSnapshotLayers sample_manifest cfg = Ok () /\ planLayers cfg (m_Layers sample_manifest) = Ok entries
       /\ is_ok (MarshalEnvelope cfg "copy") = true.
Proof. exact (stream_fails_closed mem_empty sample_stream noon sample_manifest unbounded eq_refl). Defined.

(** ** Buffers *)

Lemma plan_loop_chunks cfg byD emitted layers entries :
  plan_loop cfg byD emitted layers = Ok entries ->
  (forall k d, byD !! k = Some d -> (0 <= d_Size d)%Z) -> Forall (fun d => 0 <= d_Size d)%Z layers ->
  Forall (fun e => Forall (fun d => 0 <= d_Size d)%Z (chunk_list e)) entries.
Proof.
  intros H Hby HF. revert emitted entries H. induction HF as [|layer layers Hl HF IH]; intros emitted entries H; cbn in H.
  { injection H as <-. constructor. }
  destruct (_ && _).
  - apply bind_Ok in H as (rest & Hr & [= <-]). constructor; [constructor|by eapply IH].
  - case_bool_decide; [by eapply IH|]. apply bind_Ok in H as (descs & Hd & H). apply bind_Ok in H as (rest & Hr & [= <-]).
    constructor; [|by eapply IH]. unfold chunk_list. cbn [lp_chunks]. unfold resolveEncodedFile in Hd.
    destruct (_ <=? 0)%Z; [done|]. destruct (_ =? 0).
    + injection Hd as <-. by repeat constructor.
    + apply resolve_lookup in Hd. clear - Hd Hby. induction Hd as [|k d ks ds Hk HF IH]; constructor; [by eapply Hby|done].
Qed.

(** C17: slicing a pooled buffer to a chunk never goes out of bounds: in any
    plan made from validated layers, every chunk of a file that the pipeline
    buffers has a size between zero and the capacity of the buffer [fetch]
    reads it into (the input pool's for compressed chunks, the output pool's
    otherwise). *)
Theorem fetch_in_bounds `{Zstd} m cfg entries prefetch budget p e d :
  validateSnapshotLayers m cfg = Ok () -> planLayers cfg (m_Layers m) = Ok entries ->
  newChunkPipeline entries prefetch budget = Ok p ->
  e ∈ entries -> (2 <= fileWindow p e)%Z -> d ∈ chunk_list e ->
  (0 <= d_Size d <= if lp_zstd e then cp_inputCap p else cp_outputCap p)%Z.
Proof.
  intros Hv Hplan Hpipe He Hw Hd. apply validate_spec in Hv as [Hv _].
  assert (Forall (fun d => 0 <= d_Size d)%Z (m_Layers m)) as Hpos by (eapply Forall_impl; [exact Hv|]; by intros ? []).
  split.
  - assert (Forall (fun e => Forall (fun d => 0 <= d_Size d)%Z (chunk_list e)) entries) as Hall.
    { eapply plan_loop_chunks; [exact Hplan| |done]. intros k d' Hk.
      assert (d' ∈ m_Layers m) as Hin; [|rewrite Forall_forall in Hpos; by apply Hpos].
      clear - Hk. unfold by_digest in Hk. revert Hk.
      assert (forall (mm : gmap string Descriptor) ls, foldl (fun m l => <[d_Digest l := l]> m) mm ls !! k = Some d' ->
                d' ∈ ls \/ mm !! k = Some d') as Hgen.
      { intros mm ls. revert mm. induction ls as [|l ls IH]; intros mm Hk; [by right|]. cbn [foldl] in Hk.
        destruct (IH _ Hk) as [?|Hk']; [left; by constructor|].
        destruct (decide (d_Digest l = k)) as [<-|Hne].
        - rewrite lookup_insert_eq in Hk'. injection Hk' as ->. left. constructor.
        - rewrite lookup_insert_ne in Hk' by done. by right. }
      intros Hk. by destruct (Hgen _ _ Hk) as [?|?%lookup_empty_Some]. }
    rewrite Forall_forall in Hall. specialize (Hall e He). rewrite Forall_forall in Hall. by apply Hall.
  - destruct (newChunkPipeline_caps _ _ _ _ Hpipe) as [-> ->].
    assert (buffered e = true) as Hb.
    { unfold fileWindow in Hw. unfold buffered, lp_encoded. unfold chunk_list in *.
      destruct (lp_chunks e) as [ds|]; [|by apply elem_of_nil in Hd].
      destruct (Nat.ltb_spec (length ds) 2); [rewrite orb_true_r in Hw; lia|]. by apply Nat.leb_le. }
    destruct (pipeline_caps_cover entries e He Hb) as [Hc _]. rewrite Forall_forall in Hc. by apply Hc.
Qed.

(** The prefetch budget holds: when a pipeline buffers at all, its window
    is between two and the prefetch asked for, the buffers of both pools
    together (one more output buffer than the window) fit the budget, and no
    buffer is larger than 1 GiB. *)
Theorem newChunkPipeline_budget `{Zstd} entries prefetch budget p :
  newChunkPipeline entries prefetch budget = Ok p ->
  cp_window p = 0%Z
  \/ (2 <= cp_window p <= prefetch)%Z
     /\ (cp_window p * cp_inputCap p + (cp_window p + 1) * cp_outputCap p <= budget)%Z
     /\ (cp_inputCap p <= maxBufferedChunkBytes)%Z /\ (0 < cp_outputCap p <= maxBufferedChunkBytes)%Z.
Proof.
  intros Hp. pose proof (newChunkPipeline_caps _ _ _ _ Hp) as [Hi Ho].
  assert (0 <= (pipeline_caps entries).1.1)%Z as Hpos
    by (apply (pipeline_caps_fold_mono entries (0%Z, 0%Z, false))).
  unfold newChunkPipeline in Hp. destruct (pipeline_caps entries) as [[i o] z]. cbn [fst snd] in *.
  destruct (Z.leb_spec o 0); cbn [orb] in Hp; [injection Hp as <-; by left|].
  destruct (Z.ltb_spec maxBufferedChunkBytes i); cbn [orb] in Hp; [injection Hp as <-; by left|].
  destruct (Z.ltb_spec maxBufferedChunkBytes o); [injection Hp as <-; by left|].
  destruct (Z.ltb_spec o budget); cbn [andb] in Hp; [|injection Hp as <-; by left].
  set (win := Z.min prefetch (godiv (budget - o) (i + o))) in *.
  destruct (Z.leb_spec 2 win); [|injection Hp as <-; by left]. right.
  assert (cp_window p = win) as Hwin by (destruct z; [destruct zstd_NewReader|]; [discriminate|by injection Hp as <-..]).
  rewrite Hwin, Hi, Ho. subst win. unfold godiv in *. rewrite Z.quot_div_nonneg in * by lia.
  pose proof (Z.mul_div_le (budget - o) (i + o) ltac:(lia)). split_and!; [lia|lia| |lia|lia|lia].
  set (q := ((budget - o) / (i + o))%Z) in *. set (win := Z.min prefetch q) in *.
  assert (win <= q)%Z by lia. nia.
Qed.

(** ** The windowed and the sequential path *)

(** Where a file's chunks are delivered, the windowed reader and the
    sequential one write the same bytes, exactly the file's, and report the
    same count: prefetching is an optimisation only. *)
Theorem windowed_is_sequential {S} `{Downloader S} `{ZstdOk} (s : S) name p e b tw :
  lp_encoded e = true -> delivers s name e b ->
  caps_cover (cp_inputCap p) (cp_outputCap p) e -> w_accepts tw (length b) ->
  WriteTo s name p (lp_zstd e) (chunk_list e) 0 tw = copy_sequential s name e tw
  /\ copy_sequential s name e tw = (Ok (Z.of_nat (length b)), w_app tw b).
Proof.
  intros He Hd Hc Ha. rewrite (copy_sequential_ok s name e b tw He Hd Ha).
  by rewrite (WriteTo_delivers s name p e b tw He Hd Hc Ha).
Qed.

(** Two compressed chunks in an in-memory registry. *)
Definition chunk_a : bytes := bytes_of "abcd".
Definition chunk_b : bytes := bytes_of "ef".
Definition chunk_desc (b : bytes) : Descriptor :=
  blob_descriptor (ZstdMediaType MediaTypeGeneric) "f" 0 1 b.
Definition two_chunks : MemRegistry :=
  {| mr_blobs := <[("n", digest_of (pair_encode chunk_a)) := pair_encode chunk_a]>
                   {[ ("n", digest_of (pair_encode chunk_b)) := pair_encode chunk_b ]};
     mr_manifests := ∅; mr_room := None |}.
Definition two_chunk_plan : layerPlan :=
  {| lp_title := "f";
     lp_meta := {| sf_Mode := 420; sf_SparseMap := ""; sf_SparseSize := 0; sf_Size := 6; sf_Chunks := [] |};
     lp_layer := chunk_desc (pair_encode chunk_a);
     lp_chunks := Some [chunk_desc (pair_encode chunk_a); chunk_desc (pair_encode chunk_b)] |}.
Definition two_chunk_layers : list Descriptor := [chunk_desc (pair_encode chunk_a); chunk_desc (pair_encode chunk_b)].
Definition two_chunk_config : SnapshotConfig :=
  {| sc_SchemaVersion := "v2"; sc_SnapshotID := "id"; sc_Description := ""; sc_Image := "img"; sc_ImageDigest := "";
     sc_ImageType := ""; sc_ImageBlobIDs := ∅; sc_Hypervisor := "ch"; sc_CPU := 1; sc_Memory := 1; sc_Storage := 0;
     sc_NICs := 0; sc_Network := ""; sc_Windows := false;
     sc_Files := {[ "f" := {| sf_Mode := 420; sf_SparseMap := ""; sf_SparseSize := 0; sf_Size := 6;
                              sf_Chunks := d_Digest <$> two_chunk_layers |} ]};
     sc_Engine := None; sc_CreatedAt := "2026-01-02T03:04:05Z" |}.
Definition two_chunk_manifest : OCIManifest :=
  {| m_SchemaVersion := 2; m_MediaType := MediaTypeOCIManifest; m_ArtifactType := ArtifactTypeSnapshotV2;
     m_Config := sample_descriptor; m_Layers := two_chunk_layers; m_Manifests := []; m_Subject := None; m_Annotations := ∅ |}.
Definition two_chunk_entries : list layerPlan :=
  match planLayers two_chunk_config two_chunk_layers with Ok l => l | _ => []%list end.

Lemma fetch_in_bounds_witness :
  exists p e, newChunkPipeline two_chunk_entries 4 1000 = Ok p /\ e ∈ two_chunk_entries /\ fileWindow p e = 2%Z
  /\ Forall (fun d => 0 <= d_Size d <= cp_inputCap p)%Z (chunk_list e).
Proof.
  eexists _, _. split; [vm_compute; reflexivity|]. split; [apply list_elem_of_In; vm_compute; left; reflexivity|].
  split; [vm_compute; reflexivity|]. rewrite Forall_forall. intros d Hd.
  refine (fetch_in_bounds two_chunk_manifest two_chunk_config two_chunk_entries 4 1000 _ _ d _ _ _ _ _ Hd).
  - vm_compute. reflexivity.
  - vm_compute. reflexivity.
  - vm_compute. reflexivity.
  - apply list_elem_of_In; vm_compute; left; reflexivity.
  - vm_compute. discriminate.
Defined.

Lemma newChunkPipeline_budget_witness :
  exists p, newChunkPipeline two_chunk_entries 2 1000 = Ok p /\ cp_window p = 2%Z
  /\ (cp_window p * cp_inputCap p + (cp_window p + 1) * cp_outputCap p <= 1000)%Z.
Proof.
  eexists. split; [vm_compute; reflexivity|]. split; [reflexivity|].
  set (p := {| cp_window := _ |}).
  assert (newChunkPipeline two_chunk_entries 2 1000 = Ok p) as Hp by (vm_compute; reflexivity).
  destruct (newChunkPipeline_budget two_chunk_entries 2 1000 p Hp) as [Hz|(_ & Hb & _)];
    [discriminate Hz|exact Hb].
Defined.

Definition open_entry : tar_writer :=
  (tw_WriteHeader {| o_Name := "f"; o_Size := 6; o_Mode := 420; o_ModTime := noon; o_PAX := ∅ |} (tar_new None)).2.

Lemma two_chunks_ok b : b = chunk_a \/ b = chunk_b -> chunk_ok two_chunks "n" (chunk_desc (pair_encode b)) (pair_encode b).
Proof.
  intros [-> | ->]; (split; [done|]); eexists; (split; [vm_compute; reflexivity|by constructor]).
Qed.

Lemma two_chunk_delivers : delivers two_chunks "n" two_chunk_plan (chunk_a ++ chunk_b).
Proof.
  apply (del_zstd _ _ _ _ [chunk_desc (pair_encode chunk_a); chunk_desc (pair_encode chunk_b)]
           [pair_encode chunk_a; pair_encode chunk_b] [chunk_a; chunk_b]); try done.
  - constructor; [apply two_chunks_ok; auto|constructor; [apply two_chunks_ok; auto|constructor]].
  - constructor; [exact (zframe_all 0 chunk_a)|constructor; [exact (zframe_all 0 chunk_b)|constructor]].
  - repeat constructor; vm_compute; discriminate.
Qed.

Lemma windowed_is_sequential_witness :
  let p := {| cp_window := 2; cp_inputCap := 8; cp_outputCap := 6 |} in
  WriteTo two_chunks "n" p true (chunk_list two_chunk_plan) 0 open_entry = copy_sequential two_chunks "n" two_chunk_plan open_entry
  /\ copy_sequential two_chunks "n" two_chunk_plan open_entry = (Ok 6%Z, w_app open_entry (chunk_a ++ chunk_b)).
Proof.
  intros p. apply (windowed_is_sequential two_chunks "n" p two_chunk_plan (chunk_a ++ chunk_b) open_entry).
  - reflexivity.
  - exact two_chunk_delivers.
  - split; [repeat constructor; vm_compute; discriminate|intros _; vm_compute; discriminate].
  - split_and!; [reflexivity| |intros r; vm_compute; discriminate].
    eexists _, _, _. split; [reflexivity|vm_compute; lia].
Defined.

(** A concurrent run over the two chunks: the second is fetched first. *)
Definition two_chunk_pipe : chunkPipeline := {| cp_window := 2; cp_inputCap := 8; cp_outputCap := 6 |}.
Abbreviation two_chunk_step := (file_step two_chunks "n" two_chunk_pipe two_chunk_plan).
Definition two_chunk_end : state (W := tar_writer) :=
  St PClosed 2 [] [Consumed; Consumed] (CRet 6 None) 2 3 true false (w_app open_entry (chunk_a ++ chunk_b)).

Ltac fetch_next i t := eapply rtc_l; [eapply (step_fetch _ _ _ _ _ _ _ _ _ _ _ _ _ _ _ _ i); [reflexivity|t]|].

Lemma two_chunk_run : rtc two_chunk_step (file_start two_chunk_pipe two_chunk_plan open_entry) two_chunk_end.
Proof.
  assert (read_stage two_chunks "n" two_chunk_pipe two_chunk_plan 0 = inr (pair_encode chunk_a)) as H0 by (vm_compute; reflexivity).
  assert (read_stage two_chunks "n" two_chunk_pipe two_chunk_plan 1 = inr (pair_encode chunk_b)) as H1 by (vm_compute; reflexivity).
  assert (decode_stage two_chunk_pipe two_chunk_plan 0 (pair_encode chunk_a) = inr chunk_a) as D0 by (vm_compute; reflexivity).
  assert (decode_stage two_chunk_pipe two_chunk_plan 1 (pair_encode chunk_b) = inr chunk_b) as D1 by (vm_compute; reflexivity).
  unfold file_step, file_start, start. change (Z.to_nat (fileWindow two_chunk_pipe two_chunk_plan)) with 2.
  change (Z.to_nat (cp_window two_chunk_pipe)) with 2. change (lp_zstd two_chunk_plan) with true.
  change (length (chunk_list two_chunk_plan)) with 2. cbn [replicate].
  eapply rtc_l; [apply step_send; cbn; lia|]. eapply rtc_l; [apply step_spawn|]. eapply rtc_l; [apply step_recv|].
  eapply rtc_l; [apply step_send; cbn; lia|]. eapply rtc_l; [apply step_spawn|].
  fetch_next 1 ltac:(apply z_take_in). fetch_next 0 ltac:(apply z_take_in).
  fetch_next 1 ltac:(by apply z_read). fetch_next 0 ltac:(by apply z_read).
  fetch_next 1 ltac:(apply z_take_out). fetch_next 1 ltac:(apply z_decode; [exact D1|lia]).
  fetch_next 0 ltac:(apply z_take_out). fetch_next 0 ltac:(apply z_decode; [exact D0|lia]).
  eapply rtc_l; [apply step_got; reflexivity|]. eapply rtc_l; [eapply step_write; [reflexivity|lia]|].
  eapply rtc_l; [apply step_recv|]. eapply rtc_l; [apply step_got; reflexivity|].
  eapply rtc_l; [eapply step_write; [reflexivity|lia]|].
  eapply rtc_l; [apply step_close|]. eapply rtc_l; [apply step_done|]. apply rtc_refl.
Qed.

Lemma concurrent_WriteTo_witness :
  WriteTo two_chunks "n" two_chunk_pipe true (chunk_list two_chunk_plan) 0 open_entry
  = (Ok 6%Z, w_app open_entry (chunk_a ++ chunk_b)).
Proof.
  refine (concurrent_WriteTo two_chunks "n" two_chunk_pipe two_chunk_plan open_entry two_chunk_end 6 None
    _ two_chunk_run eq_refl eq_refl).
  repeat constructor; vm_compute; eexists; reflexivity.
Defined.

(** ** The plan *)

(** A layer streamed as it is. *)
Definition plain_layer (cfg : SnapshotConfig) (d : Descriptor) : bool :=
  (length (sf_Chunks (file_meta cfg (Title d))) =? 0) && negb (IsZstdMediaType (d_MediaType d)).
Definition plain_plan (cfg : SnapshotConfig) (d : Descriptor) : layerPlan :=
  {| lp_title := Title d; lp_meta := file_meta cfg (Title d); lp_layer := d; lp_chunks := None |}.
Definition encoded_titles (entries : list layerPlan) : list string := lp_title <$> List.filter lp_encoded entries.

Lemma plan_loop_shape cfg byD emitted layers entries :
  plan_loop cfg byD emitted layers = Ok entries ->
  List.filter (fun e => negb (lp_encoded e)) entries = plain_plan cfg <$> List.filter (plain_layer cfg) layers
  /\ NoDup (encoded_titles entries) /\ (forall t, t ∈ encoded_titles entries -> t ∉ emitted)
  /\ (forall d, d ∈ layers -> plain_layer cfg d = false -> Title d ∈ emitted \/ Title d ∈ encoded_titles entries).
Proof.
  revert emitted entries. induction layers as [|layer layers IH]; intros emitted entries H; cbn [plan_loop] in H.
  { injection H as <-. split_and!; try done; [constructor|..]; by intros ? ?%elem_of_nil. }
  fold (plain_layer cfg layer) in H. cbn [List.filter]. destruct (plain_layer cfg layer) eqn:Ep.
  - apply bind_Ok in H as (rest & Hr & [= <-]). destruct (IH _ _ Hr) as (H1 & H2 & H3 & H4).
    cbn [List.filter lp_encoded negb lp_chunks]. rewrite H1. split_and!; [done|done|done|].
    intros d Hd Hnp. apply elem_of_cons in Hd as [->|Hd]; [congruence|]. by apply H4.
  - case_bool_decide as Hin.
    + destruct (IH _ _ H) as (H1 & H2 & H3 & H4). split_and!; [done|done|done|].
      intros d Hd Hnp. apply elem_of_cons in Hd as [->|Hd]; [by left|by apply H4].
    + apply bind_Ok in H as (descs & Hdescs & H). apply bind_Ok in H as (rest & Hr & [= <-]).
      destruct (IH _ _ Hr) as (H1 & H2 & H3 & H4). unfold encoded_titles in *. cbn [List.filter lp_encoded negb lp_chunks fmap list_fmap].
      split_and!; [done| | |].
      * constructor; [|done]. intros Ht. apply (H3 _ Ht). set_solver.
      * intros t Ht. apply elem_of_cons in Ht as [->|Ht]; [done|]. specialize (H3 t Ht). set_solver.
      * intros d Hd Hnp. apply elem_of_cons in Hd as [->|Hd]; [right; constructor|].
        destruct (H4 d Hd Hnp) as [Ht|Ht]; [|right; by constructor].
        apply elem_of_union in Ht as [->%elem_of_singleton|?]; [right; constructor|by left].
Qed.

(** C21: the plan streams every layer of a file that is neither chunked nor
    compressed, in manifest order, and every chunked or compressed file
    exactly once, however many layers carry its title. *)
Theorem planLayers_once cfg layers entries :
  planLayers cfg layers = Ok entries ->
  List.filter (fun e => negb (lp_encoded e)) entries = plain_plan cfg <$> List.filter (plain_layer cfg) layers
  /\ NoDup (encoded_titles entries)
  /\ (forall t, t ∈ encoded_titles entries <-> exists d, d ∈ layers /\ plain_layer cfg d = false /\ Title d = t).
Proof.
  intros H. unfold planLayers in H. destruct (plan_loop_shape _ _ _ _ _ H) as (H1 & H2 & _ & H4). split_and!; [done|done|].
  intros t. split; [|intros (d & Hd & Hp & <-); destruct (H4 d Hd Hp) as [?%not_elem_of_empty|?]; done].
  clear H1 H2 H4. revert H. generalize (by_digest layers). intros byD. generalize (∅ : gset string). revert entries.
  induction layers as [|layer layers IH]; intros entries emitted H Ht; cbn [plan_loop] in H.
  { injection H as <-. by apply elem_of_nil in Ht. }
  fold (plain_layer cfg layer) in H.
  assert (forall d, d ∈ layers /\ plain_layer cfg d = false /\ Title d = t ->
            exists d, d ∈ layer :: layers /\ plain_layer cfg d = false /\ Title d = t) as Hup.
  { intros d (? & ? & ?). exists d. split_and!; [by constructor|done|done]. }
  destruct (plain_layer cfg layer) eqn:Ep.
  - apply bind_Ok in H as (rest & Hr & [= <-]). destruct (IH _ _ Hr Ht) as [d Hd]. by apply (Hup d).
  - case_bool_decide; [destruct (IH _ _ H Ht) as [d Hd]; by apply (Hup d)|].
    apply bind_Ok in H as (descs & _ & H). apply bind_Ok in H as (rest & Hr & [= <-]).
    unfold encoded_titles in Ht. cbn [List.filter lp_encoded lp_chunks fmap list_fmap lp_title] in Ht.
    apply elem_of_cons in Ht as [->|Ht]; [exists layer; split_and!; [constructor|done|done]|].
    destruct (IH _ _ Hr Ht) as [d Hd]. by apply (Hup d).
Qed.

Lemma planLayers_once_witness :
  let entries := match planLayers (pp_config sample_plan) (m_Layers (pp_manifest sample_plan)) with Ok l => l | _ => [] end in
  List.filter (fun e => negb (lp_encoded e)) entries
    = plain_plan (pp_config sample_plan) <$> List.filter (plain_layer (pp_config sample_plan)) (m_Layers (pp_manifest sample_plan)).
Proof.
  intros entries.
  refine (proj1 (planLayers_once (pp_config sample_plan) (m_Layers (pp_manifest sample_plan)) entries _)).
  vm_compute. reflexivity.
Defined.

(** ** The config blob *)

(** Reading the config never takes more than 64 MiB, whatever size the
    manifest declares: on any body that ends in [io.EOF], the config is the
    decoded blob when it is no longer than the cap and an error otherwise. *)
Theorem FetchSnapshotConfig_capped {S} `{Downloader S} (s : S) name desc body :
  GetBlob s name (d_Digest desc) = Ok body -> fate body = EOF -> ends_once body = true ->
  d_MediaType desc = MediaTypeSnapshotConfig -> (d_Size desc <= maxSnapshotConfigSize)%Z ->
  FetchSnapshotConfig s name desc =
    if (maxSnapshotConfigSize <? Z.of_nat (length (content body)))%Z then
      Err (Enew ("config blob exceeded cap " +:+ formatInt maxSnapshotConfigSize +:+ " while streaming"))
    else wrap "parse snapshot config" (unmarshal SnapshotConfig_unmarshal (content body)).
Proof.
  intros Hg Hf Ho Hm Hs. unfold FetchSnapshotConfig. rewrite Hm, String.eqb_refl. cbn [negb].
  destruct (Z.ltb_spec maxSnapshotConfigSize (d_Size desc)); [lia|]. rewrite Hg. cbn [wrap mbind result_bind].
  rewrite read_all_limited_good by done. cbn [wrap mbind result_bind]. rewrite length_take.
  destruct (Z.ltb_spec maxSnapshotConfigSize (Z.of_nat (length (content body)))) as [Hl|Hl].
  - destruct (Z.ltb_spec maxSnapshotConfigSize (Z.of_nat (Nat.min (Z.to_nat (maxSnapshotConfigSize + 1)) (length (content body))))); [done|lia].
  - destruct (Z.ltb_spec maxSnapshotConfigSize (Z.of_nat (Nat.min (Z.to_nat (maxSnapshotConfigSize + 1)) (length (content body))))); [lia|].
    by rewrite take_ge by lia.
Qed.

Definition config_only : MemRegistry :=
  {| mr_blobs := {[ ("n", digest_of (config_blob sample_config)) := config_blob sample_config ]};
     mr_manifests := ∅; mr_room := None |}.

Lemma FetchSnapshotConfig_capped_witness :
  FetchSnapshotConfig config_only "n" (config_descriptor sample_config)
  = wrap "parse snapshot config" (unmarshal SnapshotConfig_unmarshal (config_blob sample_config)).
Proof.
  pose proof (body_script_good (length (config_blob sample_config)) (config_blob sample_config) ltac:(done)) as [Hc Hf Ho _].
  refine (eq_trans (FetchSnapshotConfig_capped config_only "n" (config_descriptor sample_config)
            (body_script (length (config_blob sample_config)) (config_blob sample_config)) _ Hf Ho eq_refl _) _).
  - vm_compute. reflexivity.
  - vm_compute. discriminate.
  - rewrite Hc. vm_compute. reflexivity.
Defined.

(** ** An engine that is null *)

(** A config blob whose engine is [null]. *)
Definition null_engine_blob : bytes := bytes_of (marshal (JObj [("engine", JNull)])).

(** C23: a config blob with [engine] set to [null] makes a stream panic: the
    engine decodes to a nil map and its [name] is assigned.  The config is
    accepted before that, and nothing has been written. *)
Theorem stream_null_engine_panics {S} `{Downloader S} `{Zstd} (s : S) opts now m body room :
  so_Name opts <> "" -> so_Writer opts = Some room -> m_Layers m = [] ->
  d_MediaType (m_Config m) = MediaTypeSnapshotConfig -> (d_Size (m_Config m) <= maxSnapshotConfigSize)%Z ->
  GetBlob s (so_Name opts) (d_Digest (m_Config m)) = Ok body -> good_body body null_engine_blob ->
  StreamParsed s opts now m = (Panic "assignment to entry in nil map", tar_new (sink_reach room)).
Proof.
  intros Hn Hw Hl Hm Hs Hg [Hc Hf Ho _]. unfold StreamParsed, StreamParsed_by. apply String.eqb_neq in Hn as ->. rewrite Hw.
  assert (exists cfg, FetchSnapshotConfig s (so_Name opts) (m_Config m) = Ok cfg /\ sc_Engine cfg = Some JNull
            /\ sc_Files cfg = ∅) as (cfg & Ecfg & He & Hfiles).
  { unfold FetchSnapshotConfig. rewrite Hm, String.eqb_refl. cbn [negb].
    destruct (Z.ltb_spec maxSnapshotConfigSize (d_Size (m_Config m))); [lia|]. rewrite Hg. cbn [wrap mbind result_bind].
    rewrite read_all_limited_good, Hc by done. cbn [wrap mbind result_bind].
    assert (length null_engine_blob = 15) as Hlen by reflexivity.
    rewrite take_ge by (rewrite Hlen; unfold maxSnapshotConfigSize; lia).
    rewrite Hlen. cbn [Z.of_nat Z.ltb]. unfold null_engine_blob. rewrite unmarshal_marshal by reflexivity.
    eexists. split; [reflexivity|]. by split. }
  unfold mbind, M_bind, lift. rewrite Ecfg. cbn [wrap].
  assert (validateSnapshotLayers m cfg = Ok ()) as ->.
  { apply validate_spec. rewrite Hl, Hfiles. split; [constructor|]. intros _. apply map_Forall_empty. }
  unfold writeImportTar_by, mbind, M_bind, lift, planLayers. rewrite Hl. cbn [plan_loop].
  unfold MarshalEnvelope, exportEnvelope. rewrite He. reflexivity.
Qed.

Definition null_engine_manifest : OCIManifest :=
  {| m_SchemaVersion := 2; m_MediaType := MediaTypeOCIManifest; m_ArtifactType := ArtifactTypeSnapshot;
     m_Config := {| d_MediaType := MediaTypeSnapshotConfig; d_Digest := digest_of null_engine_blob; d_Size := 15;
                    d_Annotations := ∅; d_ArtifactType := "" |};
     m_Layers := []; m_Manifests := []; m_Subject := None; m_Annotations := ∅ |}.

Lemma stream_null_engine_panics_witness :
  StreamParsed {| mr_blobs := {[ ("team/vm", digest_of null_engine_blob) := null_engine_blob ]};
                  mr_manifests := ∅; mr_room := None |} sample_stream noon null_engine_manifest
  = (Panic "assignment to entry in nil map", tar_new (sink_reach unbounded)).
Proof.
  eapply stream_null_engine_panics.
  - discriminate.
  - reflexivity.
  - reflexivity.
  - reflexivity.
  - vm_compute. discriminate.
  - vm_compute. reflexivity.
  - by constructor.
Defined.

(** ** Image indexes *)

Definition is_amd64 (c : IndexManifest) : bool :=
  match im_Platform c with
  | Some p => String.eqb (pf_OS p) "linux" && String.eqb (pf_Architecture p) "amd64"
  | None => false
  end.

(** An image index streams as its first linux/amd64 child, and is an
    error when it has none or the child is not a snapshot. *)
Theorem stream_index_child {S} `{Downloader S} `{Zstd} (s : S) opts now raw m :
  Parse raw = Ok m -> ClassifyParsed m = KindImageIndex -> so_Name opts <> "" ->
  match find is_amd64 (m_Manifests m) with
  | None => is_ok (Stream s opts now raw).1 = false
  | Some c =>
      forall childRaw ct m', GetManifest s (so_Name opts) (im_Digest c) = Ok (childRaw, ct) -> Parse childRaw = Ok m' ->
        if bool_decide (ClassifyParsed m' = KindSnapshot) then Stream s opts now raw = StreamParsed s opts now m'
        else is_ok (Stream s opts now raw).1 = false
  end.
Proof.
  intros Hp Hk Hn. unfold Stream, Stream_by. apply String.eqb_neq in Hn as ->. unfold resolve_manifest. rewrite Hp.
  cbn [wrap mbind result_bind]. rewrite Hk, bool_decide_true by done. unfold pickIndexChild.
  change (fun c : IndexManifest => match im_Platform c with Some p => _ | None => false end) with is_amd64.
  destruct (find is_amd64 (m_Manifests m)) as [c|]; cbn [mbind result_bind]; [|done].
  intros childRaw ct m' Hg Hp'. rewrite Hg. cbn [wrap mbind result_bind]. rewrite Hp'. cbn [wrap mbind result_bind].
  by case_bool_decide.
Qed.

Definition index_manifest : OCIManifest :=
  {| m_SchemaVersion := 2; m_MediaType := MediaTypeOCIIndex; m_ArtifactType := "";
     m_Config := {| d_MediaType := ""; d_Digest := ""; d_Size := 0; d_Annotations := ∅; d_ArtifactType := "" |};
     m_Layers := [];
     m_Manifests := [ {| im_MediaType := ""; im_Digest := "a"; im_Size := 1; im_Platform := None |};
                      {| im_MediaType := ""; im_Digest := "latest"; im_Size := 1;
                         im_Platform := Some {| pf_Architecture := "amd64"; pf_OS := "linux"; pf_OSVersion := ""; pf_Variant := "" |} |} ];
     m_Subject := None; m_Annotations := ∅ |}.

Lemma stream_index_child_witness :
  Stream sample_after sample_stream noon (manifest_bytes index_manifest)
  = StreamParsed sample_after sample_stream noon (pp_manifest sample_plan).
Proof.
  assert (Parse (manifest_bytes index_manifest) = Ok index_manifest) as Hp by (vm_compute; reflexivity).
  assert (GetManifest sample_after "team/vm" "latest" = Ok (manifest_bytes (pp_manifest sample_plan), MediaTypeOCIManifest)) as Hg
    by (vm_compute; reflexivity).
  assert (Parse (manifest_bytes (pp_manifest sample_plan)) = Ok (pp_manifest sample_plan)) as Hp'
    by (apply Parse_read_back, sample_restorable).
  exact (stream_index_child sample_after sample_stream noon (manifest_bytes index_manifest) index_manifest
           Hp eq_refl ltac:(discriminate) _ _ _ Hg Hp').
Defined.
