(* ===== verification/Envelope.v ===== *)
(** * Envelope: the snapshot.json of an import stream

    [MarshalEnvelope] decodes the engine's config into a [map[string]any],
    sets its name and prints it.  What it keeps is stated on the text it
    prints, read back: a JSON value is looked into by a path of member names
    and element numbers, and what is found there is compared with what was
    there before.  None of this mentions how the values pass through Go. *)

From Stdlib Require Import ZArith Lia Ascii String.
From stdpp Require Import base gmap strings list.
From S2P Require Import Prelude GoStrings Json Manifest Snapshot SnapshotPull.

Local Open Scope string_scope.

(** ** Looking into a value *)

Inductive json_step := Member (k : string) | Elem (i : nat).

(** The last member of an object under a key. *)
Definition last_member (k : string) (l : list (string * json)) : option json :=
  foldl (fun acc kv => if String.eqb kv.1 k then Some kv.2 else acc) None l.

Fixpoint json_at (path : list json_step) (j : json) : option json :=
  match path, j with
  | [], _ => Some j
  | Member k :: path', JObj l => last_member k l ≫= json_at path'
  | Elem i :: path', JArr l => l !! i ≫= json_at path'
  | _, _ => None
  end.

(** What a value is, without what is inside it. *)
Inductive json_leaf := LNull | LBool (b : bool) | LNum (lit : string) | LStr (s : string) | LArr (len : nat) | LObj.

Definition leaf (j : json) : json_leaf :=
  match j with
  | JNull => LNull
  | JBool b => LBool b
  | JNum lit => LNum lit
  | JStr s => LStr s
  | JArr l => LArr (length l)
  | JObj _ => LObj
  end.

Definition leaf_at (path : list json_step) (j : json) : option json_leaf := leaf <$> json_at path j.

Lemma leaf_at_member k path l : leaf_at (Member k :: path) (JObj l) = last_member k l ≫= leaf_at path.
Proof. unfold leaf_at. cbn [json_at]. by destruct (last_member k l). Qed.

Lemma leaf_at_elem i path l : leaf_at (Elem i :: path) (JArr l) = l !! i ≫= leaf_at path.
Proof. unfold leaf_at. cbn [json_at]. by destruct (l !! i). Qed.

(** ** Members of maps *)

Lemma last_member_in k l j : last_member k l = Some j -> (k, j) ∈ l.
Proof.
  unfold last_member. enough (forall acc, foldl (fun acc kv => if String.eqb kv.1 k then Some kv.2 else acc) acc l = Some j ->
    (k, j) ∈ l \/ acc = Some j) as Hl by (intros H; by destruct (Hl None H)).
  induction l as [|[k' j'] l IH]; intros acc; cbn [foldl fst snd]; [by right|]. intros [Hin|Hacc]%IH; [left; by right|].
  destruct (String.eqb_spec k' k) as [->|]; [|by right]. injection Hacc as ->. left. by left.
Qed.

Lemma last_member_unique k j l : NoDup (l.*1) -> (k, j) ∈ l -> last_member k l = Some j.
Proof.
  unfold last_member. intros Hnd Hin. generalize (@None json). induction l as [|[k' j'] l IH]; [by apply elem_of_nil in Hin|].
  cbn in Hnd. apply NoDup_cons in Hnd as [Hk Hnd]. intros acc. cbn [foldl fst snd].
  apply elem_of_cons in Hin as [[= -> ->]|Hin]; [|by apply IH]. rewrite String.eqb_refl. clear IH Hnd.
  induction l as [|[k2 j2] l IH]; [done|]. cbn [foldl fst snd]. cbn in Hk. apply not_elem_of_cons in Hk as [Hne Hk].
  apply not_eq_sym, String.eqb_neq in Hne as ->. by apply IH.
Qed.

Lemma last_member_map (m : gmap string json) k :
  last_member k ((fun kv => (kv.1, id kv.2)) <$> sorted_entries m) = m !! k.
Proof.
  assert ((fun kv : string * json => (kv.1, id kv.2)) <$> sorted_entries m = sorted_entries m) as ->.
  { rewrite <- (list_fmap_id (sorted_entries m)) at 2. apply list_fmap_ext. by intros i [] _. }
  pose proof (sorted_entries_perm m) as Hp. destruct (last_member k _) as [j|] eqn:E.
  - apply last_member_in in E. rewrite Hp in E. by apply elem_of_map_to_list in E.
  - destruct (m !! k) as [j|] eqn:Em; [|done]. rewrite (last_member_unique k j) in E; [done|..].
    + rewrite Hp. apply NoDup_fst_map_to_list.
    + rewrite Hp. by apply elem_of_map_to_list.
Qed.

(** ** Through [any] *)

(** The map an object is decoded into. *)
Definition any_map (l : list (string * json)) : gmap string json :=
  foldl (fun m kv => <[kv.1 := kv.2]> m) ∅ (map (fun kv => (kv.1, any_of_json kv.2)) l).

Lemma any_map_lookup k l : any_map l !! k = any_of_json <$> last_member k l.
Proof.
  unfold any_map, last_member. assert ((∅ : gmap string json) !! k = any_of_json <$> None) as Hm by apply lookup_empty. revert Hm.
  generalize (∅ : gmap string json), (@None json). induction l as [|[k' j] l IH]; intros m acc Hm; [done|]. cbn [map foldl fst snd]. apply IH.
  destruct (String.eqb_spec k' k) as [->|Hne]; [apply lookup_insert_eq|]. by rewrite lookup_insert_ne.
Qed.

Lemma any_of_json_leaf path j : leaf_at path (any_of_json j) = leaf_at path j.
Proof.
  revert j. induction path as [|[k|i] path IH]; intros j.
  - unfold leaf_at. cbn. f_equal. destruct j; cbn; try done. by rewrite length_map.
  - destruct j as [| | | |l|l]; try done. cbn [any_of_json]. fold (any_map l). unfold e_map. rewrite !leaf_at_member, last_member_map, any_map_lookup.
    destruct (last_member k l); [apply IH|done].
  - destruct j as [| | | |l|l]; try done. cbn [any_of_json]. rewrite !leaf_at_elem. change (map any_of_json l) with (any_of_json <$> l).
    rewrite list_lookup_fmap. destruct (l !! i); [apply IH|done].
Qed.

Lemma any_map_ok l :
  Forall (fun kv => json_ok (snd kv) = true -> json_ok (any_of_json (snd kv)) = true) l -> json_ok (JObj l) = true ->
  forall k j, any_map l !! k = Some j -> utf8_ok 0 k = true /\ json_ok j = true.
Proof.
  intros HF Hok k j Hj. rewrite any_map_lookup in Hj. destruct (last_member k l) as [j'|] eqn:E; [|done]. injection Hj as <-.
  apply last_member_in in E. rewrite Forall_forall in HF. specialize (HF _ E). cbn in Hok, HF.
  apply list_elem_of_In in E. rewrite forallb_forall in Hok. by apply Hok, andb_true_iff in E as [? ?%HF].
Qed.

Lemma any_of_json_ok j : json_ok j = true -> json_ok (any_of_json j) = true.
Proof.
  induction j as [|b|lit|s|l HF|l HF] using json_rect_nested; intros Hok; try done.
  - cbn in *. rewrite forallb_forall in *. intros x (y & <- & Hy)%in_map_iff. rewrite Forall_forall in HF.
    apply HF; [by apply list_elem_of_In|auto].
  - cbn [any_of_json]. fold (any_map l). apply json_ok_map. by apply any_map_ok.
Qed.

(** C22: the import envelope keeps the engine's config. The bytes written to
    the stream are the JSON of version 1 and a config with the local name
    under [name]; looked into along any other path, the config has what the
    object exported at push time has there: the same number literal (however
    large), string, boolean or null, an array of the same length, an object,
    or nothing. Members this program does not know are included. *)
Theorem exportEnvelope_keeps_engine cfg l localName :
  sc_Engine cfg = Some (JObj l) -> json_ok (JObj l) = true -> utf8_ok 0 localName = true ->
  exists data j,
    MarshalEnvelope cfg localName = Ok data /\ parse_json (string_of data) = Some j
    /\ leaf_at [Member "version"] j = Some (LNum "1")
    /\ leaf_at [Member "config"; Member "name"] j = Some (LStr localName)
    /\ forall k path, k <> "name" -> leaf_at (Member "config" :: Member k :: path) j = leaf_at (Member k :: path) (JObj l).
Proof.
  intros He Hok Hn. unfold MarshalEnvelope, exportEnvelope. rewrite He. cbn [engine_map wrap mbind result_bind].
  fold (any_map l). set (m := <["name" := JStr localName]> (any_map l)).
  set (j := envelope_json (EnvEngine {| eev_Version := 1; eev_Config := m |})). exists (bytes_of (marshal_indent j) ++ newline)%list, j.
  assert (json_ok j = true) as Hj.
  { apply json_ok_obj; [done|]. repeat constructor. change (json_ok (e_map id m) = true). apply json_ok_map. intros k a. unfold m. rewrite lookup_insert_Some.
    intros [[<- <-]|[_ Ha]]; [done|]. apply (any_map_ok l) with (k := k); [|done..]. apply Forall_forall. intros kv _. apply any_of_json_ok. }
  assert (string_of (bytes_of (marshal_indent j) ++ newline) = marshal_indent j +:+ String "010" "") as Htext.
  { apply (inj bytes_of). by rewrite bytes_of_string_of, bytes_of_append. }
  split; [done|]. split.
  { rewrite Htext. unfold marshal_indent. rewrite parse_json_space, coerced_valid by (done || by apply json_ok_nums). done. }
  assert (forall k path, leaf_at (Member "config" :: Member k :: path) j = m !! k ≫= leaf_at path) as Hat.
  { intros k path. transitivity (leaf_at (Member k :: path) (e_map id m)); [done|]. unfold e_map. by rewrite leaf_at_member, last_member_map. }
  split_and!; [done|by rewrite Hat; unfold m; rewrite lookup_insert_eq|].
  intros k path Hk. rewrite Hat, leaf_at_member. unfold m. rewrite lookup_insert_ne, any_map_lookup by done.
  destruct (last_member k l); [apply any_of_json_leaf|done].
Qed.

(** A number past the floats, nested members, a repeated key. *)
Definition sample_engine : list (string * json) :=
  [("id", JStr "old"); ("mem", JNum "9007199254740993"); ("net", JObj [("macs", JArr [JStr "aa"; JNull])]); ("id", JStr "new"); ("name", JStr "a")].

Lemma exportEnvelope_keeps_engine_witness :
  let cfg := {| sc_SchemaVersion := "v2"; sc_SnapshotID := ""; sc_Description := ""; sc_Image := ""; sc_ImageDigest := "";
                sc_ImageType := ""; sc_ImageBlobIDs := ∅; sc_Hypervisor := ""; sc_CPU := 0; sc_Memory := 0; sc_Storage := 0;
                sc_NICs := 0; sc_Network := ""; sc_Windows := false; sc_Files := ∅; sc_Engine := Some (JObj sample_engine);
                sc_CreatedAt := "" |} in
  exists data j,
    MarshalEnvelope cfg "copy" = Ok data /\ parse_json (string_of data) = Some j
    /\ leaf_at [Member "config"; Member "name"] j = Some (LStr "copy")
    /\ leaf_at [Member "config"; Member "mem"] j = Some (LNum "9007199254740993")
    /\ leaf_at [Member "config"; Member "id"] j = Some (LStr "new")
    /\ leaf_at [Member "config"; Member "net"; Member "macs"; Elem 0] j = Some (LStr "aa").
Proof.
  intros cfg. destruct (exportEnvelope_keeps_engine cfg sample_engine "copy" eq_refl eq_refl eq_refl) as (data & j & Hd & Hj & _ & Hn & Hk).
  exists data, j. split_and!; [exact Hd|exact Hj|exact Hn|..]; (rewrite Hk; [reflexivity|discriminate]).
Defined.
