(* ===== verification/Concurrent.v ===== *)
(** * Concurrent: whole pushes and whole streams with their goroutines

    [PushPool] and [Pipeline] are the two goroutine pools on their own; here
    they run inside [Push] and [Stream].  A stream's schedule is a way of
    copying each encoded file, a [copy] for the functions of [SnapshotPull]
    that take one: whatever a finished run of the file's goroutines has
    written.  A push is a relation, [Push_runs]: some run of the upload pool,
    the caller's context cancelled at any moment, then the config and the
    manifest, requests to the registry failing as they like once it is.

    The theorems are those of the sequential functions, for every run: what a
    push leaves in the registry, and that what it has published streams back
    whole. *)

From Stdlib Require Import ZArith Lia Ascii String.
From stdpp Require Import base gmap strings list relations.
From S2P Require Import Prelude GoStrings Sha256 Json Manifest GoIO OciUtil Registry Tar Zstd Snapshot SnapshotPush PushSpec PushSafe PushPool SnapshotPull Pipeline PullSpec PullPipeline RoundTrip Samples PushRun PullProps.

Local Open Scope string_scope.
Local Open Scope nat_scope.

(** ** Streams *)

Section streams.
Context {S : Type} `{Downloader S} `{ZstdOk} (s : S) (name : string).

(** What copying a file may do: read its chunks one after the other or, when
    it has a window, what a finished run of the producer, the fetches and the
    consumer has done. [cancellable]: the caller's context may be cancelled
    during the run. *)
Inductive copy_runs (cancellable : bool) (p : chunkPipeline) (e : layerPlan) (tw : tar_writer)
  : result Z * tar_writer -> Prop :=
  | run_sequential :
      (fileWindow p e < 2)%Z -> copy_runs cancellable p e tw (copy_sequential s name e tw)
  | run_windowed st wr err :
      (2 <= fileWindow p e)%Z -> rtc (file_step s name p e) (file_start p e tw) st -> s_cons st = CRet wr err ->
      (cancellable = false -> s_external st = false) ->
      copy_runs cancellable p e tw (match err with None => Ok wr | Some er => Err er end, s_dst st).

(** No fetch of the file panics (a panic ends the program). *)
Definition quiet (p : chunkPipeline) (e : layerPlan) : Prop :=
  (2 <= fileWindow p e)%Z -> Forall (fun d => never_panics (fetch s name p d (lp_zstd e))) (chunk_list e).

(** A schedule of the goroutines of every file. *)
Definition scheduled (cancellable : bool) (copy : chunkPipeline -> layerPlan -> M tar_writer Z) : Prop :=
  forall p e tw, quiet p e -> copy_runs cancellable p e tw (copy p e tw).

Lemma delivered_quiet p e b :
  lp_encoded e = true -> delivers s name e b -> (buffered e = true -> caps_cover (cp_inputCap p) (cp_outputCap p) e) -> quiet p e.
Proof.
  intros Henc Hd Hcov Hw. destruct (fetch_delivers s name p e b Henc Hd) as (bs & HF & _).
  { by apply Hcov, (windowed_buffered p). }
  apply Forall_lookup. intros i d Hi. destruct (Forall2_lookup_l _ _ _ _ _ HF Hi) as (x & _ & E). rewrite E. by eexists.
Qed.

(** Without a cancellation every schedule writes what is delivered. *)
Lemma scheduled_copies copy : scheduled false copy -> copies s name copy.
Proof.
  intros Hs p e b tw Henc Hd Hcov Ha. pose proof (delivered_quiet p e b Henc Hd Hcov) as Hq.
  destruct (Hs p e tw Hq) as [Hw|st wr err Hw Hr Hc Hx]; [by apply copy_sequential_ok|].
  rewrite <- (finished_WriteTo s name p e tw st wr err (Hq Hw) Hr Hc (Hx eq_refl)).
  apply WriteTo_delivers; [done|done| |done]. by apply Hcov, (windowed_buffered p).
Qed.

(** The window of a file is within the pipeline's. *)
Lemma fileWindow_pool p e : (2 <= fileWindow p e)%Z -> (fileWindow p e <= cp_window p)%Z.
Proof. unfold fileWindow. destruct (_ || _); lia. Qed.

(** Fetching one chunk after the other is one of the schedules. *)
Lemma copy_file_scheduled cancellable : scheduled cancellable (copy_file s name).
Proof.
  intros p e tw Hq. unfold copy_file. destruct (Z.leb_spec 2 (fileWindow p e)) as [Hw|Hw]; [|by apply run_sequential].
  pose proof (fileWindow_pool p e Hw) as Hle.
  destruct (uncancelled_run (length (chunk_list e)) (lp_zstd e) (read_stage s name p e) (decode_stage p e)
              (Z.to_nat (fileWindow p e)) (Z.to_nat (cp_window p)) tw (file_start p e tw)) as (st & Hr & Hx & Hret);
    [lia|lia|by exists 0; apply inv_start|].
  unfold returned in Hret. destruct (s_cons st) as [| | | | |wr err] eqn:Ec; try done.
  rewrite (finished_WriteTo s name p e tw st wr err (Hq Hw) Hr Ec Hx). by eapply run_windowed.
Qed.

(** C12: a cancellation cannot cut a file short unnoticed. Whatever the
    interleaving of the goroutines and whenever the caller's context is
    cancelled, a file whose chunks the registry delivers is reported as
    streamed only when exactly its bytes were written: [WriteTo] itself may
    return no error after some of the chunks, and it is the check of the
    count against the size in the config that notices. *)
Theorem cancelled_never_truncates copy p e b now tw done tw' :
  scheduled true copy -> lp_encoded e = true -> delivers s name e b ->
  (buffered e = true -> caps_cover (cp_inputCap p) (cp_outputCap p) e) ->
  hasSuffix (lp_title e) "/" = false -> tw_ready tw done ->
  streamFile_by copy p e now tw = (Ok (), tw') ->
  exists hdr, entry_header e now = Ok hdr /\ tw_ready tw' (done ++ [(hdr, b)]).
Proof.
  intros Hs Henc Hd Hcov Hsl Hready Hrun. unfold streamFile_by in Hrun. pose proof (delivers_size s name e b Henc Hd) as Hsize.
  apply M_bind_Ok in Hrun as (hdr & t0 & [Hh ->]%lift_Ok & Hrun). apply M_bind_Ok in Hrun as ([] & t & Hw%wrapM_Ok & Hrun).
  apply M_bind_Ok in Hrun as (n & t1 & Hc%wrapM_Ok & Hrun). destruct (layerHeader_fields _ _ _ _ _ Hh) as [Hn Hz].
  destruct (tw_entry tw done hdr b Hready (WriteHeader_encodable _ _ _ Hw)) as (t' & Ew & Ha & Hr); [by rewrite Hn|congruence|].
  rewrite Ew in Hw. injection Hw as ->. exists hdr. split; [unfold entry_header; by rewrite Henc|].
  assert (n = Z.of_nat (length b) /\ tw' = t1) as [-> ->].
  { rewrite Hsize in Hrun. destruct (Z.eqb_spec n (Z.of_nat (length b))); [|done]. by injection Hrun as <-. }
  enough (t1 = w_app t b) as -> by done.
  pose proof (delivered_quiet p e b Henc Hd Hcov) as Hq.
  pose proof (Hs p e t Hq) as Hcr. rewrite Hc in Hcr. inversion Hcr as [Hlt Heq|st wr err Hwin Hrt Hcons _ Heq]; subst.
  - rewrite (copy_sequential_ok s name e b t Henc Hd Ha) in Heq. by injection Heq.
  - destruct err; [done|]. injection Heq as ->.
    destruct (fetch_delivers s name p e b Henc Hd) as (bs & HF & ->); [by apply Hcov, (windowed_buffered p)|].
    destruct (cut_WriteTo s name p e t st _ bs HF Ha Hrt Hcons) as (k & Hlen & ->). f_equal.
    apply Nat2Z.inj in Hlen. pose proof (take_drop k bs) as Hb. rewrite <- Hb in Hlen at 1. rewrite concat_app, length_app in Hlen.
    rewrite <- Hb at 2. rewrite concat_app. assert (concat (drop k bs) = []) as -> by (apply length_zero_iff_nil; lia).
    by rewrite app_nil_r.
Qed.

End streams.

(** ** Pushes *)

(** The groups of the read loop, with the descriptors the goroutines have
    put in their slots; an empty slot is the zero descriptor. *)
Fixpoint fill (groups : list chunkGroup) (slots : list (option Descriptor)) : list chunkGroup :=
  match groups with
  | [] => []
  | g :: gs =>
      let n := length (cg_descs g) in
      {| cg_name := cg_name g; cg_descs := default Descriptor_zero <$> take n slots |} :: fill gs (drop n slots)
  end.

(** What [readAndUploadEntries] returns after [eg.Wait]. *)
Definition collected (acc : loop_acc) (slots : list (option Descriptor)) : uploadedEntries :=
  let groups := fill (la_groups acc) slots in
  {| ue_cfg := la_cfg acc;
     ue_files := fold_left record_chunks groups (la_files acc);
     ue_layers := concat (cg_descs <$> groups);
     ue_encoded := la_encoded acc |}.

Section pushes.
Context {S : Type} `{RegistryOk S} `{Zstd} `{CocoonRunner}.
Context (env : PushEnv) (opts : PushOptions).

Abbreviation name := (po_Name opts).

(** [readAndUploadEntries] in any interleaving, over the stream of [entries]
    or one that breaks off. *)
Inductive upload_runs (entries : list (tar_header * bytes)) (s : S) : result uploadedEntries -> S -> Prop :=
  | upload_params e : pipelineParams opts = Err e -> upload_runs entries s (Err e) s
  | upload_encoder w c e :
      pipelineParams opts = Ok (w, c) -> (0 < po_ZstdLevel opts)%Z -> (0 < c)%Z -> zstd_NewWriter (po_ZstdLevel opts) = Some e ->
      upload_runs entries s (Err (Ewrap "init zstd encoder" e)) s
  | upload_failed_run w c gap read rewind st e :
      pipelineParams opts = Ok (w, c) ->
      PushPool.reachable name (Z.to_nat w) (stream_jobs opts c entries) gap read rewind s st -> p_main st = MRet (Some e) ->
      upload_runs entries s (Err e) (p_reg st)
  | upload_done w c gap read rewind st acc :
      pipelineParams opts = Ok (w, c) -> spec_stream opts c entries loop_init = Ok acc ->
      PushPool.reachable name (Z.to_nat w) (stream_jobs opts c entries) gap read rewind s st -> p_main st = MRet None ->
      upload_runs entries s (Ok (collected acc (p_descs st))) (p_reg st).

(** [putBlobIfMissing] of bytes in memory; [cn]: the context is done. *)
Inductive put_runs (b : bytes) (s : S) : option error -> S -> Prop :=
  | put_there cn s' : probe name b cn s (inr true) s' -> put_runs b s None s'
  | put_unknown cn e s' : probe name b cn s (inl e) s' -> put_runs b s (Some (Ewrap ("check blob " +:+ digest_of b) e)) s'
  | put_uploaded cn cn' s1 r s' :
      probe name b cn s (inr false) s1 -> upload name b cn' s1 r s' ->
      put_runs b s (Ewrap ("put blob " +:+ digest_of b) <$> r) s'.

(** [PutManifest]: as the registry answers or, once the context is done,
    failing with the manifest there or not. *)
Inductive manifest_runs (tag : string) (m : bytes) (s : S) : option error -> S -> Prop :=
  | manifest_answer r s' :
      PutManifest name tag m MediaTypeOCIManifest s = (r, s') ->
      manifest_runs tag m s (match answer r with inl e => Some e | inr _ => None end) s'
  | manifest_cancelled e s' :
      s' = s \/ s' = (PutManifest name tag m MediaTypeOCIManifest s).2 -> manifest_runs tag m s (Some e) s'.

(** Without a cancellation. *)
Lemma put_missing b s :
  let s1 := (HasBlob name (digest_of b) s).2 in
  let x := PutBlob name (digest_of b) b (Z.of_nat (length b)) s1 in
  (HasBlob name (digest_of b) s).1 = Ok false -> x.1 = Ok () -> put_runs b s None x.2.
Proof.
  intros s1 x Eh Ep. pose proof (probe_answer name b false s) as Hp. rewrite Eh in Hp.
  apply (put_uploaded b s false false s1 None); [exact Hp|].
  apply (upload_answer name b false _ (Ok ())). by rewrite <- Ep, <- surjective_pairing.
Qed.

Lemma manifest_answered tag m s :
  let x := PutManifest name tag m MediaTypeOCIManifest s in x.1 = Ok () -> manifest_runs tag m s None x.2.
Proof. intros x E. apply (manifest_answer _ _ _ (Ok ())). by rewrite <- E, <- surjective_pairing. Qed.

(** [Push] from its [readAndUploadEntries] on. *)
Inductive publish_runs (tag : string) (ue : uploadedEntries) (s : S) : option error -> S -> Prop :=
  | publish_missing : ue_cfg ue = None -> publish_runs tag ue s (Some errMissingSnapshotJSON) s
  | publish_config cfg e s' :
      ue_cfg ue = Some cfg ->
      put_runs (config_blob (snapshot_config env cfg (ue_files ue) (snapshotVersionMarkers (ue_encoded ue)).1)) s (Some e) s' ->
      publish_runs tag ue s (Some (Ewrap "upload snapshot config" e)) s'
  | publish_manifest cfg r s1 s' :
      ue_cfg ue = Some cfg ->
      let c := snapshot_config env cfg (ue_files ue) (snapshotVersionMarkers (ue_encoded ue)).1 in
      put_runs (config_blob c) s None s1 ->
      manifest_runs tag (buildSnapshotManifest env opts (config_descriptor c) (ue_layers ue) (snapshotVersionMarkers (ue_encoded ue)).2) s1 r s' ->
      publish_runs tag ue s (Ewrap ("put manifest " +:+ name +:+ ":" +:+ tag) <$> r) s'.

(** [Push], with the error it returns. The upload succeeds on a complete
    stream only; for one that fails, [entries] is any completion of what
    arrived, and the pool's [gap] and [read] say where the stream breaks off
    (a cancellation kills the exporting process, for one). *)
Inductive Push_runs (s : S) : option error -> S -> Prop :=
  | push_no_name : name = "" -> Push_runs s (Some (Enew "snapshot push: name is required")) s
  | push_no_export e :
      name <> "" -> Export (cmpOr (po_LocalName opts) name) = Err e ->
      Push_runs s (Some (Ewrap ("cocoon export " +:+ cmpOr (po_LocalName opts) name) e)) (UploadSession s)
  | push_upload ex entries e s' :
      name <> "" -> Export (cmpOr (po_LocalName opts) name) = Ok ex ->
      upload_runs entries (UploadSession s) (Err e) s' -> Push_runs s (Some e) s'
  | push_wait ex entries ue e s' :
      name <> "" -> Export (cmpOr (po_LocalName opts) name) = Ok ex -> ex_wait ex = Some e ->
      (forall w c, pipelineParams opts = Ok (w, c) -> good_stream opts c (ex_stream ex) entries) ->
      upload_runs entries (UploadSession s) (Ok ue) s' -> Push_runs s (Some e) s'
  | push_publish ex entries ue r s1 s' :
      name <> "" -> Export (cmpOr (po_LocalName opts) name) = Ok ex -> ex_wait ex = None ->
      (forall w c, pipelineParams opts = Ok (w, c) -> good_stream opts c (ex_stream ex) entries) ->
      upload_runs entries (UploadSession s) (Ok ue) s1 ->
      publish_runs (cmpOr (po_Tag opts) "latest") ue s1 r s' -> Push_runs s r s'.

(** *** What the runs leave behind *)

Lemma fill_all (gs : list chunkGroup) : fill gs (Some <$> concat (cg_descs <$> gs)) = gs.
Proof.
  induction gs as [|[gname descs] gs IH]; [done|]. cbn [fmap list_fmap concat fill cg_descs cg_name].
  rewrite fmap_app, take_app_length', drop_app_length', IH by by rewrite length_fmap. do 2 f_equal.
  rewrite <- list_fmap_compose. apply list_fmap_id.
Qed.

Lemma stream_jobs_digests c entries :
  Forall (fun j => d_Digest (j_desc j) = digest_of (j_blob j)) (stream_jobs opts c entries).
Proof.
  apply Forall_forall. intros j (l & Hl & Hj)%elem_of_concat. apply list_elem_of_fmap_1 in Hl as (e & -> & _).
  unfold entry_jobs in Hj. destruct (_ || _); [by apply elem_of_nil in Hj|].
  unfold file_jobs in Hj. by apply elem_of_lookup_imap_1 in Hj as (i & blob & -> & _).
Qed.

Context (Hnames : names_ok opts).

Lemma upload_runs_spec entries s r s' :
  upload_runs entries s r s' ->
  grows s s' /\ forall ue, r = Ok ue -> exists w c,
    pipelineParams opts = Ok (w, c) /\ spec_entries opts c entries = Ok ue
    /\ Forall (stored name s') (stream_blobs opts c entries) /\ Forall (present opts s') (ue_layers ue).
Proof.
  intros [| |w c gap read rewind st e Hp Hr Hm|w c gap read rewind st acc Hp Hacc Hr Hm]; [done..| |].
  - destruct (pool_returned _ _ _ _ _ _ (proj1 Hnames) s st _ Hr Hm) as (_ & _ & _ & Hg & _). by split.
  - destruct (pool_returned _ _ _ _ _ _ (proj1 Hnames) s st _ Hr Hm) as (_ & _ & _ & Hg & Hok).
    destruct (Hok eq_refl) as [Hd Hst]. split; [done|]. intros ue [= <-]. exists w, c. split; [done|].
    pose proof (stream_jobs_descs opts c entries loop_init acc Hacc) as Hdescs. cbn [la_groups loop_init fmap list_fmap concat app] in Hdescs.
    assert (fill (la_groups acc) (p_descs st) = la_groups acc) as Hfill by (rewrite Hd, <- Hdescs; apply fill_all).
    unfold collected. rewrite Hfill. cbn [ue_layers]. split_and!.
    + unfold spec_entries. by rewrite Hacc.
    + by rewrite <- stream_jobs_blobs.
    + rewrite Hdescs. apply Forall_fmap. rewrite Forall_fmap in Hst. pose proof (stream_jobs_digests c entries) as Hdig.
      rewrite Forall_forall in Hst, Hdig |- *. intros j Hj. unfold present. cbn. rewrite (Hdig j Hj). by apply Hst.
Qed.

Lemma put_runs_spec b s r s' : put_runs b s r s' -> grows s s' /\ (r = None -> stored name s' b).
Proof.
  destruct Hnames as [Hrepo _]. intros [cn s1 Hp|cn e s1 Hp|cn cn' s1 r1 s2 Hp Hu].
  - split; [by eapply probe_grows|]. intros _. by eapply probe_stored.
  - split; [by eapply probe_grows|done].
  - split; [etransitivity; [by eapply probe_grows|by eapply upload_grows]|].
    destruct r1; [done|]. intros _. by eapply upload_stored.
Qed.

Lemma manifest_runs_spec tag m s r s' :
  tag_ok tag -> manifest_runs tag m s r s' ->
  blobs s' = blobs s
  /\ (manifests s' = manifests s \/ manifests s' = <[(name, tag) := (m, MediaTypeOCIManifest)]> (manifests s))
  /\ (r = None -> manifests s' = <[(name, tag) := (m, MediaTypeOCIManifest)]> (manifests s)).
Proof.
  destruct Hnames as [Hrepo _]. intros Htag.
  pose proof (put_manifest_blobs name tag m MediaTypeOCIManifest s) as Hb.
  pose proof (put_manifest_fail name tag m MediaTypeOCIManifest s Hrepo Htag) as Hf.
  pose proof (put_manifest_ok name tag m MediaTypeOCIManifest s Hrepo Htag) as Hok.
  intros [r1 s1 E|e s1 [->| ->]]; [|by split_and!; [|left|]|by split_and!].
  rewrite E in Hb, Hf, Hok. cbn in *. split_and!; [done..|]. destruct r1 as [[]|e|p]; cbn; [by auto|done|done].
Qed.

(** The manifest of the entries was put on [s], its config stored in [s1]. *)
Definition put_under (tag : string) (ue : uploadedEntries) (s s1 s' : S) : Prop :=
  exists cfg, ue_cfg ue = Some cfg /\
    let c := snapshot_config env cfg (ue_files ue) (snapshotVersionMarkers (ue_encoded ue)).1 in
    let m := snapshot_manifest env opts (config_descriptor c) (ue_layers ue) (snapshotVersionMarkers (ue_encoded ue)).2 in
    manifests s' = <[(name, tag) := (manifest_bytes m, MediaTypeOCIManifest)]> (manifests s) /\ stored name s1 (config_blob c).

(** After the upload of the entries: nothing but the config blob and the
    manifest is new, and the manifest comes after everything it names. *)
Lemma publish_runs_spec tag ue s r s' :
  tag_ok tag -> publish_runs tag ue s r s' ->
  exists s1, grows s s1 /\ blobs s' = blobs s1
    /\ (manifests s' = manifests s \/ put_under tag ue s s1 s') /\ (r = None -> put_under tag ue s s1 s').
Proof.
  intros Htag [Hc|cfg e s1 Hc Hput|cfg r1 s1 s2 Hc c Hput Hm].
  - exists s. split_and!; [done|done|by left|done].
  - destruct (put_runs_spec _ _ _ _ Hput) as [Hg _]. exists s1. split_and!; [done|done|left; apply (g_manifests _ _ Hg)|done].
  - destruct (put_runs_spec _ _ _ _ Hput) as [Hg Hst]. specialize (Hst eq_refl).
    destruct (manifest_runs_spec _ _ _ _ _ Htag Hm) as (Hb & Hor & Hok). rewrite (g_manifests _ _ Hg) in Hor, Hok.
    exists s1. split_and!; [done|done| |].
    + destruct Hor as [?|Hin]; [by left|right]. by exists cfg.
    + intros Hr. exists cfg. split; [done|]. split; [|done]. apply Hok. by destruct r1.
Qed.

(** The session of the push is the registry. *)
Lemma grows_session s s' : grows (UploadSession s) s' -> grows s s'.
Proof.
  intros [Hk Hm Ha]. destruct (session_state s) as [Eb Em]. rewrite Eb in Hk, Ha. rewrite Em in Hm. by constructor.
Qed.

Lemma present_same s s' d : blobs s' = blobs s -> present opts s d -> present opts s' d.
Proof. unfold present. by intros ->. Qed.

Lemma present_grows s s' d : grows s s' -> present opts s d -> present opts s' d.
Proof. intros Hg. apply (g_keys _ _ Hg). Qed.

(** C5: whatever the goroutines of a push do and however it ends (its result
    [r], a cancellation at any moment, requests that fail), the registry keeps
    every blob it had, stays content-addressed, and its manifests are
    untouched but for at most one, put under the push's tag, whose config and
    layers are all stored. *)
Theorem concurrent_push_safe s r s' :
  Push_runs s r s' ->
  (forall k, is_Some (blobs s !! k) -> is_Some (blobs s' !! k))
  /\ (addressed (blobs s) -> addressed (blobs s'))
  /\ (manifests s' = manifests s
      \/ exists m, manifests s' = <[(name, cmpOr (po_Tag opts) "latest") := (manifest_bytes m, MediaTypeOCIManifest)]> (manifests s)
           /\ Forall (present opts s') (m_Config m :: m_Layers m)).
Proof.
  assert (forall s', grows s s' -> (forall k, is_Some (blobs s !! k) -> is_Some (blobs s' !! k))
    /\ (addressed (blobs s) -> addressed (blobs s'))
    /\ (manifests s' = manifests s \/ exists m, manifests s' = <[(name, cmpOr (po_Tag opts) "latest") := (manifest_bytes m, MediaTypeOCIManifest)]> (manifests s)
           /\ Forall (present opts s') (m_Config m :: m_Layers m))) as Hsame.
  { intros s1 [Hk Hm Ha]. split_and!; [done|done|by left]. }
  intros [|e Hn Hex|ex entries e s1 Hn Hex Hup|ex entries ue e s1 Hn Hex Hw Hgs Hup|ex entries ue r1 s1 s2 Hn Hex Hw Hgs Hup Hpub].
  1: by apply Hsame.
  1: by apply Hsame, grows_session.
  1-2: by apply Hsame, grows_session, (upload_runs_spec _ _ _ _ Hup).
  destruct (upload_runs_spec _ _ _ _ Hup) as [Hg%grows_session Hok]. destruct (Hok ue eq_refl) as (w & c & _ & _ & _ & Hl).
  destruct (publish_runs_spec _ _ _ _ _ (proj2 Hnames) Hpub) as (s3 & Hg3 & Hb & Hor & _).
  assert (grows s s3) as [Hk Hm Ha] by (by etransitivity). rewrite Hb. split_and!; [done..|].
  rewrite (g_manifests _ _ Hg) in Hor. destruct Hor as [?|(cfg & _ & Hm' & Hst)]; [by left|right]. cbn zeta in *.
  eexists. split; [by rewrite Hm', (g_manifests _ _ Hg)|]. constructor.
  - eapply present_same; [exact Hb|]. exact Hst.
  - eapply Forall_impl; [exact Hl|]. intros d Hd. eapply present_same; [exact Hb|]. by eapply present_grows.
Qed.

(** The entries of a complete stream are the stream's. *)
Lemma good_stream_entries w c ts es es' :
  pipelineParams opts = Ok (w, c) ->
  (forall w c, pipelineParams opts = Ok (w, c) -> good_stream opts c ts es) -> good_stream opts c ts es' -> es = es'.
Proof.
  intros Hp Hes [Hes' _]. destruct (Hes _ _ Hp) as [HF _]. clear Hes. revert es' Hes'.
  induction HF as [|x [h b] xs es [Hh Hb _ _] HF IH]; intros es' HF'; inversion HF' as [|? [h' b'] ? ? [Hh' Hb' _ _]]; subst; [done|].
  cbn in *. subst. f_equal; [|by apply IH]. f_equal. rewrite <- (gb_content _ _ Hb). apply (gb_content _ _ Hb').
Qed.

(** A run that returns without error has published the artifact that the
    reference plans. *)
Lemma Push_runs_published w c ex entries s s' :
  pipelineParams opts = Ok (w, c) -> Export (cmpOr (po_LocalName opts) name) = Ok ex ->
  good_stream opts c (ex_stream ex) entries -> Push_runs s None s' ->
  exists p, plan_push opts c env entries = Ok p
    /\ manifests s' = <[(name, cmpOr (po_Tag opts) "latest") := (manifest_bytes (pp_manifest p), MediaTypeOCIManifest)]> (manifests s)
    /\ Forall (stored name s') (pp_blobs p) /\ (addressed (blobs s) -> addressed (blobs s')).
Proof.
  intros Hp Hex Hgs Hrun. inversion Hrun as [| | | |ex' es ue r s1 s2 Hn Hex' Hw Hes Hup Hpub]; subst.
  rewrite Hex in Hex'. injection Hex' as <-. pose proof (good_stream_entries _ _ _ _ _ Hp Hes Hgs) as ->. clear Hes.
  destruct (upload_runs_spec _ _ _ _ Hup) as [Hg%grows_session Hok].
  destruct (Hok ue eq_refl) as (w' & c' & Hp' & Hue & Hst & _). rewrite Hp in Hp'. injection Hp' as <- <-.
  destruct (publish_runs_spec _ _ _ _ _ (proj2 Hnames) Hpub) as (s3 & Hg3 & Hb & _ & Hput).
  destruct (Hput eq_refl) as (cfg & Hc & Hm & Hcst). unfold plan_push. rewrite Hue. cbn [mbind result_bind]. rewrite Hc.
  assert (forall b, stored name s3 b -> stored name s' b) as Hkeep by (unfold stored; by rewrite Hb).
  eexists. split; [done|]. cbn [pp_manifest pp_blobs]. split_and!.
  - by rewrite Hm, (g_manifests _ _ Hg).
  - apply Forall_app. split; [|by repeat constructor; apply Hkeep].
    eapply Forall_impl; [exact Hst|]. intros b Hsb. by eapply Hkeep, stored_grows.
  - rewrite Hb. intros Ha. by apply (g_addressed _ _ Hg3), (g_addressed _ _ Hg).
Qed.

End pushes.

(** C2: the whole way, for every schedule. A push that returns no error,
    however its goroutines interleaved and whatever the registry and the
    context did meanwhile, leaves a manifest under its tag from which a
    stream, however its own goroutines interleave, writes a complete import
    tar: the envelope, then every regular file of the export under its name
    with exactly its bytes, mode and sparse map. *)
Theorem concurrent_roundtrip {S} `{RegistryOk S} `{ZstdOk} `{CocoonRunner} env opts (Hnames : names_ok opts)
    w c ex entries p (s s' : S) so now copy :
  pipelineParams opts = Ok (w, c) -> Export (cmpOr (po_LocalName opts) (po_Name opts)) = Ok ex ->
  good_stream opts c (ex_stream ex) entries -> addressed (blobs s) ->
  Push_runs env opts s None s' ->
  restorable_push opts c entries env p s' ->
  receives opts p so -> zstd_NewReader = None -> scheduled s' (po_Name opts) false copy ->
  exists tw,
    GetManifest s' (po_Name opts) (cmpOr (po_Tag opts) "latest") = Ok (manifest_bytes (pp_manifest p), MediaTypeOCIManifest)
    /\ Stream_by s' so now copy (manifest_bytes (pp_manifest p)) = (Ok (), tw)
    /\ restored_tar p (cmpOr (so_LocalName so) (po_Name opts)) now entries tw.
Proof.
  intros Hp Hex Hgs Ha Hrun Hrp Hrc Hnr Hcopy.
  assert (po_Name opts <> "") as Hn by by inversion Hrun.
  destruct (Push_runs_published env opts Hnames w c ex entries s s' Hp Hex Hgs Hrun) as (p' & Hp' & Hm & Hst & Had).
  rewrite (rp_plan _ _ _ _ _ _ Hrp) in Hp'. injection Hp' as <-.
  destruct (stream_back opts Hnames c ltac:(pose proof (pipelineParams_chunk _ _ _ Hp); lia) entries env p s' so now copy (Had Ha)
              (good_stream_sizes _ _ _ _ Hgs) Hrp Hst Hrc Hn Hnr (scheduled_copies _ _ _ Hcopy)) as (tw & Hs & Hr).
  exists tw. split_and!; [|exact Hs|exact Hr]. destruct Hnames. apply get_manifest_ok; [done..|]. rewrite Hm. apply lookup_insert_eq.
Qed.

(** ** The sample push and stream *)

Definition sample_acc : loop_acc :=
  match spec_stream sample_opts 0 sample_entries loop_init with Ok acc => acc | _ => loop_init end.
Definition sample_collected : uploadedEntries := collected sample_acc (p_descs sample_end).
Definition sample_snapshot : SnapshotConfig := pp_config sample_plan.

(** The registry after the pool's run, the config and the manifest. *)
Definition sample_configured : MemRegistry :=
  (PutBlob "team/vm" (digest_of (config_blob sample_snapshot)) (config_blob sample_snapshot)
     (Z.of_nat (length (config_blob sample_snapshot)))
     (HasBlob "team/vm" (digest_of (config_blob sample_snapshot)) (p_reg sample_end)).2).2.
Definition sample_published : MemRegistry :=
  (PutManifest "team/vm" "latest"
     (buildSnapshotManifest sample_env sample_opts (config_descriptor sample_snapshot) (ue_layers sample_collected)
        (snapshotVersionMarkers (ue_encoded sample_collected)).2) MediaTypeOCIManifest sample_configured).2.

Lemma sample_upload_runs : upload_runs sample_opts sample_entries mem_empty (Ok sample_collected) (p_reg sample_end).
Proof.
  eapply (upload_done _ _ _ 8 0 no_error no_error no_error sample_end sample_acc); [reflexivity|vm_compute; reflexivity| |vm_compute; reflexivity].
  apply run_reachable.
Qed.

Lemma sample_collected_config :
  exists cfg, ue_cfg sample_collected = Some cfg
    /\ snapshot_config sample_env cfg (ue_files sample_collected) (snapshotVersionMarkers (ue_encoded sample_collected)).1
       = sample_snapshot.
Proof. eexists. split; vm_compute; reflexivity. Qed.

Lemma sample_config_runs : put_runs sample_opts (config_blob sample_snapshot) (p_reg sample_end) None sample_configured.
Proof. apply (put_missing sample_opts); vm_compute; reflexivity. Qed.

Lemma sample_manifest_runs :
  manifest_runs sample_opts "latest"
    (buildSnapshotManifest sample_env sample_opts (config_descriptor sample_snapshot) (ue_layers sample_collected)
       (snapshotVersionMarkers (ue_encoded sample_collected)).2) sample_configured None sample_published.
Proof. apply (manifest_answered sample_opts). vm_compute. reflexivity. Qed.

Lemma sample_publish_runs :
  publish_runs sample_env sample_opts "latest" sample_collected (p_reg sample_end) None sample_published.
Proof.
  destruct sample_collected_config as (cfg & Ec & Es).
  apply (publish_manifest sample_env sample_opts _ _ _ cfg None sample_configured); [exact Ec|rewrite Es..].
  - exact sample_config_runs.
  - exact sample_manifest_runs.
Qed.

Lemma sample_runs : Push_runs sample_env sample_opts mem_empty None sample_published.
Proof.
  apply (push_publish _ _ _ sample_export sample_entries sample_collected None (p_reg sample_end)).
  - discriminate.
  - reflexivity.
  - reflexivity.
  - intros w c Hp. vm_compute in Hp. injection Hp as <- <-. exact sample_good_stream.
  - exact sample_upload_runs.
  - exact sample_publish_runs.
Qed.

Lemma concurrent_push_safe_witness :
  exists m, manifests sample_published !! ("team/vm", "latest") = Some (manifest_bytes m, MediaTypeOCIManifest)
    /\ Forall (present sample_opts sample_published) (m_Config m :: m_Layers m).
Proof.
  assert (negb (bool_decide (manifests sample_published !! ("team/vm", "latest") = None)) = true) as Hput by (vm_compute; reflexivity).
  destruct (concurrent_push_safe sample_env sample_opts sample_names mem_empty None sample_published sample_runs)
    as (_ & _ & [Hm|(m & Hm & Hp)]); [rewrite Hm in Hput; discriminate Hput|].
  exists m. split; [rewrite Hm; apply lookup_insert_eq|exact Hp].
Defined.

Lemma concurrent_roundtrip_witness :
  exists tw,
    GetManifest sample_published "team/vm" "latest" = Ok (manifest_bytes (pp_manifest sample_plan), MediaTypeOCIManifest)
    /\ Stream_by sample_published sample_stream noon (copy_file sample_published "team/vm")
         (manifest_bytes (pp_manifest sample_plan)) = (Ok (), tw)
    /\ restored_tar sample_plan "copy" noon sample_entries tw.
Proof.
  apply (concurrent_roundtrip sample_env sample_opts sample_names 8 0 sample_export sample_entries sample_plan
           mem_empty sample_published sample_stream noon (copy_file sample_published "team/vm")).
  - reflexivity.
  - reflexivity.
  - exact sample_good_stream.
  - apply map_Forall_empty.
  - exact sample_runs.
  - apply sample_restorable_in, collision_free_ok. vm_compute. reflexivity.
  - exact sample_receives.
  - reflexivity.
  - apply copy_file_scheduled.
Defined.

Lemma cancelled_never_truncates_witness :
  let r := streamFile_by (copy_file two_chunks "n") two_chunk_pipe two_chunk_plan noon (tar_new None) in
  r.1 = Ok ()
  /\ exists hdr, entry_header two_chunk_plan noon = Ok hdr /\ tw_ready r.2 [(hdr, (chunk_a ++ chunk_b)%list)].
Proof.
  intros r. assert (r.1 = Ok ()) as Hr by (vm_compute; reflexivity). split; [exact Hr|].
  apply (cancelled_never_truncates two_chunks "n" (copy_file two_chunks "n") two_chunk_pipe two_chunk_plan
           (chunk_a ++ chunk_b) noon (tar_new None) []).
  - apply copy_file_scheduled.
  - reflexivity.
  - exact two_chunk_delivers.
  - intros _. split; [repeat constructor; vm_compute; discriminate|intros _; vm_compute; discriminate].
  - reflexivity.
  - reflexivity.
  - unfold r in *. destruct (streamFile_by _ _ _ _ _) as [x t]. cbn in Hr. by rewrite Hr.
Defined.

(** Cancelled before the first chunk is scheduled, [WriteTo] returns no error
    and no byte: a schedule that only the check of the size turns into an
    error. *)
Example cancelled_WriteTo_returns_nothing : exists st,
  rtc two_chunk_step (file_start two_chunk_pipe two_chunk_plan open_entry) st
  /\ s_cons st = CRet 0 None /\ s_dst st = open_entry.
Proof.
  unfold file_step, file_start, start. change (length (chunk_list two_chunk_plan)) with 2.
  exists (St PClosed 0 [] [Unspawned; Unspawned] (CRet 0 None) 2 3 true true open_entry). split; [|split; reflexivity].
  eapply rtc_l; [apply step_cancel|]. eapply rtc_l; [apply step_stop; lia|]. eapply rtc_l; [apply step_done|]. apply rtc_refl.
Qed.
