(* ===== verification/Healthy.v ===== *)
(** * Healthy: concurrent pushes over a registry that is up

    [PushPool] says that a push cannot get stuck and [Concurrent] what it
    leaves behind; here it also succeeds.  When nothing cancels it, the stream
    is complete, its temporary files work and every request is answered, no
    interleaving of the goroutines produces an error: a push can go wrong by
    its surroundings only, never by its schedule. *)

From Stdlib Require Import ZArith Lia Ascii String.
From stdpp Require Import base gmap strings list relations.
From S2P Require Import Prelude GoStrings Sha256 Json Manifest GoIO OciUtil Registry Tar Zstd Snapshot SnapshotPush PushSpec PushSafe PushPool SnapshotPull PullSpec RoundTrip Samples PushRun Concurrent.

Local Open Scope string_scope.
Local Open Scope nat_scope.

(** ** The pool *)

Section pool.
Context {S : Type} `{RegistryOk S} `{!Serving S}.
Context (name : string) (Hrepo : repo_ok name) (workers : nat) (jobs : list job).

Abbreviation pool_step := (step name workers jobs no_error no_error no_error).
Abbreviation pool_reach := (reachable name workers jobs no_error no_error no_error).

(** A goroutine, and the reader, that has met no error. *)
Definition untroubled (w : worker) : Prop :=
  match w with WRelease _ (Some _) | WReturn (Some _) => False | _ => True end.
Definition reader_untroubled (m : reader_pos) : Prop :=
  match m with MWait (Some _) | MRet (Some _) => False | _ => True end.

Record healthy (st : state) : Prop := {
  h_eg : p_eg st = None;
  h_reg : serving (p_reg st);
  h_workers : Forall untroubled (p_workers st);
  h_main : reader_untroubled (p_main st)
}.

(** A registry that is up answers, when the context is live. *)
Lemma probe_serving b s r s' : serving s -> probe name b false s r s' -> serving s' /\ exists x, r = inr x.
Proof.
  intros Hs Hp. inversion Hp; subst; [|done]. split; [by apply serving_has_after|].
  destruct (serving_has name b s Hrepo Hs) as [x ->]. by exists x.
Qed.

Lemma upload_serving b s r s' : serving s -> upload name b false s r s' -> serving s' /\ r = None.
Proof.
  intros Hs Hu. inversion Hu as [r0 s1 E|]; subst; [|done].
  pose proof (serving_put name b s Hrepo Hs) as Hok. pose proof (serving_put_after name (digest_of b) b (Z.of_nat (length b)) s Hs) as Ha.
  rewrite E in Hok, Ha. cbn in Hok, Ha. by subst r0.
Qed.

Lemma worker_healthy j w ra ou s w' ra' ou' s' :
  worker_step name workers j false (w, ra, ou, s) (w', ra', ou', s') -> serving s -> untroubled w ->
  serving s' /\ untroubled w'.
Proof.
  intros Hst Hs Hw. inversion Hst; subst; cbn in *; try done.
  all: try match goal with Hp : probe _ _ _ _ _ _ |- _ => destruct (probe_serving _ _ _ _ Hs Hp) as [? [? ?]] end; try done.
  all: try match goal with Hu : upload _ _ _ _ _ _ |- _ => destruct (upload_serving _ _ _ _ Hs Hu) as [? ->] end; done.
Qed.

(** Until the caller cancels, no step brings an error. *)
Lemma healthy_step st st' :
  (p_ctx st = None -> healthy st) -> pool_step st st' -> p_ctx st' = None -> healthy st'.
Proof.
  intros Hh Hst Hctx.
  assert (p_ctx st = None) as Hc by (destruct Hst; try done; by destruct ctx).
  specialize (Hh Hc). destruct Hh as [He Hr Hw Hm].
  destruct Hst as [|m nx ws ra ou eg ctx s ds i j w w' ra' ou' s' Hi Hj Hws| |m nx ws ra ou eg ctx s ds i e Hi| | | | | | | | | | |
    |nx ws ra ou eg ctx s ds j e s' Hj Hp| |nx ws ra ou eg ctx s ds j e s' Hj Hrw Hu| |]; cbn in *; subst; try done.
  - destruct (worker_healthy _ _ _ _ _ _ _ _ _ Hws Hr (Forall_lookup_1 _ _ _ _ Hw Hi)) as [? ?]. constructor; cbn; [done..| |done].
    by apply Forall_insert.
  - constructor; cbn; [done..| |done]. by apply Forall_insert.
  - by destruct (Forall_lookup_1 _ _ _ _ Hw Hi).
  - by match goal with Hx : ctx_error _ _ _ |- _ => destruct Hx as [|[[? ?] ?]] end.
  - constructor; cbn; [done..|]. by destruct (kind_at jobs nx).
  - constructor; cbn; [done..|]. by destruct (kind_at jobs nx).
  - constructor; cbn; [done..| |done]. apply Forall_insert; [done|]. by destruct zip.
  - constructor; cbn; [done| |done..]. by eapply probe_serving.
  - constructor; cbn; [done| |done..]. by eapply probe_serving.
  - by destruct (probe_serving _ _ _ _ Hr Hp) as [_ [? ?]].
  - constructor; cbn; [done| |done..]. by eapply upload_serving.
  - by destruct (upload_serving _ _ _ _ Hr Hu).
  - by destruct e.
Qed.

Lemma healthy_reachable s0 st : serving s0 -> pool_reach s0 st -> p_ctx st = None -> healthy st.
Proof.
  intros Hs Hr. apply (inv_rtc pool_step (fun st => p_ctx st = None -> healthy st)) with (start workers jobs s0).
  - intros x y Hx Hy Hc. by eapply healthy_step.
  - intros _. constructor; cbn; [done|done|by apply Forall_replicate|done].
  - exact Hr.
Qed.

(** Left alone, every run ends, and ends well. *)
Lemma healthy_returns s0 st :
  0 < workers -> serving s0 -> pool_reach s0 st -> p_ctx st = None ->
  (forall r, p_main st = MRet r -> r = None)
  /\ exists st', rtc pool_step st st' /\ p_main st' = MRet None /\ serving (p_reg st').
Proof.
  intros Hw Hs Hr Hc.
  assert (forall st' r, pool_reach s0 st' -> p_ctx st' = None -> p_main st' = MRet r -> r = None /\ serving (p_reg st')) as Hok.
  { intros st' r Hr' Hc' Hm. destruct (healthy_reachable s0 st' Hs Hr' Hc') as [_ Hreg _ Hmain]. rewrite Hm in Hmain.
    split; [by destruct r|done]. }
  split; [intros r Hm; by apply (Hok st r)|].
  destruct (pool_finishes name workers jobs no_error no_error no_error Hrepo s0 st Hw) as (st' & r & Hr' & Hc' & Hm).
  { by apply (pool_reachable_inv name workers jobs no_error no_error no_error Hrepo). }
  destruct (Hok st' r) as [-> Hreg]; [by unfold reachable in *; etransitivity|congruence|done|]. by exists st'.
Qed.

End pool.

(** ** The push *)

Section push.
Context {S : Type} `{RegistryOk S} `{!Serving S} `{Zstd} `{CocoonRunner}.
Context (env : PushEnv) (opts : PushOptions) (Hnames : names_ok opts).

(** Without a cancellation, putting a blob in memory works. *)
Lemma put_runs_serving b s : serving s -> exists s', put_runs opts b s None s' /\ serving s'.
Proof.
  destruct Hnames as [Hrepo _]. intros Hs. destruct (serving_has (po_Name opts) b s Hrepo Hs) as [x Hx].
  pose proof (serving_has_after (po_Name opts) (digest_of b) s Hs) as Ha.
  destruct x.
  - eexists. split; [apply (put_there opts b s false)|exact Ha].
    pose proof (probe_answer (po_Name opts) b false s) as Hp. by rewrite Hx in Hp.
  - eexists. split; [apply (put_missing opts b s Hx)|].
    + by apply serving_put.
    + by apply serving_put_after.
Qed.

(** After the entries: the config and the manifest are put. *)
Lemma publish_runs_serving ue cfg s :
  ue_cfg ue = Some cfg -> serving s -> exists s', publish_runs env opts (cmpOr (po_Tag opts) "latest") ue s None s'.
Proof.
  intros Hc Hs.
  destruct (put_runs_serving (config_blob (snapshot_config env cfg (ue_files ue) (snapshotVersionMarkers (ue_encoded ue)).1)) s Hs)
    as (s1 & Hput & Hs1).
  eexists. apply (publish_manifest env opts _ ue s cfg None s1); [exact Hc|exact Hput|].
  apply (manifest_answered opts), serving_manifest; [apply Hnames..|done].
Qed.

(** C8: a push cannot fail by its schedule. Over a registry that is up, with a
    complete export whose metadata the reference plan accepts, no interleaving
    of the upload goroutines returns an error as long as nobody cancels; and
    from every point of every such run the push can be brought to its end,
    where the planned manifest is under the tag and every blob it names is
    stored. ([push_pool_live]: such a run cannot go on forever either.) *)
Theorem concurrent_push_succeeds w c ex entries p s st :
  po_Name opts <> "" -> pipelineParams opts = Ok (w, c) ->
  Export (cmpOr (po_LocalName opts) (po_Name opts)) = Ok ex -> ex_wait ex = None ->
  good_stream opts c (ex_stream ex) entries -> plan_push opts c env entries = Ok p -> serving s ->
  reachable (po_Name opts) (Z.to_nat w) (stream_jobs opts c entries) no_error no_error no_error (UploadSession s) st ->
  p_ctx st = None ->
  (forall r, p_main st = MRet r -> r = None)
  /\ exists st' s',
       rtc (step (po_Name opts) (Z.to_nat w) (stream_jobs opts c entries) no_error no_error no_error) st st'
       /\ p_main st' = MRet None
       /\ Push_runs env opts s None s'
       /\ manifests s' = <[(po_Name opts, cmpOr (po_Tag opts) "latest") := (manifest_bytes (pp_manifest p), MediaTypeOCIManifest)]> (manifests s)
       /\ Forall (stored (po_Name opts) s') (pp_blobs p).
Proof.
  intros Hn Hp Hex Hw Hgs Hplan Hs Hr Hctx. pose proof (pipelineParams_workers _ _ _ Hp) as Hwk.
  destruct (healthy_returns (po_Name opts) (proj1 Hnames) (Z.to_nat w) _ (UploadSession s) st ltac:(lia) (serving_session s Hs) Hr Hctx)
    as [Hret (st' & Hst & Hm & Hreg)].
  split; [exact Hret|].
  pose proof Hplan as Hue. unfold plan_push in Hue. apply bind_Ok in Hue as (ue & Hue & Hcfg).
  unfold spec_entries in Hue. apply bind_Ok in Hue as (acc & Hacc & [= <-]). cbn [ue_cfg] in Hcfg.
  destruct (la_cfg acc) as [cfg|] eqn:Ecfg; [|done].
  assert (upload_runs opts entries (UploadSession s) (Ok (collected acc (p_descs st'))) (p_reg st')) as Hup.
  { eapply upload_done; [exact Hp|exact Hacc| |exact Hm]. by unfold reachable in *; etransitivity. }
  destruct (publish_runs_serving (collected acc (p_descs st')) cfg (p_reg st') Ecfg Hreg) as (s' & Hpub).
  assert (Push_runs env opts s None s') as Hrun.
  { eapply push_publish; [done|exact Hex|done| |exact Hup|exact Hpub]. intros w' c' Hp'. rewrite Hp in Hp'. by injection Hp' as <- <-. }
  destruct (Push_runs_published env opts Hnames w c ex entries s s' Hp Hex Hgs Hrun) as (p' & Hp' & Hman & Hst' & _).
  rewrite Hplan in Hp'. injection Hp' as <-. by exists st', s'.
Qed.

End push.

(** The sample push, stopped after ten steps. *)
Definition sample_midway : state (S := MemRegistry) :=
  run "team/vm" 8 sample_jobs no_error no_error no_error 10 (start 8 sample_jobs mem_empty).

Lemma concurrent_push_succeeds_witness :
  exists st' s',
    rtc (step "team/vm" 8 sample_jobs no_error no_error no_error) sample_midway st'
    /\ p_main st' = MRet None /\ Push_runs sample_env sample_opts mem_empty None s'.
Proof.
  assert (reachable "team/vm" 8 sample_jobs no_error no_error no_error mem_empty sample_midway) as Hr by apply run_reachable.
  assert (p_ctx sample_midway = None) as Hc by (vm_compute; reflexivity).
  assert (plan_push sample_opts 0 sample_env sample_entries = Ok sample_plan) as Hp by (vm_compute; reflexivity).
  destruct (concurrent_push_succeeds sample_env sample_opts sample_names 8 0 sample_export sample_entries sample_plan mem_empty
              sample_midway ltac:(discriminate) eq_refl eq_refl eq_refl sample_good_stream Hp eq_refl Hr Hc)
    as (_ & st' & s' & Hst & Hm & Hrun & _).
  exists st', s'. split_and!; [exact Hst|exact Hm|exact Hrun].
Defined.
