(* ===== verification/Progress.v ===== *)
(** * Progress: the lines a push and a stream report

    [PushOptions.Progress] is called once for every stored blob, by the
    goroutine that uploaded it or by the reader, one at a time (a mutex); and
    [StreamOptions.Progress] once before every file.  The lines are read off
    the runs of [PushPool] and [SnapshotPull]: they do not change them. *)

From Stdlib Require Import ZArith Lia Ascii String.
From stdpp Require Import base gmap strings list relations.
From S2P Require Import Prelude GoStrings Sha256 Json Manifest GoIO OciUtil Registry Tar Zstd Snapshot SnapshotPush PushSpec PushSafe PushPool SnapshotPull PullSpec RoundTrip Samples PushRun.

Local Open Scope string_scope.
Local Open Scope nat_scope.

(** ** The lines of a push *)

Section lines.
Context `{Zstd} (opts : PushOptions) (chunkSize : Z).

Definition entry_line (title : string) (d : Descriptor) : string :=
  "  " +:+ title +:+ " -> " +:+ d_Digest d +:+ " (" +:+ formatInt (d_Size d) +:+ " bytes)".
Definition chunk_line (title : string) (i count : nat) (d : Descriptor) : string :=
  "  " +:+ title +:+ " [" +:+ formatInt (Z.of_nat (1 + i)) +:+ "/" +:+ formatInt (Z.of_nat count) +:+ "] -> "
  +:+ d_Digest d +:+ " (" +:+ formatInt (d_Size d) +:+ " bytes)".

(** The lines of a file, one for each of its blobs. *)
Definition file_lines (title : string) (b : bytes) : list string :=
  let descs := file_descs opts chunkSize title b in
  imap (fun i d =>
    match entry_mode opts chunkSize (Z.of_nat (length b)) with
    | Cut _ => chunk_line title i (length descs) d
    | _ => entry_line title d
    end) descs.

Definition entry_lines (e : tar_header * bytes) : list string :=
  if String.eqb (h_Name e.1) snapshotJSONName || negb (Ascii.eqb (h_Typeflag e.1) TypeReg) then []
  else file_lines (h_Name e.1) e.2.

Definition stream_lines (entries : list (tar_header * bytes)) : list string := concat (entry_lines <$> entries).

Lemma stream_lines_jobs entries : length (stream_lines entries) = length (stream_jobs opts chunkSize entries).
Proof.
  unfold stream_lines, stream_jobs. induction entries as [|e es IH]; [done|]. cbn [fmap list_fmap concat].
  rewrite !length_app, IH. f_equal. unfold entry_lines, entry_jobs. destruct (_ || _); [done|].
  unfold file_lines, file_jobs. by rewrite !length_imap, length_file_descs.
Qed.

End lines.

(** ** Who reports, and when *)

Section find.
Context (f : nat -> bool).

Lemma find_nothing n : (forall k, f k = false) -> find f (seq 0 n) = None.
Proof. intros Hf. generalize 0. induction n as [|n IH]; intros k; cbn; [done|]. by rewrite Hf. Qed.

Lemma find_only n i : i < n -> (forall k, k <> i -> f k = false) -> find f (seq 0 n) = if f i then Some i else None.
Proof.
  intros Hi Hf. enough (forall k, k <= i -> i < k + n -> find f (seq k n) = if f i then Some i else None) as Hk by (apply Hk; lia).
  clear Hi. induction n as [|n IH]; intros k Hk Hn; [lia|]. cbn. destruct (decide (k = i)) as [->|Hne].
  - destruct (f i) eqn:E; [done|]. destruct (find f (seq (Datatypes.S i) n)) as [m|] eqn:Ef; [|done].
    apply find_some in Ef as [Hin Hm]. apply in_seq in Hin. rewrite Hf in Hm by lia. done.
  - rewrite Hf by done. apply IH; lia.
Qed.

End find.

Section pool.
Context {S : Type} `{RegistryOk S}.
Context (name : string) (Hrepo : repo_ok name) (workers : nat) (jobs : list job) (gap read rewind : nat -> option error).

Abbreviation pool_step := (step name workers jobs gap read rewind).

(** The descriptor of piece [i] is in its slot. *)
Definition filled (ds : list (option Descriptor)) (i : nat) : bool :=
  match ds !! i with Some (Some _) => true | _ => false end.

Definition over (w w' : option worker) : bool := match w, w' with Some WExit, Some WDone => true | _, _ => false end.

(** The piece a step reports: the reader's own upload when it goes on to the
    next entry, a goroutine's when it returns, having filled its slot. *)
Definition line_of (st st' : state (S := S)) : option nat :=
  match p_main st, p_main st' with
  | (MHas | MPut), MLoop => Some (p_next st)
  | _, _ =>
      find (fun i => over (p_workers st !! i) (p_workers st' !! i) && filled (p_descs st) i) (seq 0 (length jobs))
  end.

(** Runs, with the pieces they have reported. *)
Inductive traced (s0 : S) : list nat -> state (S := S) -> Prop :=
  | traced_start : traced s0 [] (start workers jobs s0)
  | traced_step l st st' : traced s0 l st -> pool_step st st' ->
      traced s0 (l ++ match line_of st st' with Some i => [i] | None => [] end)%list st'.

Lemma traced_reachable s0 st : reachable name workers jobs gap read rewind s0 st <-> exists l, traced s0 l st.
Proof.
  split.
  - intros Hr. apply (inv_rtc pool_step (fun st => exists l, traced s0 l st)) with (start workers jobs s0); [| |exact Hr].
    + intros x y [l Hl] Hy. eexists. by eapply traced_step.
    + eexists. apply traced_start.
  - intros [l Hl]. induction Hl as [|l st st' Hl IH Hs]; [apply rtc_refl|]. by eapply rtc_r.
Qed.

(** A filled slot: its blob is stored; the reader is past it, or its goroutine
    has nothing left but to report. *)
Definition slot_ok (st : state (S := S)) (i : nat) (j : job) : Prop :=
  filled (p_descs st) i = true ->
  stored name (p_reg st) (j_blob j)
  /\ match j_kind j with
     | Inline => i < p_next st
     | Chunk _ _ => p_workers st !! i = Some WExit \/ p_workers st !! i = Some WDone
     end.

Definition reported (st : state (S := S)) (i : nat) : Prop :=
  filled (p_descs st) i = true /\ (kind_at jobs i = Inline \/ p_workers st !! i = Some WDone).

Lemma filled_insert ds k d i : k < length ds -> filled (<[k := Some d]> ds) i = if decide (i = k) then true else filled ds i.
Proof.
  intros Hk. unfold filled. destruct (decide (i = k)) as [->|Hne].
  - by rewrite list_lookup_insert_eq.
  - by rewrite list_lookup_insert_ne.
Qed.

Lemma lookup_changed (ws : list worker) k w w' i :
  ws !! k = Some w -> <[k := w']> ws !! i = if decide (i = k) then Some w' else ws !! i.
Proof.
  intros Hk. destruct (decide (i = k)) as [->|Hne].
  - apply list_lookup_insert_eq. by eapply lookup_lt_Some.
  - by apply list_lookup_insert_ne.
Qed.

Lemma kind_job i j : jobs !! i = Some j -> kind_at jobs i = j_kind j.
Proof. unfold kind_at. by intros ->. Qed.

(** Slots that do not change stay right. *)
Lemma slot_kept st st' i j :
  slot_ok st i j -> grows (p_reg st) (p_reg st') -> p_descs st' = p_descs st -> p_next st <= p_next st' ->
  (p_workers st !! i = Some WExit \/ p_workers st !! i = Some WDone -> p_workers st' !! i = Some WExit \/ p_workers st' !! i = Some WDone) ->
  slot_ok st' i j.
Proof.
  intros Hs Hg Hd Hn Hw Hf. rewrite Hd in Hf. destruct (Hs Hf) as [Hst Hk]. split; [by eapply stored_grows|].
  destruct (j_kind j); [lia|auto].
Qed.

Abbreviation invariant := (pool_inv name workers jobs).
Abbreviation slots_ok st := (forall i j, jobs !! i = Some j -> slot_ok st i j).

Lemma worker_step_over j cn w ra ou s w' ra' ou' s' :
  worker_step name workers j cn (w, ra, ou, s) (w', ra', ou', s') -> w <> WDone /\ w' <> WExit /\ (w = WExit <-> w' = WDone).
Proof. intros Hst. inversion Hst; subst; (split_and!; [done..|]); by split. Qed.

(** A descriptor is put in slot [k]: the blob is stored, and the slot's owner
    is the reader or a goroutine about to report. *)
Lemma slots_put st st' k j :
  slots_ok st -> jobs !! k = Some j -> p_descs st' = <[k := Some (j_desc j)]> (p_descs st) -> length (p_descs st) = length jobs ->
  grows (p_reg st) (p_reg st') -> p_next st <= p_next st' -> stored name (p_reg st') (j_blob j) ->
  (forall i, i <> k -> p_workers st' !! i = p_workers st !! i) ->
  match j_kind j with Inline => k < p_next st' | Chunk _ _ => p_workers st' !! k = Some WExit end ->
  slots_ok st'.
Proof.
  intros Hs Hj Hd Hl Hg Hn Hst Hw Hk i j' Hj' Hf. rewrite Hd, filled_insert in Hf by (rewrite Hl; by eapply lookup_lt_Some).
  destruct (decide (i = k)) as [->|Hne].
  - rewrite Hj in Hj'. injection Hj' as <-. split; [done|]. destruct (j_kind j); [done|by left].
  - destruct (Hs i j' Hj' Hf) as [Hst' Hk']. split; [by eapply stored_grows|]. rewrite Hw by done. destruct (j_kind j'); [lia|done].
Qed.

Lemma slots_step s0 st st' : invariant s0 st -> slots_ok st -> pool_step st st' -> slots_ok st'.
Proof.
  intros Hi Hs Hst. pose proof (i_jobs _ _ _ _ _ Hi) as Hjobs. pose proof (i_descs _ _ _ _ _ Hi) as Hl. pose proof (i_main _ _ _ _ _ Hi) as Hm.
  destruct Hst as [|m nx ws ra ou eg ctx s ds k jk w w' ra' ou' s' Hk Hjk Hws|m nx ws ra ou eg ctx s ds k jk Hk Hjk
    |m nx ws ra ou eg ctx s ds k e Hk| | | | | | | | |nx ws ra ou eg ctx s ds zip first Hrun Hkind
    |nx ws ra ou eg ctx s ds j s' Hj Hp|nx ws ra ou eg ctx s ds j s' Hj Hp|nx ws ra ou eg ctx s ds j e s' Hj Hp
    |nx ws ra ou eg ctx s ds j s' Hj Hrw Hu|nx ws ra ou eg ctx s ds j e s' Hj Hrw Hu| |]; cbn in *.
  all: try (intros i j' Hj'; apply slot_kept with (1 := Hs i j' Hj'); [done|done|cbn; lia|done]).
  - intros i j' Hj'. apply slot_kept with (1 := Hs i j' Hj'); [|done|cbn; lia|].
    + by destruct (worker_step_ok name workers gap read rewind Hrepo _ _ _ _ _ _ _ _ _ _ Hws) as [? _].
    + cbn. rewrite (lookup_changed ws k w w' i Hk). destruct (decide (i = k)) as [->|]; [|done]. rewrite Hk.
      destruct (worker_step_over _ _ _ _ _ _ _ _ _ _ Hws) as (Hnd & _ & Hx). intros [[= ->]|[= ->]]; [|done]. right. by rewrite (proj1 Hx).
  - eapply (slots_put _ _ k jk Hs Hjk); cbn; [done|done|done|done| | |].
    + specialize (Hjobs k jk _ Hjk Hk). unfold worker_ok in Hjobs. destruct (j_kind jk); [by destruct Hjobs|]. by apply Hjobs.
    + intros i Hne. by apply list_lookup_insert_ne.
    + specialize (Hjobs k jk _ Hjk Hk). unfold worker_ok in Hjobs. destruct (j_kind jk); [by destruct Hjobs|].
      apply list_lookup_insert_eq. by eapply lookup_lt_Some.
  - intros i j' Hj'. apply slot_kept with (1 := Hs i j' Hj'); [done|done|cbn; lia|]. cbn.
    rewrite (lookup_changed ws k _ WExit i Hk). destruct (decide (i = k)) as [->|]; [by left|done].
  - intros i j' Hj' Hf. destruct (Hs i j' Hj' Hf) as [Hst Hkd]. split; [done|]. cbn in *. destruct (j_kind j') eqn:Ek; [lia|].
    destruct (decide (i = nx)) as [->|Hne]; [|by rewrite list_lookup_insert_ne].
    exfalso. destruct Hkd as [Hw|Hw]; specialize (Hjobs nx j' _ Hj' Hw); unfold worker_ok in Hjobs; rewrite Ek in Hjobs; lia.
  - eapply (slots_put _ _ nx j Hs Hj); cbn; [done|done|by eapply probe_grows|lia|by eapply probe_stored|done|].
    destruct Hm as [_ Hm]. rewrite (kind_job _ _ Hj) in Hm. rewrite Hm. lia.
  - intros i j' Hj'. apply slot_kept with (1 := Hs i j' Hj'); [by eapply probe_grows|done|cbn; lia|done].
  - intros i j' Hj'. apply slot_kept with (1 := Hs i j' Hj'); [by eapply probe_grows|done|cbn; lia|done].
  - eapply (slots_put _ _ nx j Hs Hj); cbn; [done|done|by eapply upload_grows|lia|by eapply upload_stored|done|].
    destruct Hm as [_ Hm]. rewrite (kind_job _ _ Hj) in Hm. rewrite Hm. lia.
  - intros i j' Hj'. apply slot_kept with (1 := Hs i j' Hj'); [by eapply upload_grows|done|cbn; lia|done].
Qed.

(** *** The pieces a step adds to the log *)

Definition logs (st st' : state (S := S)) (o : option nat) : Prop :=
  line_of st st' = o /\ (forall i, reported st' i <-> reported st i \/ o = Some i) /\ (forall i, o = Some i -> ~ reported st i).

Definition uploads (m m' : reader_pos) : bool := match m, m' with (MHas | MPut), MLoop => true | _, _ => false end.

Lemma line_of_find st st' :
  uploads (p_main st) (p_main st') = false ->
  line_of st st' = find (fun i => over (p_workers st !! i) (p_workers st' !! i) && filled (p_descs st) i) (seq 0 (length jobs)).
Proof. unfold line_of, uploads. by destruct (p_main st), (p_main st'). Qed.

Lemma uploads_same m : uploads m m = false.
Proof. by destruct m. Qed.

Lemma over_same w : over w w = false.
Proof. by destruct w as [[]|]. Qed.

Lemma logs_nothing st st' :
  uploads (p_main st) (p_main st') = false -> (forall i, over (p_workers st !! i) (p_workers st' !! i) = false) ->
  (forall i, reported st' i <-> reported st i) -> logs st st' None.
Proof.
  intros Hu Ho Hr. split_and!; [|intros i; rewrite Hr; naive_solver|done].
  rewrite line_of_find by done. apply find_nothing. intros k. by rewrite Ho.
Qed.

(** A step that leaves slots and goroutines alone logs nothing. *)
Lemma logs_idle st st' :
  uploads (p_main st) (p_main st') = false -> p_workers st' = p_workers st -> p_descs st' = p_descs st -> logs st st' None.
Proof.
  intros Hu Hw Hd. apply logs_nothing; [done|intros i; rewrite Hw; apply over_same|]. intros i. unfold reported. by rewrite Hw, Hd.
Qed.

(** A goroutine moves from [w] to [w'], neither of which is the end. *)
Lemma logs_goroutine st st' k w w' :
  uploads (p_main st) (p_main st') = false -> p_workers st !! k = Some w -> p_workers st' = <[k := w']> (p_workers st) ->
  w <> WDone -> w' <> WDone -> kind_at jobs k <> Inline ->
  (forall i, i <> k -> filled (p_descs st') i = filled (p_descs st) i) -> logs st st' None.
Proof.
  intros Hu Hk Hw Hne Hne' Hkd Hf. apply logs_nothing; [done|..]; intros i.
  - rewrite Hw, (lookup_changed _ k w w' i Hk). destruct (decide (i = k)) as [->|]; [|apply over_same]. rewrite Hk. by destruct w, w'.
  - unfold reported. rewrite Hw, (lookup_changed _ k w w' i Hk). destruct (decide (i = k)) as [->|Hik]; [|by rewrite Hf].
    rewrite Hk. split; intros [_ [?|[= ?]]]; done.
Qed.

(** The reader has uploaded piece [k] itself. *)
Lemma logs_reader st st' k j :
  uploads (p_main st) (p_main st') = true -> p_next st = k -> slots_ok st -> jobs !! k = Some j -> j_kind j = Inline ->
  length (p_descs st) = length jobs -> p_workers st' = p_workers st -> p_descs st' = <[k := Some (j_desc j)]> (p_descs st) ->
  logs st st' (Some k).
Proof.
  intros Hu Hn Hs Hj Hkd Hl Hw Hd. split_and!.
  - unfold line_of, uploads in *. rewrite Hn. by destruct (p_main st), (p_main st').
  - intros i. unfold reported. rewrite Hd, Hw, filled_insert by (rewrite Hl; by eapply lookup_lt_Some).
    destruct (decide (i = k)) as [->|Hne]; [|naive_solver]. rewrite (kind_job _ _ Hj), Hkd. split; [by right|by split; [|left]].
  - intros i [= <-] [Hf _]. destruct (Hs k j Hj Hf) as [_ Hk]. rewrite Hkd in Hk. lia.
Qed.

(** A goroutine returns: it reports the piece when it has filled its slot. *)
Lemma logs_return st st' k j :
  uploads (p_main st) (p_main st') = false -> jobs !! k = Some j -> j_kind j <> Inline ->
  p_workers st !! k = Some WExit -> p_workers st' = <[k := WDone]> (p_workers st) -> p_descs st' = p_descs st ->
  logs st st' (if filled (p_descs st) k then Some k else None).
Proof.
  intros Hu Hj Hkd Hk Hw Hd.
  assert (forall i, over (p_workers st !! i) (p_workers st' !! i) = bool_decide (i = k)) as Ho.
  { intros i. rewrite Hw, (lookup_changed _ k _ WDone i Hk). case_bool_decide as Hi.
    - subst i. rewrite Hk. by destruct (decide (k = k)).
    - destruct (decide (i = k)); [done|apply over_same]. }
  split_and!.
  - rewrite line_of_find, (find_only _ _ k); [by rewrite Ho, bool_decide_true|by eapply lookup_lt_Some| |done].
    intros i Hne. by rewrite Ho, bool_decide_false.
  - intros i. unfold reported. rewrite Hd, Hw, (lookup_changed _ k _ WDone i Hk). destruct (decide (i = k)) as [->|Hne].
    + rewrite Hk. destruct (filled (p_descs st) k); naive_solver.
    + destruct (filled (p_descs st) k); naive_solver.
  - intros i Hi. destruct (filled (p_descs st) k); [|done]. injection Hi as <-. intros [_ [Hx|Hx]]; [|congruence].
    by rewrite (kind_job _ _ Hj) in Hx.
Qed.

Lemma logs_step s0 st st' : invariant s0 st -> slots_ok st -> pool_step st st' -> exists o, logs st st' o.
Proof.
  intros Hi Hs Hst. pose proof (i_jobs _ _ _ _ _ Hi) as Hjobs. pose proof (i_descs _ _ _ _ _ Hi) as Hl. pose proof (i_main _ _ _ _ _ Hi) as Hm.
  pose proof (i_workers _ _ _ _ _ Hi) as Hlw.
  assert (forall i j w, jobs !! i = Some j -> p_workers st !! i = Some w -> w <> WIdle -> j_kind j <> Inline) as Hgo.
  { intros i j w Hj Hw Hne Hk. specialize (Hjobs i j w Hj Hw). unfold worker_ok in Hjobs. rewrite Hk in Hjobs. by destruct Hjobs. }
  destruct Hst as [|m nx ws ra ou eg ctx s ds k jk w w' ra' ou' s' Hk Hjk Hws|m nx ws ra ou eg ctx s ds k jk Hk Hjk
    |m nx ws ra ou eg ctx s ds k e Hk| | | | | | | | |nx ws ra ou eg ctx s ds zip first Hrun Hkind
    |nx ws ra ou eg ctx s ds j s' Hj Hp| | |nx ws ra ou eg ctx s ds j s' Hj Hrw Hu| | |]; cbn in *.
  all: try (exists None; apply logs_idle; cbn; [by try apply uploads_same|done|done]).
  - destruct (worker_step_over _ _ _ _ _ _ _ _ _ _ Hws) as (Hnd & _ & Hx).
    assert (j_kind jk <> Inline) as Hkd by (apply (Hgo k jk w Hjk Hk); intros ->; by inversion Hws).
    assert (w = WExit \/ w <> WExit) as [->|Hne] by (destruct w; auto).
    + rewrite (proj1 Hx eq_refl). eexists. by eapply logs_return; [apply uploads_same|..].
    + exists None. eapply (logs_goroutine _ _ k); cbn; [apply uploads_same|done|done|done|naive_solver| |done]. by rewrite (kind_job _ _ Hjk).
  - exists None. eapply (logs_goroutine _ _ k); cbn; [apply uploads_same|done|done|done|done| |].
    + rewrite (kind_job _ _ Hjk). by apply (Hgo k jk _ Hjk Hk).
    + intros i Hne. rewrite filled_insert by (rewrite Hl; by eapply lookup_lt_Some). by destruct (decide (i = k)).
  - destruct (lookup_lt_is_Some_2 jobs k) as [jk Hjk]; [rewrite <- Hlw; by eapply lookup_lt_Some|].
    exists None. eapply (logs_goroutine _ _ k); cbn; [apply uploads_same|done|done|done|done| |done].
    rewrite (kind_job _ _ Hjk). by apply (Hgo k jk _ Hjk Hk).
  - destruct Hm as [Hlt Hkd]. destruct (lookup_lt_is_Some_2 jobs nx Hlt) as [j Hj].
    destruct (lookup_lt_is_Some_2 ws nx) as [w Hw]; [by rewrite Hlw|]. specialize (Hjobs nx j w Hj Hw).
    exists None. eapply (logs_goroutine _ _ nx); cbn; [done|exact Hw|done| |by destruct zip|done|done].
    intros ->. unfold worker_ok in Hjobs. rewrite <- (kind_job _ _ Hj), Hkind in Hjobs. lia.
  - exists (Some nx). eapply (logs_reader _ _ nx j); cbn; try done. destruct Hm as [_ Hm]. by rewrite <- (kind_job _ _ Hj).
  - exists (Some nx). eapply (logs_reader _ _ nx j); cbn; try done. destruct Hm as [_ Hm]. by rewrite <- (kind_job _ _ Hj).
Qed.

(** The log of a run: every reported piece once. *)
Lemma traced_inv s0 l st :
  traced s0 l st -> invariant s0 st /\ slots_ok st /\ NoDup l /\ forall i, i ∈ l <-> reported st i.
Proof.
  induction 1 as [|l st st' Ht (Hi & Hs & Hnd & Hl) Hst].
  - split_and!; [apply pool_inv_start; exact Hrepo| |constructor|].
    + intros i j Hj Hf. unfold filled, start in Hf. cbn in Hf. destruct (replicate _ _ !! i) eqn:E; [|done].
      by apply lookup_replicate in E as [-> _].
    + intros i. split; [by intros ?%elem_of_nil|]. intros [Hf _]. unfold filled, start in Hf. cbn in Hf.
      destruct (replicate _ _ !! i) eqn:E; [|done]. by apply lookup_replicate in E as [-> _].
  - destruct (logs_step s0 st st' Hi Hs Hst) as (o & -> & Hr & Hn).
    split_and!; [by eapply pool_inv_step|by eapply slots_step| |].
    + apply NoDup_app. split_and!; [done| |destruct o; [apply NoDup_singleton|constructor]].
      intros i Hin%Hl Hx. destruct o as [k|]; [|by apply elem_of_nil in Hx]. apply list_elem_of_singleton in Hx as ->. by apply (Hn k).
    + intros i. rewrite elem_of_app, Hl, Hr. apply or_iff_compat_l. destruct o as [k|].
      * rewrite list_elem_of_singleton. naive_solver.
      * split; [by intros ?%elem_of_nil|done].
Qed.

(** Every piece reported is stored, none twice, and when the reader returns
    without an error all of them have been. *)
Lemma log_complete s0 l st :
  traced s0 l st ->
  NoDup l /\ (forall i, i ∈ l -> exists j, jobs !! i = Some j /\ stored name (p_reg st) (j_blob j))
  /\ (p_main st = MRet None -> l ≡ₚ seq 0 (length jobs)).
Proof.
  intros Ht. destruct (traced_inv s0 l st Ht) as (Hi & Hs & Hnd & Hl). pose proof (i_descs _ _ _ _ _ Hi) as Hld.
  split_and!; [done| |].
  - intros i [Hf _]%Hl. assert (i < length jobs) as Hlt.
    { rewrite <- Hld. unfold filled in Hf. destruct (p_descs st !! i) eqn:E; [by eapply lookup_lt_Some|done]. }
    destruct (lookup_lt_is_Some_2 jobs i Hlt) as [j Hj]. exists j. split; [done|]. by apply (Hs i j Hj).
  - intros Hm. destruct (pool_returned name workers jobs gap read rewind Hrepo s0 st None) as (Hidle & _ & _ & _ & Hok);
      [apply traced_reachable; by exists l|done|]. destruct (Hok eq_refl) as [Hd _].
    apply NoDup_Permutation; [done|apply NoDup_seq|]. intros i. rewrite Hl, elem_of_seq. split.
    + intros [Hf _]. unfold filled in Hf. rewrite <- Hld. destruct (p_descs st !! i) eqn:E; [|done]. apply lookup_lt_Some in E. lia.
    + intros [_ Hlt]. destruct (lookup_lt_is_Some_2 jobs i Hlt) as [j Hj].
      split; [unfold filled; by rewrite Hd, !list_lookup_fmap, Hj|]. rewrite (kind_job _ _ Hj).
      destruct (lookup_lt_is_Some_2 (p_workers st) i) as [w Hw]; [by rewrite (i_workers _ _ _ _ _ Hi)|].
      pose proof (i_jobs _ _ _ _ _ Hi i j w Hj Hw) as Hwk. pose proof (sum_pos active _ _ _ Hw) as Ha. unfold running in Hidle.
      pose proof (i_main _ _ _ _ _ Hi) as Hmain. rewrite Hm in Hmain. destruct Hmain as [_ Hnx]. destruct (Hnx eq_refl) as [Hnx' _].
      unfold worker_ok in Hwk. destruct (j_kind j); [by left|right]. rewrite Hw. destruct w; cbn in Ha; (lia || done).
Qed.

End pool.

(** The lines of a log. *)
Definition lines_at (lines : list string) (l : list nat) : list string := omap (fun i => lines !! i) l.

Lemma lines_at_shift x xs l : lines_at (x :: xs) (Datatypes.S <$> l) = lines_at xs l.
Proof. unfold lines_at. induction l as [|i l IH]; [done|]. cbn. by rewrite IH. Qed.

Lemma lines_at_all lines : lines_at lines (seq 0 (length lines)) = lines.
Proof.
  induction lines as [|x xs IH]; [done|]. cbn [length seq]. unfold lines_at. cbn [omap list_omap lookup list_lookup]. f_equal.
  rewrite <- fmap_S_seq. fold (lines_at (x :: xs) (Datatypes.S <$> seq 0 (length xs))). by rewrite lines_at_shift.
Qed.

(** C18: a push reports its progress truthfully. In every run of the upload
    goroutines, failing or cancelled ones included, a line is only reported
    for a blob that is stored, at most once for each; and a run without an
    error has reported, in some order, exactly the lines of the stream: one
    for every blob of every regular file. *)
Theorem progress_once {S} `{RegistryOk S} `{Zstd} opts (Hnames : names_ok opts) w c entries gap read rewind (s : S) l st :
  traced (po_Name opts) (Z.to_nat w) (stream_jobs opts c entries) gap read rewind s l st ->
  NoDup l
  /\ (forall i, i ∈ l -> exists j line, stream_jobs opts c entries !! i = Some j /\ stream_lines opts c entries !! i = Some line
        /\ stored (po_Name opts) (p_reg st) (j_blob j))
  /\ (p_main st = MRet None -> lines_at (stream_lines opts c entries) l ≡ₚ stream_lines opts c entries).
Proof.
  intros Ht. destruct (log_complete _ (proj1 Hnames) _ _ _ _ _ s l st Ht) as (Hnd & Hst & Hall).
  pose proof (stream_lines_jobs opts c entries) as Hlen. split_and!; [done| |].
  - intros i Hi. destruct (Hst i Hi) as (j & Hj & Hs). destruct (lookup_lt_is_Some_2 (stream_lines opts c entries) i) as [line Hl].
    { rewrite Hlen. by eapply lookup_lt_Some. }
    by exists j, line.
  - intros Hm. rewrite <- (lines_at_all (stream_lines opts c entries)) at 2. unfold lines_at. apply omap_Permutation. rewrite Hlen. by apply Hall.
Qed.

Lemma progress_once_witness : exists l,
  traced "team/vm" 8 sample_jobs no_error no_error no_error mem_empty l sample_end
  /\ lines_at (stream_lines sample_opts 0 sample_entries) l ≡ₚ stream_lines sample_opts 0 sample_entries.
Proof.
  destruct (proj1 (traced_reachable "team/vm" 8 sample_jobs no_error no_error no_error mem_empty sample_end)) as [l Hl];
    [apply run_reachable|].
  assert (p_main sample_end = MRet None) as Hm by (vm_compute; reflexivity).
  destruct (progress_once sample_opts sample_names 8 0 sample_entries no_error no_error no_error mem_empty l sample_end Hl)
    as (_ & _ & Hall).
  exists l. split; [exact Hl|exact (Hall Hm)].
Defined.

Example sample_lines : length (stream_lines sample_opts 0 sample_entries) = 2.
Proof. vm_compute. reflexivity. Qed.

(** ** The lines of a stream *)

Section stream.
Context {S : Type} `{Downloader S} `{Zstd} (s : S) (name : string).
Context (copy : chunkPipeline -> layerPlan -> M tar_writer Z) (p : chunkPipeline) (now : gotime).

(** What is reported before a file. *)
Definition plan_line (e : layerPlan) : string :=
  if negb (lp_encoded e) then "  " +:+ lp_title e +:+ " (" +:+ formatInt (d_Size (lp_layer e)) +:+ " bytes)"
  else "  " +:+ lp_title e +:+ " (" +:+ formatInt (sf_Size (lp_meta e)) +:+ " bytes, "
       +:+ formatInt (Z.of_nat (length (chunk_list e))) +:+ " chunks)".

(** The loop of [writeImportTar], with the lines it reports. *)
Fixpoint stream_entries_log (entries : list layerPlan) (tw : tar_writer) : result unit * tar_writer * list string :=
  match entries with
  | [] => (Ok (), tw, [])
  | e :: entries' =>
      match (if negb (lp_encoded e) then streamLayerToTar s name (lp_layer e) (lp_meta e) now else streamFile_by copy p e now) tw with
      | (Ok _, tw1) => let '(r, tw2, lines) := stream_entries_log entries' tw1 in (r, tw2, plan_line e :: lines)
      | (Err er, tw1) => (Err er, tw1, [plan_line e])
      | (Panic m, tw1) => (Panic m, tw1, [plan_line e])
      end
  end.

(** Reporting changes nothing, and every file is announced once, in the order
    of the plan, up to the one that fails: as many lines as files that were
    streamed, and one for the one that was not. *)
Theorem stream_progress entries tw :
  (stream_entries_log entries tw).1 = stream_entries s name copy p entries now tw
  /\ exists done rest, entries = (done ++ rest)%list /\ (stream_entries_log entries tw).2 = plan_line <$> done
       /\ (is_ok (stream_entries s name copy p entries now tw).1 = true -> rest = [])
       /\ (is_ok (stream_entries s name copy p entries now tw).1 = false ->
            exists sent e, done = (sent ++ [e])%list /\ is_ok (stream_entries s name copy p sent now tw).1 = true).
Proof.
  revert tw. induction entries as [|e es IH]; intros tw.
  { split; [done|]. by exists [], []. }
  cbn [stream_entries_log stream_entries]. unfold mbind, M_bind.
  destruct ((if negb (lp_encoded e) then streamLayerToTar s name (lp_layer e) (lp_meta e) now
             else streamFile_by copy p e now) tw) as [[[]|er|m] tw1] eqn:E.
  - destruct (IH tw1) as (H1 & done & rest & -> & Hl & Hok & Hbad). destruct (stream_entries_log _ tw1) as [[r tw2] lines].
    cbn [fst snd] in *. rewrite <- H1 in *. split; [done|]. exists (e :: done), rest. cbn [fst] in *.
    split_and!; [done|by rewrite Hl|done|]. intros Hr. destruct (Hbad Hr) as (sent & e' & -> & Hs).
    exists (e :: sent), e'. split; [done|]. cbn [stream_entries]. unfold mbind, M_bind. by rewrite E.
  - split; [done|]. exists [e], es. split_and!; [done..|]. intros _. by exists [], e.
  - split; [done|]. exists [e], es. split_and!; [done..|]. intros _. by exists [], e.
Qed.

End stream.
