(* ===== verification/Bodies.v ===== *)
(** * Bodies: the response bodies of a sequential file stream

    [chunkStream] of src/snapshot/pullencoded.go opens the bodies of a file's
    chunks one after the other and closes each by hand, in [Read] at its end or
    in the deferred [Close].  [SnapshotPull.cs_read] is what is read; here the
    same loop also says which bodies it opens and closes, so that it can be
    shown to leak none, however it is read and wherever the reading stops. *)

From Stdlib Require Import ZArith Lia Ascii String.
From stdpp Require Import base gmap strings list.
From S2P Require Import Prelude GoStrings Json Manifest GoIO OciUtil Registry Tar Zstd SnapshotPull RoundTrip Samples PullProps.

Local Open Scope nat_scope.

Inductive event := Opened (digest : string) | Closed (digest : string).
#[global] Instance event_eq_dec : EqDecision event.
Proof. solve_decision. Defined.

Section stream.
Context {S : Type} `{Downloader S} (s : S) (name : string).

(** [chunkStream.Read], with the bodies it opens and closes. *)
Fixpoint cs_read_ev (cur : option BlobSizeChecker) (descs : list Descriptor) (n : nat)
  : rd_result * chunkStream * list event :=
  match descs with
  | [] => ({| rr_data := []; rr_err := Some EOF |}, {| cs_cur := None; cs_descs := [] |}, [])
  | desc :: rest =>
      match match cur with
            | Some v => Ok (v, [])
            | None =>
                body ← get_blob s name desc;
                Ok (NewBlobSizeChecker body (d_Digest desc) (d_Size desc), [Opened (d_Digest desc)])
            end with
      | Err e => ({| rr_data := []; rr_err := Some e |}, {| cs_cur := None; cs_descs := descs |}, [])
      | Panic m => ({| rr_data := []; rr_err := Some (Enew m) |}, {| cs_cur := None; cs_descs := descs |}, [])
      | Ok (v, opened) =>
          let '(x, v') := BlobSizeChecker_Read v n in
          if is_EOF (rr_err x) then
            let closed := [Closed (d_Digest desc)] in
            if 0 <? length (rr_data x) then
              ({| rr_data := rr_data x; rr_err := None |}, {| cs_cur := None; cs_descs := rest |}, opened ++ closed)%list
            else let '(r, c, evs) := cs_read_ev None rest n in (r, c, opened ++ closed ++ evs)%list
          else (x, {| cs_cur := Some v'; cs_descs := descs |}, opened)
      end
  end.

(** [chunkStream.Close]: the open body, when there is one, is closed. *)
Definition chunkStream_Close (c : chunkStream) : chunkStream * list event :=
  match cs_cur c, cs_descs c with
  | Some _, desc :: _ => ({| cs_cur := None; cs_descs := cs_descs c |}, [Closed (d_Digest desc)])
  | _, _ => (c, [])
  end.

(** Reads of the given sizes, one after the other. *)
Fixpoint reads_ev (c : chunkStream) (ns : list nat) : list rd_result * chunkStream * list event :=
  match ns with
  | [] => ([], c, [])
  | n :: ns' =>
      let '(r, c1, ev1) := cs_read_ev (cs_cur c) (cs_descs c) n in
      let '(rs, c2, ev2) := reads_ev c1 ns' in
      (r :: rs, c2, ev1 ++ ev2)%list
  end.

Fixpoint reads (c : chunkStream) (ns : list nat) : list rd_result * chunkStream :=
  match ns with
  | [] => ([], c)
  | n :: ns' => let '(r, c1) := chunkStream_Read s name c n in let '(rs, c2) := reads c1 ns' in (r :: rs, c2)
  end.

(** The log does not change what is read. *)
Lemma cs_read_ev_same cur descs n : (cs_read_ev cur descs n).1 = cs_read s name cur descs n.
Proof.
  revert cur. induction descs as [|d ds IH]; intros cur; [done|]. cbn [cs_read_ev cs_read].
  destruct cur as [v|]; [|destruct (get_blob s name d) as [body|e|m]; cbn [mbind result_bind]; [|done..]].
  all: destruct (BlobSizeChecker_Read _ n) as [x v']; destruct (is_EOF (rr_err x)); [|done]; destruct (0 <? _); [done|].
  all: specialize (IH None); destruct (cs_read_ev None ds n) as [[r c] evs]; exact IH.
Qed.

Lemma reads_ev_same c ns : (reads_ev c ns).1 = reads c ns.
Proof.
  revert c. induction ns as [|n ns IH]; intros c; [done|]. cbn [reads_ev reads]. unfold chunkStream_Read.
  pose proof (cs_read_ev_same (cs_cur c) (cs_descs c) n) as E. destruct (cs_read_ev _ _ n) as [[r c1] ev1]. rewrite <- E.
  specialize (IH c1). destruct (reads_ev c1 ns) as [[rs c2] ev2]. cbn [fst] in *. by rewrite <- IH.
Qed.

(** ** No body is leaked *)

(** Each body closed before the next is opened. *)
Definition paired (descs : list Descriptor) : list event :=
  concat ((fun d => [Opened (d_Digest d); Closed (d_Digest d)]) <$> descs).

Lemma paired_app ds ds' : paired (ds ++ ds') = (paired ds ++ paired ds')%list.
Proof. unfold paired. by rewrite fmap_app, concat_app. Qed.

(** After the bodies of [done], with [descs] ahead: the log, and the open one. *)
Definition balanced (all : list Descriptor) (c : chunkStream) (evs : list event) : Prop :=
  exists done, all = (done ++ cs_descs c)%list /\ (evs ++ (chunkStream_Close c).2)%list = paired (done ++ match cs_cur c with Some _ => take 1 (cs_descs c) | None => [] end)
    /\ (cs_cur c <> None -> cs_descs c <> []).

Lemma balanced_read all c evs n :
  balanced all c evs ->
  balanced all (cs_read_ev (cs_cur c) (cs_descs c) n).1.2 (evs ++ (cs_read_ev (cs_cur c) (cs_descs c) n).2)%list.
Proof.
  destruct c as [cur descs]. cbn [cs_cur cs_descs]. revert cur evs.
  induction descs as [|d ds IH]; intros cur evs (done & Hall & Hev & Hcur); cbn [cs_cur cs_descs chunkStream_Close snd] in *.
  - exists done. cbn [cs_read_ev fst snd cs_cur cs_descs chunkStream_Close] in *. destruct cur; [by destruct Hcur|]. by rewrite !app_nil_r in *.
  - cbn [cs_read_ev].
    set (start := match cur with Some v => Ok (v, []) | None => _ end).
    assert (match start with
            | Ok (v, opened) => (evs ++ opened ++ [Closed (d_Digest d)])%list = paired (done ++ [d])
            | _ => evs = paired done /\ cur = None
            end) as Hstart.
    { subst start. destruct cur as [v|]; [exact Hev|]. rewrite !app_nil_r in Hev.
      destruct (get_blob s name d); cbn [mbind result_bind]; [|by split..]. by rewrite Hev, paired_app. }
    destruct start as [[v opened]|e|m].
    2,3: destruct Hstart as [-> ->]; exists done; cbn; by rewrite !app_nil_r.
    destruct (BlobSizeChecker_Read v n) as [x v']. destruct (is_EOF (rr_err x)).
    + assert (balanced all {| cs_cur := None; cs_descs := ds |} (evs ++ opened ++ [Closed (d_Digest d)])) as Hb.
      { exists (done ++ [d])%list. cbn. rewrite !app_nil_r, <- (assoc_L (++)). by split_and!. }
      destruct (0 <? _); [exact Hb|]. specialize (IH None _ Hb). destruct (cs_read_ev None ds n) as [[r c1] ev1].
      cbn [fst snd] in *. by rewrite !(assoc_L (++)) in *.
    + exists done. cbn. rewrite <- (assoc_L (++)). by split_and!.
Qed.

Lemma balanced_reads all c evs ns :
  balanced all c evs -> balanced all (reads_ev c ns).1.2 (evs ++ (reads_ev c ns).2)%list.
Proof.
  revert c evs. induction ns as [|n ns IH]; intros c evs Hb; cbn [reads_ev]; [by rewrite app_nil_r|].
  apply (balanced_read all c evs n) in Hb. destruct (cs_read_ev _ _ n) as [[r c1] ev1]. cbn [fst snd] in Hb. specialize (IH _ _ Hb).
  destruct (reads_ev c1 ns) as [[rs c2] ev2]. cbn [fst snd] in *. by rewrite <- (assoc_L (++)) in IH.
Qed.

(** C15: a file read sequentially leaks no response body. However often and in
    whatever pieces [Read] is called (to the end, or up to a decoder's error),
    and wherever the registry fails, once [Close] has run every body that was
    opened has been closed, each before the next was opened, in the order of
    the file's chunks and none of them twice. *)
Theorem chunkStream_closes_bodies descs ns :
  let '(rs, c, evs) := reads_ev {| cs_cur := None; cs_descs := descs |} ns in
  (rs, c) = reads {| cs_cur := None; cs_descs := descs |} ns
  /\ exists done rest, descs = (done ++ rest)%list /\ (evs ++ (chunkStream_Close c).2)%list = paired done.
Proof.
  pose proof (reads_ev_same {| cs_cur := None; cs_descs := descs |} ns) as E.
  assert (balanced descs {| cs_cur := None; cs_descs := descs |} []) as Hb by (exists []; by cbn).
  apply (balanced_reads _ _ _ ns) in Hb. destruct (reads_ev _ ns) as [[rs c] evs]. split; [exact E|].
  destruct Hb as (done & Hall & Hev & _). cbn [fst snd] in *.
  exists (done ++ match cs_cur c with Some _ => take 1 (cs_descs c) | None => [] end)%list,
    (match cs_cur c with Some _ => drop 1 (cs_descs c) | None => cs_descs c end).
  split; [|exact Hev]. rewrite Hall, <- (assoc_L (++)). f_equal. destruct (cs_cur c); [by rewrite take_drop|done].
Qed.

End stream.

(** Three reads of two bytes, then [Close]: the first body was read to its
    end and closed there, the second is closed by [Close]. *)
Example two_chunk_bodies :
  let '(rs, c, evs) := reads_ev two_chunks "n" {| cs_cur := None; cs_descs := two_chunk_layers |} [6; 6; 2] in
  (is_EOF <$> (rr_err <$> rs)) = [false; false; false]
  /\ (evs ++ (chunkStream_Close c).2)%list = paired two_chunk_layers.
Proof. vm_compute. by split. Qed.
