(* ===== verification/CloudImg.v ===== *)
(** * CloudImg: streaming cloud images (cloudimg/cloudimg.go)

    A cloud image is the concatenation of its manifest's disk layers in title
    order.  The registry is any [BlobReader]; the writer any [Writer]. *)

From Stdlib Require Import ZArith Lia Ascii String.
From Stdlib Require Import Sorting.Permutation Sorting.Sorted.
From stdpp Require Import base gmap strings list.
From S2P Require Import Prelude GoStrings Sha256 Json Manifest GoIO OciUtil.

Local Open Scope string_scope.
Local Open Scope nat_scope.
Local Open Scope list_scope.

(** Reads do not change the blob store. *)
Class BlobReader (S : Type) := ReadBlob : S -> string -> result reader.

(** ** Layer order

    [slices.SortStableFunc] by [cmp.Compare] on titles is the prelude's stable
    sort.  Go compares strings byte by byte, as [String.compare]. *)

Definition title_leb (a b : Descriptor) : bool := String.leb (Title a) (Title b).

Definition diskLayers (layers : list Descriptor) : list Descriptor :=
  sort_stable title_leb (List.filter (fun l => IsDiskMediaType (d_MediaType l)) layers).

(** ** Streaming *)

Section stream.
Context {S W : Type} `{BlobReader S, Writer W}.

Definition copyBlob (blobs : S) (layer : Descriptor) (w : W) : result () * W :=
  match ReadBlob blobs (d_Digest layer) with
  | Ok body =>
      match CopyBlobSized w body (d_Digest layer) (d_Size layer) with
      | (None, w') => (Ok (), w')
      | (Some e, w') => (Err e, w')
      end
  | Err e => (Err (Ewrap ("get blob " +:+ d_Digest layer) e), w)
  | Panic p => (Panic p, w)
  end.

Fixpoint copy_layers (blobs : S) (disks : list Descriptor) (w : W) : result () * W :=
  match disks with
  | [] => (Ok (), w)
  | layer :: disks' =>
      match copyBlob blobs layer w with
      | (Ok _, w') => copy_layers blobs disks' w'
      | r => r
      end
  end.

Definition StreamParsed (m : OCIManifest) (blobs : S) (w : W) : result () * W :=
  match diskLayers (m_Layers m) with
  | [] => (Err (Enew "cloud image manifest has no disk layers"), w)
  | disks => copy_layers blobs disks w
  end.

Definition Stream (raw : bytes) (blobs : S) (w : W) : result () * W :=
  match wrap "parse manifest" (Parse raw) with
  | Ok m =>
      let kind := ClassifyParsed m in
      if bool_decide (kind = KindCloudImage) then StreamParsed m blobs w
      else (Err (Enew ("manifest is " +:+ Kind_String kind +:+ ", not a cloud image")), w)
  | Err e => (Err e, w)
  | Panic p => (Panic p, w)
  end.

End stream.

(** ** The order *)

Lemma string_leb_trans s t u : String.leb s t = true -> String.leb t u = true -> String.leb s u = true.
Proof.
  revert t u. unfold String.leb. induction s as [|a s IH]; intros [|b t] [|c u]; cbn; try done.
  specialize (IH t u). unfold Ascii.compare in *.
  destruct (N.compare_spec (N_of_ascii a) (N_of_ascii b)), (N.compare_spec (N_of_ascii b) (N_of_ascii c)),
    (N.compare_spec (N_of_ascii a) (N_of_ascii c)); try done; lia.
Qed.

Lemma title_leb_total a b : title_leb a b = false -> title_leb b a = true.
Proof. unfold title_leb. intros H. destruct (String.leb_total (Title a) (Title b)); congruence. Qed.

Lemma title_leb_trans a b c : title_leb a b = true -> title_leb b c = true -> title_leb a c = true.
Proof. apply string_leb_trans. Qed.

Lemma title_leb_same a b : Title a = Title b -> title_leb a b = true.
Proof. unfold title_leb. intros ->. by destruct (String.leb_total (Title b) (Title b)). Qed.

(** [diskLayers] keeps exactly the layers with a disk media type (every
    occurrence of each), orders them by title, and leaves layers with the same
    title in manifest order; the input list is not otherwise inspected. *)
Theorem diskLayers_stable_sort layers :
  let disks := List.filter (fun l => IsDiskMediaType (d_MediaType l)) layers in
  diskLayers layers ≡ₚ disks
  /\ StronglySorted (fun a b => title_leb a b = true) (diskLayers layers)
  /\ (forall t, List.filter (fun l => String.eqb (Title l) t) (diskLayers layers)
                = List.filter (fun l => String.eqb (Title l) t) disks).
Proof.
  intros disks. split_and!; [apply sort_stable_perm| |intros t].
  - apply sort_stable_sorted; [exact title_leb_total|exact title_leb_trans].
  - apply sort_stable_filter; [exact title_leb_total|exact title_leb_trans|].
    intros a b Ha%String.eqb_eq Hb%String.eqb_eq. apply title_leb_same. congruence.
Qed.

(** ** What is written *)

Section correct.
Context {S W : Type} `{BlobReader S, WriterOk W}.

(** What a layer contributes: the whole blob, when the reader ends cleanly at
    the declared size. *)
Definition layer_bytes (blobs : S) (layer : Descriptor) : option bytes :=
  match ReadBlob blobs (d_Digest layer) with
  | Ok body =>
      if errors_Is (fate body) IoEOF && (Z.of_nat (length (content body)) =? Z.max 0 (d_Size layer))%Z
      then Some (content body) else None
  | _ => None
  end.

(** Bodies that err once and never stall. *)
Definition orderly (blobs : S) : Prop :=
  forall d body, ReadBlob blobs d = Ok body -> ends_once body = true /\ no_stall body = true.

Definition room_for (disks : list Descriptor) : nat := sum_list (Z.to_nat ∘ d_Size <$> disks).

Lemma copyBlob_spec blobs layer w rest :
  orderly blobs -> w_accepts w (Z.to_nat (d_Size layer) + rest) ->
  match layer_bytes blobs layer with
  | Some b => copyBlob blobs layer w = (Ok (), w_app w b) /\ w_accepts (w_app w b) rest
  | None => is_ok (copyBlob blobs layer w).1 = false
            /\ exists p, length p <= Z.to_nat (d_Size layer) /\ (copyBlob blobs layer w).2 = w_app w p
  end.
Proof.
  intros Ho Ha. unfold layer_bytes, copyBlob. destruct (ReadBlob blobs (d_Digest layer)) as [body| |] eqn:E; cycle 1.
  { split; [done|]. exists []. cbn. split; [lia|]. by rewrite w_app_nil. }
  { split; [done|]. exists []. cbn. split; [lia|]. by rewrite w_app_nil. }
  apply Ho in E as [E1 E2].
  destruct (CopyBlobSized_spec w body (d_Digest layer) (d_Size layer) E1 E2) as [Hw He].
  { eapply w_accepts_le; [|exact Ha]. lia. }
  destruct (CopyBlobSized _ _ _ _) as [[e|] w'] eqn:Ec; cbn [fst snd] in *; subst w'.
  - assert (errors_Is (fate body) IoEOF && (Z.of_nat (length (content body)) =? Z.max 0 (d_Size layer))%Z = false) as ->.
    { apply not_true_iff_false. intros [? ?%Z.eqb_eq]%andb_true_iff. by destruct He as [_ He]; discriminate He. }
    split; [done|]. eexists. split; [|done]. rewrite length_take. lia.
  - destruct He as [He _]. destruct (He eq_refl) as [-> Hl]. rewrite Hl, Z.eqb_refl. cbn [andb].
    rewrite take_ge by lia. split; [done|]. apply w_accepts_app. eapply w_accepts_le; [|exact Ha]. lia.
Qed.

Lemma copy_layers_spec blobs disks w :
  orderly blobs -> w_accepts w (room_for disks) ->
  match mapM (layer_bytes blobs) disks with
  | Some bs => copy_layers blobs disks w = (Ok (), w_app w (concat bs))
  | None => is_ok (copy_layers blobs disks w).1 = false
            /\ exists done bs layer rest p, disks = done ++ layer :: rest /\ mapM (layer_bytes blobs) done = Some bs
                 /\ layer_bytes blobs layer = None /\ length p <= Z.to_nat (d_Size layer)
                 /\ (copy_layers blobs disks w).2 = w_app w (concat bs ++ p)
  end.
Proof.
  intros Ho. revert w. induction disks as [|layer disks IH]; intros w Ha; [cbn; by rewrite w_app_nil|].
  cbn [mapM]. pose proof (copyBlob_spec blobs layer w (room_for disks) Ho Ha) as Hb. cbn [copy_layers].
  destruct (layer_bytes blobs layer) as [b|] eqn:El; cbn [mbind option_bind].
  - destruct Hb as [-> Ha']. specialize (IH _ Ha').
    destruct (mapM (layer_bytes blobs) disks) as [bs|]; cbn [mret option_ret mbind option_bind].
    + rewrite IH, w_app_app. by cbn [concat].
    + destruct IH as (Hno & dn & bs & l & rest & p & -> & Hm & Hl & Hp & Hw). split; [done|].
      exists (layer :: dn), (b :: bs), l, rest, p. rewrite Hw, w_app_app. cbn [mapM concat].
      rewrite El. cbn [mbind option_bind]. rewrite Hm. rewrite (assoc_L (++)). by split_and!.
  - destruct Hb as (Hno & p & Hp & Hw). destruct (copyBlob blobs layer w) as [[]  w']; cbn [fst snd is_ok] in *; [done|..].
    all: split; [done|]; exists [], [], layer, disks, p; by split_and!.
Qed.

(** C34: [StreamParsed] succeeds exactly when the manifest has disk layers and
    every one of them is served in full at its declared size, and then the
    writer received the blobs of the disk layers, in title order and nothing
    else.  Otherwise it returns an error, and the writer holds the blobs of
    the layers before the first bad one and at most the declared size of
    that one: a truncated or oversized blob never passes as an image. *)
Theorem cloudimg_stream_exact m blobs w :
  orderly blobs -> w_accepts w (room_for (diskLayers (m_Layers m))) ->
  match diskLayers (m_Layers m), mapM (layer_bytes blobs) (diskLayers (m_Layers m)) with
  | _ :: _, Some bs => StreamParsed m blobs w = (Ok (), w_app w (concat bs))
  | [], _ => is_ok (StreamParsed m blobs w).1 = false /\ (StreamParsed m blobs w).2 = w
  | disks, None =>
      is_ok (StreamParsed m blobs w).1 = false
      /\ exists done bs layer rest p, disks = done ++ layer :: rest /\ mapM (layer_bytes blobs) done = Some bs
           /\ layer_bytes blobs layer = None /\ length p <= Z.to_nat (d_Size layer)
           /\ (StreamParsed m blobs w).2 = w_app w (concat bs ++ p)
  end.
Proof.
  intros Ho Ha. pose proof (copy_layers_spec blobs _ w Ho Ha) as Hc. unfold StreamParsed.
  destruct (diskLayers (m_Layers m)) as [|d disks]; [done|]. by destruct (mapM _ _).
Qed.

End correct.

(** The manifest of the package's tests: two parts out of order around a
    checksum file. *)
Definition store_reader : BlobReader (gmap string bytes) := fun s d =>
  match s !! d with
  | Some b => Ok [(b, None)]
  | None => Err (Enew ("blob not found: " +:+ d))
  end.

Definition image_layer (mediaType title digest : string) (size : Z) : Descriptor :=
  {| d_MediaType := mediaType; d_Digest := digest; d_Size := size; d_Annotations := {[ AnnotationTitle := title ]};
     d_ArtifactType := "" |}.

Definition image_manifest : OCIManifest :=
  {| m_SchemaVersion := 2; m_MediaType := MediaTypeOCIManifest; m_ArtifactType := ArtifactTypeWindowsImage;
     m_Config := sample_descriptor;
     m_Layers := [ image_layer MediaTypeDiskQcow2Part "win.qcow2.01.qcow2.part" "b" 4;
                   image_layer "text/plain" "SHA256SUMS" "c" 2;
                   image_layer MediaTypeDiskQcow2Part "win.qcow2.00.qcow2.part" "a" 4 ];
     m_Manifests := []; m_Subject := None; m_Annotations := ∅ |}.

Definition image_store : gmap string bytes :=
  <["a" := bytes_of "AAAA"]> (<["b" := bytes_of "BBBB"]> {[ "c" := bytes_of "cc" ]}).

Lemma image_store_orderly : @orderly _ store_reader image_store.
Proof.
  intros d body. unfold ReadBlob, store_reader. destruct (image_store !! d) as [b|] eqn:E; [|done]. intros [= <-].
  unfold image_store in E. repeat (apply lookup_insert_Some in E as [[_ <-]|[_ E]]; [done|]).
  apply lookup_singleton_Some in E as [_ <-]. done.
Qed.

Lemma cloudimg_stream_exact_witness :
  @StreamParsed _ (list Byte.byte) store_reader _ image_manifest image_store [] = (Ok (), bytes_of "AAAABBBB").
Proof.
  exact (@cloudimg_stream_exact _ _ store_reader _ buffer_ok image_manifest image_store [] image_store_orderly I).
Defined.
