(* ===== verification/K8s.v ===== *)
(** * K8s: the Kubernetes helpers with logic of their own (k8s/)

    The merge patch of patch.go, the environment readers of env.go, the node
    address of netip.go and the condition of condition.go.  The environment
    and the network interfaces are arguments: they are the operating
    system's.  Merging a patch is RFC 7386, what the API server does with the
    body [AnnotationsMergePatch] returns. *)

From Stdlib Require Import ZArith Lia Ascii String.
From Stdlib Require Import Strings.Byte.
From stdpp Require Import base gmap strings list.
From S2P Require Import Prelude GoStrings Sha256 Json Manifest.

Local Open Scope string_scope.

(** ** patch.go *)

(** Marshalling a map of JSON values cannot fail. *)
Definition AnnotationsMergePatch (annotations : gmap string json) : result bytes :=
  Ok (bytes_of (marshal (JObj [("metadata", JObj [("annotations", e_map id annotations)])]))).

(** RFC 7386 on one string map: a [null] member deletes the key, a string
    member sets it; anything else is not an annotation. *)
Fixpoint merge_members (l : list (string * json)) (target : gmap string string) : option (gmap string string) :=
  match l with
  | [] => Some target
  | (k, JNull) :: l' => merge_members l' (delete k target)
  | (k, JStr v) :: l' => merge_members l' (<[k := v]> target)
  | _ :: _ => None
  end.

(** What the API server makes of a patch body of this shape. *)
Definition apply_annotations_patch (body : bytes) (target : gmap string string) : option (gmap string string) :=
  match parse_json (string_of body) with
  | Some (JObj [("metadata", JObj [("annotations", JObj l)])]) => merge_members l target
  | _ => None
  end.

(** ** env.go *)

(** [strconv.ParseBool] *)
Definition parseBool (s : string) : option bool :=
  if str_in s ["1"; "t"; "T"; "TRUE"; "true"; "True"] then Some true
  else if str_in s ["0"; "f"; "F"; "FALSE"; "false"; "False"] then Some false
  else None.

Section env.
(** [os.Getenv]: unset and empty variables both read as the empty string. *)
Variable Getenv : string -> string.

Definition EnvOrDefault (key fallback : string) : string := cmpOr (Getenv key) fallback.

Definition EnvBool (key : string) (fallback : bool) : bool :=
  match parseBool (Getenv key) with Some b => b | None => fallback end.

Definition EnvInt (key : string) (fallback : Z) : Z :=
  match parseInt64 (Getenv key) with Some n => n | None => fallback end.

End env.

(** ** netip.go *)

(** A [net.Addr]: an [*net.IPNet] with its IP ([[]] for nil), or another type. *)
Inductive net_addr := IPNet (ip : bytes) | OtherAddr (text : string).

(** [net.Interface]: [if_Addrs] is what its method [Addrs] returns. *)
Record iface := { if_Name : string; if_Loopback : bool; if_Addrs : result (list net_addr) }.

Definition cocoonBridge := "cni0".

(** [net.IP.To4]: four bytes are an IPv4 address, and so are sixteen with the
    prefix of an IPv4-mapped address. *)
Definition v4InV6Prefix : bytes := [x00;x00;x00;x00;x00;x00;x00;x00;x00;x00;xff;xff]%byte.
Definition To4 (ip : bytes) : option bytes :=
  if (length ip =? 4)%nat then Some ip
  else if (length ip =? 16)%nat && bool_decide (take 12 ip = v4InV6Prefix) then Some (drop 12 ip)
  else None.

(** [net.IP.String] of four bytes. *)
Definition ip4_String (ip : bytes) : string := String.concat "." ((fun b => formatUint (Z_of_byte b)) <$> ip).

Fixpoint firstIPv4 (addrs : list net_addr) : option string :=
  match addrs with
  | [] => None
  | IPNet ip :: addrs' =>
      match To4 ip with Some ip4 => Some (ip4_String ip4) | None => firstIPv4 addrs' end
  | OtherAddr _ :: addrs' => firstIPv4 addrs'
  end.

Fixpoint detect_loop (ifaces : list iface) : result string :=
  match ifaces with
  | [] => Err (Enew "no non-loopback IPv4 address found")
  | i :: rest =>
      if if_Loopback i || String.eqb (if_Name i) cocoonBridge then detect_loop rest
      else
        addrs ← wrap ("list " +:+ if_Name i +:+ " addresses") (if_Addrs i);
        match firstIPv4 addrs with Some ip => Ok ip | None => detect_loop rest end
  end.

(** [interfaces] is what [net.Interfaces] returns. *)
Definition DetectNodeIP (interfaces : result (list iface)) : result string :=
  ifaces ← wrap "list interfaces" interfaces; detect_loop ifaces.

(** ** condition.go *)

Definition ConditionTypeReady := "Ready".

(** [cd_LastTransitionTime]: [None] is the zero time. *)
Record Condition := {
  cd_Type : string;
  cd_Status : string;
  cd_ObservedGeneration : Z;
  cd_LastTransitionTime : option Z;
  cd_Reason : string;
  cd_Message : string
}.

Definition NewReadyCondition (generation : Z) (status reason message : string) : Condition :=
  {| cd_Type := ConditionTypeReady; cd_Status := status; cd_ObservedGeneration := generation;
     cd_LastTransitionTime := None; cd_Reason := reason; cd_Message := message |}.

(** ** The patch *)

(** The annotations a patch leaves. *)
Definition patched (patch : gmap string json) (target : gmap string string) (k : string) : option string :=
  match patch !! k with
  | None => target !! k
  | Some JNull => None
  | Some (JStr v) => Some v
  | Some _ => target !! k
  end.

Definition annotation_value (j : json) : bool := match j with JNull | JStr _ => true | _ => false end.

Lemma merge_members_lookup l target :
  NoDup l.*1 -> Forall (fun kv => annotation_value kv.2 = true) l ->
  exists out, merge_members l target = Some out
  /\ forall k, out !! k = patched (list_to_map l) target k.
Proof.
  intros Hd HF. revert target Hd. induction HF as [|[k j] l Hj HF IH]; intros target Hd.
  { exists target. split; [done|]. intros k. unfold patched. cbn. by rewrite lookup_empty. }
  apply NoDup_cons in Hd as [Hk Hd].
  destruct j; try discriminate Hj; cbn [merge_members].
  - destruct (IH (delete k target) Hd) as (out & Ho & Hl). exists out. split; [done|]. intros k'.
    rewrite Hl. unfold patched. cbn [list_to_map foldr uncurry].
    destruct (decide (k = k')) as [<-|Hne].
    + rewrite lookup_insert_eq. rewrite not_elem_of_list_to_map_1 by done. by rewrite lookup_delete_eq.
    + rewrite lookup_insert_ne, lookup_delete_ne by done. done.
  - destruct (IH (<[k := s]> target) Hd) as (out & Ho & Hl). exists out. split; [done|]. intros k'.
    rewrite Hl. unfold patched. cbn [list_to_map foldr uncurry].
    destruct (decide (k = k')) as [<-|Hne].
    + rewrite lookup_insert_eq. rewrite not_elem_of_list_to_map_1 by done. by rewrite lookup_insert_eq.
    + rewrite !lookup_insert_ne by done. done.
Qed.

Lemma e_map_entries (m : gmap string json) :
  let l := (fun kv : string * json => (kv.1, id kv.2)) <$> sorted_entries m in
  NoDup l.*1 /\ list_to_map (M := gmap string json) l = m /\ (forall kv, kv ∈ l -> m !! kv.1 = Some kv.2).
Proof.
  intros l. assert (l = sorted_entries m) as ->.
  { unfold l. etransitivity; [|apply list_fmap_id]. apply list_fmap_ext. by intros ? [? ?] ?. }
  pose proof (sorted_entries_perm m) as Hp.
  assert (NoDup ((sorted_entries m).*1)) as Hnd by (rewrite Hp; apply NoDup_fst_map_to_list).
  split_and!; [done| |].
  - by rewrite (list_to_map_proper _ (map_to_list m)), list_to_map_to_list by done.
  - intros [k j] Hin. rewrite Hp in Hin. by apply elem_of_map_to_list.
Qed.

(** The patch does to every annotation what its map says. *)
Lemma AnnotationsMergePatch_spec (patch : gmap string json) target :
  map_Forall (fun k j => annotation_value j = true /\ utf8_ok 0 k = true /\ json_ok j = true) patch ->
  exists body out, AnnotationsMergePatch patch = Ok body
    /\ apply_annotations_patch body target = Some out /\ forall k, out !! k = patched patch target k.
Proof.
  intros HF. destruct (e_map_entries patch) as (Hnd & Hm & Hin). set (l := (fun kv : string * json => (kv.1, id kv.2)) <$> sorted_entries patch) in *.
  destruct (merge_members_lookup l target Hnd) as (out & Hout & Hl).
  { apply Forall_forall. intros kv Hkv. by destruct (HF _ _ (Hin kv Hkv)). }
  eexists _, out. split; [reflexivity|]. split; [|intros k; by rewrite Hl, Hm].
  unfold apply_annotations_patch. rewrite string_of_bytes_of, parse_marshal; [exact Hout|].
  cbn [json_ok forallb fst snd]. rewrite json_ok_map; [done|]. intros k a Ha. by destruct (HF _ _ Ha).
Qed.

(** ** The node's address *)

(** Neither loopback nor the cocoon bridge. *)
Definition usable (i : iface) : bool := negb (if_Loopback i || String.eqb (if_Name i) cocoonBridge).

Lemma firstIPv4_Some addrs ip :
  firstIPv4 addrs = Some ip <->
  exists before b ip4 after, addrs = (before ++ IPNet b :: after)%list /\ To4 b = Some ip4 /\ ip = ip4_String ip4
    /\ Forall (fun a => match a with IPNet b => To4 b = None | OtherAddr _ => True end) before.
Proof.
  induction addrs as [|[b|o] addrs IH]; cbn [firstIPv4].
  - split; [done|]. intros (before & b & ip4 & after & E & _). by destruct before.
  - destruct (To4 b) as [ip4|] eqn:Eb.
    + split; [intros [= <-]; by exists [], b, ip4, addrs|].
      intros ([|a before] & b' & ip4' & after & E & Hb & -> & HF); injection E as <- ->; [congruence|].
      apply Forall_cons in HF as [HF _]. congruence.
    + rewrite IH. split.
      * intros (before & b' & ip4 & after & -> & Hb & Hi & HF). exists (IPNet b :: before), b', ip4, after. auto.
      * intros ([|a before] & b' & ip4 & after & E & Hb & Hi & HF); injection E as <- ->; [congruence|].
        apply Forall_cons in HF as [_ HF]. eauto 8.
  - rewrite IH. split.
    + intros (before & b' & ip4 & after & -> & Hb & Hi & HF). exists (OtherAddr o :: before), b', ip4, after. auto.
    + intros ([|a before] & b' & ip4 & after & E & Hb & Hi & HF); [done|injection E as <- ->].
      apply Forall_cons in HF as [_ HF]. eauto 8.
Qed.

Lemma detect_skip i rest : usable i = false -> detect_loop (i :: rest) = detect_loop rest.
Proof. unfold usable. intros H%negb_false_iff. cbn [detect_loop]. by rewrite H. Qed.

Lemma detect_use i rest :
  usable i = true ->
  detect_loop (i :: rest) =
    match if_Addrs i with
    | Ok addrs => match firstIPv4 addrs with Some ip => Ok ip | None => detect_loop rest end
    | Err e => Err (Ewrap ("list " +:+ if_Name i +:+ " addresses") e)
    | Panic p => Panic p
    end.
Proof. unfold usable. intros H%negb_true_iff. cbn [detect_loop]. rewrite H. by destruct (if_Addrs i). Qed.

(** An interface the search passes over. *)
Definition passed (i : iface) : Prop :=
  usable i = true -> exists addrs, if_Addrs i = Ok addrs /\ firstIPv4 addrs = None.

(** The node address is the first IPv4 address of the first interface
    that has one, in the order of the system, loopback and the cocoon bridge
    left out; an interface before it whose addresses cannot be listed makes
    the search fail, and so does having none. *)
Theorem DetectNodeIP_first ifaces :
  (forall ip, DetectNodeIP (Ok ifaces) = Ok ip <->
    exists before i addrs after, ifaces = (before ++ i :: after)%list /\ Forall passed before
      /\ usable i = true /\ if_Addrs i = Ok addrs /\ firstIPv4 addrs = Some ip)
  /\ ((exists e, DetectNodeIP (Ok ifaces) = Err e) <->
       Forall passed ifaces
       \/ exists before i e after, ifaces = (before ++ i :: after)%list /\ Forall passed before
            /\ usable i = true /\ if_Addrs i = Err e).
Proof.
  unfold DetectNodeIP. cbn [wrap mbind result_bind].
  assert (forall i rest, passed i -> detect_loop (i :: rest) = detect_loop rest) as Hpass.
  { intros i rest Hp. destruct (usable i) eqn:Eu; [|by apply detect_skip].
    rewrite detect_use by done. destruct (Hp Eu) as (addrs & -> & ->). done. }
  induction ifaces as [|i rest [IHo IHe]].
  - split; [intros ip; split; [done|]; by intros ([|] & ? & ? & ? & ? & _)|]. split; [by left|by eexists].
  - assert (passed i \/ usable i = true /\ match if_Addrs i with Ok a => is_Some (firstIPv4 a) | _ => True end) as [Hp|[Hu Hi]].
    { unfold passed. destruct (usable i); [|by left]. destruct (if_Addrs i) as [a| |]; [|by right..].
      destruct (firstIPv4 a) eqn:Ea; [by right; eauto|left; eauto]. }
    + rewrite Hpass by done. split.
      * intros ip. rewrite IHo. split.
        -- intros (b & j & a & c & -> & HF & H). exists (i :: b), j, a, c. split_and!; try apply H; [done|by constructor].
        -- intros ([|x b] & j & a & c & E & HF & Hu & Ha & Hip); injection E as <- ->.
           { destruct (Hp Hu) as (a' & Ha' & Hn). congruence. }
           apply Forall_cons in HF as [_ HF]. eauto 9.
      * rewrite IHe. split.
        -- intros [HF|(b & j & e & c & -> & HF & H)]; [left; by constructor|right]. exists (i :: b), j, e, c.
           split_and!; try apply H; [done|by constructor].
        -- intros [HF|([|x b] & j & e & c & E & HF & Hu & He)]; [left; by apply Forall_cons in HF as [_ HF]| |]; injection E as <- ->.
           { destruct (Hp Hu) as (a' & Ha' & Hn). congruence. }
           apply Forall_cons in HF as [_ HF]. right. eauto 8.
    + rewrite detect_use by done.
      assert (~ passed i) as Hnp by (intros Hp; destruct (Hp Hu) as (a & Ha & Hn); rewrite Ha, Hn in Hi; by destruct Hi).
      split.
      * intros ip. split.
        -- intros Ho. destruct (if_Addrs i) as [a| |] eqn:Ea; [|done..]. destruct Hi as [ip' Hip]. rewrite Hip in Ho.
           injection Ho as <-. by exists [], i, a, rest.
        -- intros ([|x b] & j & a & c & E & HF & Hu' & Ha & Hip); injection E as <- ->; [by rewrite Ha, Hip|].
           by apply Forall_cons in HF as [HF _].
      * split.
        -- intros [e He]. right. destruct (if_Addrs i) as [a|e'|] eqn:Ea; [destruct Hi as [? Hi]; by rewrite Hi in He| |done]. by exists [], i, e', rest.
        -- intros [HF|([|x b] & j & e & c & E & HF & Hu' & He)]; [by apply Forall_cons in HF as [HF _]| |]; injection E as <- ->.
           ++ rewrite He. by eexists.
           ++ by apply Forall_cons in HF as [HF _].
Qed.
