(* ===== verification/Heap.v ===== *)
(** * Heap: Go memory with aliasing, and what a deep copy promises

    Where sharing matters (pointers, slices and their backing arrays) the
    store is explicit: a location holds an array of one element type, a
    pointer is a location with an index, a slice a window on an array.
    A computation is a function of the store; it has no result when it reads
    a location that does not exist or holds another type, which Go's types
    exclude.  [value] is what a Go value is apart from where it is stored,
    its fields with their JSON tags; [read] finds it, and with it the
    locations it reaches.  The class [DeepCopyOk] is the contract of a deep
    copy: an equal value, in fresh memory, and the old memory as it was. *)

From Stdlib Require Import ZArith Lia Ascii String.
From stdpp Require Import base gmap strings list sets.
From S2P Require Import Prelude GoStrings Json.

Local Open Scope string_scope.

Abbreviation loc := positive.

(** A pointer to an element of an array of [T]s; [new(T)] makes an array of one. *)
Record ref (T : Type) := Ref { r_loc : loc; r_idx : nat }.
Arguments Ref {T} r_loc r_idx.
Arguments r_loc {T} r.
Arguments r_idx {T} r.
Abbreviation ptr T := (option (ref T)).

(** A slice: an array of [T]s, where it begins in it and how many it has. *)
Record window (T : Type) := Window { w_arr : loc; w_off : nat; w_len : nat }.
Arguments Window {T} w_arr w_off w_len.
Arguments w_arr {T} w.
Arguments w_off {T} w.
Arguments w_len {T} w.
Abbreviation slice T := (option (window T)).

(** ** Values and their JSON *)

(** The [json] tag of a field: its name and [omitempty], or an embedded
    struct whose fields are promoted. *)
Inductive tag := Named (name : string) (omitempty : bool) | Inline.

#[warnings="-register-all"]
Inductive value :=
  | VBool (b : bool)
  | VInt (n : Z)
  | VStr (s : string)
  | VNil
  | VRef (v : value)
  | VSlice (l : list value)
  | VStruct (fields : list (tag * value))
  | VOpaque (j : json).

(** What [omitempty] leaves out. *)
Definition is_empty_value (v : value) : bool :=
  match v with
  | VBool b => negb b
  | VInt n => (n =? 0)%Z
  | VStr s => String.eqb s ""
  | VNil => true
  | VSlice l => (length l =? 0)%nat
  | VRef _ | VStruct _ | VOpaque _ => false
  end.

(** [json.Marshal]; a type with a [MarshalJSON] of its own is a [VOpaque]. *)
Fixpoint marshal_value (v : value) : json :=
  match v with
  | VBool b => JBool b
  | VInt n => JNum (formatInt n)
  | VStr s => JStr s
  | VNil => JNull
  | VRef v' => marshal_value v'
  | VSlice l => JArr (map marshal_value l)
  | VStruct fs =>
      JObj ((fix go fs := match fs with
        | [] => [] : list (string * json)
        | (Named name omitempty, v') :: fs' =>
            if omitempty && is_empty_value v' then go fs' else (name, marshal_value v') :: go fs'
        | (Inline, v') :: fs' =>
            match marshal_value v' with JObj l => l ++ go fs' | _ => go fs' end%list
        end) fs)
  | VOpaque j => j
  end.

Section heap.
Context {cell : Type}.

Abbreviation store := (gmap loc cell).

(** ** Computations on the store *)

Definition mem (A : Type) := store -> option (A * store).

#[global] Instance mem_ret : MRet mem := fun A a s => Some (a, s).
#[global] Instance mem_bind : MBind mem := fun A B f m s =>
  match m s with Some (a, s') => f a s' | None => None end.

(** The arrays of [T]s among the cells. *)
Class InCell (T : Type) := {
  put : list T -> cell;
  get : cell -> option (list T);
  get_put : forall a, get (put a) = Some a
}.

Section ops.
Context {T} `{!InCell T}.

Definition load_array (l : loc) : mem (list T) := fun s =>
  match s !! l with
  | Some c => match get c with Some a => Some (a, s) | None => None end
  | None => None
  end.

Definition make (a : list T) : mem loc := fun s =>
  let l := fresh (dom s : gset loc) in Some (l, <[l := put a]> s).

Definition load (p : ref T) : mem T := fun s =>
  match load_array (r_loc p) s with
  | Some (a, _) => match a !! r_idx p with Some x => Some (x, s) | None => None end
  | None => None
  end.

Definition assign (p : ref T) (x : T) : mem unit := fun s =>
  match load_array (r_loc p) s with
  | Some (a, _) => if r_idx p <? length a then Some (tt, <[r_loc p := put (<[r_idx p := x]> a)]> s) else None
  | None => None
  end%nat.

(** The elements a slice sees of its array. *)
Definition window_of (w : window T) (a : list T) : mem (list T) := fun s =>
  if (w_off w + w_len w <=? length a)%nat then Some (take (w_len w) (drop (w_off w) a), s) else None.

(** Overwrite a whole array. *)
Definition fill (l : loc) (a : list T) : mem unit := fun s => Some (tt, <[l := put a]> s).

(** [&sl[i]] *)
Definition elem (w : window T) (i : nat) : ref T := Ref (w_arr w) (w_off w + i).
End ops.

(** ** Reading values, with the locations they reach *)

Definition rd (A : Type) := store -> option (A * gset loc).

#[global] Instance rd_ret : MRet rd := fun A a s => Some (a, ∅).
#[global] Instance rd_bind : MBind rd := fun A B f r s =>
  match r s with
  | Some (a, fp) => match f a s with Some (b, fp') => Some (b, fp ∪ fp') | None => None end
  | None => None
  end.

Definition rd_array {T} `{!InCell T} (l : loc) : rd (list T) := fun s =>
  match load_array l s with Some (a, _) => Some (a, {[l]}) | None => None end.

Definition rd_opt {A} (o : option A) : rd A := fun s => match o with Some a => Some (a, ∅) | None => None end.

Fixpoint rd_all {A B} (f : A -> rd B) (l : list A) : rd (list B) :=
  match l with
  | [] => mret []
  | a :: l' => b ← f a; bs ← rd_all f l'; mret (b :: bs)
  end.

(** A type that can be copied deeply: how a [T] is read, Go's zero value, and
    its [DeepCopyInto], a function of the struct [in] points to that returns what it leaves in [out]. *)
Class DeepCopier (T : Type) := {
  read : T -> rd value;
  zero : T;
  copyInto : T -> mem T
}.

Section readers.
Context {T} `{!InCell T, !DeepCopier T}.

Definition read_ref (p : ref T) : rd value :=
  a ← rd_array (r_loc p); x ← rd_opt (a !! r_idx p); read x.

Definition read_ptr (p : ptr T) : rd value :=
  match p with None => mret VNil | Some r => v ← read_ref r; mret (VRef v) end.

Definition read_slice (sl : slice T) : rd value :=
  match sl with
  | None => mret VNil
  | Some w =>
      a ← rd_array (w_arr w);
      xs ← rd_opt (if w_off w + w_len w <=? length a then Some (take (w_len w) (drop (w_off w) a)) else None)%nat;
      vs ← rd_all read xs;
      mret (VSlice vs)
  end.
End readers.

(** ** The pieces of a generated DeepCopyInto *)

Section pieces.
Context {T} `{!InCell T, !DeepCopier T}.

(** [for i := range in.F { in.F[i].DeepCopyInto(&out.F[i]) }], from [i] on, [n] elements. *)
Fixpoint copy_elems (win wout : window T) (i n : nat) : mem unit :=
  match n with
  | O => mret tt
  | S n' => x ← load (elem win i); y ← copyInto x; _ ← assign (elem wout i) y; copy_elems win wout (S i) n'
  end.

(** [if in.F != nil { out.F = make([]T, len(in.F)); for ... }]; a nil field is
    what the struct assignment copied. *)
Definition copy_slice (sl : slice T) : mem (slice T) :=
  match sl with
  | None => mret None
  | Some win =>
      arr ← make (replicate (w_len win) zero);
      let wout := Window arr 0 (w_len win) in
      _ ← copy_elems win wout 0 (w_len win);
      mret (Some wout)
  end.

(** [func (in *T) DeepCopy() *T]: [new(T)], then [in.DeepCopyInto(out)]. *)
Definition DeepCopy (p : ptr T) : mem (ptr T) :=
  match p with
  | None => mret None
  | Some r =>
      l ← make [zero];
      x ← load r; y ← copyInto x; _ ← assign (Ref l 0) y;
      mret (Some (Ref l 0))
  end.

(** [func (in *T) DeepCopyObject() runtime.Object]: an interface, nil
    ([None]) for a nil pointer, not an interface that holds one. *)
Definition DeepCopyObject (p : ptr T) : mem (option (ptr T)) :=
  c ← DeepCopy p;
  match c with Some _ => mret (Some c) | None => mret None end.
End pieces.

(** [if in.F != nil { x := in.F.DeepCopy(); out.F = &x }]: the copy of a
    value made by a [DeepCopy] that returns a value. *)
Definition copy_ptr {T} `{!InCell T, !DeepCopier T} (p : ptr T) : mem (ptr T) :=
  match p with
  | None => mret None
  | Some r => q ← load r; x ← copyInto q; l ← make [x]; mret (Some (Ref l 0))
  end.

(** [if in.F != nil { out.F = make([]T, len(in.F)); copy(out.F, in.F) }] *)
Definition copy_plain {T} `{!InCell T, !DeepCopier T} (sl : slice T) : mem (slice T) :=
  match sl with
  | None => mret None
  | Some win =>
      arr ← make (replicate (w_len win) zero);
      a ← load_array (w_arr win);
      xs ← window_of win a;
      _ ← fill arr xs;
      mret (Some (Window arr 0 (w_len win)))
  end.

(** ** The contract of a deep copy *)

(** A read depends on the cells it reached, and on nothing else. *)
Definition Framed {A} (r : rd A) : Prop :=
  forall s a fp, r s = Some (a, fp) ->
    fp ⊆ dom s /\ forall s', (forall l, l ∈ fp -> s' !! l = s !! l) -> r s' = Some (a, fp).

(** What [m] returns reads as the original does, and reaches fresh memory
    only; no cell of the old memory has changed. *)
Definition Copies {T A} (m : mem T) (original : rd A) (copy : T -> rd A) : Prop :=
  forall s v fp, original s = Some (v, fp) ->
    exists y s' fp', m s = Some (y, s') /\ s ⊆ s' /\ copy y s' = Some (v, fp') /\ fp' ## dom s.

Class DeepCopyOk (T : Type) `{!DeepCopier T} := {
  read_framed : forall x : T, Framed (read x);
  copyInto_ok : forall x : T, Copies (copyInto x) (read x) read
}.

Lemma Framed_mono {A} (r : rd A) s s' a fp : Framed r -> r s = Some (a, fp) -> s ⊆ s' -> r s' = Some (a, fp).
Proof.
  intros Hf Hr Hs. destruct (Hf _ _ _ Hr) as [Hd Hr']. apply Hr'. intros l Hl.
  apply Hd, elem_of_dom in Hl as [c Hc]. rewrite Hc. by eapply lookup_weaken.
Qed.

Lemma Framed_ret {A} (a : A) : Framed (mret a).
Proof. intros s ? ? [= <- <-]. split; [set_solver|done]. Qed.

Lemma Framed_opt {A} (o : option A) : Framed (rd_opt o).
Proof. intros s ? ?. destruct o as [x|]; [|done]. intros [= <- <-]. split; [set_solver|done]. Qed.

Lemma Framed_bind {A B} (r : rd A) (f : A -> rd B) : Framed r -> (forall a, Framed (f a)) -> Framed (r ≫= f).
Proof.
  intros Hr Hf s b fp. unfold mbind, rd_bind. destruct (r s) as [[a fp1]|] eqn:Ea; [|done].
  destruct (f a s) as [[b' fp2]|] eqn:Eb; [|done]. intros [= <- <-].
  destruct (Hr _ _ _ Ea) as [Hd1 H1], (Hf _ _ _ _ Eb) as [Hd2 H2]. split; [set_solver|].
  intros s' Hs'. by rewrite H1, H2 by set_solver.
Qed.

Lemma Framed_array {T} `{!InCell T} l : Framed (rd_array (T := T) l).
Proof.
  intros s a fp. unfold rd_array, load_array. destruct (s !! l) as [c|] eqn:El; [|done].
  destruct (get c) eqn:Ec; [|done]. intros [= <- <-]. split.
  - apply singleton_subseteq_l, elem_of_dom. by eexists.
  - intros s' Hs'. rewrite Hs', El, Ec by set_solver. done.
Qed.

Lemma Framed_all {A B} (f : A -> rd B) l : (forall a, Framed (f a)) -> Framed (rd_all f l).
Proof. intros Hf. induction l; cbn; auto using Framed_ret, Framed_bind. Qed.

Lemma rd_bind_Some {A B} (r : rd A) (f : A -> rd B) s b fp :
  (r ≫= f) s = Some (b, fp) <->
  exists a fp1 fp2, r s = Some (a, fp1) /\ f a s = Some (b, fp2) /\ fp = fp1 ∪ fp2.
Proof.
  unfold mbind, rd_bind. split.
  - destruct (r s) as [[a fp1]|]; [|done]. destruct (f a s) as [[b' fp2]|] eqn:E; [|done]. intros [= <- <-]. eauto 8.
  - by intros (a & fp1 & fp2 & -> & -> & ->).
Qed.

Lemma rd_array_Some {T} `{!InCell T} l (a : list T) s fp :
  rd_array l s = Some (a, fp) <-> load_array l s = Some (a, s) /\ fp = {[l]}.
Proof.
  unfold rd_array, load_array. destruct (s !! l) as [c|]; [|naive_solver]. destruct (get c); naive_solver.
Qed.

Lemma rd_opt_Some {A} (o : option A) s a fp : rd_opt o s = Some (a, fp) <-> o = Some a /\ fp = ∅.
Proof. unfold rd_opt. destruct o; naive_solver. Qed.

Lemma mem_bind_Some {A B} (m : mem A) (f : A -> mem B) s a s' : m s = Some (a, s') -> (m ≫= f) s = f a s'.
Proof. unfold mbind, mem_bind. by intros ->. Qed.

Lemma load_array_mono {T} `{!InCell T} l (a : list T) s s' :
  load_array l s = Some (a, s) -> s' !! l = s !! l -> load_array l s' = Some (a, s').
Proof. unfold load_array. intros H ->. destruct (s !! l); [|done]. destruct (get _); [|done]. by injection H as ->. Qed.

Lemma load_array_put {T} `{!InCell T} l (a : list T) s : load_array l (<[l := put a]> s) = Some (a, <[l := put a]> s).
Proof. unfold load_array. by rewrite lookup_insert_eq, get_put. Qed.

Lemma load_array_dom {T} `{!InCell T} l (a : list T) s : load_array l s = Some (a, s) -> l ∈ dom s.
Proof. unfold load_array. destruct (s !! l) eqn:E; [|done]. intros _. apply elem_of_dom. by eexists. Qed.

Lemma load_array_sub {T} `{!InCell T} l (a : list T) s s' :
  load_array l s = Some (a, s) -> s ⊆ s' -> load_array l s' = Some (a, s').
Proof.
  intros H Hs. apply (load_array_mono _ _ _ _ H). apply load_array_dom in H as [c Hc]%elem_of_dom.
  rewrite Hc. by eapply lookup_weaken.
Qed.

Lemma fresh_insert {T} `{!InCell T} (a : list T) (s : store) : let l := fresh (dom s : gset loc) in s ⊆ <[l := put a]> s /\ l ∉ dom s.
Proof. intros l. pose proof (is_fresh (dom s)). split; [|done]. by apply insert_subseteq, not_elem_of_dom. Qed.

(** The rule for a step of a struct's copy: what is copied now was readable
    at the start, and stays so. *)
Lemma Copies_step {T A U} (m : mem T) (original : rd A) copy (k : T -> mem U) s0 s v fp (Q : U -> store -> Prop) :
  Copies m original copy -> Framed original -> original s0 = Some (v, fp) -> s0 ⊆ s ->
  (forall y s' fp', s ⊆ s' -> copy y s' = Some (v, fp') -> fp' ## dom s -> exists z s'', k y s' = Some (z, s'') /\ Q z s'') ->
  exists z s'', (m ≫= k) s = Some (z, s'') /\ Q z s''.
Proof.
  intros Hm Hf Ho Hs Hk. destruct (Hm s v fp) as (y & s' & fp' & E & Hs' & Hy & Hfp).
  { by apply (Framed_mono _ s0). }
  rewrite (mem_bind_Some _ _ _ _ _ E). by eapply Hk.
Qed.

(** ** The pieces meet the contract *)

Section laws.
Context {T} `{!InCell T, !DeepCopier T, !DeepCopyOk T}.

Lemma Framed_ref (p : ref T) : Framed (read_ref p).
Proof. unfold read_ref. auto using Framed_bind, Framed_array, Framed_opt, read_framed. Qed.

Lemma Framed_ptr (p : ptr T) : Framed (read_ptr p).
Proof. destruct p; cbn [read_ptr]; auto using Framed_bind, Framed_ref, Framed_ret. Qed.

Lemma Framed_slice (sl : slice T) : Framed (read_slice sl).
Proof.
  destruct sl; cbn [read_slice]; [|apply Framed_ret].
  auto 6 using Framed_bind, Framed_array, Framed_opt, Framed_all, read_framed, Framed_ret.
Qed.

Lemma load_Some (p : ref T) (a : list T) x s :
  load_array (r_loc p) s = Some (a, s) -> a !! r_idx p = Some x -> load p s = Some (x, s).
Proof. unfold load. by intros -> ->. Qed.

Lemma assign_Some (p : ref T) (a : list T) x s :
  load_array (r_loc p) s = Some (a, s) -> r_idx p < length a ->
  assign p x s = Some (tt, <[r_loc p := put (<[r_idx p := x]> a)]> s).
Proof. unfold assign. intros -> Hl. by apply Nat.ltb_lt in Hl as ->. Qed.

(** A cell that is new stays out of the old memory's sight. *)
Lemma subseteq_insert_new (s0 s : store) l c : s0 ⊆ s -> l ∉ dom s0 -> s0 ⊆ <[l := c]> s.
Proof. intros Hs Hl. apply insert_subseteq_r; [by apply not_elem_of_dom|done]. Qed.

(** The loop: elements [i] on of the input, [xs], become elements [i] on of
    the output, an array that is not of the old memory [s0]. *)
Lemma copy_elems_ok (win wout : window T) (a : list T) s0 : w_off wout = 0 ->
  load_array (w_arr win) s0 = Some (a, s0) -> w_arr wout ∉ dom s0 ->
  forall (xs : list T) i s (b : list T) vs fp, s0 ⊆ s ->
  take (length xs) (drop (w_off win + i) a) = xs -> rd_all read xs s0 = Some (vs, fp) ->
  load_array (w_arr wout) s = Some (b, s) -> length b = i + length xs ->
  exists s' ys fp', copy_elems win wout i (length xs) s = Some (tt, s')
    /\ s0 ⊆ s' /\ (forall l, l ∈ dom s -> l <> w_arr wout -> s' !! l = s !! l)
    /\ load_array (w_arr wout) s' = Some ((take i b ++ ys)%list, s')
    /\ length ys = length xs /\ rd_all read ys s' = Some (vs, fp') /\ fp' ## dom s.
Proof.
  intros Hoff Ha Hnew. induction xs as [|x xs IH]; intros i s b vs fp Hs Hxs Hrd Hb Hlen.
  { injection Hrd as <- <-. exists s, [], ∅. rewrite app_nil_r, firstn_all2 by (cbn in Hlen; lia). split_and!; set_solver. }
  cbn [rd_all] in Hrd. apply rd_bind_Some in Hrd as (v & fp1 & fp2 & Hx & Hrd & ->).
  apply rd_bind_Some in Hrd as (vs' & fp3 & fp4 & Hvs & [= <- <-] & ->).
  destruct (drop (w_off win + i) a) as [|x' a'] eqn:Ed; [done|]. injection Hxs as -> Hxs.
  assert (a !! (w_off win + i) = Some x) as Hax by (rewrite <- (Nat.add_0_r (w_off win + i)), <- lookup_drop, Ed; done).
  cbn [length copy_elems].
  assert (load_array (w_arr win) s = Some (a, s)) as Ha' by by eapply load_array_sub.
  rewrite (mem_bind_Some _ _ _ _ _ (load_Some (elem win i) a x s Ha' Hax)).
  destruct (copyInto_ok x s v fp1) as (y & s1 & fy & Ey & Hs1 & Hy & Hfy); [by eapply Framed_mono; [apply read_framed| |]|].
  rewrite (mem_bind_Some _ _ _ _ _ Ey).
  pose proof (load_array_dom _ _ _ Hb) as Hbd.
  assert (load_array (w_arr wout) s1 = Some (b, s1)) as Hb1 by by eapply load_array_sub.
  cbn [length] in Hlen. rewrite (mem_bind_Some _ _ _ _ _ (assign_Some (elem wout i) b y s1 Hb1 ltac:(cbn; lia))).
  cbn [elem r_loc r_idx]. rewrite Hoff. cbn [Nat.add]. set (s2 := <[w_arr wout := put (<[i:=y]> b)]> s1).
  destruct (IH (S i) s2 (<[i:=y]> b) vs' fp3) as (s' & ys & fp' & E & Hs0 & Hold & Hout & Hly & Hys & Hfp').
  { apply subseteq_insert_new; [by etransitivity|done]. }
  { by rewrite Nat.add_succ_r, <- Nat.add_1_r, <- drop_drop, Ed. }
  { done. }
  { apply load_array_put. }
  { rewrite length_insert. lia. }
  assert (dom s ⊆ dom s2) as Hd2 by (unfold s2; rewrite dom_insert; apply subseteq_dom in Hs1; set_solver).
  exists s', (y :: ys), (fy ∪ (fp' ∪ ∅)). rewrite E. split_and!; [done|done| | |cbn; by rewrite Hly| |set_solver].
  - intros l Hl Hne. rewrite Hold; [|set_solver|done]. unfold s2. rewrite lookup_insert_ne by done.
    apply elem_of_dom in Hl as [c Hc]. rewrite Hc. by eapply lookup_weaken.
  - rewrite Hout. rewrite (take_S_r _ _ y), take_insert_ge, <- app_assoc; [done|lia|].
    apply list_lookup_insert_eq. lia.
  - cbn [rd_all]. destruct (read_framed y _ _ _ Hy) as [Hdy Hfr]. apply rd_bind_Some.
    exists v, fy, (fp' ∪ ∅). split_and!; [|apply rd_bind_Some; by exists vs', fp', ∅|done].
    apply Hfr. intros l Hl. assert (l <> w_arr wout) as Hne by set_solver.
    rewrite Hold; [unfold s2; by rewrite lookup_insert_ne by done|unfold s2; rewrite dom_insert; set_solver|done].
Qed.

Lemma make_ok (a : list T) (s : store) :
  exists l, make a s = Some (l, <[l := put a]> s) /\ s ⊆ <[l := put a]> s /\ l ∉ dom s.
Proof. destruct (fresh_insert a s). by eexists. Qed.

(** What a read of a slice found. *)
Lemma read_window (w : window T) s v fp :
  read_slice (Some w) s = Some (v, fp) ->
  exists a vs fps, load_array (w_arr w) s = Some (a, s) /\ w_off w + w_len w <= length a
    /\ rd_all read (take (w_len w) (drop (w_off w) a)) s = Some (vs, fps) /\ v = VSlice vs.
Proof.
  cbn [read_slice]. intros (a & ? & ? & [Ha ->]%rd_array_Some & Hr & ->)%rd_bind_Some.
  apply rd_bind_Some in Hr as (xs & ? & ? & [Hxs ->]%rd_opt_Some & Hr & ->).
  apply rd_bind_Some in Hr as (vs & fps & ? & Hvs & [= <- <-] & ->).
  destruct (Nat.leb_spec (w_off w + w_len w) (length a)); [injection Hxs as <-|done]. eauto 8.
Qed.

(** A slice on a whole array of elements that can be read. *)
Lemma read_whole l (ys : list T) s vs fp :
  load_array l s = Some (ys, s) -> rd_all read ys s = Some (vs, fp) ->
  read_slice (Some (Window l 0 (length ys))) s = Some (VSlice vs, {[l]} ∪ fp).
Proof.
  intros Hl Hys. cbn [read_slice]. apply rd_bind_Some. exists ys, {[l]}, fp. split_and!; [by apply rd_array_Some| |done].
  apply rd_bind_Some. exists ys, ∅, fp. split_and!; [|apply rd_bind_Some; exists vs, fp, ∅; split_and!; [done..|set_solver]|set_solver].
  cbn. rewrite Nat.leb_refl, firstn_all. done.
Qed.

Lemma copy_slice_ok (sl : slice T) : Copies (copy_slice sl) (read_slice sl) read_slice.
Proof.
  intros s v fp Hr. destruct sl as [w|]; [|injection Hr as <- <-; exists None, s, ∅; split_and!; [done..|set_solver]].
  apply read_window in Hr as (a & vs & fps & Ha & Hlen & Hvs & ->). cbn [copy_slice].
  destruct (make_ok (replicate (w_len w) zero) s) as (l & E & Hs & Hl). rewrite (mem_bind_Some _ _ _ _ _ E).
  assert (length (take (w_len w) (drop (w_off w) a)) = w_len w) as Hw by (rewrite length_take, length_drop; lia).
  destruct (copy_elems_ok w (Window l 0 (w_len w)) a s eq_refl Ha Hl (take (w_len w) (drop (w_off w) a)) 0
              _ (replicate (w_len w) zero) vs fps Hs) as (s' & ys & fp' & E' & Hs' & _ & Hout & Hys & Hrd & Hfp').
  { by rewrite Hw, Nat.add_0_r. }
  { done. }
  { apply load_array_put. }
  { by rewrite Hw, length_replicate. }
  rewrite Hw in E', Hys. rewrite (mem_bind_Some _ _ _ _ _ E'). exists (Some (Window l 0 (w_len w))), s', ({[l]} ∪ fp').
  split_and!; [done|done| |rewrite dom_insert in Hfp'; set_solver]. rewrite <- Hys. by apply read_whole.
Qed.

Lemma read_ref_Some (p : ref T) s v fp :
  read_ref p s = Some (v, fp) ->
  exists a x fpx, load_array (r_loc p) s = Some (a, s) /\ a !! r_idx p = Some x /\ read x s = Some (v, fpx).
Proof.
  unfold read_ref. intros (a & ? & ? & [Ha ->]%rd_array_Some & Hr & ->)%rd_bind_Some.
  apply rd_bind_Some in Hr as (x & ? & ? & [Hx ->]%rd_opt_Some & Hr & ->). eauto 8.
Qed.

(** A pointer to the only element of an array. *)
Lemma read_new l (y : T) s v fp :
  load_array l s = Some ([y], s) -> read y s = Some (v, fp) -> read_ptr (Some (Ref l 0)) s = Some (VRef v, {[l]} ∪ fp).
Proof.
  intros Hl Hy. cbn [read_ptr]. apply rd_bind_Some. exists v, ({[l]} ∪ fp), ∅. split_and!; [|done|set_solver].
  unfold read_ref. apply rd_bind_Some. exists [y], {[l]}, fp. split_and!; [by apply rd_array_Some| |done].
  apply rd_bind_Some. exists y, ∅, fp. by split_and!; [apply rd_opt_Some| |set_solver].
Qed.

Lemma DeepCopy_ok (p : ptr T) : Copies (DeepCopy p) (read_ptr p) read_ptr.
Proof.
  intros s v fp Hr. destruct p as [p|]; [|injection Hr as <- <-; exists None, s, ∅; split_and!; [done..|set_solver]].
  cbn [read_ptr] in Hr. apply rd_bind_Some in Hr as (v' & fp1 & fp2 & Hr & [= <- <-] & ->).
  apply read_ref_Some in Hr as (a & x & fpx & Ha & Hx & Hv). cbn [DeepCopy].
  destruct (make_ok [zero] s) as (l & E & Hs & Hl). rewrite (mem_bind_Some _ _ _ _ _ E). set (s1 := <[l := put [zero]]> s) in *.
  assert (load_array (r_loc p) s1 = Some (a, s1)) as Ha1 by by eapply load_array_sub.
  rewrite (mem_bind_Some _ _ _ _ _ (load_Some _ _ _ _ Ha1 Hx)).
  destruct (copyInto_ok x s1 v' fpx) as (y & s2 & fy & Ey & Hs2 & Hy & Hfy); [by eapply Framed_mono; [apply read_framed| |]|].
  rewrite (mem_bind_Some _ _ _ _ _ Ey).
  assert (load_array l s2 = Some ([zero], s2)) as Hl2 by by eapply load_array_sub; [apply load_array_put|].
  rewrite (mem_bind_Some _ _ _ _ _ (assign_Some (Ref l 0) [zero] y s2 Hl2 ltac:(cbn; lia))). cbn [r_loc r_idx].
  eexists (Some (Ref l 0)), _, ({[l]} ∪ fy). split; [reflexivity|].
  assert (l ∉ fy) as Hlf by (unfold s1 in Hfy; rewrite dom_insert in Hfy; set_solver).
  split_and!; [apply subseteq_insert_new; [by etransitivity|done]| |unfold s1 in Hfy; rewrite dom_insert in Hfy; set_solver].
  apply (read_new l y); [apply load_array_put|]. destruct (read_framed y _ _ _ Hy) as [_ Hfr]. apply Hfr.
  intros l' Hl'. rewrite lookup_insert_ne; [done|set_solver].
Qed.

Lemma copy_ptr_ok (p : ptr T) : Copies (copy_ptr p) (read_ptr p) read_ptr.
Proof.
  intros s v fp Hr. destruct p as [p|]; [|injection Hr as <- <-; exists None, s, ∅; split_and!; [done..|set_solver]].
  cbn [read_ptr] in Hr. apply rd_bind_Some in Hr as (v' & fp1 & fp2 & Hr & [= <- <-] & ->).
  apply read_ref_Some in Hr as (a & x & fpx & Ha & Hx & Hv). cbn [copy_ptr].
  rewrite (mem_bind_Some _ _ _ _ _ (load_Some _ _ _ _ Ha Hx)).
  destruct (copyInto_ok x s v' fpx Hv) as (y & s1 & fy & Ey & Hs1 & Hy & Hfy).
  rewrite (mem_bind_Some _ _ _ _ _ Ey).
  destruct (make_ok [y] s1) as (l & E & Hs & Hl). rewrite (mem_bind_Some _ _ _ _ _ E).
  eexists (Some (Ref l 0)), _, ({[l]} ∪ fy). split; [reflexivity|]. apply subseteq_dom in Hs1 as Hd.
  split_and!; [by etransitivity| |set_solver].
  apply (read_new l y); [apply load_array_put|]. eapply Framed_mono; [apply read_framed|done|done].
Qed.

End laws.

(** A type without references: copying it is assigning it. *)
Class Plain (T : Type) `{!DeepCopier T} := {
  plain_value : T -> value;
  plain_read : forall x : T, read x = mret (plain_value x);
  plain_copy : forall x : T, copyInto x = mret x
}.

Section plain.
Context {T} `{!InCell T, !DeepCopier T, !Plain T}.

#[global] Instance plain_ok : DeepCopyOk T.
Proof.
  split; intros x; rewrite plain_read; [apply Framed_ret|]. intros s v fp [= <- <-]. rewrite plain_copy.
  exists x, s, ∅. rewrite plain_read. split_and!; [done..|set_solver].
Qed.

Lemma rd_all_plain (xs : list T) s : rd_all read xs s = Some (plain_value <$> xs, ∅).
Proof.
  induction xs as [|x xs IH]; [done|]. cbn [rd_all]. apply rd_bind_Some. exists (plain_value x), ∅, ∅.
  rewrite plain_read. split_and!; [done| |set_solver]. apply rd_bind_Some. exists (plain_value <$> xs), ∅, ∅.
  split_and!; [done..|set_solver].
Qed.

Lemma copy_plain_ok (sl : slice T) : Copies (copy_plain sl) (read_slice sl) read_slice.
Proof.
  intros s v fp Hr. destruct sl as [w|]; [|injection Hr as <- <-; exists None, s, ∅; split_and!; [done..|set_solver]].
  apply read_window in Hr as (a & vs & fps & Ha & Hlen & Hvs & ->). cbn [copy_plain].
  destruct (make_ok (replicate (w_len w) zero) s) as (l & E & Hs & Hl). rewrite (mem_bind_Some _ _ _ _ _ E).
  set (s1 := <[l := put (replicate (w_len w) zero)]> s) in *.
  assert (load_array (w_arr w) s1 = Some (a, s1)) as Ha1 by by eapply load_array_sub.
  rewrite (mem_bind_Some _ _ _ _ _ Ha1). set (xs := take (w_len w) (drop (w_off w) a)) in *.
  assert (window_of w a s1 = Some (xs, s1)) as Hw by (unfold window_of; by apply Nat.leb_le in Hlen as ->).
  rewrite (mem_bind_Some _ _ _ _ _ Hw).
  assert (length xs = w_len w) as Hxs by (unfold xs; rewrite length_take, length_drop; lia).
  rewrite rd_all_plain in Hvs. injection Hvs as <- <-.
  eexists (Some (Window l 0 (w_len w))), _, ({[l]} ∪ ∅). split; [reflexivity|]. split_and!; [by apply subseteq_insert_new| |set_solver].
  rewrite <- Hxs. apply read_whole; [apply load_array_put|apply rd_all_plain].
Qed.

End plain.
End heap.

#[global] Hint Resolve Framed_ret Framed_opt Framed_array : go.
