(* ===== verification/Certs.v ===== *)
(** * Certs: src/k8s/tls.go

    Where a server's certificate comes from: the disk, or a self-signed one
    made on the spot.  The file system, the clock and the cryptography of the
    standard library are the class [Crypto]. *)

From Stdlib Require Import ZArith Lia Ascii String.
From stdpp Require Import base strings list.
From S2P Require Import Prelude GoStrings.

Local Open Scope string_scope.

Definition localhost : string := "127.0.0.1".

(** [x509.Certificate] as the source fills it in; times in nanoseconds. *)
Record certificate_template := {
  ct_SerialNumber : Z;
  ct_CommonName : string;
  ct_NotBefore : Z;
  ct_NotAfter : Z;
  ct_KeyUsage : list string;
  ct_ExtKeyUsage : list string;
  ct_DNSNames : list string;
  ct_IPAddresses : list (option bytes)
}.

Class Crypto := {
  PrivateKey : Type;
  Pair : Type;
  os_Stat : string -> option error;
  LoadX509KeyPair : string -> string -> result Pair;
  X509KeyPair : bytes -> bytes -> result Pair;
  (** the DER certificates of a pair, leaf first *)
  Pair_Certificate : Pair -> list bytes;
  (** a parsed certificate's [NotAfter] *)
  ParseCertificate : bytes -> result Z;
  now : Z;
  GenerateKey : result PrivateKey;
  CreateCertificate : certificate_template -> PrivateKey -> result bytes;
  MarshalECPrivateKey : PrivateKey -> result bytes;
  EncodeToMemory : string -> bytes -> bytes;
  ParseIP : string -> option bytes
}.

Section Certs.
Context `{Crypto}.

(** Ten years of 365 days. *)
Definition validity : Z := 10 * 365 * 24 * 3600 * 10 ^ 9.

Definition cert_template (hostname ip : string) : certificate_template :=
  {| ct_SerialNumber := 1; ct_CommonName := hostname; ct_NotBefore := now; ct_NotAfter := now + validity;
     ct_KeyUsage := ["DigitalSignature"; "KeyEncipherment"]; ct_ExtKeyUsage := ["ServerAuth"];
     ct_DNSNames := [hostname; "localhost"]; ct_IPAddresses := [ParseIP ip; ParseIP localhost] |}.

Definition GenerateSelfSignedCert (hostname ip : string) : result Pair :=
  priv ← wrap "generate ecdsa key" GenerateKey;
  certDER ← wrap "create certificate" (CreateCertificate (cert_template hostname ip) priv);
  let certPEM := EncodeToMemory "CERTIFICATE" certDER in
  privDER ← wrap "marshal EC private key" (MarshalECPrivateKey priv);
  let keyPEM := EncodeToMemory "EC PRIVATE KEY" privDER in
  X509KeyPair certPEM keyPEM.

(** A certificate that cannot be parsed is kept. *)
Definition isCertExpired (cert : Pair) : result bool :=
  match Pair_Certificate cert with
  | [] => Panic "index out of range"
  | leaf :: _ =>
      match ParseCertificate leaf with
      | Ok notAfter => Ok (notAfter <? now)%Z
      | Err _ => Ok false
      | Panic p => Panic p
      end
  end.

(** The pair and its label; [None] stands for an empty label, which makes the
    caller fall back. *)
Definition tryLoadDiskCert (certPath keyPath : string) : result (option (Pair * string)) :=
  if String.eqb certPath "" || String.eqb keyPath "" then Ok None
  else
    match os_Stat certPath with
    | Some err =>
        if errors_Is err FsErrNotExist then Ok None else Err (Ewrap ("stat tls cert " +:+ certPath) err)
    | None =>
        cert ← wrap ("load tls keypair " +:+ certPath) (LoadX509KeyPair certPath keyPath);
        expired ← isCertExpired cert;
        Ok (if expired : bool then None else Some (cert, "disk " +:+ certPath))
    end.

Definition LoadOrGenerateCert (certPath keyPath hostname ip : string) : result (Pair * string) :=
  disk ← tryLoadDiskCert certPath keyPath;
  match disk with
  | Some found => Ok found
  | None =>
      cert ← wrap "generate self-signed cert" (GenerateSelfSignedCert hostname ip);
      Ok (cert, "self-signed")
  end.

(** ** Where a certificate comes from *)

(** There is no usable pair on disk: no paths, no file, or an expired leaf. *)
Definition nothing_on_disk (certPath keyPath : string) : Prop :=
  certPath = "" \/ keyPath = ""
  \/ (exists err, os_Stat certPath = Some err /\ errors_Is err FsErrNotExist = true)
  \/ (os_Stat certPath = None
      /\ exists cert leaf chain notAfter, LoadX509KeyPair certPath keyPath = Ok cert
         /\ Pair_Certificate cert = leaf :: chain /\ ParseCertificate leaf = Ok notAfter /\ (notAfter < now)%Z).

(** There is a pair, but it cannot be read. *)
Definition unreadable (certPath keyPath : string) : Prop :=
  certPath <> "" /\ keyPath <> ""
  /\ ((exists err, os_Stat certPath = Some err /\ errors_Is err FsErrNotExist = false)
      \/ os_Stat certPath = None /\ exists err, LoadX509KeyPair certPath keyPath = Err err).

(** A loaded pair that is used: its leaf is current, or cannot be parsed. *)
Definition current (cert : Pair) : Prop :=
  exists leaf chain, Pair_Certificate cert = leaf :: chain
    /\ match ParseCertificate leaf with Ok notAfter => (now <= notAfter)%Z | Err _ => True | Panic _ => False end.

Lemma isCertExpired_current cert : isCertExpired cert = Ok false <-> current cert.
Proof.
  unfold isCertExpired, current. split.
  - destruct (Pair_Certificate cert) as [|leaf chain]; [done|]. intros He. exists leaf, chain. split; [done|].
    destruct (ParseCertificate leaf) as [t|e|p]; [|done|done]. injection He as He%Z.ltb_ge. done.
  - intros (leaf & chain & -> & Hl). destruct (ParseCertificate leaf) as [t|e|p]; [|done|done]. f_equal. by apply Z.ltb_ge.
Qed.

Lemma isCertExpired_true cert :
  isCertExpired cert = Ok true <->
  exists leaf chain notAfter, Pair_Certificate cert = leaf :: chain /\ ParseCertificate leaf = Ok notAfter /\ (notAfter < now)%Z.
Proof.
  unfold isCertExpired. split.
  - destruct (Pair_Certificate cert) as [|leaf chain]; [done|]. destruct (ParseCertificate leaf) as [t|e|p] eqn:Ep; [|done|done].
    intros [= Ht%Z.ltb_lt]. by exists leaf, chain, t.
  - intros (leaf & chain & t & -> & -> & Ht). f_equal. by apply Z.ltb_lt.
Qed.

Lemma paths_given certPath keyPath :
  String.eqb certPath "" || String.eqb keyPath "" = false <-> certPath <> "" /\ keyPath <> "".
Proof. by rewrite orb_false_iff, !String.eqb_neq. Qed.

Lemma tryLoadDiskCert_Some certPath keyPath cert label :
  tryLoadDiskCert certPath keyPath = Ok (Some (cert, label)) <->
  certPath <> "" /\ keyPath <> "" /\ os_Stat certPath = None /\ LoadX509KeyPair certPath keyPath = Ok cert
  /\ current cert /\ label = "disk " +:+ certPath.
Proof.
  unfold tryLoadDiskCert. split.
  - destruct (_ || _) eqn:Ep; [done|]. apply paths_given in Ep as [Hc Hk].
    destruct (os_Stat certPath) as [err|]; [by destruct (errors_Is err _)|].
    destruct (LoadX509KeyPair certPath keyPath) as [c|e|p]; cbn [wrap mbind result_bind]; [|done..].
    destruct (isCertExpired c) as [[]|e|p] eqn:Ee; cbn [mbind result_bind]; [done| |done..]. intros [= <- <-].
    by apply isCertExpired_current in Ee.
  - intros (Hc & Hk & -> & -> & Hcur & ->). rewrite (proj2 (paths_given _ _) (conj Hc Hk)).
    apply isCertExpired_current in Hcur. cbn [wrap mbind result_bind]. by rewrite Hcur.
Qed.

Lemma tryLoadDiskCert_None certPath keyPath :
  tryLoadDiskCert certPath keyPath = Ok None <-> nothing_on_disk certPath keyPath.
Proof.
  unfold tryLoadDiskCert, nothing_on_disk. destruct (_ || _) eqn:Ep.
  { split; [intros _|done]. apply orb_true_iff in Ep as [E%String.eqb_eq|E%String.eqb_eq]; auto. }
  apply paths_given in Ep as [Hc Hk]. destruct (os_Stat certPath) as [err|].
  { destruct (errors_Is err FsErrNotExist) eqn:En; [naive_solver|]. split; [done|].
    intros [?|[?|[(err' & [= <-] & ?)|[? _]]]]; congruence. }
  split.
  - destruct (LoadX509KeyPair certPath keyPath) as [c|e|p]; cbn [wrap mbind result_bind]; [|done..].
    destruct (isCertExpired c) as [[]|e|p] eqn:Ee; cbn [mbind result_bind]; [intros _|done..].
    apply isCertExpired_true in Ee as (leaf & chain & t & Hp & Ht & Hn). do 3 right. split; [done|]. by exists c, leaf, chain, t.
  - intros [?|[?|[(err & [=] & _)|[_ (c & leaf & chain & t & Hl & Hp & Ht & Hn)]]]]; [done..|].
    rewrite Hl. cbn [wrap mbind result_bind]. assert (isCertExpired c = Ok true) as -> by (apply isCertExpired_true; by exists leaf, chain, t). done.
Qed.

Lemma tryLoadDiskCert_label certPath keyPath cert :
  tryLoadDiskCert certPath keyPath = Ok (Some (cert, "disk " +:+ certPath)) <->
  certPath <> "" /\ keyPath <> "" /\ os_Stat certPath = None /\ LoadX509KeyPair certPath keyPath = Ok cert /\ current cert.
Proof. rewrite tryLoadDiskCert_Some. naive_solver. Qed.

(** C33: a server never silently changes identity. The pair on disk is used,
    under its label, exactly when both paths are given, the file is there and
    loads and its leaf has not expired (one that cannot be parsed is kept); a
    self-signed pair is made exactly when there is nothing usable on disk; a
    pair that is there but cannot be read is an error and never replaced. *)
Theorem LoadOrGenerateCert_source certPath keyPath hostname ip :
  (forall cert, LoadOrGenerateCert certPath keyPath hostname ip = Ok (cert, "disk " +:+ certPath) <->
     certPath <> "" /\ keyPath <> "" /\ os_Stat certPath = None
     /\ LoadX509KeyPair certPath keyPath = Ok cert /\ current cert)
  /\ (forall cert, LoadOrGenerateCert certPath keyPath hostname ip = Ok (cert, "self-signed") <->
     nothing_on_disk certPath keyPath /\ GenerateSelfSignedCert hostname ip = Ok cert)
  /\ (unreadable certPath keyPath -> exists e, LoadOrGenerateCert certPath keyPath hostname ip = Err e).
Proof.
  unfold LoadOrGenerateCert. split_and!.
  - intros cert. rewrite <- tryLoadDiskCert_label. destruct (tryLoadDiskCert certPath keyPath) as [[[c l]|]|e|p]; cbn [mbind result_bind].
    + naive_solver.
    + split; [|done]. by destruct (GenerateSelfSignedCert hostname ip).
    + done.
    + done.
  - intros cert. rewrite <- tryLoadDiskCert_None.
    destruct (tryLoadDiskCert certPath keyPath) as [[[c l]|]|e|p] eqn:Et; cbn [mbind result_bind]; [| |naive_solver..].
    + apply tryLoadDiskCert_Some in Et as (_ & _ & _ & _ & _ & ->). split; [by intros [= _ E]|by intros [[=] _]].
    + destruct (GenerateSelfSignedCert hostname ip); cbn; naive_solver.
  - intros (Hc & Hk & Hu). unfold tryLoadDiskCert. rewrite (proj2 (paths_given _ _) (conj Hc Hk)).
    destruct Hu as [(err & -> & ->)|(-> & err & ->)]; by eexists.
Qed.

End Certs.
