(* ===== verification/Api.v ===== *)
(** * Api: the CRD types (apis/v1)

    The enumerations of enums.go and cocoonhibernation_types.go, which are Go
    strings with a table of valid values and a default, and the fields of the
    specs (cocoonset_types.go) that meta/ reads, apart from where they are in
    memory ([ApiMem] has every struct, with its pointers and slices).  Storage
    is the text [Quantity.String] prints, [None] for a nil quantity. *)

From Stdlib Require Import ZArith Lia Ascii String.
From stdpp Require Import base gmap strings list.
From S2P Require Import Prelude GoStrings Json Manifest.

Local Open Scope string_scope.

(** ** Enumerations *)

Abbreviation AgentMode := string.
Definition AgentModeClone : AgentMode := "clone".
Definition AgentModeRun : AgentMode := "run".

Abbreviation ToolboxMode := string.
Definition ToolboxModeRun : ToolboxMode := "run".
Definition ToolboxModeClone : ToolboxMode := "clone".
Definition ToolboxModeStatic : ToolboxMode := "static".

Abbreviation OSType := string.
Definition OSLinux : OSType := "linux".
Definition OSWindows : OSType := "windows".
Definition OSAndroid : OSType := "android".
Definition OSMacos : OSType := "macos".

Abbreviation SnapshotPolicy := string.
Definition SnapshotPolicyAlways : SnapshotPolicy := "always".
Definition SnapshotPolicyMainOnly : SnapshotPolicy := "main-only".
Definition SnapshotPolicyNever : SnapshotPolicy := "never".

Abbreviation HibernatePolicy := string.
Definition HibernatePolicyRetain : HibernatePolicy := "retain".
Definition HibernatePolicyRelease : HibernatePolicy := "release".

Abbreviation ConnType := string.
Definition ConnTypeSSH : ConnType := "ssh".
Definition ConnTypeRDP : ConnType := "rdp".
Definition ConnTypeVNC : ConnType := "vnc".
Definition ConnTypeADB : ConnType := "adb".

Abbreviation Backend := string.
Definition BackendCloudHypervisor : Backend := "cloud-hypervisor".
Definition BackendFirecracker : Backend := "firecracker".

Abbreviation HibernationDesire := string.
Definition HibernationDesireHibernate : HibernationDesire := "Hibernate".
Definition HibernationDesireWake : HibernationDesire := "Wake".

Abbreviation CocoonSetPhase := string.
Definition CocoonSetPhasePending : CocoonSetPhase := "Pending".
Definition CocoonSetPhaseRunning : CocoonSetPhase := "Running".
Definition CocoonSetPhaseScaling : CocoonSetPhase := "Scaling".
Definition CocoonSetPhaseSuspending : CocoonSetPhase := "Suspending".
Definition CocoonSetPhaseSuspended : CocoonSetPhase := "Suspended".
Definition CocoonSetPhaseWaking : CocoonSetPhase := "Waking".
Definition CocoonSetPhaseMigrating : CocoonSetPhase := "Migrating".
Definition CocoonSetPhaseFailed : CocoonSetPhase := "Failed".

Abbreviation CocoonHibernationPhase := string.
Definition CocoonHibernationPhasePending : CocoonHibernationPhase := "Pending".
Definition CocoonHibernationPhaseHibernating : CocoonHibernationPhase := "Hibernating".
Definition CocoonHibernationPhaseHibernated : CocoonHibernationPhase := "Hibernated".
Definition CocoonHibernationPhaseWaking : CocoonHibernationPhase := "Waking".
Definition CocoonHibernationPhaseActive : CocoonHibernationPhase := "Active".
Definition CocoonHibernationPhaseFailed : CocoonHibernationPhase := "Failed".

Definition agentModeValid : list AgentMode := [AgentModeClone; AgentModeRun].
Definition toolboxModeValid : list ToolboxMode := [ToolboxModeRun; ToolboxModeClone; ToolboxModeStatic].
Definition osTypeValid : list OSType := [OSLinux; OSWindows; OSAndroid; OSMacos].
Definition snapshotPolicyValid : list SnapshotPolicy := [SnapshotPolicyAlways; SnapshotPolicyMainOnly; SnapshotPolicyNever].
Definition hibernatePolicyValid : list HibernatePolicy := [HibernatePolicyRetain; HibernatePolicyRelease].
Definition connTypeValid : list ConnType := [ConnTypeSSH; ConnTypeRDP; ConnTypeVNC; ConnTypeADB].
Definition backendValid : list Backend := [BackendCloudHypervisor; BackendFirecracker].
Definition hibernationDesireValid : list HibernationDesire := [HibernationDesireHibernate; HibernationDesireWake].

Definition AgentMode_IsValid (m : AgentMode) : bool := str_in m agentModeValid.
Definition AgentMode_Default (m : AgentMode) : AgentMode := cmpOr m AgentModeClone.
Definition ToolboxMode_IsValid (m : ToolboxMode) : bool := str_in m toolboxModeValid.
Definition ToolboxMode_Default (m : ToolboxMode) : ToolboxMode := cmpOr m ToolboxModeRun.
Definition OSType_IsValid (o : OSType) : bool := str_in o osTypeValid.
Definition OSType_Default (o : OSType) : OSType := cmpOr o OSLinux.
Definition SnapshotPolicy_IsValid (p : SnapshotPolicy) : bool := str_in p snapshotPolicyValid.
Definition SnapshotPolicy_Default (p : SnapshotPolicy) : SnapshotPolicy := cmpOr p SnapshotPolicyAlways.
Definition HibernatePolicy_IsValid (p : HibernatePolicy) : bool := str_in p hibernatePolicyValid.
Definition HibernatePolicy_Default (p : HibernatePolicy) : HibernatePolicy := cmpOr p HibernatePolicyRetain.
Definition ConnType_IsValid (c : ConnType) : bool := str_in c connTypeValid.
Definition Backend_IsValid (b : Backend) : bool := str_in b backendValid.
Definition Backend_Default (b : Backend) : Backend := cmpOr b BackendCloudHypervisor.
Definition HibernationDesire_IsValid (d : HibernationDesire) : bool := str_in d hibernationDesireValid.

(** ** Specs *)

Record VMOptions := {
  vo_OS : OSType;
  vo_Backend : Backend;
  vo_ConnType : ConnType;
  vo_Network : string;
  vo_ForcePull : bool;
  vo_NoDirectIO : bool;
  vo_ProbePort : Z;
  vo_Storage : option string
}.

Record AgentSpec := {
  as_Replicas : Z;
  as_Image : string;
  as_Mode : AgentMode;
  as_VMOptions : VMOptions
}.

Record ToolboxSpec := {
  ts_Name : string;
  ts_Image : string;
  ts_Mode : ToolboxMode;
  ts_StaticIP : string;
  ts_StaticVMID : string;
  ts_VNCPort : Z;
  ts_VMOptions : VMOptions
}.

Lemma str_in_spec s l : str_in s l = true <-> s ∈ l.
Proof.
  unfold str_in. rewrite existsb_exists. split.
  - intros (x & Hx & ->%String.eqb_eq). by apply list_elem_of_In.
  - intros H. exists s. split; [by apply list_elem_of_In|apply String.eqb_refl].
Qed.

Lemma cmpOr_empty b : cmpOr "" b = b.
Proof. done. Qed.

(** An enumeration's default is one of its values, and never overrides a
    value that is set. *)
Lemma Default_valid (valid : list string) d m :
  d ∈ valid -> str_in (cmpOr m d) valid = true <-> m = "" \/ str_in m valid = true.
Proof.
  intros Hd. unfold cmpOr. destruct (String.eqb_spec m "") as [->|Hm].
  - split; [by left|]. intros _. by apply str_in_spec.
  - split; [by right|]. by intros [?|?].
Qed.
