(* ===== verification/ApiMem.v ===== *)
(** * ApiMem: the custom resources in memory, and their deep copies (apis/v1)

    The structs of cocoonset_types.go and cocoonhibernation_types.go with
    their pointers and slices, and zz_generated.deepcopy.go function by
    function.  The types of Kubernetes they embed are the class [KubeTypes];
    what their own DeepCopyInto promises is [KubeOk].  A [DeepCopyInto] is a
    function of the struct [in] points to that returns what it leaves in the
    struct [out] points to; [DeepCopy] and [DeepCopyObject] are those of
    [Heap] at each type. *)

From Stdlib Require Import ZArith Lia Ascii String.
From stdpp Require Import base gmap strings list sets.
From S2P Require Import Prelude GoStrings Json Manifest Api Heap.

Local Open Scope string_scope.

(** Kubernetes' own types, with the cells they keep. *)
Class KubeTypes := {
  TypeMeta : Type;
  ObjectMeta : Type;
  ListMeta : Type;
  EnvFromSource : Type;
  ResourceRequirements : Type;
  Condition : Type;
  Quantity : Type;
  foreign : Type
}.

Section types.
Context `{!KubeTypes}.

(** ** The structs *)

Record VMOptions := {
  vo_OS : OSType;
  vo_Backend : Backend;
  vo_ConnType : ConnType;
  vo_Network : string;
  vo_ForcePull : bool;
  vo_NoDirectIO : bool;
  vo_ProbePort : Z;
  vo_Storage : ptr Quantity;
  vo_Resources : ResourceRequirements
}.

Record AgentSpec := {
  as_Replicas : Z;
  as_Image : string;
  as_Mode : AgentMode;
  as_VMOptions : VMOptions;
  as_EnvFrom : slice EnvFromSource;
  as_ServiceAccountName : string
}.

Record ToolboxSpec := {
  ts_Name : string;
  ts_Image : string;
  ts_Mode : ToolboxMode;
  ts_StaticIP : string;
  ts_StaticVMID : string;
  ts_VNCPort : Z;
  ts_VMOptions : VMOptions
}.

Record CocoonSetSpec := {
  cs_Suspend : bool;
  cs_SnapshotPolicy : SnapshotPolicy;
  cs_HibernatePolicy : HibernatePolicy;
  cs_NodePool : string;
  cs_SnapshotCompatibilityClass : string;
  cs_NodeName : string;
  cs_Agent : AgentSpec;
  cs_Toolboxes : slice ToolboxSpec
}.

Record AgentStatus := {
  at_Slot : Z;
  at_Role : string;
  at_PodName : string;
  at_VMName : string;
  at_VMID : string;
  at_IP : string;
  at_Phase : string;
  at_ForkedFrom : string
}.

Record ToolboxStatus := {
  tt_Name : string;
  tt_PodName : string;
  tt_VMName : string;
  tt_VMID : string;
  tt_IP : string;
  tt_Phase : string;
  tt_ConnType : ConnType;
  tt_VNCPort : Z
}.

Record CocoonSetStatus := {
  ct_ObservedGeneration : Z;
  ct_Phase : CocoonSetPhase;
  ct_ReadyAgents : Z;
  ct_DesiredAgents : Z;
  ct_ReadyToolboxes : Z;
  ct_DesiredToolboxes : Z;
  ct_Agents : slice AgentStatus;
  ct_Toolboxes : slice ToolboxStatus;
  ct_Conditions : slice Condition
}.

Record CocoonSet := {
  set_TypeMeta : TypeMeta;
  set_ObjectMeta : ObjectMeta;
  set_Spec : CocoonSetSpec;
  set_Status : CocoonSetStatus
}.

Record CocoonSetList := {
  sl_TypeMeta : TypeMeta;
  sl_ListMeta : ListMeta;
  sl_Items : slice CocoonSet
}.

Record HibernationPodRef := {
  pr_Name : string
}.

Record CocoonHibernationSpec := {
  hs_PodRef : HibernationPodRef;
  hs_Desire : HibernationDesire
}.

Record CocoonHibernationStatus := {
  ht_ObservedGeneration : Z;
  ht_Phase : CocoonHibernationPhase;
  ht_VMName : string;
  ht_Conditions : slice Condition
}.

Record CocoonHibernation := {
  hib_TypeMeta : TypeMeta;
  hib_ObjectMeta : ObjectMeta;
  hib_Spec : CocoonHibernationSpec;
  hib_Status : CocoonHibernationStatus
}.

Record CocoonHibernationList := {
  hl_TypeMeta : TypeMeta;
  hl_ListMeta : ListMeta;
  hl_Items : slice CocoonHibernation
}.

(** Assignments to a field. *)
Definition set_vo_Storage (v : ptr Quantity) (x : VMOptions) : VMOptions :=
  {| vo_OS := vo_OS x; vo_Backend := vo_Backend x; vo_ConnType := vo_ConnType x; vo_Network := vo_Network x; vo_ForcePull := vo_ForcePull x; vo_NoDirectIO := vo_NoDirectIO x; vo_ProbePort := vo_ProbePort x; vo_Storage := v; vo_Resources := vo_Resources x |}.
Definition set_vo_Resources (v : ResourceRequirements) (x : VMOptions) : VMOptions :=
  {| vo_OS := vo_OS x; vo_Backend := vo_Backend x; vo_ConnType := vo_ConnType x; vo_Network := vo_Network x; vo_ForcePull := vo_ForcePull x; vo_NoDirectIO := vo_NoDirectIO x; vo_ProbePort := vo_ProbePort x; vo_Storage := vo_Storage x; vo_Resources := v |}.
Definition set_as_VMOptions (v : VMOptions) (x : AgentSpec) : AgentSpec :=
  {| as_Replicas := as_Replicas x; as_Image := as_Image x; as_Mode := as_Mode x; as_VMOptions := v; as_EnvFrom := as_EnvFrom x; as_ServiceAccountName := as_ServiceAccountName x |}.
Definition set_as_EnvFrom (v : slice EnvFromSource) (x : AgentSpec) : AgentSpec :=
  {| as_Replicas := as_Replicas x; as_Image := as_Image x; as_Mode := as_Mode x; as_VMOptions := as_VMOptions x; as_EnvFrom := v; as_ServiceAccountName := as_ServiceAccountName x |}.
Definition set_ts_VMOptions (v : VMOptions) (x : ToolboxSpec) : ToolboxSpec :=
  {| ts_Name := ts_Name x; ts_Image := ts_Image x; ts_Mode := ts_Mode x; ts_StaticIP := ts_StaticIP x; ts_StaticVMID := ts_StaticVMID x; ts_VNCPort := ts_VNCPort x; ts_VMOptions := v |}.
Definition set_cs_Agent (v : AgentSpec) (x : CocoonSetSpec) : CocoonSetSpec :=
  {| cs_Suspend := cs_Suspend x; cs_SnapshotPolicy := cs_SnapshotPolicy x; cs_HibernatePolicy := cs_HibernatePolicy x; cs_NodePool := cs_NodePool x; cs_SnapshotCompatibilityClass := cs_SnapshotCompatibilityClass x; cs_NodeName := cs_NodeName x; cs_Agent := v; cs_Toolboxes := cs_Toolboxes x |}.
Definition set_cs_Toolboxes (v : slice ToolboxSpec) (x : CocoonSetSpec) : CocoonSetSpec :=
  {| cs_Suspend := cs_Suspend x; cs_SnapshotPolicy := cs_SnapshotPolicy x; cs_HibernatePolicy := cs_HibernatePolicy x; cs_NodePool := cs_NodePool x; cs_SnapshotCompatibilityClass := cs_SnapshotCompatibilityClass x; cs_NodeName := cs_NodeName x; cs_Agent := cs_Agent x; cs_Toolboxes := v |}.
Definition set_ct_Agents (v : slice AgentStatus) (x : CocoonSetStatus) : CocoonSetStatus :=
  {| ct_ObservedGeneration := ct_ObservedGeneration x; ct_Phase := ct_Phase x; ct_ReadyAgents := ct_ReadyAgents x; ct_DesiredAgents := ct_DesiredAgents x; ct_ReadyToolboxes := ct_ReadyToolboxes x; ct_DesiredToolboxes := ct_DesiredToolboxes x; ct_Agents := v; ct_Toolboxes := ct_Toolboxes x; ct_Conditions := ct_Conditions x |}.
Definition set_ct_Toolboxes (v : slice ToolboxStatus) (x : CocoonSetStatus) : CocoonSetStatus :=
  {| ct_ObservedGeneration := ct_ObservedGeneration x; ct_Phase := ct_Phase x; ct_ReadyAgents := ct_ReadyAgents x; ct_DesiredAgents := ct_DesiredAgents x; ct_ReadyToolboxes := ct_ReadyToolboxes x; ct_DesiredToolboxes := ct_DesiredToolboxes x; ct_Agents := ct_Agents x; ct_Toolboxes := v; ct_Conditions := ct_Conditions x |}.
Definition set_ct_Conditions (v : slice Condition) (x : CocoonSetStatus) : CocoonSetStatus :=
  {| ct_ObservedGeneration := ct_ObservedGeneration x; ct_Phase := ct_Phase x; ct_ReadyAgents := ct_ReadyAgents x; ct_DesiredAgents := ct_DesiredAgents x; ct_ReadyToolboxes := ct_ReadyToolboxes x; ct_DesiredToolboxes := ct_DesiredToolboxes x; ct_Agents := ct_Agents x; ct_Toolboxes := ct_Toolboxes x; ct_Conditions := v |}.
Definition set_set_TypeMeta (v : TypeMeta) (x : CocoonSet) : CocoonSet :=
  {| set_TypeMeta := v; set_ObjectMeta := set_ObjectMeta x; set_Spec := set_Spec x; set_Status := set_Status x |}.
Definition set_set_ObjectMeta (v : ObjectMeta) (x : CocoonSet) : CocoonSet :=
  {| set_TypeMeta := set_TypeMeta x; set_ObjectMeta := v; set_Spec := set_Spec x; set_Status := set_Status x |}.
Definition set_set_Spec (v : CocoonSetSpec) (x : CocoonSet) : CocoonSet :=
  {| set_TypeMeta := set_TypeMeta x; set_ObjectMeta := set_ObjectMeta x; set_Spec := v; set_Status := set_Status x |}.
Definition set_set_Status (v : CocoonSetStatus) (x : CocoonSet) : CocoonSet :=
  {| set_TypeMeta := set_TypeMeta x; set_ObjectMeta := set_ObjectMeta x; set_Spec := set_Spec x; set_Status := v |}.
Definition set_sl_TypeMeta (v : TypeMeta) (x : CocoonSetList) : CocoonSetList :=
  {| sl_TypeMeta := v; sl_ListMeta := sl_ListMeta x; sl_Items := sl_Items x |}.
Definition set_sl_ListMeta (v : ListMeta) (x : CocoonSetList) : CocoonSetList :=
  {| sl_TypeMeta := sl_TypeMeta x; sl_ListMeta := v; sl_Items := sl_Items x |}.
Definition set_sl_Items (v : slice CocoonSet) (x : CocoonSetList) : CocoonSetList :=
  {| sl_TypeMeta := sl_TypeMeta x; sl_ListMeta := sl_ListMeta x; sl_Items := v |}.
Definition set_hs_PodRef (v : HibernationPodRef) (x : CocoonHibernationSpec) : CocoonHibernationSpec :=
  {| hs_PodRef := v; hs_Desire := hs_Desire x |}.
Definition set_ht_Conditions (v : slice Condition) (x : CocoonHibernationStatus) : CocoonHibernationStatus :=
  {| ht_ObservedGeneration := ht_ObservedGeneration x; ht_Phase := ht_Phase x; ht_VMName := ht_VMName x; ht_Conditions := v |}.
Definition set_hib_TypeMeta (v : TypeMeta) (x : CocoonHibernation) : CocoonHibernation :=
  {| hib_TypeMeta := v; hib_ObjectMeta := hib_ObjectMeta x; hib_Spec := hib_Spec x; hib_Status := hib_Status x |}.
Definition set_hib_ObjectMeta (v : ObjectMeta) (x : CocoonHibernation) : CocoonHibernation :=
  {| hib_TypeMeta := hib_TypeMeta x; hib_ObjectMeta := v; hib_Spec := hib_Spec x; hib_Status := hib_Status x |}.
Definition set_hib_Spec (v : CocoonHibernationSpec) (x : CocoonHibernation) : CocoonHibernation :=
  {| hib_TypeMeta := hib_TypeMeta x; hib_ObjectMeta := hib_ObjectMeta x; hib_Spec := v; hib_Status := hib_Status x |}.
Definition set_hib_Status (v : CocoonHibernationStatus) (x : CocoonHibernation) : CocoonHibernation :=
  {| hib_TypeMeta := hib_TypeMeta x; hib_ObjectMeta := hib_ObjectMeta x; hib_Spec := hib_Spec x; hib_Status := v |}.
Definition set_hl_TypeMeta (v : TypeMeta) (x : CocoonHibernationList) : CocoonHibernationList :=
  {| hl_TypeMeta := v; hl_ListMeta := hl_ListMeta x; hl_Items := hl_Items x |}.
Definition set_hl_ListMeta (v : ListMeta) (x : CocoonHibernationList) : CocoonHibernationList :=
  {| hl_TypeMeta := hl_TypeMeta x; hl_ListMeta := v; hl_Items := hl_Items x |}.
Definition set_hl_Items (v : slice CocoonHibernation) (x : CocoonHibernationList) : CocoonHibernationList :=
  {| hl_TypeMeta := hl_TypeMeta x; hl_ListMeta := hl_ListMeta x; hl_Items := v |}.

(** The cells of the store: arrays of each type, and what the types that are
    not of this module keep in cells of their own. *)
Inductive cell :=
  | CellVMOptions (a : list VMOptions)
  | CellAgentSpec (a : list AgentSpec)
  | CellToolboxSpec (a : list ToolboxSpec)
  | CellCocoonSetSpec (a : list CocoonSetSpec)
  | CellAgentStatus (a : list AgentStatus)
  | CellToolboxStatus (a : list ToolboxStatus)
  | CellCocoonSetStatus (a : list CocoonSetStatus)
  | CellCocoonSet (a : list CocoonSet)
  | CellCocoonSetList (a : list CocoonSetList)
  | CellHibernationPodRef (a : list HibernationPodRef)
  | CellCocoonHibernationSpec (a : list CocoonHibernationSpec)
  | CellCocoonHibernationStatus (a : list CocoonHibernationStatus)
  | CellCocoonHibernation (a : list CocoonHibernation)
  | CellCocoonHibernationList (a : list CocoonHibernationList)
  | CellEnvFromSource (a : list EnvFromSource)
  | CellCondition (a : list Condition)
  | CellQuantity (a : list Quantity)
  | CellForeign (c : foreign).

#[global] Instance VMOptions_cell : InCell (cell := cell) VMOptions :=
  {| put := CellVMOptions; get c := match c with CellVMOptions a => Some a | _ => None end; get_put a := eq_refl |}.
#[global] Instance AgentSpec_cell : InCell (cell := cell) AgentSpec :=
  {| put := CellAgentSpec; get c := match c with CellAgentSpec a => Some a | _ => None end; get_put a := eq_refl |}.
#[global] Instance ToolboxSpec_cell : InCell (cell := cell) ToolboxSpec :=
  {| put := CellToolboxSpec; get c := match c with CellToolboxSpec a => Some a | _ => None end; get_put a := eq_refl |}.
#[global] Instance CocoonSetSpec_cell : InCell (cell := cell) CocoonSetSpec :=
  {| put := CellCocoonSetSpec; get c := match c with CellCocoonSetSpec a => Some a | _ => None end; get_put a := eq_refl |}.
#[global] Instance AgentStatus_cell : InCell (cell := cell) AgentStatus :=
  {| put := CellAgentStatus; get c := match c with CellAgentStatus a => Some a | _ => None end; get_put a := eq_refl |}.
#[global] Instance ToolboxStatus_cell : InCell (cell := cell) ToolboxStatus :=
  {| put := CellToolboxStatus; get c := match c with CellToolboxStatus a => Some a | _ => None end; get_put a := eq_refl |}.
#[global] Instance CocoonSetStatus_cell : InCell (cell := cell) CocoonSetStatus :=
  {| put := CellCocoonSetStatus; get c := match c with CellCocoonSetStatus a => Some a | _ => None end; get_put a := eq_refl |}.
#[global] Instance CocoonSet_cell : InCell (cell := cell) CocoonSet :=
  {| put := CellCocoonSet; get c := match c with CellCocoonSet a => Some a | _ => None end; get_put a := eq_refl |}.
#[global] Instance CocoonSetList_cell : InCell (cell := cell) CocoonSetList :=
  {| put := CellCocoonSetList; get c := match c with CellCocoonSetList a => Some a | _ => None end; get_put a := eq_refl |}.
#[global] Instance HibernationPodRef_cell : InCell (cell := cell) HibernationPodRef :=
  {| put := CellHibernationPodRef; get c := match c with CellHibernationPodRef a => Some a | _ => None end; get_put a := eq_refl |}.
#[global] Instance CocoonHibernationSpec_cell : InCell (cell := cell) CocoonHibernationSpec :=
  {| put := CellCocoonHibernationSpec; get c := match c with CellCocoonHibernationSpec a => Some a | _ => None end; get_put a := eq_refl |}.
#[global] Instance CocoonHibernationStatus_cell : InCell (cell := cell) CocoonHibernationStatus :=
  {| put := CellCocoonHibernationStatus; get c := match c with CellCocoonHibernationStatus a => Some a | _ => None end; get_put a := eq_refl |}.
#[global] Instance CocoonHibernation_cell : InCell (cell := cell) CocoonHibernation :=
  {| put := CellCocoonHibernation; get c := match c with CellCocoonHibernation a => Some a | _ => None end; get_put a := eq_refl |}.
#[global] Instance CocoonHibernationList_cell : InCell (cell := cell) CocoonHibernationList :=
  {| put := CellCocoonHibernationList; get c := match c with CellCocoonHibernationList a => Some a | _ => None end; get_put a := eq_refl |}.
#[global] Instance EnvFromSource_cell : InCell (cell := cell) EnvFromSource :=
  {| put := CellEnvFromSource; get c := match c with CellEnvFromSource a => Some a | _ => None end; get_put a := eq_refl |}.
#[global] Instance Condition_cell : InCell (cell := cell) Condition :=
  {| put := CellCondition; get c := match c with CellCondition a => Some a | _ => None end; get_put a := eq_refl |}.
#[global] Instance Quantity_cell : InCell (cell := cell) Quantity :=
  {| put := CellQuantity; get c := match c with CellQuantity a => Some a | _ => None end; get_put a := eq_refl |}.
End types.

Abbreviation store := (gmap loc cell).
Abbreviation mem := (Heap.mem (cell := cell)).
Abbreviation rd := (Heap.rd (cell := cell)).

(** What Kubernetes' types bring: how they are read and their DeepCopyInto
    ([Quantity.DeepCopy] for a quantity). *)
Class KubeCopies `{!KubeTypes} := {
  TypeMeta_copier :: DeepCopier (cell := cell) TypeMeta;
  ObjectMeta_copier :: DeepCopier (cell := cell) ObjectMeta;
  ListMeta_copier :: DeepCopier (cell := cell) ListMeta;
  EnvFromSource_copier :: DeepCopier (cell := cell) EnvFromSource;
  ResourceRequirements_copier :: DeepCopier (cell := cell) ResourceRequirements;
  Condition_copier :: DeepCopier (cell := cell) Condition;
  Quantity_copier :: DeepCopier (cell := cell) Quantity
}.

(** And what they promise: a [TypeMeta] is two strings, the others are copied deeply. *)
Class KubeOk `{!KubeTypes, !KubeCopies} := {
  TypeMeta_ok :: Plain TypeMeta;
  ObjectMeta_ok :: DeepCopyOk ObjectMeta;
  ListMeta_ok :: DeepCopyOk ListMeta;
  EnvFromSource_ok :: DeepCopyOk EnvFromSource;
  ResourceRequirements_ok :: DeepCopyOk ResourceRequirements;
  Condition_ok :: DeepCopyOk Condition;
  Quantity_ok :: DeepCopyOk Quantity
}.

(** ** What the structs hold, and their DeepCopyInto *)

Section copies.
Context `{!KubeTypes, !KubeCopies}.

Definition VMOptions_read (x : VMOptions) : rd value :=
  storage ← read_ptr (vo_Storage x);
  resources ← read (vo_Resources x);
  mret (VStruct [(Named "os" true, VStr (vo_OS x)); (Named "backend" true, VStr (vo_Backend x));
    (Named "connType" true, VStr (vo_ConnType x)); (Named "network" true, VStr (vo_Network x));
    (Named "forcePull" true, VBool (vo_ForcePull x)); (Named "noDirectIO" true, VBool (vo_NoDirectIO x));
    (Named "probePort" true, VInt (vo_ProbePort x)); (Named "storage" true, storage);
    (Named "resources" true, resources)]).

Definition VMOptions_DeepCopyInto (x : VMOptions) : mem VMOptions :=
  let out := x in
  storage ← copy_ptr (vo_Storage x);
  let out := set_vo_Storage storage out in
  resources ← copyInto (vo_Resources x);
  mret (set_vo_Resources resources out).

#[global] Instance VMOptions_copier : DeepCopier VMOptions := {|
  read := VMOptions_read;
  zero := {| vo_OS := ""; vo_Backend := ""; vo_ConnType := ""; vo_Network := ""; vo_ForcePull := false;
             vo_NoDirectIO := false; vo_ProbePort := 0; vo_Storage := None; vo_Resources := zero |};
  copyInto := VMOptions_DeepCopyInto |}.

Definition AgentSpec_read (x : AgentSpec) : rd value :=
  options ← read (as_VMOptions x);
  envFrom ← read_slice (as_EnvFrom x);
  mret (VStruct [(Named "replicas" true, VInt (as_Replicas x)); (Named "image" false, VStr (as_Image x));
    (Named "mode" true, VStr (as_Mode x)); (Inline, options); (Named "envFrom" true, envFrom);
    (Named "serviceAccountName" true, VStr (as_ServiceAccountName x))]).

Definition AgentSpec_DeepCopyInto (x : AgentSpec) : mem AgentSpec :=
  let out := x in
  options ← copyInto (as_VMOptions x);
  let out := set_as_VMOptions options out in
  envFrom ← copy_slice (as_EnvFrom x);
  mret (set_as_EnvFrom envFrom out).

#[global] Instance AgentSpec_copier : DeepCopier AgentSpec := {|
  read := AgentSpec_read;
  zero := {| as_Replicas := 0; as_Image := ""; as_Mode := ""; as_VMOptions := zero; as_EnvFrom := None;
             as_ServiceAccountName := "" |};
  copyInto := AgentSpec_DeepCopyInto |}.

Definition ToolboxSpec_read (x : ToolboxSpec) : rd value :=
  options ← read (ts_VMOptions x);
  mret (VStruct [(Named "name" false, VStr (ts_Name x)); (Named "image" true, VStr (ts_Image x));
    (Named "mode" true, VStr (ts_Mode x)); (Named "staticIP" true, VStr (ts_StaticIP x));
    (Named "staticVMID" true, VStr (ts_StaticVMID x)); (Named "vncPort" true, VInt (ts_VNCPort x)); (Inline, options)]).

Definition ToolboxSpec_DeepCopyInto (x : ToolboxSpec) : mem ToolboxSpec :=
  let out := x in
  options ← copyInto (ts_VMOptions x);
  mret (set_ts_VMOptions options out).

#[global] Instance ToolboxSpec_copier : DeepCopier ToolboxSpec := {|
  read := ToolboxSpec_read;
  zero := {| ts_Name := ""; ts_Image := ""; ts_Mode := ""; ts_StaticIP := ""; ts_StaticVMID := ""; ts_VNCPort := 0;
             ts_VMOptions := zero |};
  copyInto := ToolboxSpec_DeepCopyInto |}.

Definition CocoonSetSpec_read (x : CocoonSetSpec) : rd value :=
  agent ← read (cs_Agent x);
  toolboxes ← read_slice (cs_Toolboxes x);
  mret (VStruct [(Named "suspend" true, VBool (cs_Suspend x)); (Named "snapshotPolicy" true, VStr (cs_SnapshotPolicy x));
    (Named "hibernatePolicy" true, VStr (cs_HibernatePolicy x)); (Named "nodePool" true, VStr (cs_NodePool x));
    (Named "snapshotCompatibilityClass" true, VStr (cs_SnapshotCompatibilityClass x));
    (Named "nodeName" true, VStr (cs_NodeName x)); (Named "agent" false, agent); (Named "toolboxes" true, toolboxes)]).

Definition CocoonSetSpec_DeepCopyInto (x : CocoonSetSpec) : mem CocoonSetSpec :=
  let out := x in
  agent ← copyInto (cs_Agent x);
  let out := set_cs_Agent agent out in
  toolboxes ← copy_slice (cs_Toolboxes x);
  mret (set_cs_Toolboxes toolboxes out).

#[global] Instance CocoonSetSpec_copier : DeepCopier CocoonSetSpec := {|
  read := CocoonSetSpec_read;
  zero := {| cs_Suspend := false; cs_SnapshotPolicy := ""; cs_HibernatePolicy := ""; cs_NodePool := "";
             cs_SnapshotCompatibilityClass := ""; cs_NodeName := ""; cs_Agent := zero; cs_Toolboxes := None |};
  copyInto := CocoonSetSpec_DeepCopyInto |}.

Definition AgentStatus_read (x : AgentStatus) : rd value :=
  mret (VStruct [(Named "slot" false, VInt (at_Slot x)); (Named "role" false, VStr (at_Role x));
    (Named "podName" true, VStr (at_PodName x)); (Named "vmName" true, VStr (at_VMName x));
    (Named "vmID" true, VStr (at_VMID x)); (Named "ip" true, VStr (at_IP x)); (Named "phase" true, VStr (at_Phase x));
    (Named "forkedFrom" true, VStr (at_ForkedFrom x))]).

Definition AgentStatus_DeepCopyInto (x : AgentStatus) : mem AgentStatus := mret x.

#[global] Instance AgentStatus_copier : DeepCopier AgentStatus := {|
  read := AgentStatus_read;
  zero := {| at_Slot := 0; at_Role := ""; at_PodName := ""; at_VMName := ""; at_VMID := ""; at_IP := ""; at_Phase := "";
             at_ForkedFrom := "" |};
  copyInto := AgentStatus_DeepCopyInto |}.

Definition ToolboxStatus_read (x : ToolboxStatus) : rd value :=
  mret (VStruct [(Named "name" false, VStr (tt_Name x)); (Named "podName" true, VStr (tt_PodName x));
    (Named "vmName" true, VStr (tt_VMName x)); (Named "vmID" true, VStr (tt_VMID x)); (Named "ip" true, VStr (tt_IP x));
    (Named "phase" true, VStr (tt_Phase x)); (Named "connType" true, VStr (tt_ConnType x));
    (Named "vncPort" true, VInt (tt_VNCPort x))]).

Definition ToolboxStatus_DeepCopyInto (x : ToolboxStatus) : mem ToolboxStatus := mret x.

#[global] Instance ToolboxStatus_copier : DeepCopier ToolboxStatus := {|
  read := ToolboxStatus_read;
  zero := {| tt_Name := ""; tt_PodName := ""; tt_VMName := ""; tt_VMID := ""; tt_IP := ""; tt_Phase := "";
             tt_ConnType := ""; tt_VNCPort := 0 |};
  copyInto := ToolboxStatus_DeepCopyInto |}.

Definition CocoonSetStatus_read (x : CocoonSetStatus) : rd value :=
  agents ← read_slice (ct_Agents x);
  toolboxes ← read_slice (ct_Toolboxes x);
  conditions ← read_slice (ct_Conditions x);
  mret (VStruct [(Named "observedGeneration" true, VInt (ct_ObservedGeneration x)); (Named "phase" true, VStr (ct_Phase x));
    (Named "readyAgents" false, VInt (ct_ReadyAgents x)); (Named "desiredAgents" false, VInt (ct_DesiredAgents x));
    (Named "readyToolboxes" false, VInt (ct_ReadyToolboxes x));
    (Named "desiredToolboxes" false, VInt (ct_DesiredToolboxes x)); (Named "agents" true, agents);
    (Named "toolboxes" true, toolboxes); (Named "conditions" true, conditions)]).

Definition CocoonSetStatus_DeepCopyInto (x : CocoonSetStatus) : mem CocoonSetStatus :=
  let out := x in
  agents ← copy_plain (ct_Agents x);
  let out := set_ct_Agents agents out in
  toolboxes ← copy_plain (ct_Toolboxes x);
  let out := set_ct_Toolboxes toolboxes out in
  conditions ← copy_slice (ct_Conditions x);
  mret (set_ct_Conditions conditions out).

#[global] Instance CocoonSetStatus_copier : DeepCopier CocoonSetStatus := {|
  read := CocoonSetStatus_read;
  zero := {| ct_ObservedGeneration := 0; ct_Phase := ""; ct_ReadyAgents := 0; ct_DesiredAgents := 0;
             ct_ReadyToolboxes := 0; ct_DesiredToolboxes := 0; ct_Agents := None; ct_Toolboxes := None;
             ct_Conditions := None |};
  copyInto := CocoonSetStatus_DeepCopyInto |}.

Definition CocoonSet_read (x : CocoonSet) : rd value :=
  typeMeta ← read (set_TypeMeta x);
  metadata ← read (set_ObjectMeta x);
  spec ← read (set_Spec x);
  status ← read (set_Status x);
  mret (VStruct [(Inline, typeMeta); (Named "metadata" true, metadata); (Named "spec" true, spec);
    (Named "status" true, status)]).

Definition CocoonSet_DeepCopyInto (x : CocoonSet) : mem CocoonSet :=
  let out := x in
  let out := set_set_TypeMeta (set_TypeMeta x) out in
  metadata ← copyInto (set_ObjectMeta x);
  let out := set_set_ObjectMeta metadata out in
  spec ← copyInto (set_Spec x);
  let out := set_set_Spec spec out in
  status ← copyInto (set_Status x);
  mret (set_set_Status status out).

#[global] Instance CocoonSet_copier : DeepCopier CocoonSet := {|
  read := CocoonSet_read;
  zero := {| set_TypeMeta := zero; set_ObjectMeta := zero; set_Spec := zero; set_Status := zero |};
  copyInto := CocoonSet_DeepCopyInto |}.

Definition CocoonSetList_read (x : CocoonSetList) : rd value :=
  typeMeta ← read (sl_TypeMeta x);
  metadata ← read (sl_ListMeta x);
  items ← read_slice (sl_Items x);
  mret (VStruct [(Inline, typeMeta); (Named "metadata" true, metadata); (Named "items" false, items)]).

Definition CocoonSetList_DeepCopyInto (x : CocoonSetList) : mem CocoonSetList :=
  let out := x in
  let out := set_sl_TypeMeta (sl_TypeMeta x) out in
  metadata ← copyInto (sl_ListMeta x);
  let out := set_sl_ListMeta metadata out in
  items ← copy_slice (sl_Items x);
  mret (set_sl_Items items out).

#[global] Instance CocoonSetList_copier : DeepCopier CocoonSetList := {|
  read := CocoonSetList_read;
  zero := {| sl_TypeMeta := zero; sl_ListMeta := zero; sl_Items := None |};
  copyInto := CocoonSetList_DeepCopyInto |}.

Definition HibernationPodRef_read (x : HibernationPodRef) : rd value :=
  mret (VStruct [(Named "name" false, VStr (pr_Name x))]).

Definition HibernationPodRef_DeepCopyInto (x : HibernationPodRef) : mem HibernationPodRef := mret x.

#[global] Instance HibernationPodRef_copier : DeepCopier HibernationPodRef := {|
  read := HibernationPodRef_read; zero := {| pr_Name := "" |}; copyInto := HibernationPodRef_DeepCopyInto |}.

Definition CocoonHibernationSpec_read (x : CocoonHibernationSpec) : rd value :=
  podRef ← read (hs_PodRef x);
  mret (VStruct [(Named "podRef" false, podRef); (Named "desire" false, VStr (hs_Desire x))]).

Definition CocoonHibernationSpec_DeepCopyInto (x : CocoonHibernationSpec) : mem CocoonHibernationSpec :=
  let out := x in
  mret (set_hs_PodRef (hs_PodRef x) out).

#[global] Instance CocoonHibernationSpec_copier : DeepCopier CocoonHibernationSpec := {|
  read := CocoonHibernationSpec_read; zero := {| hs_PodRef := zero; hs_Desire := "" |};
  copyInto := CocoonHibernationSpec_DeepCopyInto |}.

Definition CocoonHibernationStatus_read (x : CocoonHibernationStatus) : rd value :=
  conditions ← read_slice (ht_Conditions x);
  mret (VStruct [(Named "observedGeneration" true, VInt (ht_ObservedGeneration x)); (Named "phase" true, VStr (ht_Phase x));
    (Named "vmName" true, VStr (ht_VMName x)); (Named "conditions" true, conditions)]).

Definition CocoonHibernationStatus_DeepCopyInto (x : CocoonHibernationStatus) : mem CocoonHibernationStatus :=
  let out := x in
  conditions ← copy_slice (ht_Conditions x);
  mret (set_ht_Conditions conditions out).

#[global] Instance CocoonHibernationStatus_copier : DeepCopier CocoonHibernationStatus := {|
  read := CocoonHibernationStatus_read;
  zero := {| ht_ObservedGeneration := 0; ht_Phase := ""; ht_VMName := ""; ht_Conditions := None |};
  copyInto := CocoonHibernationStatus_DeepCopyInto |}.

Definition CocoonHibernation_read (x : CocoonHibernation) : rd value :=
  typeMeta ← read (hib_TypeMeta x);
  metadata ← read (hib_ObjectMeta x);
  spec ← read (hib_Spec x);
  status ← read (hib_Status x);
  mret (VStruct [(Inline, typeMeta); (Named "metadata" true, metadata); (Named "spec" true, spec);
    (Named "status" true, status)]).

Definition CocoonHibernation_DeepCopyInto (x : CocoonHibernation) : mem CocoonHibernation :=
  let out := x in
  let out := set_hib_TypeMeta (hib_TypeMeta x) out in
  metadata ← copyInto (hib_ObjectMeta x);
  let out := set_hib_ObjectMeta metadata out in
  let out := set_hib_Spec (hib_Spec x) out in
  status ← copyInto (hib_Status x);
  mret (set_hib_Status status out).

#[global] Instance CocoonHibernation_copier : DeepCopier CocoonHibernation := {|
  read := CocoonHibernation_read;
  zero := {| hib_TypeMeta := zero; hib_ObjectMeta := zero; hib_Spec := zero; hib_Status := zero |};
  copyInto := CocoonHibernation_DeepCopyInto |}.

Definition CocoonHibernationList_read (x : CocoonHibernationList) : rd value :=
  typeMeta ← read (hl_TypeMeta x);
  metadata ← read (hl_ListMeta x);
  items ← read_slice (hl_Items x);
  mret (VStruct [(Inline, typeMeta); (Named "metadata" true, metadata); (Named "items" false, items)]).

Definition CocoonHibernationList_DeepCopyInto (x : CocoonHibernationList) : mem CocoonHibernationList :=
  let out := x in
  let out := set_hl_TypeMeta (hl_TypeMeta x) out in
  metadata ← copyInto (hl_ListMeta x);
  let out := set_hl_ListMeta metadata out in
  items ← copy_slice (hl_Items x);
  mret (set_hl_Items items out).

#[global] Instance CocoonHibernationList_copier : DeepCopier CocoonHibernationList := {|
  read := CocoonHibernationList_read;
  zero := {| hl_TypeMeta := zero; hl_ListMeta := zero; hl_Items := None |};
  copyInto := CocoonHibernationList_DeepCopyInto |}.

(** [func (in *T) DeepCopy() *T] *)
Definition VMOptions_DeepCopy : ptr VMOptions -> mem (ptr VMOptions) := DeepCopy.
Definition AgentSpec_DeepCopy : ptr AgentSpec -> mem (ptr AgentSpec) := DeepCopy.
Definition ToolboxSpec_DeepCopy : ptr ToolboxSpec -> mem (ptr ToolboxSpec) := DeepCopy.
Definition CocoonSetSpec_DeepCopy : ptr CocoonSetSpec -> mem (ptr CocoonSetSpec) := DeepCopy.
Definition AgentStatus_DeepCopy : ptr AgentStatus -> mem (ptr AgentStatus) := DeepCopy.
Definition ToolboxStatus_DeepCopy : ptr ToolboxStatus -> mem (ptr ToolboxStatus) := DeepCopy.
Definition CocoonSetStatus_DeepCopy : ptr CocoonSetStatus -> mem (ptr CocoonSetStatus) := DeepCopy.
Definition CocoonSet_DeepCopy : ptr CocoonSet -> mem (ptr CocoonSet) := DeepCopy.
Definition CocoonSetList_DeepCopy : ptr CocoonSetList -> mem (ptr CocoonSetList) := DeepCopy.
Definition HibernationPodRef_DeepCopy : ptr HibernationPodRef -> mem (ptr HibernationPodRef) := DeepCopy.
Definition CocoonHibernationSpec_DeepCopy : ptr CocoonHibernationSpec -> mem (ptr CocoonHibernationSpec) := DeepCopy.
Definition CocoonHibernationStatus_DeepCopy : ptr CocoonHibernationStatus -> mem (ptr CocoonHibernationStatus) := DeepCopy.
Definition CocoonHibernation_DeepCopy : ptr CocoonHibernation -> mem (ptr CocoonHibernation) := DeepCopy.
Definition CocoonHibernationList_DeepCopy : ptr CocoonHibernationList -> mem (ptr CocoonHibernationList) := DeepCopy.

(** [func (in *T) DeepCopyObject() runtime.Object] *)
Definition CocoonSet_DeepCopyObject : ptr CocoonSet -> mem (option (ptr CocoonSet)) := DeepCopyObject.
Definition CocoonSetList_DeepCopyObject : ptr CocoonSetList -> mem (option (ptr CocoonSetList)) := DeepCopyObject.
Definition CocoonHibernation_DeepCopyObject : ptr CocoonHibernation -> mem (option (ptr CocoonHibernation)) := DeepCopyObject.
Definition CocoonHibernationList_DeepCopyObject :
  ptr CocoonHibernationList -> mem (option (ptr CocoonHibernationList)) := DeepCopyObject.

End copies.

(** ** Every type of the module meets the contract *)

Section laws.
Context `{!KubeTypes, !KubeCopies, !KubeOk}.

#[global] Instance AgentStatus_plain : Plain AgentStatus.
Proof. by unshelve econstructor; [intros x; exact (default VNil (fst <$> AgentStatus_read x ∅))|..]. Defined.

#[global] Instance ToolboxStatus_plain : Plain ToolboxStatus.
Proof. by unshelve econstructor; [intros x; exact (default VNil (fst <$> ToolboxStatus_read x ∅))|..]. Defined.

#[global] Instance HibernationPodRef_plain : Plain HibernationPodRef.
Proof. by unshelve econstructor; [intros x; exact (default VNil (fst <$> HibernationPodRef_read x ∅))|..]. Defined.

#[global] Instance CocoonHibernationSpec_plain : Plain CocoonHibernationSpec.
Proof.
  unshelve econstructor; [intros x; exact (default VNil (fst <$> CocoonHibernationSpec_read x ∅))|..]; [|by intros []].
  intros x. cbn [read CocoonHibernationSpec_copier]. unfold CocoonHibernationSpec_read. rewrite plain_read. reflexivity.
Defined.

(** A struct's read is framed because its fields' reads are. *)
Ltac framed := repeat (first [apply Framed_bind|apply Framed_ret|match goal with |- forall _, _ => intros ? end|apply read_framed|apply Framed_ptr|apply Framed_slice]).

(** What the read of a struct found of each field. *)
Ltac fields H :=
  repeat match type of H with context [read ?y] => rewrite (plain_read y) in H end;
  repeat (apply rd_bind_Some in H; do 4 destruct H as [? H]; destruct H as [H ->]);
  injection H as <- <-;
  repeat match goal with E : mret _ _ = Some _ |- _ => injection E as <- <- end.

(** Copies one field. *)
Ltac sub := first [reflexivity | eassumption | etrans; [eassumption|sub]].
Ltac copy_field :=
  eapply Copies_step;
  [first [apply copy_ptr_ok | apply copy_plain_ok | apply copy_slice_ok | apply copyInto_ok]
  |framed | eassumption | sub |intros ? ? ? ? ? ?].

Lemma disjoint_older (fp : gset loc) (s s' : store) : fp ## dom s' -> s ⊆ s' -> fp ## dom s.
Proof. intros Hd Hs%subseteq_dom. set_solver. Qed.

(** The copied struct, read where the last field was copied. *)
Ltac copied :=
  do 2 eexists; split; [reflexivity|];
  split; [sub|];
  eexists; split;
  [repeat match goal with |- context [read ?y] => rewrite (plain_read y) end;
   repeat (apply rd_bind_Some; do 3 eexists; split_and!;
     [first [reflexivity | eassumption
       | eapply Framed_mono; [framed|eassumption|sub]]| |reflexivity]);
   reflexivity
  |repeat (apply disjoint_union_l; split); first [apply disjoint_empty_l | eapply disjoint_older; [eassumption|sub]]].

(** The contract, in the form the rule for steps works on. *)
Lemma Copies_intro {T A} (m : mem T) (original : rd A) (copy : T -> rd A) :
  (forall s v fp, original s = Some (v, fp) ->
    exists y s', m s = Some (y, s') /\ (s ⊆ s' /\ exists fp', copy y s' = Some (v, fp') /\ fp' ## dom s)) ->
  Copies m original copy.
Proof. intros Hc0 s v fp Hr. destruct (Hc0 s v fp Hr) as (y & s' & E & Hs & fp' & Hc & Hd). by exists y, s', fp'. Qed.

(** The contract of a struct, from the definitions of its read and its copy. *)
Tactic Notation "deep_copy" reference(instance) reference(reading) reference(copying) :=
  split; intros x; cbn [read copyInto instance];
  [unfold reading; framed
  |apply Copies_intro; intros s v fp Hr; unfold reading, copying in *; fields Hr; repeat copy_field; copied].

#[global] Instance VMOptions_ok : DeepCopyOk VMOptions.
Proof. deep_copy VMOptions_copier VMOptions_read VMOptions_DeepCopyInto. Qed.

#[global] Instance AgentSpec_ok : DeepCopyOk AgentSpec.
Proof. deep_copy AgentSpec_copier AgentSpec_read AgentSpec_DeepCopyInto. Qed.

#[global] Instance ToolboxSpec_ok : DeepCopyOk ToolboxSpec.
Proof. deep_copy ToolboxSpec_copier ToolboxSpec_read ToolboxSpec_DeepCopyInto. Qed.

#[global] Instance CocoonSetSpec_ok : DeepCopyOk CocoonSetSpec.
Proof. deep_copy CocoonSetSpec_copier CocoonSetSpec_read CocoonSetSpec_DeepCopyInto. Qed.

#[global] Instance CocoonSetStatus_ok : DeepCopyOk CocoonSetStatus.
Proof. deep_copy CocoonSetStatus_copier CocoonSetStatus_read CocoonSetStatus_DeepCopyInto. Qed.

#[global] Instance CocoonSet_ok : DeepCopyOk CocoonSet.
Proof. deep_copy CocoonSet_copier CocoonSet_read CocoonSet_DeepCopyInto. Qed.

#[global] Instance CocoonSetList_ok : DeepCopyOk CocoonSetList.
Proof. deep_copy CocoonSetList_copier CocoonSetList_read CocoonSetList_DeepCopyInto. Qed.

#[global] Instance CocoonHibernationStatus_ok : DeepCopyOk CocoonHibernationStatus.
Proof. deep_copy CocoonHibernationStatus_copier CocoonHibernationStatus_read CocoonHibernationStatus_DeepCopyInto. Qed.

#[global] Instance CocoonHibernation_ok : DeepCopyOk CocoonHibernation.
Proof. deep_copy CocoonHibernation_copier CocoonHibernation_read CocoonHibernation_DeepCopyInto. Qed.

#[global] Instance CocoonHibernationList_ok : DeepCopyOk CocoonHibernationList.
Proof. deep_copy CocoonHibernationList_copier CocoonHibernationList_read CocoonHibernationList_DeepCopyInto. Qed.

(** ** Independence *)

(** A [DeepCopy]: it returns a pointer to an equal value in new memory; no
    cell there was has changed; and from then on neither of the two can be
    changed through the other. *)
Definition independent_copy {T} `{!InCell (cell := cell) T, !DeepCopier (cell := cell) T}
    (copy : ptr T -> mem (ptr T)) : Prop :=
  forall p s v fp, read_ptr p s = Some (v, fp) ->
  exists q s' fp', copy p s = Some (q, s')
    /\ read_ptr q s' = Some (v, fp') /\ read_ptr p s' = Some (v, fp) /\ fp' ## fp
    /\ (forall l, l ∈ dom s -> s' !! l = s !! l)
    /\ (forall s'', (forall l, l ∈ fp' -> s'' !! l = s' !! l) -> read_ptr q s'' = Some (v, fp'))
    /\ (forall s'', (forall l, l ∉ fp' -> s'' !! l = s' !! l) -> read_ptr p s'' = Some (v, fp)).

Lemma DeepCopy_independent {T} `{!InCell (cell := cell) T, !DeepCopier (cell := cell) T, !DeepCopyOk T} :
  independent_copy (T := T) DeepCopy.
Proof.
  intros p s v fp Hp. destruct (DeepCopy_ok p s v fp Hp) as (q & s' & fp' & E & Hs & Hq & Hd).
  pose proof (Framed_mono _ _ _ _ _ (Framed_ptr p) Hp Hs) as Hp'.
  destruct (Framed_ptr p _ _ _ Hp) as [Hfp _]. destruct (Framed_ptr p _ _ _ Hp') as [_ Hold], (Framed_ptr q _ _ _ Hq) as [_ Hnew].
  exists q, s', fp'. split_and!; [done|done|done|set_solver| |exact Hnew|].
  - intros l [c Hc]%elem_of_dom. rewrite Hc. by eapply lookup_weaken.
  - intros s'' Hs''. apply Hold. intros l Hl. apply Hs''. set_solver.
Qed.

(** A deep copy of an interface is nil exactly for a nil pointer. *)
Lemma DeepCopyObject_nil {T} `{!InCell (cell := cell) T, !DeepCopier (cell := cell) T, !DeepCopyOk T} (p : ptr T) s v fp :
  read_ptr p s = Some (v, fp) ->
  exists o s', DeepCopyObject p s = Some (o, s') /\ (o = None <-> p = None) /\ o <> Some None.
Proof.
  intros Hp. destruct (DeepCopy_ok p s v fp Hp) as (q & s' & fp' & E & Hs & Hq & Hd). unfold DeepCopyObject.
  rewrite (mem_bind_Some _ _ _ _ _ E). destruct q as [q|]; eexists _, s'; split; [reflexivity| |reflexivity|].
  - split; [|done]. split; [done|]. intros ->. injection E as ? ?. done.
  - split; [|done]. split; [|done]. intros _. destruct p as [p|]; [|done]. injection Hq as <- <-.
    cbn [read_ptr] in Hp. apply rd_bind_Some in Hp as (? & ? & ? & _ & [=] & _).
Qed.

(** C30: Every deep copy of the module's types gives an equal value that
    shares no memory with its original, and leaves the memory there was
    alone: nothing done through one of the two is seen through the other. *)
Theorem deep_copies_independent :
  (independent_copy CocoonSet_DeepCopy /\ independent_copy CocoonSetList_DeepCopy
   /\ independent_copy CocoonHibernation_DeepCopy /\ independent_copy CocoonHibernationList_DeepCopy)
  /\ (independent_copy CocoonSetSpec_DeepCopy /\ independent_copy CocoonSetStatus_DeepCopy
   /\ independent_copy CocoonHibernationSpec_DeepCopy /\ independent_copy CocoonHibernationStatus_DeepCopy
   /\ independent_copy AgentSpec_DeepCopy /\ independent_copy ToolboxSpec_DeepCopy
   /\ independent_copy VMOptions_DeepCopy /\ independent_copy AgentStatus_DeepCopy
   /\ independent_copy ToolboxStatus_DeepCopy /\ independent_copy HibernationPodRef_DeepCopy).
Proof. split_and!; apply DeepCopy_independent. Qed.

End laws.

(** ** A concrete Kubernetes

    Every type a plain value, but the labels of an [ObjectMeta], which are in
    a cell of their own. *)
Module Sample.

Record Meta := { m_name : string; m_labels : slice (string * string) }.

#[global] Instance kube : KubeTypes := {|
  TypeMeta := string; ObjectMeta := Meta; ListMeta := string; EnvFromSource := string;
  ResourceRequirements := string; Condition := string; Quantity := string; foreign := list (string * string) |}.

#[global] Instance label_cell : InCell (cell := cell) (string * string) :=
  {| put := CellForeign; get c := match c with CellForeign a => Some a | _ => None end; get_put a := eq_refl |}.

Definition plain_copier (f : string -> value) : DeepCopier (cell := cell) string :=
  {| read x := mret (f x); zero := ""; copyInto x := mret x |}.

#[global] Instance label_copier : DeepCopier (cell := cell) (string * string) :=
  {| read x := mret (VStr (x.1 +:+ "=" +:+ x.2)); zero := ("", ""); copyInto x := mret x |}.

#[global] Instance label_plain : Plain (string * string) :=
  {| plain_value x := VStr (x.1 +:+ "=" +:+ x.2); plain_read x := eq_refl; plain_copy x := eq_refl |}.

#[global] Instance meta_copier : DeepCopier (cell := cell) Meta :=
  {| read x := labels ← read_slice (m_labels x);
               mret (VStruct [(Named "name" true, VStr (m_name x)); (Named "labels" true, labels)]);
     zero := {| m_name := ""; m_labels := None |};
     copyInto x := labels ← copy_slice (m_labels x); mret {| m_name := m_name x; m_labels := labels |} |}.

#[global] Instance meta_ok : DeepCopyOk Meta.
Proof.
  split; intros x; cbn [read copyInto meta_copier].
  - apply Framed_bind; [apply Framed_slice|intros; apply Framed_ret].
  - intros s v fp (l & f1 & f2 & Hl & [= <- <-] & ->)%rd_bind_Some.
    destruct (copy_slice_ok _ _ _ _ Hl) as (y & s' & fp' & E & Hs & Hy & Hd). rewrite (mem_bind_Some _ _ _ _ _ E).
    eexists _, s', (fp' ∪ ∅). split_and!; [reflexivity|done| |set_solver]. apply rd_bind_Some. by exists l, fp', ∅.
Qed.

#[global] Instance copies : KubeCopies := {|
  TypeMeta_copier := plain_copier (fun k => VStruct [(Named "kind" true, VStr k)]); ObjectMeta_copier := meta_copier;
  ListMeta_copier := plain_copier VStr; EnvFromSource_copier := plain_copier VStr;
  ResourceRequirements_copier := plain_copier (fun x => VStruct [(Named "limits" true, VStr x)]);
  Condition_copier := plain_copier (fun x => VStruct [(Named "type" false, VStr x)]);
  Quantity_copier := plain_copier VStr |}.

Lemma plain_copier_ok f : @DeepCopyOk cell string (plain_copier f).
Proof. by apply @plain_ok, Build_Plain with (plain_value := f). Qed.

#[global] Instance ok : KubeOk.
Proof.
  split; try apply plain_copier_ok; [|apply meta_ok].
  by apply Build_Plain with (plain_value := fun k => VStruct [(Named "kind" true, VStr k)]).
Qed.

(** A CocoonSet with a label, an agent, a toolbox with a storage size and a
    condition, every slice and pointer in a cell of its own. *)
Definition demo_options : VMOptions :=
  {| vo_OS := "linux"; vo_Backend := ""; vo_ConnType := ""; vo_Network := ""; vo_ForcePull := false;
     vo_NoDirectIO := false; vo_ProbePort := 22; vo_Storage := Some (Ref 4 0); vo_Resources := "" |}.

Definition demo_set : CocoonSet := {|
  set_TypeMeta := "CocoonSet"; set_ObjectMeta := {| m_name := "demo"; m_labels := Some (Window 2 0 1) |};
  set_Spec := {| cs_Suspend := false; cs_SnapshotPolicy := "always"; cs_HibernatePolicy := ""; cs_NodePool := "default";
    cs_SnapshotCompatibilityClass := ""; cs_NodeName := "";
    cs_Agent := {| as_Replicas := 1; as_Image := "img"; as_Mode := "clone"; as_VMOptions := demo_options;
                   as_EnvFrom := None; as_ServiceAccountName := "" |};
    cs_Toolboxes := Some (Window 3 0 1) |};
  set_Status := {| ct_ObservedGeneration := 1; ct_Phase := "Pending"; ct_ReadyAgents := 0; ct_DesiredAgents := 1;
    ct_ReadyToolboxes := 0; ct_DesiredToolboxes := 1; ct_Agents := Some (Window 5 0 1); ct_Toolboxes := None;
    ct_Conditions := Some (Window 6 0 1) |} |}.

Definition demo_store : store := list_to_map [
  (1%positive, CellCocoonSet [demo_set]);
  (2%positive, CellForeign [("x", "y")]);
  (3%positive, CellToolboxSpec [{| ts_Name := "tb"; ts_Image := ""; ts_Mode := "run"; ts_StaticIP := ""; ts_StaticVMID := "";
                          ts_VNCPort := 0; ts_VMOptions := demo_options |}]);
  (4%positive, CellQuantity ["10Gi"]);
  (5%positive, CellAgentStatus [{| at_Slot := 0; at_Role := "main"; at_PodName := "demo-0"; at_VMName := ""; at_VMID := "";
                          at_IP := ""; at_Phase := ""; at_ForkedFrom := "" |}]);
  (6%positive, CellCondition ["Ready"])].

Definition demo : ptr CocoonSet := Some (Ref 1 0).

(** The copy of the sample, and its status changed in place through the original. *)
Lemma deep_copies_independent_witness :
  exists v fp q s' fp', read_ptr demo demo_store = Some (v, fp) /\ CocoonSet_DeepCopy demo demo_store = Some (q, s')
    /\ read_ptr q s' = Some (v, fp')
    /\ read_ptr q (<[5%positive := CellAgentStatus []]> s') = Some (v, fp')
    /\ read_ptr demo (<[5%positive := CellAgentStatus []]> s') = None.
Proof.
  destruct (read_ptr demo demo_store) as [[v fp]|] eqn:E; [|exfalso; vm_compute in E; discriminate E].
  destruct (proj1 (proj1 deep_copies_independent) demo demo_store v fp E) as (q & s' & fp' & Ec & Hq & Hp & Hd & Hold & Hnew & _).
  exists v, fp, q, s', fp'. split_and!; [done..| |].
  - apply Hnew. intros l Hl. rewrite lookup_insert_ne; [done|]. intros <-. apply (Hd 5%positive Hl).
    vm_compute in E. injection E as _ <-. vm_compute. reflexivity.
  - vm_compute in Ec. injection Ec as <- <-. vm_compute. reflexivity.
Defined.

End Sample.
