(* ===== verification/Patch.v ===== *)
(** * Patch: patches and events (k8s/clientpatch.go, k8s/event.go)

    [Patch] and [PatchStatus] change an object in place and send the
    difference; what they rely on is that the copy they keep is not changed
    with it, which is the contract of [DeepCopy].  The controller-runtime
    client is the class [Client], with its state the argument [w]; what it
    promises is [ClientOk].  The context is only passed on, and is left out. *)

From Stdlib Require Import ZArith Lia Ascii String.
From stdpp Require Import base gmap strings list sets.
From S2P Require Import Prelude GoStrings Json Heap Api ApiMem.

Local Open Scope string_scope.

(** A PATCH of the object: on which subresource, and its body. *)
Record request := { rq_subresource : string; rq_body : json }.

Section client.
Context {cell : Type}.

(** [client.Client] for objects of type [T]: [client.MergeFrom],
    [cli.Patch(ctx, obj, patch)] and [cli.Status().Patch(ctx, obj, patch)],
    which may write what the server answers into the object. *)
Class Client (T W : Type) := {
  merge_patch : Type;
  MergeFrom : ptr T -> merge_patch;
  client_Patch : ptr T -> merge_patch -> W -> Heap.mem (cell := cell) (result unit * W);
  status_Patch : ptr T -> merge_patch -> W -> Heap.mem (cell := cell) (result unit * W)
}.

(** What the client documents of a [MergeFrom] patch: when it is sent, the
    body is the JSON merge patch from the object the patch was made from, as
    it is then, to the object it is given, as it is then. *)
Class ClientOk (T W : Type) `{!InCell (cell := cell) T, !DeepCopier (cell := cell) T, !Client T W} := {
  requests : W -> list request;
  createMergePatch : json -> json -> json;
  client_Patch_sends : forall obj base w s vb fb vo fo,
    read_ptr base s = Some (VRef vb, fb) -> read_ptr obj s = Some (VRef vo, fo) ->
    exists r w' s', client_Patch obj (MergeFrom base) w s = Some ((r, w'), s')
      /\ requests w' = (requests w ++ [{| rq_subresource := "";
           rq_body := createMergePatch (marshal_value vb) (marshal_value vo) |}])%list;
  status_Patch_sends : forall obj base w s vb fb vo fo,
    read_ptr base s = Some (VRef vb, fb) -> read_ptr obj s = Some (VRef vo, fo) ->
    exists r w' s', status_Patch obj (MergeFrom base) w s = Some ((r, w'), s')
      /\ requests w' = (requests w ++ [{| rq_subresource := "status";
           rq_body := createMergePatch (marshal_value vb) (marshal_value vo) |}])%list
}.

Context {T W : Type} `{!InCell (cell := cell) T, !DeepCopier (cell := cell) T, !Client T W}.

(** Changes an object in place. *)
Definition Mutator := ptr T -> Heap.mem (cell := cell) unit.

Definition buildMergePatch (obj : ptr T) (mutate : Mutator) : Heap.mem (cell := cell) merge_patch :=
  base ← DeepCopy obj;
  let patch := MergeFrom base in
  _ ← mutate obj;
  mret patch.

Definition PatchStatus (obj : ptr T) (mutate : Mutator) (w : W) : Heap.mem (cell := cell) (result unit * W) :=
  patch ← buildMergePatch obj mutate;
  status_Patch obj patch w.

Definition Patch (obj : ptr T) (mutate : Mutator) (w : W) : Heap.mem (cell := cell) (result unit * W) :=
  patch ← buildMergePatch obj mutate;
  client_Patch obj patch w.

(** ** What is sent *)

(** [mutate] makes the object [v'], whatever else there is in memory, and
    leaves alone the memory that came after [s]: it has no pointer to it. *)
Definition makes (mutate : Mutator) (obj : ptr T) (s : gmap loc cell) (v' : value) : Prop :=
  forall s1, s ⊆ s1 -> exists s2 fp, mutate obj s1 = Some (tt, s2)
    /\ read_ptr obj s2 = Some (VRef v', fp)
    /\ forall l, l ∉ dom s -> l ∈ dom s1 -> s2 !! l = s1 !! l.

Context `{!DeepCopyOk T, !ClientOk T W}.

(** The patch is made from a copy that [mutate] has not changed. *)
Lemma buildMergePatch_base obj mutate s v fp v' :
  read_ptr obj s = Some (VRef v, fp) -> makes mutate obj s v' ->
  exists base s' fb fo, buildMergePatch obj mutate s = Some (MergeFrom base, s')
    /\ read_ptr base s' = Some (VRef v, fb) /\ read_ptr obj s' = Some (VRef v', fo).
Proof.
  intros Hv Hm. destruct (DeepCopy_ok obj s _ _ Hv) as (base & s1 & fb & E & Hs & Hb & Hd).
  destruct (Hm s1 Hs) as (s2 & fo & E2 & Ho & Hkeep). unfold buildMergePatch.
  rewrite (mem_bind_Some _ _ _ _ _ E), (mem_bind_Some _ _ _ _ _ E2). exists base, s2, fb, fo.
  split_and!; [done| |done]. destruct (Framed_ptr base _ _ _ Hb) as [Hfb Hfr]. apply Hfr.
  intros l Hl. apply Hkeep; set_solver.
Qed.

(** C31: [Patch] and [PatchStatus] send one request each, to the object and to
    its status, whose body is the merge patch from what the object was to
    what the mutator made of it, in place as it is done. *)
Theorem Patch_sends_change obj mutate s w v fp v' :
  read_ptr obj s = Some (VRef v, fp) -> makes mutate obj s v' ->
  (exists r w' s', Patch obj mutate w s = Some ((r, w'), s')
    /\ requests w' = (requests w ++ [{| rq_subresource := "";
         rq_body := createMergePatch (marshal_value v) (marshal_value v') |}])%list)
  /\ (exists r w' s', PatchStatus obj mutate w s = Some ((r, w'), s')
    /\ requests w' = (requests w ++ [{| rq_subresource := "status";
         rq_body := createMergePatch (marshal_value v) (marshal_value v') |}])%list).
Proof.
  intros Hv Hm. destruct (buildMergePatch_base _ _ _ _ _ _ Hv Hm) as (base & s' & fb & fo & E & Hb & Ho).
  unfold Patch, PatchStatus. rewrite !(mem_bind_Some _ _ _ _ _ E). split.
  - by eapply client_Patch_sends.
  - by eapply status_Patch_sends.
Qed.

End client.

(** ** Events *)

Section event.
(** [record.EventRecorder]: [rec_Eventf] formats the message and records it. *)
Context {W object arg : Type}.
Record EventRecorder := { rec_Eventf : object -> string -> string -> string -> list arg -> W -> W }.

(** [None] is a nil recorder. *)
Definition Eventf (rec : option EventRecorder) (obj : object) (eventType reason format : string) (args : list arg) (w : W) : W :=
  match rec with
  | Some r => rec_Eventf r obj eventType reason format args w
  | None => w
  end.
End event.

(** ** A concrete client

    It records the requests, computes the difference member by member, and
    answers nothing. *)
Module PatchSample.
Import ApiMem.Sample.

Fixpoint diff (b o : json) {struct o} : json :=
  match b, o with
  | JObj lb, JObj lo =>
      JObj ((fix go lo := match lo with
        | [] => []
        | (k, v) :: lo' =>
            match list_find (fun kv => kv.1 = k) lb with
            | Some (_, (_, w)) => if String.eqb (marshal w) (marshal v) then go lo' else (k, diff w v) :: go lo'
            | None => (k, v) :: go lo'
            end
        end) lo
        ++ ((fun kv => (kv.1, JNull)) <$> filter (fun kv => kv.1 ∉ lo.*1) lb))%list
  | _, _ => o
  end.

Definition send (sub : string) (obj base : ptr CocoonSet) (w : list request) : mem (result unit * list request) := fun s =>
  match read_ptr base s, read_ptr obj s with
  | Some (VRef vb, _), Some (VRef vo, _) =>
      Some ((Ok tt, (w ++ [{| rq_subresource := sub; rq_body := diff (marshal_value vb) (marshal_value vo) |}])%list), s)
  | _, _ => None
  end.

#[global] Instance sample_client : Client (cell := cell) CocoonSet (list request) :=
  {| merge_patch := ptr CocoonSet; MergeFrom p := p; client_Patch := send ""; status_Patch := send "status" |}.

#[global] Instance sample_client_ok : ClientOk CocoonSet (list request).
Proof.
  refine {| requests w := w; createMergePatch := diff |}; intros * Hb Ho; cbn; unfold send;
    rewrite Hb, Ho; do 3 eexists; by split.
Defined.

(** [func(o *CocoonSet) { o.Status.Agents[0].Phase = "Running" }] *)
Definition set_running : Mutator (cell := cell) (T := CocoonSet) := fun p =>
  match p with
  | Some r =>
      x ← load r;
      match ct_Agents (set_Status x) with
      | Some w =>
          a ← load (elem w 0);
          assign (elem w 0) {| at_Slot := at_Slot a; at_Role := at_Role a; at_PodName := at_PodName a;
            at_VMName := at_VMName a; at_VMID := at_VMID a; at_IP := at_IP a; at_Phase := "Running";
            at_ForkedFrom := at_ForkedFrom a |}
      | None => fun s => None
      end
  | None => fun s => None
  end.

Definition running : AgentStatus :=
  {| at_Slot := 0; at_Role := "main"; at_PodName := "demo-0"; at_VMName := ""; at_VMID := ""; at_IP := "";
     at_Phase := "Running"; at_ForkedFrom := "" |}.

Definition value_in (s : store) : value :=
  match read_ptr demo s with Some (VRef v, _) => v | _ => VNil end.
Definition running_store : store := <[5%positive := CellAgentStatus [running]]> demo_store.

Lemma set_running_makes : makes set_running demo demo_store (value_in running_store).
Proof.
  intros s1 Hs.
  assert (load_array (T := CocoonSet) 1 s1 = Some ([demo_set], s1)) as H1 by (eapply load_array_sub; [|exact Hs]; reflexivity).
  assert (exists a, load_array (T := AgentStatus) 5 s1 = Some ([a], s1) /\ at_Slot a = 0%Z /\ at_Role a = "main"
            /\ at_PodName a = "demo-0" /\ at_VMName a = "" /\ at_VMID a = "" /\ at_IP a = "" /\ at_ForkedFrom a = "")
    as (a & H5 & ? & ? & ? & ? & ? & ? & ?).
  { eexists. split; [eapply load_array_sub; [|exact Hs]; reflexivity|]. by split_and!. }
  exists (<[5%positive := CellAgentStatus [running]]> s1).
  assert (running_store ⊆ <[5%positive := CellAgentStatus [running]]> s1) as Hs' by by apply insert_mono.
  destruct (read_ptr demo running_store) as [[v fp]|] eqn:E; [|vm_compute in E; discriminate E].
  exists fp. split_and!.
  - cbn [set_running demo]. rewrite (mem_bind_Some _ _ _ _ _ (load_Some (Ref 1 0) _ demo_set _ H1 eq_refl)).
    cbn [demo_set set_Status ct_Agents]. rewrite (mem_bind_Some _ _ _ _ _ (load_Some (Ref 5 0) _ a _ H5 eq_refl)).
    rewrite (assign_Some (Ref 5 0) [a] _ s1 H5 (Nat.lt_0_succ 0)). destruct a. cbn in *. by subst.
  - eapply Framed_mono; [apply Framed_ptr| |exact Hs']. rewrite E. unfold value_in. rewrite E.
    vm_compute in E. by injection E as <- <-.
  - intros l Hl _. rewrite lookup_insert_ne; [done|]. intros <-. apply Hl. by apply elem_of_dom.
Qed.

(** Only what changed is sent, as a patch of the status. *)
Lemma Patch_sends_change_witness :
  exists r s', PatchStatus demo set_running ([] : list request) demo_store =
    Some ((r, [{| rq_subresource := "status"; rq_body := JObj [("status", JObj [("agents",
      JArr [JObj [("slot", JNum "0"); ("role", JStr "main"); ("podName", JStr "demo-0"); ("phase", JStr "Running")]])])] |}]), s').
Proof.
  destruct (read_ptr demo demo_store) as [[v fp]|] eqn:E; [|exfalso; vm_compute in E; discriminate E].
  assert (v = VRef (value_in demo_store)) as -> by (vm_compute in E; injection E as <- _; reflexivity).
  destruct (proj2 (Patch_sends_change demo set_running demo_store ([] : list request) _ fp _ E set_running_makes)) as (r & w' & s' & Hr & Hw).
  exists r, s'. rewrite Hr. cbn [requests sample_client_ok] in Hw. rewrite Hw.
  vm_compute. reflexivity.
Defined.

End PatchSample.
