(* ===== verification/Ctx.v ===== *)
(** * Ctx: waiting on a context (k8s/ctx.go)

    [RunTicker] and [SleepCtx] as step relations: the goroutine that runs
    them, the clock that fires the ticker or the timer, and whoever cancels
    the context, interleaved in any way.  A select whose two cases are ready
    takes either.  A ticker's channel holds one tick; one that finds it full
    is dropped. *)

From Stdlib Require Import ZArith Lia Ascii String.
From stdpp Require Import base list relations.
From S2P Require Import Prelude.

Local Open Scope string_scope.

(** ** RunTicker *)

(** Where the goroutine is: in the select, in [fn], or gone. *)
Inductive rt_pc := Selecting | InFn | Returned.

Record rt_state := {
  rt_at : rt_pc;
  rt_done : bool;    (** the context is done *)
  rt_chan : bool;    (** a tick is in the channel *)
  rt_stopped : bool; (** the ticker is stopped *)
  rt_ticks : nat;    (** ticks of the clock *)
  rt_calls : nat     (** calls of [fn] *)
}.

(** Up to the loop; [time.NewTicker] panics on an interval that is not positive. *)
Definition RunTicker_start (interval : Z) (ctx_done : bool) : result rt_state :=
  if (interval <=? 0)%Z then Panic "non-positive interval for NewTicker"
  else Ok {| rt_at := Selecting; rt_done := ctx_done; rt_chan := false; rt_stopped := false; rt_ticks := 0; rt_calls := 0 |}.

Inductive rt_step : rt_state -> rt_state -> Prop :=
  (** the clock *)
  | rt_tick s : rt_stopped s = false ->
      rt_step s {| rt_at := rt_at s; rt_done := rt_done s; rt_chan := true; rt_stopped := false;
                   rt_ticks := S (rt_ticks s); rt_calls := rt_calls s |}
  (** the context *)
  | rt_cancel s : rt_done s = false ->
      rt_step s {| rt_at := rt_at s; rt_done := true; rt_chan := rt_chan s; rt_stopped := rt_stopped s;
                   rt_ticks := rt_ticks s; rt_calls := rt_calls s |}
  (** [case <-ctx.Done(): return], with the deferred [ticker.Stop()] *)
  | rt_return s : rt_at s = Selecting -> rt_done s = true ->
      rt_step s {| rt_at := Returned; rt_done := true; rt_chan := rt_chan s; rt_stopped := true;
                   rt_ticks := rt_ticks s; rt_calls := rt_calls s |}
  (** [case <-ticker.C: fn(ctx)] *)
  | rt_call s : rt_at s = Selecting -> rt_chan s = true ->
      rt_step s {| rt_at := InFn; rt_done := rt_done s; rt_chan := false; rt_stopped := rt_stopped s;
                   rt_ticks := rt_ticks s; rt_calls := S (rt_calls s) |}
  (** [fn] returns *)
  | rt_back s : rt_at s = InFn ->
      rt_step s {| rt_at := Selecting; rt_done := rt_done s; rt_chan := rt_chan s; rt_stopped := rt_stopped s;
                   rt_ticks := rt_ticks s; rt_calls := rt_calls s |}.

(** A call takes a tick; the goroutine is gone exactly when the ticker is
    stopped, which needs the context to be done. *)
Definition rt_inv (s : rt_state) : Prop :=
  rt_calls s + (if rt_chan s then 1 else 0) <= rt_ticks s
  /\ (rt_at s = Returned <-> rt_stopped s = true)
  /\ (rt_at s = Returned -> rt_done s = true).

Lemma rt_inv_step s s' : rt_inv s -> rt_step s s' -> rt_inv s'.
Proof.
  intros (Hc & Hs & Hr) Hst. destruct Hst; unfold rt_inv; cbn; (split; [|split]); try tauto; try congruence;
    try (destruct (rt_chan s); lia); try (rewrite H0 in Hc; lia); try (split; intros; congruence);
    rewrite <- Hs, H; split; discriminate.
Qed.

(** What the goroutine can do next, the clock and the context apart. *)
Definition rt_own (s s' : rt_state) : Prop :=
  rt_step s s' /\ (rt_at s' <> rt_at s).

Lemma rt_own_cases s s' :
  rt_own s s' <->
    (rt_at s = Selecting /\ rt_done s = true /\ s' = {| rt_at := Returned; rt_done := true; rt_chan := rt_chan s;
       rt_stopped := true; rt_ticks := rt_ticks s; rt_calls := rt_calls s |})
    \/ (rt_at s = Selecting /\ rt_chan s = true /\ s' = {| rt_at := InFn; rt_done := rt_done s; rt_chan := false;
          rt_stopped := rt_stopped s; rt_ticks := rt_ticks s; rt_calls := S (rt_calls s) |})
    \/ (rt_at s = InFn /\ s' = {| rt_at := Selecting; rt_done := rt_done s; rt_chan := rt_chan s;
          rt_stopped := rt_stopped s; rt_ticks := rt_ticks s; rt_calls := rt_calls s |}).
Proof.
  split.
  - intros [Hst Hne]. destruct Hst; cbn in Hne; try done; tauto.
  - intros [(Ha & Hd & ->)|[(Ha & Hc & ->)|(Ha & ->)]]; (split; [|cbn; congruence]); by constructor.
Qed.

(** C32: [RunTicker] calls [fn] at most once a tick and one call at a time,
    returns only when the context is done, and then has stopped its ticker
    and never calls [fn] again; with the context done it can always return
    from the select, and with no tick waiting it does nothing else; but with
    a tick waiting it may still call [fn]. *)
Theorem RunTicker_orderly interval s0 s :
  RunTicker_start interval false = Ok s0 -> rtc rt_step s0 s ->
  rt_calls s <= rt_ticks s
  /\ (rt_at s = Returned -> rt_done s = true /\ rt_stopped s = true /\ forall s', rtc rt_step s s' -> rt_calls s' = rt_calls s)
  /\ (rt_at s = Selecting -> rt_done s = true ->
       (exists s', rt_own s s' /\ rt_at s' = Returned)
       /\ (rt_chan s = false -> forall s', rt_own s s' -> rt_at s' = Returned)
       /\ (rt_chan s = true -> exists s', rt_own s s' /\ rt_calls s' = S (rt_calls s))).
Proof.
  intros Hst Hr. unfold RunTicker_start in Hst. destruct (interval <=? 0)%Z; [done|]. injection Hst as <-.
  assert (rt_inv s) as (Hc & Hs & Hd).
  { eapply (inv_rtc rt_step rt_inv rt_inv_step); [|exact Hr]. repeat split; cbn; (lia || discriminate). }
  split; [destruct (rt_chan s); lia|]. split.
  - intros Ha. split_and!; [by apply Hd|by apply Hs|]. intros s' Hr'.
    assert (rt_at s' = Returned /\ rt_calls s' = rt_calls s) as [_ ?]; [|done].
    eapply (inv_rtc rt_step (fun x => rt_at x = Returned /\ rt_calls x = rt_calls s)); [|split; [exact Ha|done]|exact Hr'].
    intros x x' [Hx1 Hx2] Hst. destruct Hst; cbn; split; congruence.
  - intros Ha Hdone. setoid_rewrite rt_own_cases. split_and!.
    + eexists. split; [by left|done].
    + intros Hch s' [(_ & _ & ->)|[(_ & ? & _)|(? & _)]]; [done|congruence..].
    + intros Hch. eexists. split; [right; by left|done].
Qed.

(** A tick, a cancellation, and a call made after it. *)
Definition late_state : rt_state :=
  {| rt_at := Selecting; rt_done := true; rt_chan := true; rt_stopped := false; rt_ticks := 1; rt_calls := 0 |}.

Lemma late_reachable interval s0 : RunTicker_start interval false = Ok s0 -> rtc rt_step s0 late_state.
Proof.
  unfold RunTicker_start. destruct (interval <=? 0)%Z; [done|]. intros [= <-].
  eapply rtc_l; [by apply rt_tick|]. eapply rtc_l; [by apply rt_cancel|]. constructor.
Qed.

Lemma RunTicker_orderly_witness :
  exists s0 s', RunTicker_start 1000000000 false = Ok s0 /\ rtc rt_step s0 late_state
    /\ rt_done late_state = true /\ rt_own late_state s' /\ rt_calls s' = S (rt_calls late_state).
Proof.
  destruct (RunTicker_start 1000000000 false) as [s0| |] eqn:E; [|discriminate E..].
  pose proof (late_reachable _ _ E) as Hr.
  destruct (RunTicker_orderly _ s0 late_state E Hr) as (_ & _ & Hl).
  destruct (Hl eq_refl eq_refl) as (_ & _ & Hcall). destruct (Hcall eq_refl) as (s' & Hown & Hc).
  by exists s0, s'.
Defined.

(** ** SleepCtx *)

Record sl_state := {
  sl_done : bool;          (** the context is done *)
  sl_fired : bool;         (** the timer has fired *)
  sl_result : option bool  (** what has been returned *)
}.

(** [if d <= 0 { return ctx.Err() == nil }] *)
Definition SleepCtx_start (d : Z) (ctx_done : bool) : sl_state :=
  if (d <=? 0)%Z then {| sl_done := ctx_done; sl_fired := false; sl_result := Some (negb ctx_done) |}
  else {| sl_done := ctx_done; sl_fired := false; sl_result := None |}.

Inductive sl_step : sl_state -> sl_state -> Prop :=
  | sl_fire s : sl_step s {| sl_done := sl_done s; sl_fired := true; sl_result := sl_result s |}
  | sl_cancel s : sl_step s {| sl_done := true; sl_fired := sl_fired s; sl_result := sl_result s |}
  | sl_ctx s : sl_result s = None -> sl_done s = true ->
      sl_step s {| sl_done := true; sl_fired := sl_fired s; sl_result := Some false |}
  | sl_timer s : sl_result s = None -> sl_fired s = true ->
      sl_step s {| sl_done := sl_done s; sl_fired := true; sl_result := Some true |}.

(** A sleep returns false only when the context is done, true only when the
    time has passed (or there was none to pass and the context was alive), and
    cannot be stuck once either has happened. *)
Lemma SleepCtx_cases d ctx_done s :
  rtc sl_step (SleepCtx_start d ctx_done) s ->
  (sl_result s = Some false -> sl_done s = true)
  /\ (sl_result s = Some true -> sl_fired s = true \/ (d <= 0)%Z /\ ctx_done = false)
  /\ (sl_result s = None -> (0 < d)%Z /\ (sl_done s || sl_fired s = true -> exists s', sl_step s s' /\ sl_result s' <> None)).
Proof.
  intros Hr.
  assert ((sl_result s = Some false -> sl_done s = true)
          /\ (sl_result s = Some true -> sl_fired s = true \/ (d <= 0)%Z /\ ctx_done = false)
          /\ (sl_result s = None -> (0 < d)%Z)) as (H1 & H2 & H3).
  { revert Hr. eapply (inv_rtc sl_step (fun s => (sl_result s = Some false -> sl_done s = true)
          /\ (sl_result s = Some true -> sl_fired s = true \/ (d <= 0)%Z /\ ctx_done = false)
          /\ (sl_result s = None -> (0 < d)%Z))).
    - intros x x' (H1 & H2 & H3) Hst. destruct Hst; cbn; (split; [|split]); auto; discriminate.
    - unfold SleepCtx_start. destruct (Z.leb_spec d 0), ctx_done; cbn; (split; [|split]); auto; discriminate. }
  split_and!; [done..|]. intros Hn. split; [by apply H3|]. intros Hor.
  destruct (sl_done s) eqn:Ed.
  - eexists. split; [by apply sl_ctx|done].
  - cbn in Hor. eexists. split; [by apply sl_timer|done].
Qed.
