(* ===== verification/Clients.v ===== *)
(** * Clients: client configuration (k8s/config.go, k8s/clientset.go)

    The environment's overrides of the client's rate limits, and how the
    errors of client-go come out.  client-go is the class [ClientGo]: a
    configuration is what it found, with the two limits this module sets. *)

From Stdlib Require Import ZArith Lia Ascii String.
From stdpp Require Import base gmap strings list.
From S2P Require Import Prelude GoStrings Json Manifest K8s.

Local Open Scope string_scope.

Definition defaultClientQPS : Z := 50.
Definition defaultClientBurst : Z := 100.

(** [float32(n)] of an [int], an integer itself: 24 significant bits, to
    nearest, ties to even. *)
Definition float32_nonneg (n : Z) : Z :=
  (let e := Z.max 0 (Z.log2 n - 23) in
   let m := Z.shiftr n e in
   let r := n - Z.shiftl m e in
   let ulp := Z.shiftl 1 e in
   let m' := if (ulp <? 2 * r) || ((ulp =? 2 * r) && Z.odd m) then m + 1 else m in
   Z.shiftl m' e)%Z.
Definition float32_of_int (n : Z) : Z := if (n <? 0)%Z then (- float32_nonneg (- n))%Z else float32_nonneg n.

(** client-go: [clientcmd]'s deferred loader with the default rules, the
    constructors of the clients, and the parts of a [rest.Config]. *)
Class ClientGo := {
  rest_config : Type;
  clientset : Type;
  dynamic_client : Type;
  ClientConfig : result rest_config;
  set_QPS : Z -> rest_config -> rest_config;
  set_Burst : Z -> rest_config -> rest_config;
  kubernetes_NewForConfig : rest_config -> result clientset;
  dynamic_NewForConfig : rest_config -> result dynamic_client
}.

Section clients.
Context `{!ClientGo}.
Variable Getenv : string -> string.

Definition LoadConfig : result rest_config :=
  cfg ← ClientConfig;
  let cfg := set_QPS (float32_of_int (EnvInt Getenv "COCOON_K8S_QPS" defaultClientQPS)) cfg in
  let cfg := set_Burst (EnvInt Getenv "COCOON_K8S_BURST" defaultClientBurst) cfg in
  Ok cfg.

Definition buildClientset (cfg : rest_config) : result clientset :=
  wrap "build clientset" (kubernetes_NewForConfig cfg).

Definition NewClientset : result clientset :=
  cfg ← wrap "load kubeconfig" LoadConfig;
  buildClientset cfg.

Definition NewClientsetAndDynamic : result (clientset * dynamic_client) :=
  cfg ← wrap "load kubeconfig" LoadConfig;
  cs ← buildClientset cfg;
  dyn ← wrap "build dynamic client" (dynamic_NewForConfig cfg);
  Ok (cs, dyn).

(** An integer a [float32] can hold is kept. *)
Lemma float32_exact n : (Z.abs n < 2 ^ 24)%Z -> float32_of_int n = n.
Proof.
  assert (forall m, (0 <= m < 2 ^ 24)%Z -> float32_nonneg m = m) as Hpos.
  { intros m Hm. unfold float32_nonneg.
    assert (Z.max 0 (Z.log2 m - 23) = 0)%Z as ->.
    { destruct (Z.eq_dec m 0%Z) as [->|]; [done|]. assert (Z.log2 m < 24)%Z by (apply Z.log2_lt_pow2; lia). lia. }
    rewrite !Z.shiftr_0_r, !Z.shiftl_0_r, Z.sub_diag. done. }
  unfold float32_of_int. intros Hn. destruct (Z.ltb_spec n 0); rewrite Hpos; lia.
Qed.

(** Rounding moves a number by at most half a unit of its last place. *)
Lemma float32_error n : (0 <= n)%Z ->
  (2 * Z.abs (float32_nonneg n - n) <= 2 ^ Z.max 0 (Z.log2 n - 23))%Z.
Proof.
  intros Hn. unfold float32_nonneg. set (e := Z.max 0 (Z.log2 n - 23)).
  rewrite Z.shiftr_div_pow2, !Z.shiftl_mul_pow2 by lia.
  pose proof (Z.pow_pos_nonneg 2 e ltac:(lia) ltac:(lia)).
  pose proof (Z.div_mod n (2 ^ e) ltac:(lia)). pose proof (Z.mod_pos_bound n (2 ^ e) ltac:(lia)).
  set (m := (n / 2 ^ e)%Z) in *. set (p := (2 ^ e)%Z) in *. set (r := (n mod p)%Z) in *.
  replace (n - m * p)%Z with r by lia. rewrite Z.mul_1_l.
  destruct (Z.ltb_spec p (2 * r)); cbn [orb]; [|destruct (Z.eqb_spec p (2 * r)), (Z.odd m); cbn [andb]]; lia.
Qed.

(** The limits are the environment's where it gives integers, the defaults
    elsewhere; a configuration that cannot be found is reported as it is, and
    by the constructors under one prefix that keeps the cause. *)
Lemma clients_report :
  (forall cfg, ClientConfig = Ok cfg ->
    LoadConfig = Ok (set_Burst (EnvInt Getenv "COCOON_K8S_BURST" 100)
                      (set_QPS (float32_of_int (EnvInt Getenv "COCOON_K8S_QPS" 50)) cfg)))
  /\ (forall e, ClientConfig = Err e ->
       LoadConfig = Err e /\ NewClientset = Err (Ewrap "load kubeconfig" e)
       /\ NewClientsetAndDynamic = Err (Ewrap "load kubeconfig" e))
  /\ (forall cs dyn, NewClientsetAndDynamic = Ok (cs, dyn) ->
       NewClientset = Ok cs /\ exists cfg, LoadConfig = Ok cfg /\ dynamic_NewForConfig cfg = Ok dyn).
Proof.
  split_and!.
  - intros cfg E. unfold LoadConfig. by rewrite E.
  - intros e E. unfold NewClientset, NewClientsetAndDynamic, LoadConfig. by rewrite E.
  - intros cs dyn E. unfold NewClientsetAndDynamic in E. apply bind_Ok in E as (cfg & Ecfg & E).
    apply bind_Ok in E as (cs' & Ecs & E). apply bind_Ok in E as (dyn' & Edyn & [= <- <-]).
    unfold NewClientset. rewrite Ecfg. cbn [mbind result_bind]. apply wrap_Ok in Ecfg, Edyn. eauto.
Qed.

End clients.
