(* ===== verification/Setup.v ===== *)
(** * Setup: what a program calls once when it starts

    log/log.go, the logger's configuration from the environment and the
    terminal, and apis/v1/groupversion_info.go, the registration of the CRD
    types.  The logger is the function [SetupLog], a [runtime.Scheme] the class
    [Scheme] with what the registration relies on, [SchemeOk]. *)

From Stdlib Require Import ZArith Lia Ascii String.
From stdpp Require Import base gmap strings list.
From S2P Require Import Prelude GoStrings.

Local Open Scope string_scope.

(** ** log.go *)

(** The fields set in a [types.ServerLogConfig]. *)
Record ServerLogConfig := { Level : string; UseJSON : bool }.

Section log.
Variable Getenv : string -> string.
(** The mode of stderr, or an error. *)
Variable Stderr_Stat : result Z.
Variable SetupLog : ServerLogConfig -> string -> option error.

(** [os.ModeCharDevice] *)
Definition ModeCharDevice : Z := Z.shiftl 1 21.

Definition stderrIsTerminal : bool :=
  match Stderr_Stat with Ok mode => negb (Z.land mode ModeCharDevice =? 0)%Z | _ => false end.

(** [Setup]: its error. *)
Definition Setup (envVar : string) : option error :=
  let level := cmpOr (Getenv envVar) "info" in
  Ewrap "setup log" <$> SetupLog {| Level := level; UseJSON := negb stderrIsTerminal |} "".

End log.

(** Logs are text on a terminal, JSON in a file or when stderr is closed. *)
Example log_on_terminal :
  let setup stat := Setup (fun _ => "") stat (fun c _ => Some (Enew (Level c +:+ (if UseJSON c then " json" else " text")))) "LOG" in
  setup (Ok (Z.lor ModeCharDevice 438)) = Some (Ewrap "setup log" (Enew "info text"))
  /\ setup (Ok 420%Z) = Some (Ewrap "setup log" (Enew "info json"))
  /\ setup (Err (Enew "closed")) = Some (Ewrap "setup log" (Enew "info json")).
Proof. vm_compute. by split_and!. Qed.

(** ** groupversion_info.go *)

Record GroupVersion := { Group : string; Version : string }.

Definition cocoonset_v1 : GroupVersion := {| Group := "cocoonset.cocoonstack.io"; Version := "v1" |}.

(** A [runtime.Scheme]: the types it knows by kind, [metav1]'s own included. *)
Class Scheme (T : Type) := {
  AddKnownTypes : GroupVersion -> list string -> T -> T;
  AddToGroupVersion : GroupVersion -> T -> T;
  Recognizes : GroupVersion -> string -> T -> Prop
}.

Class SchemeOk (T : Type) `{Scheme T} := {
  known_added gv kinds k s : k ∈ kinds -> Recognizes gv k (AddKnownTypes gv kinds s);
  known_kept gv gv' kinds k s : Recognizes gv' k s -> Recognizes gv' k (AddKnownTypes gv kinds s);
  version_kept gv gv' k s : Recognizes gv' k s -> Recognizes gv' k (AddToGroupVersion gv s)
}.

Section scheme.
Context {T : Type} `{SchemeOk T}.

Definition addKnownTypes (s : T) : option error * T :=
  let s := AddKnownTypes cocoonset_v1 ["CocoonSet"; "CocoonSetList"; "CocoonHibernation"; "CocoonHibernationList"] s in
  (None, AddToGroupVersion cocoonset_v1 s).

(** [runtime.SchemeBuilder]: functions run in order up to the first error. *)
Fixpoint SchemeBuilder_AddToScheme (fs : list (T -> option error * T)) (s : T) : option error * T :=
  match fs with
  | [] => (None, s)
  | f :: fs' => match f s with (Some e, s') => (Some e, s') | (None, s') => SchemeBuilder_AddToScheme fs' s' end
  end.

Definition SchemeBuilder : list (T -> option error * T) := [addKnownTypes].
Definition AddToScheme : T -> option error * T := SchemeBuilder_AddToScheme SchemeBuilder.

(** After [AddToScheme] the scheme knows every root type of the group, and
    what it knew before. *)
Lemma AddToScheme_registers s :
  (AddToScheme s).1 = None
  /\ Forall (fun k => Recognizes cocoonset_v1 k (AddToScheme s).2)
       ["CocoonSet"; "CocoonSetList"; "CocoonHibernation"; "CocoonHibernationList"]
  /\ forall gv k, Recognizes gv k s -> Recognizes gv k (AddToScheme s).2.
Proof.
  unfold AddToScheme, SchemeBuilder, SchemeBuilder_AddToScheme, addKnownTypes. cbn [fst snd]. split_and!; [done| |].
  - apply Forall_forall. intros k Hk. by apply version_kept, known_added.
  - intros gv k Hk. by apply version_kept, known_kept.
Qed.

End scheme.
