(* ===== verification/Meta.v ===== *)
(** * Meta: annotation keys and contracts (meta/)

    The keys of keys.go, the typed contracts the components exchange through
    pod annotations (VMSpec, VMRuntime, LifecycleStatus, HibernateState,
    SnapshotStatus) with their writers and readers, and the pod, owner and
    connection helpers.  Of a pod only the fields the package reads are kept. *)

From Stdlib Require Import ZArith Lia Ascii String.
From stdpp Require Import base gmap strings list.
From S2P Require Import Prelude GoStrings Json Manifest Api.

Local Open Scope string_scope.

(** ** Keys *)

Definition KindCocoonSet := "CocoonSet".
Definition TolerationKey := "virtual-kubelet.io/provider".
Definition LabelCocoonSet := "cocoonset.cocoonstack.io/name".
Definition LabelRole := "cocoonset.cocoonstack.io/role".
Definition LabelSlot := "cocoonset.cocoonstack.io/slot".
Definition LabelNodePool := "cocoonstack.io/pool".
Definition DefaultNodePool := "default".
Definition LabelSnapshotCompatibilityClass := "cocoonstack.io/snapshot-cpu-class".
Definition AnnotationMode := "cocoonset.cocoonstack.io/mode".
Definition AnnotationImage := "cocoonset.cocoonstack.io/image".
Definition AnnotationStorage := "cocoonset.cocoonstack.io/storage".
Definition AnnotationManaged := "cocoonset.cocoonstack.io/managed".
Definition AnnotationOS := "cocoonset.cocoonstack.io/os".
Definition AnnotationSnapshotPolicy := "cocoonset.cocoonstack.io/snapshot-policy".
Definition AnnotationNetwork := "cocoonset.cocoonstack.io/network".
Definition AnnotationForcePull := "cocoonset.cocoonstack.io/force-pull".
Definition AnnotationCocoonSetGeneration := "cocoonset.cocoonstack.io/generation".
Definition AnnotationHibernatedOnNode := "cocoonset.cocoonstack.io/hibernated-on-node".
Definition AnnotationVMID := "vm.cocoonstack.io/id".
Definition AnnotationVMName := "vm.cocoonstack.io/name".
Definition AnnotationIP := "vm.cocoonstack.io/ip".
Definition AnnotationVNCPort := "vm.cocoonstack.io/vnc-port".
Definition AnnotationHibernate := "vm.cocoonstack.io/hibernate".
Definition AnnotationRestoreFromHibernate := "vm.cocoonstack.io/restore-from-hibernate".
Definition AnnotationKeepSnapshotOnDelete := "vm.cocoonstack.io/keep-snapshot-on-delete".
Definition AnnotationForkFrom := "vm.cocoonstack.io/fork-from".
Definition AnnotationCloneFromDir := "vm.cocoonstack.io/clone-from-dir".
Definition AnnotationConnType := "vm.cocoonstack.io/conn-type".
Definition AnnotationBackend := "vm.cocoonstack.io/backend".
Definition AnnotationNoDirectIO := "vm.cocoonstack.io/no-direct-io".
Definition AnnotationProbePort := "vm.cocoonstack.io/probe-port".
Definition AnnotationLifecycleState := "vm.cocoonstack.io/lifecycle-state".
Definition AnnotationLifecycleObservedGeneration := "vm.cocoonstack.io/lifecycle-observed-generation".
Definition AnnotationLifecycleStateMessage := "vm.cocoonstack.io/lifecycle-state-message".
Definition AnnotationSnapshotAnnotations := "vm.cocoonstack.io/snapshot-annotations".
Definition AnnotationSnapshotRequest := "vm.cocoonstack.io/snapshot".
Definition AnnotationSnapshotStatus := "vm.cocoonstack.io/snapshot-status".
Definition RoleMain := "main".
Definition RoleSubAgent := "sub-agent".
Definition RoleToolbox := "toolbox".
Definition HibernateSnapshotTag := "hibernate".
Definition DefaultSnapshotTag := "latest".
Definition annotationTrue := "true".

(** ** Pods *)

Record OwnerReference := { or_Kind : string; or_Name : string }.
Record Toleration := { tol_Key : string; tol_Operator : string; tol_Value : string; tol_Effect : string }.
Record PodCondition := { pc_Type : string; pc_Status : string }.

(** [p_Annotations]: [None] is the nil map.  [p_Running]: one Boolean per
    container status, [State.Running != nil]. *)
Record Pod := {
  p_Namespace : string;
  p_Labels : gmap string string;
  p_Annotations : option (gmap string string);
  p_OwnerReferences : list OwnerReference;
  p_NodeSelector : gmap string string;
  p_Conditions : list PodCondition;
  p_Phase : string;
  p_Running : list bool
}.

(** [&corev1.Pod{}] *)
Definition Pod_zero : Pod :=
  {| p_Namespace := ""; p_Labels := ∅; p_Annotations := None; p_OwnerReferences := []; p_NodeSelector := ∅;
     p_Conditions := []; p_Phase := ""; p_Running := [] |}.

Definition set_annotations (pod : Pod) (a : option (gmap string string)) : Pod :=
  {| p_Namespace := p_Namespace pod; p_Labels := p_Labels pod; p_Annotations := a;
     p_OwnerReferences := p_OwnerReferences pod; p_NodeSelector := p_NodeSelector pod;
     p_Conditions := p_Conditions pod; p_Phase := p_Phase pod; p_Running := p_Running pod |}.

(** [pod.Annotations[key]]: a nil map reads as empty. *)
Definition annotations (pod : Pod) : gmap string string := default ∅ (p_Annotations pod).
Definition annotation (pod : Pod) (key : string) : string := map_get (annotations pod) key.

(** The map [ensurePodAnnotations] returns is the pod's own: what is written
    to it is written to the pod. *)
Definition ensurePodAnnotations (pod : Pod) (write : gmap string string -> gmap string string) : Pod :=
  set_annotations pod (Some (write (annotations pod))).

Definition setIfNotEmpty (key value : string) (m : gmap string string) : gmap string string :=
  if String.eqb value "" then m else <[key := value]> m.

(** [if b { a[key] = annotationTrue }] *)
Definition set_if (key : string) (b : bool) (m : gmap string string) : gmap string string :=
  if b then <[key := annotationTrue]> m else m.

Definition formatPort (port : Z) : string := if (port <=? 0)%Z then "" else formatInt port.

Definition QuantityString (q : option string) : string := match q with None => "" | Some s => s end.

Definition readInt64Annotation (pod : Pod) (key : string) : Z :=
  let raw := annotation pod key in
  if String.eqb raw "" then 0%Z else match parseInt64 raw with Some n => n | None => 0%Z end.

(** ** VMSpec *)

Record VMSpec := {
  vs_VMName : string;
  vs_Image : string;
  vs_Mode : string;
  vs_OS : string;
  vs_Storage : string;
  vs_Network : string;
  vs_SnapshotPolicy : string;
  vs_ForkFrom : string;
  vs_Managed : bool;
  vs_ForcePull : bool;
  vs_NoDirectIO : bool;
  vs_ConnType : string;
  vs_Backend : string;
  vs_ProbePort : string
}.

Definition VMSpec_Apply (s : VMSpec) (pod : Pod) : Pod :=
  ensurePodAnnotations pod (fun a =>
    let a := setIfNotEmpty AnnotationVMName (vs_VMName s) a in
    let a := setIfNotEmpty AnnotationImage (vs_Image s) a in
    let a := setIfNotEmpty AnnotationMode (vs_Mode s) a in
    let a := setIfNotEmpty AnnotationOS (vs_OS s) a in
    let a := setIfNotEmpty AnnotationStorage (vs_Storage s) a in
    let a := setIfNotEmpty AnnotationNetwork (vs_Network s) a in
    let a := setIfNotEmpty AnnotationSnapshotPolicy (vs_SnapshotPolicy s) a in
    let a := setIfNotEmpty AnnotationForkFrom (vs_ForkFrom s) a in
    let a := setIfNotEmpty AnnotationConnType (vs_ConnType s) a in
    let a := setIfNotEmpty AnnotationBackend (vs_Backend s) a in
    let a := set_if AnnotationManaged (vs_Managed s) a in
    let a := set_if AnnotationForcePull (vs_ForcePull s) a in
    let a := set_if AnnotationNoDirectIO (vs_NoDirectIO s) a in
    setIfNotEmpty AnnotationProbePort (vs_ProbePort s) a).

Definition ParseVMSpec (pod : Pod) : VMSpec :=
  let a := annotations pod in
  {| vs_VMName := map_get a AnnotationVMName;
     vs_Image := map_get a AnnotationImage;
     vs_Mode := map_get a AnnotationMode;
     vs_OS := map_get a AnnotationOS;
     vs_Storage := map_get a AnnotationStorage;
     vs_Network := map_get a AnnotationNetwork;
     vs_SnapshotPolicy := map_get a AnnotationSnapshotPolicy;
     vs_ForkFrom := map_get a AnnotationForkFrom;
     vs_Managed := String.eqb (map_get a AnnotationManaged) annotationTrue;
     vs_ForcePull := String.eqb (map_get a AnnotationForcePull) annotationTrue;
     vs_NoDirectIO := String.eqb (map_get a AnnotationNoDirectIO) annotationTrue;
     vs_ConnType := map_get a AnnotationConnType;
     vs_Backend := map_get a AnnotationBackend;
     vs_ProbePort := map_get a AnnotationProbePort |}.

Definition fromVMOptions (o : VMOptions) (vmName image mode : string) (snapshotPolicy : SnapshotPolicy) : VMSpec :=
  {| vs_VMName := vmName;
     vs_Image := image;
     vs_Mode := mode;
     vs_OS := OSType_Default (vo_OS o);
     vs_Storage := QuantityString (vo_Storage o);
     vs_Network := vo_Network o;
     vs_SnapshotPolicy := SnapshotPolicy_Default snapshotPolicy;
     vs_ForkFrom := "";
     vs_Managed := false;
     vs_ForcePull := vo_ForcePull o;
     vs_NoDirectIO := vo_NoDirectIO o;
     vs_ConnType := vo_ConnType o;
     vs_Backend := Backend_Default (vo_Backend o);
     vs_ProbePort := formatPort (vo_ProbePort o) |}.

(** [s.ForkFrom = forkFrom; s.Managed = managed] *)
Definition set_fork_managed (s : VMSpec) (forkFrom : string) (managed : bool) : VMSpec :=
  {| vs_VMName := vs_VMName s; vs_Image := vs_Image s; vs_Mode := vs_Mode s; vs_OS := vs_OS s;
     vs_Storage := vs_Storage s; vs_Network := vs_Network s; vs_SnapshotPolicy := vs_SnapshotPolicy s;
     vs_ForkFrom := forkFrom; vs_Managed := managed; vs_ForcePull := vs_ForcePull s;
     vs_NoDirectIO := vs_NoDirectIO s; vs_ConnType := vs_ConnType s; vs_Backend := vs_Backend s;
     vs_ProbePort := vs_ProbePort s |}.

Definition FromAgentSpec (spec : AgentSpec) (vmName : string) (snapshotPolicy : SnapshotPolicy) (forkFrom : string) : VMSpec :=
  let s := fromVMOptions (as_VMOptions spec) vmName (as_Image spec) (AgentMode_Default (as_Mode spec)) snapshotPolicy in
  set_fork_managed s forkFrom true.

Definition FromToolboxSpec (spec : ToolboxSpec) (vmName : string) (snapshotPolicy : SnapshotPolicy) : VMSpec :=
  let s := fromVMOptions (ts_VMOptions spec) vmName (ts_Image spec) (ToolboxMode_Default (ts_Mode spec)) snapshotPolicy in
  set_fork_managed s (vs_ForkFrom s) (negb (String.eqb (ts_Mode spec) ToolboxModeStatic)).

Definition ShouldSnapshotVM (spec : VMSpec) (role : string) : bool :=
  let p := SnapshotPolicy_Default (vs_SnapshotPolicy spec) in
  if String.eqb p SnapshotPolicyNever then false
  else if String.eqb p SnapshotPolicyMainOnly then String.eqb role RoleMain
  else true.

(** ** VMRuntime *)

Record VMRuntime := { vr_VMID : string; vr_IP : string; vr_VNCPort : Z }.

Definition VMRuntime_Apply (r : VMRuntime) (pod : Pod) : Pod :=
  ensurePodAnnotations pod (fun a =>
    let a := setIfNotEmpty AnnotationVMID (vr_VMID r) a in
    let a := setIfNotEmpty AnnotationIP (vr_IP r) a in
    setIfNotEmpty AnnotationVNCPort (formatPort (vr_VNCPort r)) a).

Definition ParseVMRuntime (pod : Pod) : VMRuntime :=
  let a := annotations pod in
  let v := map_get a AnnotationVNCPort in
  {| vr_VMID := map_get a AnnotationVMID;
     vr_IP := map_get a AnnotationIP;
     vr_VNCPort := if String.eqb v "" then 0%Z else match parseInt32 v with Some n => n | None => 0%Z end |}.

(** ** Hibernation flags *)

Abbreviation HibernateState := bool.

Definition HibernateState_Apply (s : HibernateState) (pod : Pod) : Pod :=
  if s then ensurePodAnnotations pod (fun a => <[AnnotationHibernate := annotationTrue]> a)
  else set_annotations pod (delete AnnotationHibernate <$> p_Annotations pod).

Definition ReadHibernateState (pod : Pod) : HibernateState :=
  String.eqb (annotation pod AnnotationHibernate) annotationTrue.

Definition ReadRestoreFromHibernate (pod : Pod) : bool :=
  String.eqb (annotation pod AnnotationRestoreFromHibernate) annotationTrue.

Definition MarkRestoreFromHibernate (pod : Pod) : Pod :=
  ensurePodAnnotations pod (fun a => <[AnnotationRestoreFromHibernate := annotationTrue]> a).

Definition ReadKeepSnapshotOnDelete (pod : Pod) : bool :=
  String.eqb (annotation pod AnnotationKeepSnapshotOnDelete) annotationTrue.

Definition MarkKeepSnapshotOnDelete (pod : Pod) : Pod :=
  ensurePodAnnotations pod (fun a => <[AnnotationKeepSnapshotOnDelete := annotationTrue]> a).

(** ** Lifecycle *)

Abbreviation LifecycleState := string.
Definition LifecycleStateCreating : LifecycleState := "creating".
Definition LifecycleStateReady : LifecycleState := "ready".
Definition LifecycleStateHibernating : LifecycleState := "hibernating".
Definition LifecycleStateHibernated : LifecycleState := "hibernated".
Definition LifecycleStateFailed : LifecycleState := "failed".

Record LifecycleStatus := {
  ls_State : LifecycleState;
  ls_ObservedGeneration : Z;
  ls_Message : string
}.

(** A [map[string]any] of strings and nils is a map of JSON values. *)
Definition LifecycleStatus_Annotations (s : LifecycleStatus) : gmap string json :=
  <[AnnotationLifecycleStateMessage := if String.eqb (ls_Message s) "" then JNull else JStr (ls_Message s)]>
    (<[AnnotationLifecycleState := JStr (ls_State s)]>
      {[ AnnotationLifecycleObservedGeneration := JStr (formatInt (ls_ObservedGeneration s)) ]}).

Definition LifecycleStatus_Apply (s : LifecycleStatus) (pod : Pod) : Pod :=
  ensurePodAnnotations pod (fun a =>
    let a := <[AnnotationLifecycleState := ls_State s]> a in
    let a := <[AnnotationLifecycleObservedGeneration := formatInt (ls_ObservedGeneration s)]> a in
    if String.eqb (ls_Message s) "" then delete AnnotationLifecycleStateMessage a
    else <[AnnotationLifecycleStateMessage := ls_Message s]> a).

Definition NUL : ascii := "000".
Definition LifecycleStatus_Snapshot (s : LifecycleStatus) : string :=
  ls_State s +:+ String NUL (formatInt (ls_ObservedGeneration s) +:+ String NUL (ls_Message s)).

Definition ReadLifecycleObservedGeneration (pod : Pod) : Z :=
  readInt64Annotation pod AnnotationLifecycleObservedGeneration.

Definition ReadLifecycleState (pod : Pod) : LifecycleState := annotation pod AnnotationLifecycleState.

Definition ReadLifecycleStatus (pod : Pod) : LifecycleStatus :=
  {| ls_State := annotation pod AnnotationLifecycleState;
     ls_ObservedGeneration := ReadLifecycleObservedGeneration pod;
     ls_Message := annotation pod AnnotationLifecycleStateMessage |}.

Definition ReadCocoonSetGeneration (pod : Pod) : Z := readInt64Annotation pod AnnotationCocoonSetGeneration.

Definition StampCocoonSetGeneration (pod : Pod) (generation : Z) : Pod :=
  ensurePodAnnotations pod (fun a => <[AnnotationCocoonSetGeneration := formatInt generation]> a).

(** ** Snapshot contract *)

Abbreviation SnapshotState := string.
Definition SnapshotStatePushed : SnapshotState := "pushed".
Definition SnapshotStateFailed : SnapshotState := "failed".
Definition reservedSnapshotAnnotationPrefix := "cocoonstack.".

Record SnapshotStatus := { ss_Ref : string; ss_State : SnapshotState; ss_Message : string }.

Definition SnapshotStatus_fields (s : SnapshotStatus) : list (string * option json) :=
  [ ("ref", e_str (ss_Ref s)); ("state", e_str (ss_State s)); ("message", o_str (ss_Message s)) ].
Definition SnapshotStatus_json (s : SnapshotStatus) : json := obj (SnapshotStatus_fields s).

Definition SnapshotStatus_unmarshal (j : json) : result SnapshotStatus :=
  l ← u_obj j;
  rf ← u_str (get_member "ref" l);
  st ← u_str (get_member "state" l);
  ms ← u_str (get_member "message" l);
  Ok {| ss_Ref := rf; ss_State := st; ss_Message := ms |}.

Definition SnapshotStatus_zero : SnapshotStatus := {| ss_Ref := ""; ss_State := ""; ss_Message := "" |}.

Definition SnapshotStatus_Annotations (s : SnapshotStatus) : gmap string json :=
  {[ AnnotationSnapshotStatus := JStr (marshal (SnapshotStatus_json s)) ]}.

(** A nil map and an empty one are the same [gmap].  Keys are visited in some
    order; the first reserved one is reported. *)
Definition ReadSnapshotAnnotations (pod : Pod) : result (gmap string string) :=
  let raw := annotation pod AnnotationSnapshotAnnotations in
  if String.eqb raw "" then Ok ∅
  else
    anns ← wrap ("parse " +:+ AnnotationSnapshotAnnotations)
             (unmarshal (fun j => u_map str_value (Some j)) (bytes_of raw));
    match List.find (fun kv : string * string => hasPrefix kv.1 reservedSnapshotAnnotationPrefix) (map_to_list anns) with
    | Some (key, _) => Err (Enew (AnnotationSnapshotAnnotations +:+ ": key " +:+ quoted key +:+ " is reserved"))
    | None => Ok anns
    end.

Definition ReadSnapshotStatus (pod : Pod) : SnapshotStatus :=
  let raw := annotation pod AnnotationSnapshotStatus in
  if String.eqb raw "" then SnapshotStatus_zero
  else match unmarshal SnapshotStatus_unmarshal (bytes_of raw) with
       | Ok s => s
       | _ => SnapshotStatus_zero
       end.

(** ** Pods, owners, connections *)

Definition PodReady := "Ready".
Definition ConditionTrue := "True".
Definition PodFailed := "Failed".

Definition IsPodReady (pod : Pod) : bool :=
  existsb (fun c => String.eqb (pc_Type c) PodReady && String.eqb (pc_Status c) ConditionTrue) (p_Conditions pod).

Definition IsPodTerminal (pod : Pod) : bool := String.eqb (p_Phase pod) PodFailed.

Definition IsContainerRunning (pod : Pod) : bool := existsb (fun r => r) (p_Running pod).

Definition VMLive (pod : Pod) : bool :=
  IsContainerRunning pod && negb (String.eqb (vr_VMID (ParseVMRuntime pod)) "").

Definition PodKey (namespace name : string) : string := namespace +:+ "/" +:+ name.

Definition PodNodePool (pod : Pod) : string :=
  cmpOr (map_get (p_NodeSelector pod) LabelNodePool)
    (cmpOr (map_get (p_Labels pod) LabelNodePool) (cmpOr (annotation pod LabelNodePool) DefaultNodePool)).

Definition HasCocoonTolerationKey (tolerations : list Toleration) : bool :=
  existsb (fun t => String.eqb (tol_Key t) TolerationKey) tolerations.

Fixpoint CocoonSetOwnerName (ownerRefs : list OwnerReference) : string :=
  match ownerRefs with
  | [] => ""
  | ref :: refs => if String.eqb (or_Kind ref) KindCocoonSet then or_Name ref else CocoonSetOwnerName refs
  end.

Definition IsOwnedByCocoonSet (ownerRefs : list OwnerReference) : bool :=
  negb (String.eqb (CocoonSetOwnerName ownerRefs) "").

Definition ConnectionType (osType : string) (hasVNCPort : bool) (override : string) : string :=
  if negb (String.eqb override "") then override
  else if hasVNCPort then ConnTypeVNC
  else if String.eqb osType OSAndroid then ConnTypeADB
  else if String.eqb osType OSWindows then ConnTypeRDP
  else ConnTypeSSH.
