(* ===== verification/MetaProps.v ===== *)
(** * MetaProps: the annotation contracts hold

    What is written to a pod is what the readers return, and nothing else of
    the pod changes; the lifecycle's merge patch and in-memory update agree;
    comparison keys are injective; the CRD specs become valid VM specs. *)

From Stdlib Require Import ZArith Lia Ascii String.
From stdpp Require Import base gmap strings list.
From S2P Require Import Prelude GoStrings Json Manifest K8s Api Meta.

Local Open Scope string_scope.

(** ** Reading what was written *)

Lemma map_get_insert (m : gmap string string) k v k' :
  map_get (<[k := v]> m) k' = if String.eqb k k' then v else map_get m k'.
Proof.
  unfold map_get. destruct (String.eqb_spec k k') as [->|H]; [by rewrite lookup_insert_eq|by rewrite lookup_insert_ne].
Qed.

Lemma map_get_delete (m : gmap string string) k k' :
  map_get (delete k m) k' = if String.eqb k k' then "" else map_get m k'.
Proof.
  unfold map_get. destruct (String.eqb_spec k k') as [->|H]; [by rewrite lookup_delete_eq|by rewrite lookup_delete_ne].
Qed.

Lemma map_get_setIfNotEmpty m k v k' :
  map_get (setIfNotEmpty k v m) k' = if String.eqb k k' then cmpOr v (map_get m k') else map_get m k'.
Proof.
  unfold setIfNotEmpty, cmpOr. destruct (String.eqb_spec v "") as [->|Hv]; [by destruct (String.eqb k k')|].
  apply map_get_insert.
Qed.

Lemma map_get_set_if m k b k' :
  map_get (set_if k b m) k' = if String.eqb k k' && b then annotationTrue else map_get m k'.
Proof. unfold set_if. destruct b; [by rewrite map_get_insert, andb_true_r|by rewrite andb_false_r]. Qed.

Lemma annotations_ensure pod write : annotations (ensurePodAnnotations pod write) = write (annotations pod).
Proof. done. Qed.

(** Decides the comparisons of known keys. *)
Ltac decide_keys :=
  repeat match goal with
  | |- context [String.eqb ?a ?b] =>
      let r := eval vm_compute in (String.eqb a b) in
      match r with
      | true => change (String.eqb a b) with true
      | false => change (String.eqb a b) with false
      end
  end; cbn [andb].

(** Evaluates the annotations of an updated pod at known keys. *)
Ltac read_back :=
  unfold annotation, readInt64Annotation; rewrite annotations_ensure;
  repeat first [rewrite map_get_setIfNotEmpty | rewrite map_get_set_if | rewrite map_get_insert | rewrite map_get_delete];
  decide_keys.

Lemma formatPort_parse p : in_int32 p = true ->
  (if String.eqb (formatPort p) "" then 0%Z else match parseInt32 (formatPort p) with Some n => n | None => 0%Z end)
  = if (p <=? 0)%Z then 0%Z else p.
Proof.
  intros H. unfold formatPort. destruct (p <=? 0)%Z; [done|]. rewrite parseInt32_formatInt by done.
  by destruct (String.eqb_spec (formatInt p) "") as [E|]; [destruct (formatInt_nonempty p)|].
Qed.

Lemma formatInt_parse n : in_int64 n = true ->
  (if String.eqb (formatInt n) "" then 0%Z else match parseInt64 (formatInt n) with Some n => n | None => 0%Z end) = n.
Proof.
  intros H. rewrite parseInt64_formatInt by done.
  by destruct (String.eqb_spec (formatInt n) "") as [E|]; [destruct (formatInt_nonempty n)|].
Qed.

(** [pod'] is [pod] with annotations changed at the given keys only. *)
Definition only_annotations (keys : list string) (pod pod' : Pod) : Prop :=
  pod' = set_annotations pod (p_Annotations pod')
  /\ (forall k, k ∉ keys -> annotations pod' !! k = annotations pod !! k).

Lemma lookup_setIfNotEmpty_ne m k v k' : k <> k' -> setIfNotEmpty k v m !! k' = m !! k'.
Proof. unfold setIfNotEmpty. intros H. destruct (String.eqb v ""); [done|]. by rewrite lookup_insert_ne. Qed.

Lemma lookup_set_if_ne m k b k' : k <> k' -> set_if k b m !! k' = m !! k'.
Proof. unfold set_if. intros H. destruct b; [|done]. by rewrite lookup_insert_ne. Qed.

Ltac frame :=
  split; [done|]; intros k Hk; rewrite ?annotations_ensure;
  repeat (rewrite not_elem_of_cons in Hk; destruct Hk as [? Hk]);
  repeat first [rewrite lookup_setIfNotEmpty_ne by congruence | rewrite lookup_set_if_ne by congruence
               | rewrite lookup_insert_ne by congruence | rewrite lookup_delete_ne by congruence]; try done.

(** ** VMSpec and VMRuntime *)

Definition vmspec_keys : list string :=
  [AnnotationVMName; AnnotationImage; AnnotationMode; AnnotationOS; AnnotationStorage; AnnotationNetwork;
   AnnotationSnapshotPolicy; AnnotationForkFrom; AnnotationManaged; AnnotationForcePull; AnnotationNoDirectIO;
   AnnotationConnType; AnnotationBackend; AnnotationProbePort].

(** [s] over [old]: an empty field or a false flag leaves what was there. *)
Definition overlay (s old : VMSpec) : VMSpec :=
  {| vs_VMName := cmpOr (vs_VMName s) (vs_VMName old);
     vs_Image := cmpOr (vs_Image s) (vs_Image old);
     vs_Mode := cmpOr (vs_Mode s) (vs_Mode old);
     vs_OS := cmpOr (vs_OS s) (vs_OS old);
     vs_Storage := cmpOr (vs_Storage s) (vs_Storage old);
     vs_Network := cmpOr (vs_Network s) (vs_Network old);
     vs_SnapshotPolicy := cmpOr (vs_SnapshotPolicy s) (vs_SnapshotPolicy old);
     vs_ForkFrom := cmpOr (vs_ForkFrom s) (vs_ForkFrom old);
     vs_Managed := vs_Managed s || vs_Managed old;
     vs_ForcePull := vs_ForcePull s || vs_ForcePull old;
     vs_NoDirectIO := vs_NoDirectIO s || vs_NoDirectIO old;
     vs_ConnType := cmpOr (vs_ConnType s) (vs_ConnType old);
     vs_Backend := cmpOr (vs_Backend s) (vs_Backend old);
     vs_ProbePort := cmpOr (vs_ProbePort s) (vs_ProbePort old) |}.

Lemma flag_read (b : bool) (v : string) : String.eqb (if b then annotationTrue else v) annotationTrue = b || String.eqb v annotationTrue.
Proof. by destruct b. Qed.

Lemma ParseVMSpec_Apply s pod : ParseVMSpec (VMSpec_Apply s pod) = overlay s (ParseVMSpec pod).
Proof.
  unfold ParseVMSpec, VMSpec_Apply, overlay. f_equal; read_back; rewrite ?flag_read; done.
Qed.

Lemma VMSpec_Apply_frame s pod : only_annotations vmspec_keys pod (VMSpec_Apply s pod).
Proof. unfold VMSpec_Apply, vmspec_keys. frame. Qed.

(** Writing a [VMSpec] to a pod and parsing it back gives the spec laid
    over what the pod had: every non-empty field and every true flag is read
    back as written, an empty field or false flag leaves the old value, on a
    pod with a nil annotation map as on any other; the pod changes in the
    spec's own annotations only. *)
Theorem VMSpec_Apply_Parse s pod :
  ParseVMSpec (VMSpec_Apply s pod) = overlay s (ParseVMSpec pod)
  /\ only_annotations vmspec_keys pod (VMSpec_Apply s pod).
Proof. split; [apply ParseVMSpec_Apply|apply VMSpec_Apply_frame]. Qed.

Definition vmruntime_keys : list string := [AnnotationVMID; AnnotationIP; AnnotationVNCPort].

(** Writing a [VMRuntime] and parsing it back gives the runtime state, a
    field that is empty and a port that is not positive leaving the old value;
    every [int32] port survives the text form. *)
Theorem VMRuntime_Apply_Parse r pod :
  in_int32 (vr_VNCPort r) = true ->
  ParseVMRuntime (VMRuntime_Apply r pod)
    = {| vr_VMID := cmpOr (vr_VMID r) (vr_VMID (ParseVMRuntime pod));
         vr_IP := cmpOr (vr_IP r) (vr_IP (ParseVMRuntime pod));
         vr_VNCPort := if (vr_VNCPort r <=? 0)%Z then vr_VNCPort (ParseVMRuntime pod) else vr_VNCPort r |}
  /\ only_annotations vmruntime_keys pod (VMRuntime_Apply r pod).
Proof.
  intros Hp. split; [|unfold VMRuntime_Apply, vmruntime_keys; frame].
  unfold ParseVMRuntime at 1. unfold VMRuntime_Apply. f_equal; read_back; [done..|].
  pose proof (formatPort_parse (vr_VNCPort r) Hp) as Hf. unfold formatPort in *. destruct (vr_VNCPort r <=? 0)%Z; [done|].
  by rewrite cmpOr_nonempty by apply formatInt_nonempty.
Qed.

Lemma VMRuntime_Apply_Parse_witness :
  ParseVMRuntime (VMRuntime_Apply {| vr_VMID := "id"; vr_IP := "10.0.0.2"; vr_VNCPort := 5901 |} Pod_zero)
  = {| vr_VMID := "id"; vr_IP := "10.0.0.2"; vr_VNCPort := 5901 |}.
Proof. exact (proj1 (VMRuntime_Apply_Parse {| vr_VMID := "id"; vr_IP := "10.0.0.2"; vr_VNCPort := 5901 |} Pod_zero eq_refl)). Defined.

(** ** Flags *)

(** The hibernation flag, the restore flag and the keep-snapshot flag read
    back as written, clearing the first removes its key, and none of the three
    writers touches anything else of the pod. *)
Theorem hibernate_flags_roundtrip (s : HibernateState) pod :
  ReadHibernateState (HibernateState_Apply s pod) = s
  /\ (s = false -> annotations (HibernateState_Apply s pod) !! AnnotationHibernate = None)
  /\ only_annotations [AnnotationHibernate] pod (HibernateState_Apply s pod)
  /\ ReadRestoreFromHibernate (MarkRestoreFromHibernate pod) = true
  /\ only_annotations [AnnotationRestoreFromHibernate] pod (MarkRestoreFromHibernate pod)
  /\ ReadKeepSnapshotOnDelete (MarkKeepSnapshotOnDelete pod) = true
  /\ only_annotations [AnnotationKeepSnapshotOnDelete] pod (MarkKeepSnapshotOnDelete pod).
Proof.
  assert (annotations (HibernateState_Apply false pod) = delete AnnotationHibernate (annotations pod)) as Hdel.
  { unfold HibernateState_Apply, annotations, set_annotations. cbn. by destruct (p_Annotations pod). }
  split_and!.
  - destruct s; unfold ReadHibernateState, annotation; [unfold HibernateState_Apply; by read_back|].
    rewrite Hdel, map_get_delete. by decide_keys.
  - intros ->. by rewrite Hdel, lookup_delete_eq.
  - destruct s; [unfold HibernateState_Apply; frame|]. split; [done|]. intros k Hk. rewrite Hdel.
    rewrite lookup_delete_ne; [done|]. set_solver.
  - unfold ReadRestoreFromHibernate, MarkRestoreFromHibernate. by read_back.
  - unfold MarkRestoreFromHibernate. frame.
  - unfold ReadKeepSnapshotOnDelete, MarkKeepSnapshotOnDelete. by read_back.
  - unfold MarkKeepSnapshotOnDelete. frame.
Qed.

Lemma hibernate_flags_roundtrip_witness :
  annotations (HibernateState_Apply false (HibernateState_Apply true Pod_zero)) !! AnnotationHibernate = None.
Proof.
  exact (proj1 (proj2 (hibernate_flags_roundtrip false (HibernateState_Apply true Pod_zero))) eq_refl).
Defined.

(** ** Lifecycle *)

Definition lifecycle_keys : list string :=
  [AnnotationLifecycleState; AnnotationLifecycleObservedGeneration; AnnotationLifecycleStateMessage].

Lemma LifecycleStatus_Apply_annotations s pod :
  annotations (LifecycleStatus_Apply s pod)
  = let a := <[AnnotationLifecycleObservedGeneration := formatInt (ls_ObservedGeneration s)]>
               (<[AnnotationLifecycleState := ls_State s]> (annotations pod)) in
    if String.eqb (ls_Message s) "" then delete AnnotationLifecycleStateMessage a
    else <[AnnotationLifecycleStateMessage := ls_Message s]> a.
Proof. done. Qed.

(** The lifecycle triple read from a pod is the one last applied, an empty
    message included (it clears the key, whatever message was there), and
    only the triple's annotations change. *)
Theorem LifecycleStatus_roundtrip s pod :
  in_int64 (ls_ObservedGeneration s) = true ->
  ReadLifecycleStatus (LifecycleStatus_Apply s pod) = s
  /\ only_annotations lifecycle_keys pod (LifecycleStatus_Apply s pod).
Proof.
  intros Hg. split.
  - destruct s as [st g m]. cbn [ls_ObservedGeneration] in Hg.
    unfold ReadLifecycleStatus, ReadLifecycleObservedGeneration, readInt64Annotation, annotation.
    rewrite LifecycleStatus_Apply_annotations. cbn zeta. cbn [ls_State ls_ObservedGeneration ls_Message].
    destruct (String.eqb_spec m "") as [->|Hm]; rewrite ?map_get_delete, ?map_get_insert; decide_keys;
      rewrite ?formatInt_parse; done.
  - split; [done|]. intros k Hk. rewrite LifecycleStatus_Apply_annotations. cbn zeta. unfold lifecycle_keys in Hk.
    destruct (String.eqb _ _); rewrite ?lookup_delete_ne, ?lookup_insert_ne by set_solver; done.
Qed.

Lemma LifecycleStatus_roundtrip_witness :
  let s := {| ls_State := LifecycleStateReady; ls_ObservedGeneration := 9; ls_Message := "" |} in
  let stale := {| ls_State := LifecycleStateFailed; ls_ObservedGeneration := 8; ls_Message := "boom" |} in
  ReadLifecycleStatus (LifecycleStatus_Apply s (LifecycleStatus_Apply stale Pod_zero)) = s.
Proof.
  intros s stale. exact (proj1 (LifecycleStatus_roundtrip s (LifecycleStatus_Apply stale Pod_zero) eq_refl)).
Defined.

Lemma utf8_formatInt n : utf8_ok 0 (formatInt n) = true.
Proof.
  assert (forall s, all_digits s = true -> utf8_ok 0 s = true) as Hall.
  { induction s as [|c s IH]; [done|]. intros [Hc Hs]%andb_true_iff. apply bool_decide_eq_true in Hc as [d Hd].
    cbn [utf8_ok]. unfold is_ascii, cval. unfold digit_val in Hd.
    destruct ((48 <=? Z.of_nat (nat_of_ascii c))%Z && (Z.of_nat (nat_of_ascii c) <=? 57)%Z) eqn:E; [|discriminate].
    destruct (Z.ltb_spec (Z.of_nat (nat_of_ascii c)) 128); [by apply IH|lia]. }
  unfold formatInt. destruct (n <? 0)%Z; [|apply Hall, formatUint_all]. cbn. apply Hall, formatUint_all.
Qed.

(** C38: the two ways of publishing a lifecycle status agree: the merge patch
    built from [Annotations()], applied by the API server to the pod's
    annotations, leaves exactly the map [Apply] leaves in memory, whatever
    message the pod carried before. *)
Theorem lifecycle_patch_is_apply s pod :
  utf8_ok 0 (ls_State s) = true -> utf8_ok 0 (ls_Message s) = true ->
  exists body, AnnotationsMergePatch (LifecycleStatus_Annotations s) = Ok body
  /\ apply_annotations_patch body (annotations pod) = Some (annotations (LifecycleStatus_Apply s pod)).
Proof.
  intros Hs Hm. destruct (AnnotationsMergePatch_spec (LifecycleStatus_Annotations s) (annotations pod)) as (body & out & Hb & Ho & Hl).
  { unfold LifecycleStatus_Annotations. apply map_Forall_insert_2; [|apply map_Forall_insert_2; [|apply map_Forall_singleton]].
    - by destruct (String.eqb _ _).
    - done.
    - split_and!; [done|done|]. apply utf8_formatInt. }
  exists body. split; [done|]. rewrite Ho. f_equal. apply map_eq. intros k. rewrite Hl, LifecycleStatus_Apply_annotations.
  unfold patched, LifecycleStatus_Annotations. cbn zeta.
  destruct (decide (AnnotationLifecycleStateMessage = k)) as [<-|H1].
  { rewrite lookup_insert_eq. destruct (String.eqb _ _); by rewrite ?lookup_delete_eq, ?lookup_insert_eq. }
  rewrite lookup_insert_ne by done. destruct (decide (AnnotationLifecycleState = k)) as [<-|H2].
  { rewrite lookup_insert_eq. destruct (String.eqb _ _); rewrite ?lookup_delete_ne, ?lookup_insert_ne, ?lookup_insert_eq by done; done. }
  rewrite lookup_insert_ne by done. destruct (decide (AnnotationLifecycleObservedGeneration = k)) as [<-|H3].
  { rewrite lookup_singleton_eq. destruct (String.eqb _ _); rewrite ?lookup_delete_ne, ?lookup_insert_ne, ?lookup_insert_eq by done; done. }
  rewrite lookup_singleton_ne by done. destruct (String.eqb _ _); rewrite ?lookup_delete_ne, ?lookup_insert_ne by done; done.
Qed.

Lemma lifecycle_patch_is_apply_witness :
  let s := {| ls_State := LifecycleStateReady; ls_ObservedGeneration := 9; ls_Message := "" |} in
  let pod := set_annotations Pod_zero (Some {[ AnnotationLifecycleStateMessage := "stale" ]}) in
  exists body, AnnotationsMergePatch (LifecycleStatus_Annotations s) = Ok body
  /\ apply_annotations_patch body (annotations pod) = Some (annotations (LifecycleStatus_Apply s pod)).
Proof. intros s pod. exact (lifecycle_patch_is_apply s pod eq_refl eq_refl). Defined.

Lemma containsByte_split c a a' b b' :
  containsByte a c = false -> containsByte a' c = false -> a +:+ String c b = a' +:+ String c b' -> a = a' /\ b = b'.
Proof.
  revert a'. induction a as [|x a IH]; intros [|y a'] Ha Ha' H.
  - cbn in H. by injection H.
  - cbn in H. injection H as -> _. cbn in Ha'. by rewrite Ascii.eqb_refl in Ha'.
  - cbn in H. injection H as -> _. cbn in Ha. by rewrite Ascii.eqb_refl in Ha.
  - rewrite !sapp_cons in H. injection H as -> H. cbn in Ha, Ha'. apply orb_false_iff in Ha as [_ Ha].
    apply orb_false_iff in Ha' as [_ Ha']. by destruct (IH a' Ha Ha' H) as [-> ->].
Qed.

(** The comparison key of a lifecycle status identifies it: two statuses
    with the same key are equal, provided the states (which are words) hold
    no NUL; the messages may hold anything. *)
Theorem Snapshot_key_injective s t :
  containsByte (ls_State s) NUL = false -> containsByte (ls_State t) NUL = false ->
  in_int64 (ls_ObservedGeneration s) = true -> in_int64 (ls_ObservedGeneration t) = true ->
  LifecycleStatus_Snapshot s = LifecycleStatus_Snapshot t -> s = t.
Proof.
  intros Hs Ht Hgs Hgt H. unfold LifecycleStatus_Snapshot in H.
  apply containsByte_split in H as [H1 H]; [|done..].
  apply containsByte_split in H as [H2 H3]; [|by apply formatInt_no_byte..].
  apply (f_equal parseInt64) in H2. rewrite !parseInt64_formatInt in H2 by done.
  destruct s, t; cbn in *; congruence.
Qed.

Lemma Snapshot_key_injective_witness :
  let s := {| ls_State := "failed"; ls_ObservedGeneration := 3; ls_Message := String NUL "7" |} in
  let t := {| ls_State := "fail" +:+ "ed"; ls_ObservedGeneration := 2 + 1; ls_Message := String NUL "7" |} in
  s = t.
Proof. intros s t. exact (Snapshot_key_injective s t eq_refl eq_refl eq_refl eq_refl eq_refl). Defined.

(** ** From the CRD to the annotations *)

Definition valid_or_unset (valid : list string) (m : string) : Prop := m = "" \/ str_in m valid = true.

(** The values the CRD's schema admits. *)
Record VMOptions_admitted (o : VMOptions) : Prop := {
  oa_OS : valid_or_unset osTypeValid (vo_OS o);
  oa_Backend : valid_or_unset backendValid (vo_Backend o);
  oa_ConnType : valid_or_unset connTypeValid (vo_ConnType o);
  oa_ProbePort : (0 <= vo_ProbePort o <= 65535)%Z
}.

(** What the node expects of a spec it reads. *)
Record VMSpec_valid (modes : list string) (s : VMSpec) : Prop := {
  sv_Mode : str_in (vs_Mode s) modes = true;
  sv_OS : OSType_IsValid (vs_OS s) = true;
  sv_Backend : Backend_IsValid (vs_Backend s) = true;
  sv_Policy : SnapshotPolicy_IsValid (vs_SnapshotPolicy s) = true;
  sv_ConnType : vs_ConnType s = "" \/ ConnType_IsValid (vs_ConnType s) = true;
  sv_ProbePort : vs_ProbePort s = "" \/ exists p, (0 < p <= 65535)%Z /\ parseInt32 (vs_ProbePort s) = Some p
}.

Lemma overlay_zero s : overlay s (ParseVMSpec Pod_zero) = s.
Proof.
  assert (forall v, cmpOr v "" = v) as Hc by (intros v; unfold cmpOr; by destruct (String.eqb_spec v "")).
  destruct s. unfold overlay, ParseVMSpec, annotations, map_get. cbn. by rewrite !Hc, !orb_false_r.
Qed.

Lemma set_or_default valid d m :
  str_in d valid = true -> valid_or_unset valid m -> str_in (cmpOr m d) valid = true.
Proof. intros Hd Hm. apply Default_valid; [by apply str_in_spec|done]. Qed.

Lemma fromVMOptions_valid modes o vm image mode policy fork managed :
  VMOptions_admitted o -> str_in mode modes = true -> valid_or_unset snapshotPolicyValid policy ->
  VMSpec_valid modes (set_fork_managed (fromVMOptions o vm image mode policy) fork managed).
Proof.
  intros [Ho Hb Hc Hp] Hm Hpol. constructor.
  - done.
  - by apply (set_or_default osTypeValid OSLinux (vo_OS o)).
  - by apply (set_or_default backendValid BackendCloudHypervisor (vo_Backend o)).
  - by apply (set_or_default snapshotPolicyValid SnapshotPolicyAlways policy).
  - done.
  - cbn [set_fork_managed fromVMOptions vs_ProbePort]. unfold formatPort. destruct (Z.leb_spec (vo_ProbePort o) 0); [by left|]. right. exists (vo_ProbePort o).
    split; [lia|]. apply parseInt32_formatInt, in_int32_spec. lia.
Qed.

(** C39: an agent or toolbox spec the CRD's schema admits becomes a [VMSpec]
    with every enumeration valid and a probe port in range, which the node
    reads back from a fresh pod exactly as the operator wrote it: the agent
    is managed, a toolbox is managed unless its mode is static. *)
Theorem FromSpec_roundtrip (agent : AgentSpec) (toolbox : ToolboxSpec) vm policy fork :
  VMOptions_admitted (as_VMOptions agent) -> valid_or_unset agentModeValid (as_Mode agent) ->
  VMOptions_admitted (ts_VMOptions toolbox) -> valid_or_unset toolboxModeValid (ts_Mode toolbox) ->
  valid_or_unset snapshotPolicyValid policy ->
  let a := FromAgentSpec agent vm policy fork in
  let t := FromToolboxSpec toolbox vm policy in
  (VMSpec_valid agentModeValid a /\ vs_Managed a = true /\ vs_ForkFrom a = fork
   /\ ParseVMSpec (VMSpec_Apply a Pod_zero) = a)
  /\ (VMSpec_valid toolboxModeValid t /\ (vs_Managed t = true <-> ts_Mode toolbox <> ToolboxModeStatic)
      /\ ParseVMSpec (VMSpec_Apply t Pod_zero) = t).
Proof.
  intros Ha Hma Ht Hmt Hp a t. rewrite !ParseVMSpec_Apply, !overlay_zero. split_and!; [|done|done|done| | |done].
  - apply fromVMOptions_valid; [done| |done]. by apply (set_or_default agentModeValid AgentModeClone).
  - apply fromVMOptions_valid; [done| |done]. by apply (set_or_default toolboxModeValid ToolboxModeRun).
  - cbn [t FromToolboxSpec set_fork_managed vs_Managed]. by rewrite negb_true_iff, String.eqb_neq.
Qed.

Definition sample_options : VMOptions :=
  {| vo_OS := ""; vo_Backend := BackendFirecracker; vo_ConnType := ""; vo_Network := "default"; vo_ForcePull := true;
     vo_NoDirectIO := false; vo_ProbePort := 22; vo_Storage := Some "100G" |}.
Definition sample_agent : AgentSpec :=
  {| as_Replicas := 0; as_Image := "img"; as_Mode := ""; as_VMOptions := sample_options |}.
Definition sample_toolbox : ToolboxSpec :=
  {| ts_Name := "tb"; ts_Image := "img"; ts_Mode := ToolboxModeStatic; ts_StaticIP := ""; ts_StaticVMID := "";
     ts_VNCPort := 0; ts_VMOptions := sample_options |}.

Lemma sample_options_admitted : VMOptions_admitted sample_options.
Proof. constructor; [by left|by right|by left|cbn; lia]. Qed.

Lemma FromSpec_roundtrip_witness :
  let t := FromToolboxSpec sample_toolbox "vm" "" in
  vs_SnapshotPolicy t = "always" /\ ParseVMSpec (VMSpec_Apply t Pod_zero) = t.
Proof.
  intros t. split; [reflexivity|].
  refine (proj2 (proj2 (proj2 (FromSpec_roundtrip sample_agent sample_toolbox "vm" "" "" sample_options_admitted _
    sample_options_admitted _ _)))); [by left|by right|by left].
Defined.

(** Whether a VM is snapshotted depends on the policy and the role as
    documented, for the specs built from the CRD's: every role under [always]
    (also when the policy is unset), the main agent alone under [main-only],
    none under [never]. *)
Theorem ShouldSnapshotVM_policy (agent : AgentSpec) vm policy fork role :
  valid_or_unset snapshotPolicyValid policy ->
  ShouldSnapshotVM (FromAgentSpec agent vm policy fork) role = true <->
  policy = "" \/ policy = SnapshotPolicyAlways \/ (policy = SnapshotPolicyMainOnly /\ role = RoleMain).
Proof.
  intros Hp. unfold ShouldSnapshotVM, FromAgentSpec, set_fork_managed, fromVMOptions, SnapshotPolicy_Default.
  cbn [vs_SnapshotPolicy]. destruct Hp as [->|Hp].
  { cbn. by split; [left|]. }
  apply str_in_spec in Hp. unfold snapshotPolicyValid in Hp. rewrite !elem_of_cons, elem_of_nil in Hp.
  destruct Hp as [->|[->|[->|[]]]]; cbn.
  - split; [by right; left|done].
  - rewrite String.eqb_eq. split; [by right; right|]. by intros [?|[?|[_ ?]]].
  - split; [done|]. by intros [?|[?|[? _]]].
Qed.

Lemma ShouldSnapshotVM_policy_witness :
  ShouldSnapshotVM (FromAgentSpec sample_agent "vm" SnapshotPolicyMainOnly "") RoleMain = true.
Proof.
  apply (ShouldSnapshotVM_policy sample_agent "vm" SnapshotPolicyMainOnly "" RoleMain); [by right|by right; right].
Defined.

(** ** The snapshot contract *)

Definition reserved (key : string) : bool := hasPrefix key reservedSnapshotAnnotationPrefix.

Lemma ReadSnapshotAnnotations_safe pod m :
  ReadSnapshotAnnotations pod = Ok m -> map_Forall (fun k _ => reserved k = false) m.
Proof.
  unfold ReadSnapshotAnnotations. destruct (String.eqb _ _); [intros [= <-]; apply map_Forall_empty|].
  intros H. apply bind_Ok in H as (anns & _ & H).
  destruct (List.find _ _) as [[]|] eqn:E; [discriminate|]. injection H as <-.
  intros k v Hk. apply elem_of_map_to_list, list_elem_of_In in Hk. exact (List.find_none _ _ E (k, v) Hk).
Qed.

Lemma marshal_nonempty j l : j = JObj l -> marshal j <> "".
Proof. intros -> H. unfold marshal in H. destruct l; rewrite ?render_obj in H; discriminate H. Qed.

(** C40: the caller's snapshot annotations reach the pusher unchanged or not at
    all: a JSON object of valid UTF-8 strings is read back as that map when no
    key is reserved and rejected when one is; and from any annotation text
    whatsoever no reserved key ever gets through. *)
Theorem ReadSnapshotAnnotations_contract m pod :
  strmap_ok m -> annotations pod !! AnnotationSnapshotAnnotations = Some (marshal (e_map JStr m)) ->
  (map_Forall (fun k _ => reserved k = false) m -> ReadSnapshotAnnotations pod = Ok m)
  /\ (forall k v, m !! k = Some v -> reserved k = true -> is_ok (ReadSnapshotAnnotations pod) = false)
  /\ (forall pod' m', ReadSnapshotAnnotations pod' = Ok m' -> map_Forall (fun k _ => reserved k = false) m').
Proof.
  intros Hm Ha. split_and!.
  - intros Hr. unfold ReadSnapshotAnnotations, annotation, map_get. rewrite Ha.
    destruct (String.eqb_spec (marshal (e_map JStr m)) "") as [E|_]; [by eapply marshal_nonempty in E|].
    rewrite unmarshal_marshal, u_map_e by (done || by apply json_ok_map; intros k a Hk%Hm; apply andb_true_iff in Hk).
    cbn [wrap mbind result_bind].
    destruct (List.find _ _) as [[k v]|] eqn:E; [|done]. apply List.find_some in E as [Hin Hk].
    apply list_elem_of_In, elem_of_map_to_list, Hr in Hin. change (reserved k = true) in Hk. congruence.
  - intros k v Hk Hr. destruct (ReadSnapshotAnnotations pod) as [m'| |] eqn:E; [|done..]. exfalso.
    assert (m' = m) as ->; [|by rewrite (ReadSnapshotAnnotations_safe pod m E k v Hk) in Hr].
    unfold ReadSnapshotAnnotations, annotation, map_get in E. rewrite Ha in E.
    destruct (String.eqb_spec (marshal (e_map JStr m)) "") as [E'|_]; [by eapply marshal_nonempty in E'|].
    rewrite unmarshal_marshal, u_map_e in E by (done || by apply json_ok_map; intros ?? Hk'%Hm; apply andb_true_iff in Hk').
    cbn [wrap mbind result_bind] in E. destruct (List.find _ _) as [[]|]; [discriminate|]. by injection E.
  - intros pod' m'. apply ReadSnapshotAnnotations_safe.
Qed.

Lemma ReadSnapshotAnnotations_contract_witness :
  let m : gmap string string := {[ "owner" := "me" ]} in
  ReadSnapshotAnnotations (set_annotations Pod_zero (Some {[ AnnotationSnapshotAnnotations := marshal (e_map JStr m) ]})) = Ok m.
Proof.
  intros m. refine (proj1 (ReadSnapshotAnnotations_contract m _ _ _) _).
  - apply map_Forall_singleton. reflexivity.
  - reflexivity.
  - apply map_Forall_singleton. reflexivity.
Defined.

(** A snapshot status published through [Annotations()] is read back as
    it was by every client, and an answer that does not decode reads as no
    answer at all, never as a half-filled one. *)
Theorem SnapshotStatus_roundtrip s pod raw :
  utf8_ok 0 (ss_Ref s) = true -> utf8_ok 0 (ss_State s) = true -> utf8_ok 0 (ss_Message s) = true ->
  SnapshotStatus_Annotations s !! AnnotationSnapshotStatus = Some (JStr raw) ->
  (annotations pod !! AnnotationSnapshotStatus = Some raw -> ReadSnapshotStatus pod = s)
  /\ (forall junk, annotations pod !! AnnotationSnapshotStatus = Some junk ->
        is_ok (unmarshal SnapshotStatus_unmarshal (bytes_of junk)) = false -> ReadSnapshotStatus pod = SnapshotStatus_zero).
Proof.
  intros Hr Hs Hm Hraw. unfold SnapshotStatus_Annotations in Hraw. rewrite lookup_singleton_eq in Hraw. injection Hraw as <-.
  unfold ReadSnapshotStatus, annotation, map_get. split.
  - intros ->. destruct (String.eqb_spec (marshal (SnapshotStatus_json s)) "") as [E|_]; [by eapply marshal_nonempty in E|].
    rewrite unmarshal_marshal.
    + unfold SnapshotStatus_unmarshal, SnapshotStatus_json, SnapshotStatus_fields. cbn [u_obj obj mbind result_bind].
      read_fields. run_codec. by destruct s.
    + unfold SnapshotStatus_json, SnapshotStatus_fields. apply json_ok_obj; [done|]. cbn [fmap list_fmap snd].
      repeat constructor; by rewrite ?opt_ok_e_str, ?opt_ok_o_str.
  - intros junk -> Hj. destruct (String.eqb junk ""); [done|]. by destruct (unmarshal _ _).
Qed.

Lemma SnapshotStatus_roundtrip_witness :
  let s := {| ss_Ref := "team/vm:v2"; ss_State := SnapshotStateFailed; ss_Message := "disk full" |} in
  ReadSnapshotStatus (set_annotations Pod_zero (Some {[ AnnotationSnapshotStatus := marshal (SnapshotStatus_json s) ]})) = s.
Proof.
  intros s. exact (proj1 (SnapshotStatus_roundtrip s
    (set_annotations Pod_zero (Some {[ AnnotationSnapshotStatus := marshal (SnapshotStatus_json s) ]}))
    (marshal (SnapshotStatus_json s)) eq_refl eq_refl eq_refl eq_refl) eq_refl).
Defined.
