(* ===== verification/VmName.v ===== *)
(** * VmName: VM names and roles (meta/vmname.go)

    The name of a pod's VM carries three bytes of a SHA-256 in hexadecimal;
    the digest is the executable one of [Sha256]. *)

From Stdlib Require Import ZArith Lia Ascii String.
From stdpp Require Import base gmap strings list.
From S2P Require Import Prelude GoStrings Sha256 Json Manifest Api Meta.

Local Open Scope string_scope.

Definition HibernateImportSuffix := "-hibernate-import".

(** [strings.ReplaceAll(s, ".", "-")] *)
Definition dashed (s : string) : string := replaceAllByte s "." "-".

(** [hex.EncodeToString(sum[:3])] *)
Definition name_hash (namespace podName : string) : string :=
  hex_encode (take 3 (sha256 (bytes_of (namespace +:+ "/" +:+ podName)))).

Definition VMNameForPod (namespace podName : string) : string :=
  "vk-" +:+ namespace +:+ "-" +:+ dashed podName +:+ "-" +:+ name_hash namespace podName.

Definition VMNameForDeployment (namespace deployment : string) (slot : Z) : string :=
  VMNameForPod namespace (deployment +:+ "-" +:+ formatInt slot).

Definition ToolboxPodName (cocoonSet toolbox : string) : string := cocoonSet +:+ "-" +:+ toolbox.

Definition AgentVMNamePrefix (namespace cocoonSet : string) : string :=
  "vk-" +:+ namespace +:+ "-" +:+ dashed cocoonSet +:+ "-".

Definition ExtractAgentSlot (namespace cocoonSet vmName : string) : Z :=
  match cutPrefix vmName (AgentVMNamePrefix namespace cocoonSet) with
  | None => -1
  | Some rest =>
      let slot := match cut rest "-" with Some (before, _) => before | None => rest end in
      match parseInt64 slot with
      | None => -1
      | Some n => if String.eqb (VMNameForDeployment namespace cocoonSet n) vmName then n else -1
      end
  end.

Definition InferRoleFromAgentSlot (slot : Z) : string :=
  if (slot <? 0)%Z then RoleToolbox else if (slot =? 0)%Z then RoleMain else RoleSubAgent.

Definition RoleForPod (pod : Pod) (vmName : string) : string :=
  InferRoleFromAgentSlot (ExtractAgentSlot (p_Namespace pod) (CocoonSetOwnerName (p_OwnerReferences pod)) vmName).

(** The names of the package's tests. *)
Example vm_names :
  (VMNameForDeployment "prod" "demo" 2, VMNameForPod "prod" "toolbox", VMNameForDeployment "prod" "demo.v1" 0)
  = ("vk-prod-demo-2-496021", "vk-prod-toolbox-869218", "vk-prod-demo-v1-0-ac2538").
Proof. vm_compute. reflexivity. Qed.

(** ** Shapes *)

Lemma name_hash_length namespace pod : String.length (name_hash namespace pod) = 6.
Proof. unfold name_hash. by rewrite length_hex_encode, length_take, length_sha256. Qed.

Lemma name_hash_no_byte namespace pod c : is_hex c = false -> containsByte (name_hash namespace pod) c = false.
Proof. apply hex_encode_no_byte. Qed.

Lemma dashed_length s : String.length (dashed s) = String.length s.
Proof. unfold dashed. induction s as [|c s IH]; cbn; [done|]. by rewrite IH. Qed.

Lemma dashed_formatInt n : dashed (formatInt n) = formatInt n.
Proof. apply replaceAllByte_no. by apply formatInt_no_byte. Qed.

Lemma formatInt_no_dash n : (0 <= n)%Z -> containsByte (formatInt n) "-" = false.
Proof.
  intros Hn. unfold formatInt. destruct (Z.ltb_spec n 0); [lia|]. apply all_digits_no_byte; [done|apply formatUint_all].
Qed.

Lemma VMNameForDeployment_shape namespace cs n :
  VMNameForDeployment namespace cs n
  = AgentVMNamePrefix namespace cs +:+ (formatInt n +:+ "-" +:+ name_hash namespace (cs +:+ "-" +:+ formatInt n)).
Proof.
  unfold VMNameForDeployment, VMNameForPod, AgentVMNamePrefix. unfold dashed. rewrite !replaceAllByte_app.
  fold (dashed (formatInt n)). rewrite dashed_formatInt. cbn [replaceAllByte Ascii.eqb Bool.eqb].
  by rewrite <- !sapp_assoc.
Qed.

Lemma VMNameForPod_split namespace p q :
  String.length p = String.length q ->
  VMNameForPod namespace p = VMNameForPod namespace q <-> dashed p = dashed q /\ name_hash namespace p = name_hash namespace q.
Proof.
  intros Hl. unfold VMNameForPod. split; [|by intros [-> ->]]. intros H.
  do 3 apply sapp_inj_l in H. apply sapp_inv_length in H as [-> H]; [|by rewrite !dashed_length].
  split; [done|]. by apply sapp_inj_l in H.
Qed.

Lemma parse_digits_nonneg s a n : (0 <= a)%Z -> parse_digits a s = Some n -> (0 <= n)%Z.
Proof.
  revert a. induction s as [|c s IH]; intros a Ha; cbn; [by intros [= <-]|].
  destruct (digit_val c) as [d|] eqn:E; [|done]. unfold digit_val in E.
  destruct ((48 <=? Z.of_nat (nat_of_ascii c))%Z && _) eqn:Er; [|done]. injection E as <-.
  apply andb_true_iff in Er as [Er%Z.leb_le _]. apply IH. lia.
Qed.

Lemma parseInt64_no_dash s n : containsByte s "-" = false -> parseInt64 s = Some n -> (0 <= n)%Z /\ in_int64 n = true.
Proof.
  intros Hs H. split; [|by eapply parseInt64_range]. unfold parseInt64 in H.
  destruct (parseSigned s) as [m|] eqn:E; [|done]. destruct (in_int64 m); [|done]. injection H as ->.
  assert (forall t, parseUint t = Some n -> (0 <= n)%Z) as Hu.
  { intros t Ht. unfold parseUint in Ht. destruct t; [done|]. by eapply parse_digits_nonneg in Ht. }
  unfold parseSigned in E. destruct s as [|c s]; [by apply Hu in E|].
  destruct c as [[] [] [] [] [] [] [] []]; try by apply Hu in E. by cbn in Hs.
Qed.

(** ** Slots *)

Lemma ExtractAgentSlot_agent namespace cs n :
  (0 <= n)%Z -> in_int64 n = true -> ExtractAgentSlot namespace cs (VMNameForDeployment namespace cs n) = n.
Proof.
  intros Hn Hi. unfold ExtractAgentSlot. rewrite VMNameForDeployment_shape at 1. rewrite cutPrefix_app.
  assert (cut (formatInt n +:+ "-" +:+ name_hash namespace (cs +:+ "-" +:+ formatInt n)) "-"
          = Some (formatInt n, name_hash namespace (cs +:+ "-" +:+ formatInt n))) as ->.
  { apply cut_Some. split; [done|by apply formatInt_no_dash]. }
  by rewrite parseInt64_formatInt, String.eqb_refl.
Qed.

Lemma ExtractAgentSlot_sound namespace cs name :
  ExtractAgentSlot namespace cs name = (-1)%Z
  \/ (let n := ExtractAgentSlot namespace cs name in
      (0 <= n)%Z /\ in_int64 n = true /\ VMNameForDeployment namespace cs n = name).
Proof.
  unfold ExtractAgentSlot. destruct (cutPrefix _ _) as [rest|]; [|by left]. cbn zeta.
  assert (containsByte (match cut rest "-" with Some (before, _) => before | None => rest end) "-" = false) as Hno.
  { destruct (cut rest "-") as [[b a]|] eqn:E; [by apply cut_Some in E as [_ ?]|by apply cut_None]. }
  destruct (parseInt64 _) as [n|] eqn:E; [|by left]. apply parseInt64_no_dash in E as [E1 E2]; [|done].
  destruct (String.eqb_spec (VMNameForDeployment namespace cs n) name); [by right|by left].
Qed.

Lemma ExtractAgentSlot_names namespace cs name n :
  (0 <= n)%Z -> in_int64 n = true ->
  ExtractAgentSlot namespace cs name = n <-> VMNameForDeployment namespace cs n = name.
Proof.
  intros Hn Hi. split; [|intros <-; by apply ExtractAgentSlot_agent].
  intros H. destruct (ExtractAgentSlot_sound namespace cs name) as [H'|(_ & _ & H')]; [lia|by rewrite H in H'].
Qed.

Lemma VMNameForPod_length namespace pod :
  String.length (VMNameForPod namespace pod) = (11 + String.length namespace + String.length pod)%nat.
Proof.
  unfold VMNameForPod. rewrite !sapp_length, name_hash_length, dashed_length. cbn. lia.
Qed.

(** C36: [ExtractAgentSlot] inverts [VMNameForDeployment] and recognises
    nothing else: for every slot a VM can have, it returns the slot exactly on
    the name of that slot's VM, and -1 exactly on the names that belong to no
    slot of the set. *)
Theorem ExtractAgentSlot_inverse namespace cocoonSet name :
  (forall n, (0 <= n)%Z -> in_int64 n = true ->
     ExtractAgentSlot namespace cocoonSet name = n <-> VMNameForDeployment namespace cocoonSet n = name)
  /\ (ExtractAgentSlot namespace cocoonSet name = (-1)%Z <->
      forall n, (0 <= n)%Z -> in_int64 n = true -> VMNameForDeployment namespace cocoonSet n <> name).
Proof.
  split; [intros n Hn Hi; by apply ExtractAgentSlot_names|]. split.
  - intros H n Hn Hi Hd. apply ExtractAgentSlot_names in Hd; [|done..]. lia.
  - intros H. destruct (ExtractAgentSlot_sound namespace cocoonSet name) as [H'|(Hn & Hi & Hd)]; [done|]. by destruct (H _ Hn Hi).
Qed.

Lemma ExtractAgentSlot_inverse_witness :
  ExtractAgentSlot "prod" "demo.v1" (VMNameForDeployment "prod" "demo.v1" 3) = 3%Z.
Proof.
  apply (proj1 (ExtractAgentSlot_inverse "prod" "demo.v1" (VMNameForDeployment "prod" "demo.v1" 3)) 3%Z);
    [lia|reflexivity|reflexivity].
Defined.

(** C37: a toolbox's VM is taken for an agent exactly when the toolbox is
    named like a slot number: for every name without dots (the CRD's pattern
    allows none) the toolbox VM reads as slot [n] when its name is the decimal
    numeral of [n], and as a toolbox otherwise. *)
Theorem toolbox_read_as_slot namespace cocoonSet toolbox n :
  containsByte toolbox "." = false -> (0 <= n)%Z -> in_int64 n = true ->
  ExtractAgentSlot namespace cocoonSet (VMNameForPod namespace (ToolboxPodName cocoonSet toolbox)) = n <-> toolbox = formatInt n.
Proof.
  intros Hd Hn Hi. rewrite ExtractAgentSlot_names by done. unfold VMNameForDeployment, ToolboxPodName.
  split; [|by intros ->]. intros H.
  pose proof (f_equal String.length H) as Hl. rewrite !VMNameForPod_length in Hl.
  apply VMNameForPod_split in H as [H _]; [|lia]. unfold dashed in H. rewrite !replaceAllByte_app in H.
  do 2 apply sapp_inj_l in H. fold (dashed (formatInt n)) in H. rewrite dashed_formatInt in H.
  by rewrite replaceAllByte_no in H.
Qed.

Lemma toolbox_read_as_slot_witness :
  ExtractAgentSlot "prod" "demo" (VMNameForPod "prod" (ToolboxPodName "demo" "0")) = 0%Z
  /\ ExtractAgentSlot "prod" "demo" (VMNameForPod "prod" (ToolboxPodName "demo" "app-0")) <> 0%Z.
Proof.
  split.
  - apply (toolbox_read_as_slot "prod" "demo" "0" 0%Z); [reflexivity|lia|reflexivity|reflexivity].
  - intros H. apply (toolbox_read_as_slot "prod" "demo" "app-0" 0%Z) in H; [discriminate H|reflexivity|lia|reflexivity].
Defined.

(** A VM name has no dot unless the namespace has one, so the guest's
    hostname is the whole name; it is eleven bytes longer than the namespace
    and the pod name together; and two pods share a name exactly when their
    dashed [namespace-pod] forms and the 24-bit hashes of their original names
    coincide. *)
Theorem VMNameForPod_shape namespace pod :
  containsByte (VMNameForPod namespace pod) "." = containsByte namespace "."
  /\ String.length (VMNameForPod namespace pod) = (11 + String.length namespace + String.length pod)%nat
  /\ (forall namespace' pod', VMNameForPod namespace pod = VMNameForPod namespace' pod' <->
        namespace +:+ "-" +:+ dashed pod = namespace' +:+ "-" +:+ dashed pod'
        /\ name_hash namespace pod = name_hash namespace' pod').
Proof.
  split_and!; [|apply VMNameForPod_length|].
  - unfold VMNameForPod. rewrite !containsByte_app, name_hash_no_byte by done. unfold dashed.
    rewrite replaceAllByte_gone by done. cbn. by rewrite orb_false_r.
  - intros namespace' pod'. unfold VMNameForPod.
    assert (forall ns p h, ns +:+ "-" +:+ p +:+ "-" +:+ h = (ns +:+ "-" +:+ p) +:+ "-" +:+ h) as group
      by (intros; by rewrite !sapp_assoc).
    split.
    + intros H. apply sapp_inj_l in H. rewrite !group in H.
      apply sapp_inv_length in H as [H1 H2]; [split; [done|by apply sapp_inj_l in H2]|].
      apply (f_equal String.length) in H. rewrite !(sapp_length (_ +:+ _ +:+ dashed _)), !(sapp_length "-"), !name_hash_length in H.
      lia.
    + intros [H1 ->]. f_equal. by rewrite !group, H1.
Qed.

(** Two pods of one namespace, both valid Kubernetes names, whose VMs share a
    name: 24 bits do not tell the dotted variants of one name apart. *)
Lemma pods_share_a_name :
  let p := "a-a-a-a.a.a.a-a.a.a-a.a-a-a-a" in
  let q := "a-a-a.a-a-a.a.a.a-a.a-a.a.a.a" in
  p <> q /\ VMNameForPod "prod" p = VMNameForPod "prod" q.
Proof. split; [done|]. vm_compute. reflexivity. Qed.

(** A pod's role is main exactly when its VM bears the name of slot 0 of
    the CocoonSet that owns it, sub-agent exactly when it bears the name of a
    later slot, and toolbox in every other case. *)
Theorem RoleForPod_cases pod name :
  let vm := VMNameForDeployment (p_Namespace pod) (CocoonSetOwnerName (p_OwnerReferences pod)) in
  (RoleForPod pod name = RoleMain <-> vm 0%Z = name)
  /\ (RoleForPod pod name = RoleSubAgent <-> exists n, (0 < n)%Z /\ in_int64 n = true /\ vm n = name)
  /\ (RoleForPod pod name = RoleToolbox <-> forall n, (0 <= n)%Z -> in_int64 n = true -> vm n <> name).
Proof.
  intros vm. unfold RoleForPod. set (ns := p_Namespace pod) in *. set (cs := CocoonSetOwnerName _) in *.
  assert (forall s, InferRoleFromAgentSlot s = RoleMain <-> s = 0%Z) as Hm.
  { intros s. unfold InferRoleFromAgentSlot. destruct (Z.ltb_spec s 0), (Z.eqb_spec s 0); split; intros; try done; lia. }
  assert (forall s, InferRoleFromAgentSlot s = RoleSubAgent <-> (0 < s)%Z) as Hs.
  { intros s. unfold InferRoleFromAgentSlot. destruct (Z.ltb_spec s 0), (Z.eqb_spec s 0); split; intros; try done; lia. }
  assert (forall s, InferRoleFromAgentSlot s = RoleToolbox <-> (s < 0)%Z) as Ht.
  { intros s. unfold InferRoleFromAgentSlot. destruct (Z.ltb_spec s 0), (Z.eqb_spec s 0); split; intros; try done; lia. }
  rewrite Hm, Hs, Ht. pose proof (ExtractAgentSlot_sound ns cs name) as Hsound. cbn zeta in Hsound. split_and!.
  - by apply ExtractAgentSlot_names.
  - split.
    + intros H. destruct Hsound as [?|(H1 & H2 & H3)]; [lia|]. eauto.
    + intros (n & Hn & Hi & H). apply ExtractAgentSlot_names in H; [lia|lia|done].
  - split.
    + intros H n Hn Hi Hv. apply ExtractAgentSlot_names in Hv; [lia|lia|done].
    + intros H. destruct Hsound as [?|(H1 & H2 & H3)]; [lia|]. by destruct (H _ H1 H2).
Qed.
