(* ===== verification/Httpx.v ===== *)
(** * Httpx: src/httpx/httpx.go

    The server lifecycle.  [Run] starts a goroutine per server, waits for the
    context or a failing server, shuts all servers down in parallel and joins
    the errors.  It is a step relation over the servers, [Run]'s own position
    and the context, one step per action of a goroutine, in any interleaving. *)

From Stdlib Require Import ZArith Lia Ascii String.
From stdpp Require Import base strings list relations.
From S2P Require Import Prelude.

Local Open Scope string_scope.
Local Open Scope nat_scope.

(** ** Servers *)

(** [DefaultReadHeaderTimeout], in nanoseconds. *)
Definition DefaultReadHeaderTimeout : Z := 10 * 10 ^ 9.

Record http_Server (Handler : Type) := {
  srv_Addr : string;
  srv_Handler : Handler;
  srv_ReadHeaderTimeout : Z
}.

Definition NewServer {Handler} (addr : string) (handler : Handler) : http_Server Handler :=
  {| srv_Addr := addr; srv_Handler := handler; srv_ReadHeaderTimeout := DefaultReadHeaderTimeout |}.

(** What a [Start] function calls. *)
Inductive start_call (Handler : Type) :=
  | ListenAndServe (srv : http_Server Handler)
  | ListenAndServeTLS (srv : http_Server Handler) (certFile keyFile : string).
Arguments ListenAndServe {Handler} srv.
Arguments ListenAndServeTLS {Handler} srv certFile keyFile.

Record ServerSpec (Handler : Type) := { ss_Server : http_Server Handler; ss_Start : start_call Handler }.

Definition HTTPServerSpec {Handler} (srv : http_Server Handler) : ServerSpec Handler :=
  {| ss_Server := srv; ss_Start := ListenAndServe srv |}.

Definition HTTPSServerSpec {Handler} (srv : http_Server Handler) : ServerSpec Handler :=
  {| ss_Server := srv; ss_Start := ListenAndServeTLS srv "" "" |}.

(** ** Errors *)

(** [errors.Join]: nil when every error is, else the others in order. *)
Definition Join (errs : list (option error)) : option (list error) :=
  match omap id errs with
  | [] => None
  | es => Some es
  end.

(** [errors.Is] of a joined error: of one of them. *)
Definition Join_Is (e : option (list error)) (s : sentinel) : bool :=
  match e with Some es => existsb (fun e => errors_Is e s) es | None => false end.

Lemma Join_None errs : Join errs = None <-> Forall (fun e => e = None) errs.
Proof.
  unfold Join. induction errs as [|[e|] errs IH]; cbn; [by split| |].
  - split; [done|]. inversion 1. done.
  - rewrite IH. split; [by constructor|by inversion 1].
Qed.

(** ** The goroutines

    A server's goroutine: in [Start], past the assignment to [serveErrs] with
    [cancelRun] to call, gone.  Its shutdown: not begun, in [Shutdown], done. *)
Inductive serving := Serving | Failing | Gone.
Inductive shutting := Up | Closing | Down.

(** [serveErrs[i]] and [shutdownErrs[i]] *)
Record server := Srv {
  sv_serve : serving;
  sv_err : option error;
  sv_shut : shutting;
  sv_shutErr : option error
}.

(** [Run]: before [<-runCtx.Done()], in [shutdownWG.Wait()], in [wg.Wait()],
    returned. *)
Inductive position := Waiting | ShuttingDown | Joining | Returned (e : option (list error)).

Section Run.

(** What each server's [Start] and [Shutdown] return in this run, and which
    [Start]s serve until they are shut down: like [http.Server]'s
    [ListenAndServe], they do not return before [Shutdown] is called.  The
    others return at any time, by a failure or otherwise. *)
Context (n : nat) (start_out shut_out : nat -> option error) (stays : nat -> bool).

(** [rs_parent]: [ctx] is done; [rs_cancelled]: [runCtx] is. *)
Record run_state := RS {
  rs_servers : list server;
  rs_pos : position;
  rs_parent : bool;
  rs_cancelled : bool
}.

(** [err != nil && !errors.Is(err, http.ErrServerClosed)] *)
Definition failure (err : option error) : option error :=
  match err with
  | Some e => if errors_Is e HttpErrServerClosed then None else Some e
  | None => None
  end.

(** Without servers [Run] returns nil at once. *)
Definition run_start : run_state :=
  RS (replicate n (Srv Serving None Up None)) (if n =? 0 then Returned None else Waiting) false false.

Inductive serve_step (i : nat) : server * bool -> server * bool -> Prop :=
  | start_ends sh e c : failure (start_out i) = None -> (stays i = true -> sh <> Up) ->
      serve_step i (Srv Serving None sh e, c) (Srv Gone None sh e, c)
  | start_fails err sh e c : failure (start_out i) = Some err -> (stays i = true -> sh <> Up) ->
      serve_step i (Srv Serving None sh e, c) (Srv Failing (Some err) sh e, c)
  | cancel_run err sh e c : serve_step i (Srv Failing err sh e, c) (Srv Gone err sh e, true)
  | shutdown_returns sv err c :
      serve_step i (Srv sv err Closing None, c) (Srv sv err Down (shut_out i), c).

Definition begin_shutdown (s : server) : server := Srv (sv_serve s) (sv_err s) Closing (sv_shutErr s).

Definition all_down (l : list server) : Prop := Forall (fun s => sv_shut s = Down) l.
Definition all_gone (l : list server) : Prop := Forall (fun s => sv_serve s = Gone) l.

Inductive step : run_state -> run_state -> Prop :=
  | step_parent l p c : step (RS l p false c) (RS l p true true)
  | step_server l p pa c i s s' c' :
      l !! i = Some s -> serve_step i (s, c) (s', c') -> step (RS l p pa c) (RS (<[i := s']> l) p pa c')
  | step_shutdown l pa : step (RS l Waiting pa true) (RS (begin_shutdown <$> l) ShuttingDown pa true)
  | step_down l pa c : all_down l -> step (RS l ShuttingDown pa c) (RS l Joining pa c)
  | step_return l pa c : all_gone l ->
      step (RS l Joining pa c) (RS l (Returned (Join ((sv_err <$> l) ++ (sv_shutErr <$> l)))) pa c).

(** What [Run] returns: the failures in the order of the servers, then the
    shutdown errors. *)
Definition run_errors : list (option error) :=
  (((fun i => failure (start_out i)) <$> seq 0 n) ++ (shut_out <$> seq 0 n))%list.

(** ** The invariant *)

Definition serve_ok (i : nat) (c : bool) (s : server) : Prop :=
  match sv_serve s with
  | Serving => sv_err s = None
  | Failing => sv_err s = failure (start_out i) /\ sv_err s <> None
  | Gone => sv_err s = failure (start_out i) /\ (sv_err s <> None -> c = true)
  end.

Definition shut_ok (i : nat) (p : position) (s : server) : Prop :=
  match p, sv_shut s with
  | Waiting, Up | ShuttingDown, Closing => sv_shutErr s = None
  | ShuttingDown, Down | Joining, Down => sv_shutErr s = shut_out i
  | Returned _, Down => sv_shutErr s = shut_out i /\ sv_serve s = Gone
  | _, _ => False
  end.

Definition failed (l : list server) : Prop := exists s, s ∈ l /\ sv_err s <> None.

Record run_inv (s : run_state) : Prop := {
  ri_length : length (rs_servers s) = n;
  ri_servers : forall i x, rs_servers s !! i = Some x -> serve_ok i (rs_cancelled s) x /\ shut_ok i (rs_pos s) x;
  ri_pos : rs_pos s <> Waiting -> rs_cancelled s = true \/ n = 0;
  ri_cause : rs_cancelled s = true -> rs_parent s = true \/ failed (rs_servers s);
  ri_parent : rs_parent s = true -> rs_cancelled s = true;
  ri_result : forall e, rs_pos s = Returned e -> e = Join run_errors;
  ri_zero : rs_pos s = Waiting -> n <> 0
}.

Lemma failed_insert l i x y : l !! i = Some x -> (sv_err x <> None -> sv_err y <> None) -> failed l -> failed (<[i := y]> l).
Proof.
  intros Hi Hxy (s & Hs & He). apply list_elem_of_lookup_1 in Hs as [j Hj]. pose proof (lookup_lt_Some _ _ _ Hi).
  destruct (decide (i = j)) as [<-|Hne].
  - exists y. split; [|apply Hxy; by simplify_eq]. apply (list_elem_of_lookup_2 _ i). by apply list_lookup_insert_eq.
  - exists s. split; [|done]. apply (list_elem_of_lookup_2 _ j). by rewrite list_lookup_insert_ne.
Qed.

Lemma failed_in l i x : l !! i = Some x -> sv_err x <> None -> failed l.
Proof. intros Hi He. exists x. split; [by eapply list_elem_of_lookup_2|done]. Qed.

(** A step of one server keeps what holds of it, and only adds failures. *)
Lemma serve_step_ok i p s c s' c' :
  serve_step i (s, c) (s', c') -> serve_ok i c s -> shut_ok i p s ->
  serve_ok i c' s' /\ shut_ok i p s' /\ (c = true -> c' = true) /\ (c' = true -> c = true \/ sv_err s <> None)
  /\ (sv_err s <> None -> sv_err s' <> None).
Proof.
  intros Hst Hs Hsh. inversion Hst; subst; unfold serve_ok, shut_ok in *; cbn in *.
  - split_and!; [congruence|done|destruct p, sh; naive_solver|naive_solver..].
  - split_and!; [congruence|done|destruct p, sh; naive_solver|naive_solver..].
  - split_and!; [naive_solver|naive_solver|destruct p, sh; naive_solver|naive_solver..].
  - split_and!; [done|destruct p; naive_solver|naive_solver..].
Qed.

Lemma results_of l :
  length l = n -> (forall i x, l !! i = Some x -> sv_err x = failure (start_out i) /\ sv_shutErr x = shut_out i) ->
  ((sv_err <$> l) ++ (sv_shutErr <$> l))%list = run_errors.
Proof.
  intros Hn Hl. unfold run_errors. f_equal; apply list_eq; intros i; rewrite !list_lookup_fmap.
  all: destruct (l !! i) as [x|] eqn:E; cbn.
  1,3: rewrite lookup_seq_lt by (rewrite <- Hn; by eapply lookup_lt_Some); cbn; by destruct (Hl i x E) as [? ?]; f_equal.
  all: by rewrite lookup_seq_ge by (rewrite <- Hn; by apply lookup_ge_None).
Qed.

Lemma run_inv_start : run_inv run_start.
Proof.
  unfold run_start. constructor; cbn.
  - apply length_replicate.
  - intros i x [-> Hi]%lookup_replicate. destruct n; [lia|]. split; done.
  - destruct (Nat.eqb_spec n 0) as [->|]; [by right|done].
  - done.
  - done.
  - unfold run_errors. destruct (Nat.eqb_spec n 0) as [->|]; [by intros e [= <-]|done].
  - by destruct (Nat.eqb_spec n 0).
Qed.

Lemma run_inv_step s s' : run_inv s -> step s s' -> run_inv s'.
Proof.
  intros [Hl Hsv Hp Hc Hpa Hr Hz] Hst. inversion Hst as [l p c|l p pa c i x x' c' Hi Hx|l pa|l pa c Hd|l pa c Hg]; subst; cbn in *.
  - constructor; cbn; try done; [|by left|by left]. intros i x Hi. destruct (Hsv i x Hi) as [Hs Hsh]. split; [|done].
    unfold serve_ok in *. destruct (sv_serve x); naive_solver.
  - destruct (Hsv i x Hi) as [Hs Hsh].
    destruct (serve_step_ok _ _ _ _ _ _ Hx Hs Hsh) as (Hs' & Hsh' & Hm & Hc' & He).
    constructor; cbn; try done.
    + by rewrite length_insert.
    + intros j y Hj. destruct (decide (i = j)) as [<-|Hne].
      * rewrite list_lookup_insert_eq in Hj by by eapply lookup_lt_Some. injection Hj as <-. done.
      * rewrite list_lookup_insert_ne in Hj by done. destruct (Hsv j y Hj) as [Hs2 Hsh2]. split; [|done].
        unfold serve_ok in *. destruct (sv_serve y); naive_solver.
    + naive_solver.
    + intros Ht. destruct (Hc' Ht) as [Hcc|Hne].
      * destruct (Hc Hcc) as [|Hf]; [by left|right]. by eapply failed_insert.
      * right. eapply failed_insert; [done|exact He|]. by eapply failed_in.
    + auto.
  - constructor; cbn; try done; [by rewrite length_fmap| |by left| ].
    + intros i x Hi. rewrite list_lookup_fmap in Hi. destruct (l !! i) as [y|] eqn:E; [|done]. injection Hi as <-.
      destruct (Hsv i y E) as [Hs Hsh]. split; [done|]. unfold shut_ok in *. cbn. by destruct (sv_shut y).
    + intros _. destruct (Hc eq_refl) as [|(y & Hy & He)]; [by left|right]. exists (begin_shutdown y).
      split; [by apply list_elem_of_fmap_2|done].
  - constructor; cbn; try done; [|naive_solver]. intros i x Hi. destruct (Hsv i x Hi) as [Hs Hsh]. split; [done|].
    pose proof (Forall_lookup_1 _ _ _ _ Hd Hi) as Hdn. cbn in Hdn. unfold shut_ok in *. by rewrite Hdn in *.
  - constructor; cbn; try done; [|naive_solver|].
    + intros i x Hi. destruct (Hsv i x Hi) as [Hs Hsh]. split; [done|].
      pose proof (Forall_lookup_1 _ _ _ _ Hg Hi) as Hgn. unfold shut_ok in *. by destruct (sv_shut x).
    + intros e [= <-]. f_equal. apply results_of; [done|]. intros i x Hi. destruct (Hsv i x Hi) as [Hs Hsh].
      pose proof (Forall_lookup_1 _ _ _ _ Hg Hi) as Hgn. cbn in Hgn. unfold serve_ok, shut_ok in *. rewrite Hgn in Hs.
      destruct (sv_shut x); naive_solver.
Qed.

Definition reachable : run_state -> Prop := rtc step run_start.

Lemma run_reachable_inv s : reachable s -> run_inv s.
Proof. apply (inv_rtc step run_inv run_inv_step), run_inv_start. Qed.

(** ** Progress *)

Definition serve_rank (s : server) : nat :=
  (match sv_serve s with Serving => 2 | Failing => 1 | Gone => 0 end) + (match sv_shut s with Down => 0 | _ => 1 end).

Definition pos_rank (p : position) : nat :=
  match p with Waiting => 3 | ShuttingDown => 2 | Joining => 1 | Returned _ => 0 end.

Definition measure (s : run_state) : nat :=
  (if rs_parent s then 0 else 1) + sum_list (serve_rank <$> rs_servers s) + pos_rank (rs_pos s).

Lemma serve_step_rank i s c s' c' : serve_step i (s, c) (s', c') -> serve_rank s' < serve_rank s.
Proof. intros H. inversion H; subst; unfold serve_rank; cbn; lia. Qed.

Lemma begin_rank i s : shut_ok i Waiting s -> serve_rank (begin_shutdown s) = serve_rank s.
Proof. unfold shut_ok, serve_rank. cbn. by destruct (sv_shut s). Qed.

Lemma begin_ranks (l : list server) : (forall i x, l !! i = Some x -> shut_ok i Waiting x) -> serve_rank <$> (begin_shutdown <$> l) = serve_rank <$> l.
Proof.
  intros Hl. apply list_eq. intros i. rewrite !list_lookup_fmap. destruct (l !! i) as [x|] eqn:E; [|done]. cbn. f_equal.
  by apply (begin_rank i), Hl.
Qed.

Lemma run_step_measure s s' : run_inv s -> step s s' -> measure s' < measure s.
Proof.
  intros Hi Hst. inversion Hst as [l p c|l p pa c i x x' c' Hx Hs|l pa|l pa c Hd|l pa c Hg]; subst; unfold measure; cbn; try lia.
  - pose proof (sum_insert serve_rank l i x x' Hx). apply serve_step_rank in Hs. lia.
  - rewrite begin_ranks; [lia|]. intros i x Hx. by apply (ri_servers _ Hi).
Qed.

Lemma run_measure_start : measure run_start <= 3 * n + 4.
Proof. unfold measure, run_start. cbn. rewrite sum_replicate. unfold serve_rank. cbn. destruct (n =? 0); cbn; lia. Qed.

(** What waits for [Run]: a server that has stopped without a failure, and one
    that serves until it is shut down. *)
Definition idle (i : nat) (s : server) : Prop :=
  (sv_serve s = Gone /\ sv_err s = None) \/ (sv_serve s = Serving /\ sv_err s = None /\ stays i = true).

Definition moves (i : nat) (s : server) (c : bool) : Prop := exists s' c', serve_step i (s, c) (s', c').

(** A server that has been told to shut down can move until it is gone. *)
Lemma serve_moves i s c : serve_ok i c s -> sv_serve s <> Gone -> sv_shut s <> Up -> moves i s c.
Proof.
  intros Hs Hg Hu. destruct s as [sv err sh e]. unfold serve_ok, moves in *. cbn in *. destruct sv; [|by eauto using serve_step|done].
  subst err. destruct (failure (start_out i)) as [err|] eqn:Ef; eauto using serve_step.
Qed.

Lemma stops_or_moves i s : serve_ok i false s -> idle i s \/ moves i s false.
Proof.
  intros Hs. destruct s as [sv err sh e]. unfold serve_ok, moves, idle in *. cbn in *. destruct sv; [|by eauto using serve_step|].
  - subst err. destruct (stays i) eqn:Est; [by left; right|right].
    destruct (failure (start_out i)) as [err|] eqn:Ef; do 2 eexists; [apply start_fails; [done|congruence]|apply start_ends; [done|congruence]].
  - left. left. split; [done|]. destruct Hs as [_ Hs]. destruct err; [by specialize (Hs ltac:(done))|done].
Qed.

Lemma lookup_or {A} (P Q : nat -> A -> Prop) (l : list A) :
  (forall i x, l !! i = Some x -> P i x \/ Q i x) ->
  (forall i x, l !! i = Some x -> P i x) \/ exists i x, l !! i = Some x /\ Q i x.
Proof.
  revert P Q. induction l as [|y l IH]; intros P Q Hl; [by left|].
  destruct (Hl 0 y eq_refl) as [Hy|Hy]; [|right; by exists 0, y].
  destruct (IH (fun i => P (S i)) (fun i => Q (S i)) (fun i x => Hl (S i) x)) as [Hp|(i & x & Hi & Hq)].
  - left. intros [|i] x Hi; [by injection Hi as <-|by apply Hp].
  - right. by exists (S i), x.
Qed.

Lemma server_moves l p pa c :
  (exists i x, l !! i = Some x /\ moves i x c) -> exists s', step (RS l p pa c) s' /\ rs_parent s' = pa.
Proof. intros (i & x & Hx & s' & c' & Hs). eexists. split; [by eapply step_server|done]. Qed.

Lemma run_progress s :
  run_inv s -> (forall e, rs_pos s <> Returned e) ->
  (rs_pos s = Waiting /\ rs_cancelled s = false /\ forall i x, rs_servers s !! i = Some x -> idle i x)
  \/ exists s', step s s' /\ rs_parent s' = rs_parent s.
Proof.
  intros [Hl Hsv Hp Hc Hpa Hr Hz] Hn. destruct s as [l p pa c]. cbn in *. destruct p as [| | |e]; [| | |by destruct (Hn e)].
  - destruct c; [right; eexists; split; [by apply step_shutdown|done]|].
    destruct (lookup_or idle (fun i x => moves i x false) l) as [Hidle|Hm]; [|by left|right; by apply server_moves].
    intros i x Hx. apply stops_or_moves. by apply (Hsv i x Hx).
  - destruct (lookup_or (fun _ x => sv_shut x = Down) (fun i x => moves i x c) l) as [Hd|Hm]; [|right|right; by apply server_moves].
    + intros i x Hx. destruct (Hsv i x Hx) as [_ Hsh]. unfold shut_ok in Hsh.
      destruct x as [sv err [] e]; cbn in *; [done| |by left]. subst e. right. do 2 eexists. apply shutdown_returns.
    + eexists. split; [apply step_down; by apply Forall_lookup|done].
  - destruct (lookup_or (fun _ x => sv_serve x = Gone) (fun i x => moves i x c) l) as [Hg|Hm]; [|right|right; by apply server_moves].
    + intros i x Hx. destruct (Hsv i x Hx) as [Hok Hsh]. unfold shut_ok in Hsh.
      destruct (sv_serve x) eqn:Es; [right|right|by left]; (apply serve_moves; [done|congruence|by destruct (sv_shut x)]).
    + eexists. split; [apply step_return; by apply Forall_lookup|done].
Qed.

(** Once the context is done or a server has failed there is no way back. *)
Definition ending (s : run_state) : Prop := rs_parent s = true \/ failed (rs_servers s).

Lemma failed_begin l : failed l -> failed (begin_shutdown <$> l).
Proof. intros (y & Hy & He). exists (begin_shutdown y). split; [by apply list_elem_of_fmap_2|done]. Qed.

Lemma ending_step s s' : run_inv s -> ending s -> step s s' -> ending s'.
Proof.
  intros Hi He Hst. unfold ending in *.
  destruct Hst as [l p c|l p pa c i x x' c' Hx Hs|l pa|l pa c Hd|l pa c Hg]; cbn in *; [by left| |destruct He; auto using failed_begin|done..].
  destruct He as [He|He]; [by left|right]. destruct (ri_servers _ Hi i x Hx) as [Hok Hsh].
  destruct (serve_step_ok _ _ _ _ _ _ Hs Hok Hsh) as (_ & _ & _ & _ & Herr). by eapply failed_insert.
Qed.

Lemma run_returns s :
  run_inv s -> ending s -> exists s' e, rtc step s s' /\ rs_parent s' = rs_parent s /\ rs_pos s' = Returned e.
Proof.
  remember (measure s) as m eqn:Hm. revert s Hm. induction m as [m IH] using lt_wf_ind. intros s -> Hi He.
  assert ((exists e, rs_pos s = Returned e) \/ forall e, rs_pos s <> Returned e) as [[e Hret]|Hn] by (destruct (rs_pos s); eauto).
  { by exists s, e. }
  destruct (run_progress s Hi Hn) as [(Hw & Hc & Hidle)|(s1 & Hst & Hpa)].
  - exfalso. destruct He as [Hp|(x & [i Hx]%list_elem_of_lookup_1 & Herr)].
    + apply (ri_parent _ Hi) in Hp. congruence.
    + destruct (Hidle i x Hx) as [[_ E]|[_ [E _]]]; congruence.
  - destruct (IH _ (run_step_measure _ _ Hi Hst) s1 eq_refl) as (s' & e & Hr & Hp & Hret);
      [by eapply run_inv_step|by eapply ending_step|]. exists s', e. split_and!; [by eapply rtc_l|congruence|done].
Qed.

(** ** The properties *)

(** C27: whatever the interleaving, [Run] returns only when every [Start] and
    every [Shutdown] has, and it returns the joined failures of all of them in
    the order of the servers: nil exactly when every server stopped without an
    error (or with [http.ErrServerClosed]) and shut down without one. *)
Theorem Run_result s e :
  reachable s -> rs_pos s = Returned e ->
  e = Join run_errors
  /\ all_gone (rs_servers s) /\ all_down (rs_servers s)
  /\ (e = None <-> forall i, i < n -> failure (start_out i) = None /\ shut_out i = None)
  /\ (forall i err x, i < n -> failure (start_out i) = Some err -> errors_Is err x = true -> Join_Is e x = true).
Proof.
  intros Hs He. destruct (run_reachable_inv _ Hs) as [Hl Hsv Hp Hc _ Hr Hz]. rewrite He in *.
  pose proof (Hr e eq_refl) as ->.
  assert (forall i x, rs_servers s !! i = Some x -> sv_serve x = Gone /\ sv_shut x = Down) as Hdone.
  { intros i x Hx. destruct (Hsv i x Hx) as [_ Hsh]. unfold shut_ok in Hsh. by destruct (sv_shut x), Hsh. }
  split_and!; [done|apply Forall_lookup; intros i x Hx; by apply (Hdone i)..| |].
  - rewrite Join_None. unfold run_errors. rewrite Forall_app, !Forall_fmap, !Forall_seq. cbn. split.
    + intros [H1 H2] i Hi. split; [apply H1|apply H2]; lia.
    + intros H. split; intros i Hi; apply H; lia.
  - intros i err x Hi Hf Hx. unfold Join. assert (err ∈ omap id run_errors) as Hin.
    { apply list_elem_of_omap. exists (Some err). split; [|done]. unfold run_errors. apply elem_of_app. left.
      rewrite <- Hf. apply (list_elem_of_fmap_2 (fun i => failure (start_out i))), elem_of_seq. lia. }
    destruct (omap id run_errors) as [|e0 es]; [by apply elem_of_nil in Hin|]. cbn [Join_Is].
    apply existsb_exists. exists err. split; [|done]. by apply list_elem_of_In.
Qed.

(** C28: no server is shut down before the context is done or a server has
    failed, and a failure always cancels. From then on [Run] cannot hang, even
    if its servers serve until they are shut down: it shuts them down and can
    be brought to its return. Before, the only thing it ever waits for is the
    context, with every server serving or stopped without a failure. It never
    runs for more than [3n + 4] steps. *)
Theorem Run_orderly s :
  reachable s ->
  (forall i x, rs_servers s !! i = Some x -> sv_shut x <> Up -> rs_parent s = true \/ failed (rs_servers s))
  /\ (forall i x, rs_servers s !! i = Some x -> sv_serve x = Gone -> sv_err x <> None -> rs_cancelled s = true)
  /\ ((forall e, rs_pos s <> Returned e) ->
       (rs_pos s = Waiting /\ rs_parent s = false /\ forall i x, rs_servers s !! i = Some x -> idle i x)
       \/ exists s', step s s' /\ rs_parent s' = rs_parent s)
  /\ (rs_parent s = true \/ failed (rs_servers s) ->
       exists s' e, rtc step s s' /\ rs_parent s' = rs_parent s /\ rs_pos s' = Returned e)
  /\ (forall m s', nsteps step m run_start s' -> m <= 3 * n + 4).
Proof.
  intros Hs. pose proof (run_reachable_inv _ Hs) as Hi. pose proof Hi as [Hl Hsv Hp Hc Hpa Hr Hz]. split_and!.
  - intros i x Hx Hu. apply Hc. destruct (Hsv i x Hx) as [_ Hsh]. pose proof (lookup_lt_Some _ _ _ Hx).
    destruct Hp as [|]; [|done|lia]. intros Hw. rewrite Hw in Hsh. unfold shut_ok in Hsh. by destruct (sv_shut x).
  - intros i x Hx Hg He. destruct (Hsv i x Hx) as [Hok _]. unfold serve_ok in Hok. rewrite Hg in Hok. by apply Hok.
  - intros Hn. destruct (run_progress s Hi Hn) as [(Hw & Hcn & Hidle)|?]; [left|by right]. split_and!; [done| |done].
    destruct (rs_parent s); [|done]. by rewrite Hpa in Hcn.
  - by apply run_returns.
  - intros m s' Hst. pose proof (nsteps_measure step run_inv run_inv_step measure m _ _ run_step_measure run_inv_start Hst).
    pose proof run_measure_start. lia.
Qed.

End Run.

(** ** A run

    Two servers: the port of the first is taken, the second serves until it is
    shut down. *)
Definition taken : error := Enew "listen tcp :8080: bind: address already in use".
Definition demo_start (i : nat) : option error := if i =? 0 then Some taken else Some (Esent HttpErrServerClosed).
Definition demo_shut (i : nat) : option error := None.
Definition demo_stays (i : nat) : bool := negb (i =? 0).

Definition demo_failed : run_state :=
  RS [Srv Failing (Some taken) Up None; Srv Serving None Up None] Waiting false false.
Definition demo_end : run_state :=
  RS [Srv Gone (Some taken) Down None; Srv Gone None Down None] (Returned (Some [taken])) false true.

Lemma run_demo_failed : reachable 2 demo_start demo_shut demo_stays demo_failed.
Proof.
  unfold reachable, run_start, demo_failed. cbn [replicate Nat.eqb].
  eapply rtc_l; [eapply (step_server _ _ _ _ _ _ _ 0); [reflexivity|by apply start_fails]|]. apply rtc_refl.
Qed.

Lemma run_demo : reachable 2 demo_start demo_shut demo_stays demo_end.
Proof.
  unfold reachable. etransitivity; [apply run_demo_failed|]. unfold demo_failed, demo_end.
  eapply rtc_l; [eapply (step_server _ _ _ _ _ _ _ 0); [reflexivity|apply cancel_run]|]. cbn [insert list_insert].
  eapply rtc_l; [apply step_shutdown|]. cbn.
  eapply rtc_l; [eapply (step_server _ _ _ _ _ _ _ 1); [reflexivity|apply shutdown_returns]|]. cbn [insert list_insert].
  eapply rtc_l; [eapply (step_server _ _ _ _ _ _ _ 1); [reflexivity|by apply start_ends]|]. cbn [insert list_insert].
  eapply rtc_l; [eapply (step_server _ _ _ _ _ _ _ 0); [reflexivity|apply shutdown_returns]|]. cbn [insert list_insert].
  eapply rtc_l; [apply step_down; by repeat constructor|].
  eapply rtc_l; [apply step_return; by repeat constructor|]. apply rtc_refl.
Qed.

Lemma Run_result_witness : Some [taken] = Join (run_errors 2 demo_start demo_shut).
Proof. apply (Run_result 2 demo_start demo_shut demo_stays demo_end (Some [taken]) run_demo eq_refl). Defined.

(** The failure of the first brings down the second, which would serve on. *)
Lemma Run_orderly_witness :
  exists s' e, rtc (step demo_start demo_shut demo_stays) demo_failed s' /\ rs_parent s' = false /\ rs_pos s' = Returned e.
Proof.
  destruct (Run_orderly 2 demo_start demo_shut demo_stays demo_failed run_demo_failed) as (_ & _ & _ & Hend & _).
  apply Hend. right. exists (Srv Failing (Some taken) Up None). split; [left|discriminate].
Defined.
