(* ===== verification/Admission.v ===== *)
(** * Admission: src/k8s/admission/admission.go

    Decoding an AdmissionReview, dispatching it to a handler and writing the
    answer.  The review's JSON form belongs to k8s.io/api: it is the class
    [ReviewCodec], of which [AdmissionCodec] is an instance.  A handler is given the review itself, so it may change it;
    [St] is whatever else it works on. *)

From Stdlib Require Import ZArith Lia Ascii String.
From stdpp Require Import base gmap strings list.
From S2P Require Import Prelude GoStrings Json GoIO.

Local Open Scope string_scope.

(** ** The types of k8s.io the source uses *)

Definition StatusReasonForbidden : string := "Forbidden".

Record Status := { st_Message : string; st_Reason : string }.

(** [ar_Patch]: a field no code here touches, but handlers do. *)
Record AdmissionResponse := {
  ar_UID : string;
  ar_Allowed : bool;
  ar_Result : option Status;
  ar_Patch : option bytes
}.

Record AdmissionReview (Request : Type) := {
  rv_TypeMeta : string * string;
  rv_Request : option Request;
  rv_Response : option AdmissionResponse
}.
Arguments rv_TypeMeta {Request} _.
Arguments rv_Request {Request} _.
Arguments rv_Response {Request} _.

(** [json.Unmarshal] and [json.Marshal] of a review. *)
Class ReviewCodec (Request : Type) := {
  request_UID : Request -> string;
  review_unmarshal : json -> result (AdmissionReview Request);
  review_marshal : AdmissionReview Request -> result bytes
}.

(** What a reader of a response gets: its strings as valid UTF-8, and no patch
    for an empty one ([omitempty]). *)
Definition sent_status (s : Status) : Status :=
  {| st_Message := to_utf8 (st_Message s); st_Reason := to_utf8 (st_Reason s) |}.

Definition sent_patch (p : option bytes) : option bytes := match p with Some [] => None | p => p end.

Definition sent_response (r : AdmissionResponse) : AdmissionResponse :=
  {| ar_UID := to_utf8 (ar_UID r); ar_Allowed := ar_Allowed r; ar_Result := sent_status <$> ar_Result r;
     ar_Patch := sent_patch (ar_Patch r) |}.

(** A review without a request that has been written can be read back, as far
    as [encoding/json] keeps it. *)
Class ReviewCodecOk (Request : Type) `{ReviewCodec Request} :=
  review_roundtrip v b : rv_Request v = None -> review_marshal v = Ok b ->
    exists j, decode_first (string_of b) = Some j
      /\ review_unmarshal j = Ok {| rv_TypeMeta := (to_utf8 (rv_TypeMeta v).1, to_utf8 (rv_TypeMeta v).2);
                                    rv_Request := None; rv_Response := sent_response <$> rv_Response v |}.

(** ** The response writer

    Its headers, the status once sent, and the body. *)
Record ResponseWriter := { w_headers : gmap string string; w_status : option Z; w_body : bytes }.

Definition w_fresh : ResponseWriter := {| w_headers := ∅; w_status := None; w_body := [] |}.

Definition Header_Set (k v : string) (w : ResponseWriter) : ResponseWriter :=
  {| w_headers := <[k := v]> (w_headers w); w_status := w_status w; w_body := w_body w |}.

(** Only the first status counts. *)
Definition WriteHeader (status : Z) (w : ResponseWriter) : ResponseWriter :=
  {| w_headers := w_headers w; w_status := Some (default status (w_status w)); w_body := w_body w |}.

Definition Write (b : bytes) (w : ResponseWriter) : ResponseWriter :=
  {| w_headers := w_headers w; w_status := Some (default 200%Z (w_status w)); w_body := (w_body w ++ b)%list |}.

(** [http.Error] *)
Definition http_Error (msg : string) (code : Z) (w : ResponseWriter) : ResponseWriter :=
  Write (bytes_of (msg +:+ String "010" ""))
    (WriteHeader code
      (Header_Set "X-Content-Type-Options" "nosniff" (Header_Set "Content-Type" "text/plain; charset=utf-8" w))).

(** ** The package *)

Definition DefaultMaxBody : Z := 10 * 2 ^ 20.
Definition StatusBadRequest : Z := 400.
Definition StatusInternalServerError : Z := 500.

Definition Allow : AdmissionResponse := {| ar_UID := ""; ar_Allowed := true; ar_Result := None; ar_Patch := None |}.

Definition Deny (msg : string) : AdmissionResponse :=
  {| ar_UID := ""; ar_Allowed := false; ar_Result := Some {| st_Message := msg; st_Reason := StatusReasonForbidden |};
     ar_Patch := None |}.

Definition with_UID (resp : AdmissionResponse) (uid : string) : AdmissionResponse :=
  {| ar_UID := uid; ar_Allowed := ar_Allowed resp; ar_Result := ar_Result resp; ar_Patch := ar_Patch resp |}.

Section Serve.
Context {Request St : Type} `{ReviewCodec Request}.

(** What the handler returns, what it leaves of the review and of its state. *)
Definition Handler : Type := AdmissionReview Request -> St -> option AdmissionResponse * AdmissionReview Request * St.

(** [io.LimitReader] under the decoder, which reads no further than the first
    value. *)
Definition Decode (body : reader) (maxBytes : Z) : result (AdmissionReview Request) :=
  let maxBytes := if (maxBytes <=? 0)%Z then DefaultMaxBody else maxBytes in
  wrap "decode admission review"
    (match decode_first (string_of (take (Z.to_nat maxBytes) (content body))) with
     | Some j => review_unmarshal j
     | None => Err (Enew "invalid JSON")
     end).

(** [review.Response = resp; review.Request = nil] *)
Definition answer_with (review : AdmissionReview Request) (resp : AdmissionResponse) : AdmissionReview Request :=
  {| rv_TypeMeta := rv_TypeMeta review; rv_Request := None; rv_Response := Some resp |}.

(** A handler that drops the request makes the copy of its UID panic. *)
Definition Serve (w : ResponseWriter) (body : reader) (maxBytes : Z) (handler : Handler) (st : St)
  : result ResponseWriter * St :=
  match Decode body maxBytes with
  | Panic p => (Panic p, st)
  | Err _ => (Ok (http_Error "decode admission review" StatusBadRequest w), st)
  | Ok review =>
      match rv_Request review with
      | None => (Ok (http_Error "admission review missing request" StatusBadRequest w), st)
      | Some _ =>
          let '(handled, review, st) := handler review st in
          let resp := default Allow handled in
          match rv_Request review with
          | None => (Panic "nil pointer dereference", st)
          | Some request =>
              match review_marshal (answer_with review (with_UID resp (request_UID request))) with
              | Panic p => (Panic p, st)
              | Err _ => (Ok (http_Error "encode response" StatusInternalServerError w), st)
              | Ok out => (Ok (Write out (Header_Set "Content-Type" "application/json" w)), st)
              end
          end
      end
  end.

(** The handler leaves the request alone. *)
Definition keeps_request (handler : Handler) : Prop :=
  forall review st, rv_Request ((handler review st).1.2) = rv_Request review.


(** A body is read up to the cap: what follows makes no difference. *)
Lemma Serve_body_capped body body' maxBytes handler st w :
  let cap := Z.to_nat (if (maxBytes <=? 0)%Z then DefaultMaxBody else maxBytes) in
  take cap (content body) = take cap (content body') ->
  Serve w body maxBytes handler st = Serve w body' maxBytes handler st.
Proof. intros cap Hc. unfold Serve, Decode. fold cap. by rewrite Hc. Qed.

End Serve.
