(* ===== verification/AdmissionCodec.v ===== *)
(** * AdmissionCodec: the JSON of a review, and a denied request

    An instance of [ReviewCodec] with the tags of k8s.io/api for the fields
    [Admission] has: [omitempty] members, strings through [encoding/json], a
    patch in base64.  A request is its UID.  It meets [ReviewCodecOk] for every
    review, whatever bytes its strings hold; the witness runs on it. *)

From Stdlib Require Import ZArith Lia Ascii String Strings.Byte.
From stdpp Require Import base gmap strings list.
From S2P Require Import Prelude GoStrings Sha256 Json GoIO Admission.

Local Open Scope string_scope.

(** ** base64 (encoding/base64, standard alphabet) *)

Definition b64_char (z : Z) : ascii :=
  ascii_of_nat (Z.to_nat (if z <? 26 then 65 + z else if z <? 52 then 71 + z else if z <? 62 then z - 4
                          else if z =? 62 then 43 else 47)%Z).

Definition b64_val (c : ascii) : option Z :=
  if in_range 65 90 c then Some (cval c - 65)%Z else if in_range 97 122 c then Some (cval c - 71)%Z
  else if in_range 48 57 c then Some (cval c + 4)%Z else if Ascii.eqb c "+" then Some 62%Z
  else if Ascii.eqb c "/" then Some 63%Z else None.

Fixpoint b64_encode (b : bytes) : string :=
  match b with
  | [] => ""
  | [x] => String (b64_char (Z_of_byte x / 4)) (String (b64_char (Z_of_byte x mod 4 * 16)) "==")
  | [x; y] =>
      String (b64_char (Z_of_byte x / 4)) (String (b64_char (Z_of_byte x mod 4 * 16 + Z_of_byte y / 16))
        (String (b64_char (Z_of_byte y mod 16 * 4)) "="))
  | x :: y :: z :: b' =>
      String (b64_char (Z_of_byte x / 4)) (String (b64_char (Z_of_byte x mod 4 * 16 + Z_of_byte y / 16))
        (String (b64_char (Z_of_byte y mod 16 * 4 + Z_of_byte z / 64)) (String (b64_char (Z_of_byte z mod 64)) (b64_encode b'))))
  end.

Fixpoint b64_decode (s : string) : option bytes :=
  match s with
  | "" => Some []
  | String a (String b (String c (String d s'))) =>
      va ← b64_val a; vb ← b64_val b;
      let x := byte_of_Z (va * 4 + vb / 16) in
      if Ascii.eqb c "=" then if Ascii.eqb d "=" && String.eqb s' "" then Some [x] else None
      else
        vc ← b64_val c;
        let y := byte_of_Z (vb mod 16 * 16 + vc / 4) in
        if Ascii.eqb d "=" then if String.eqb s' "" then Some [x; y] else None
        else vd ← b64_val d; rest ← b64_decode s'; Some (x :: y :: byte_of_Z (vc mod 4 * 64 + vd) :: rest)
  | _ => None
  end.

Lemma b64_char_ok z : (0 <= z < 64)%Z ->
  b64_val (b64_char z) = Some z /\ Ascii.eqb (b64_char z) "=" = false /\ is_ascii (b64_char z) = true.
Proof.
  intros Hz. assert (forallb (fun n => bool_decide (b64_val (b64_char (Z.of_nat n)) = Some (Z.of_nat n))
    && negb (Ascii.eqb (b64_char (Z.of_nat n)) "=") && is_ascii (b64_char (Z.of_nat n))) (seq 0 64) = true) as Hall by (vm_compute; reflexivity).
  rewrite forallb_forall in Hall. specialize (Hall (Z.to_nat z)). rewrite Z2Nat.id in Hall by lia.
  destruct (andb_prop _ _ (Hall ltac:(apply in_seq; lia))) as [[H1 H2]%andb_prop H3].
  split_and!; [by apply bool_decide_eq_true in H1|by apply negb_true_iff in H2|done].
Qed.

Lemma Z_of_byte_range x : (0 <= Z_of_byte x < 256)%Z.
Proof. unfold Z_of_byte. pose proof (Byte.to_N_bounded x). lia. Qed.

Lemma byte_of_Z_of x z : z = Z_of_byte x -> byte_of_Z z = x.
Proof. intros ->. by destruct x. Qed.

(** Three bytes at a time. *)
Lemma bytes_ind3 (P : bytes -> Prop) :
  P [] -> (forall x, P [x]) -> (forall x y, P [x; y]) -> (forall x y z b, P b -> P (x :: y :: z :: b)) -> forall b, P b.
Proof.
  intros H0 H1 H2 H3. fix IH 1. intros [|x [|y [|z b]]]; [exact H0|apply H1|apply H2|]. apply H3, IH.
Qed.

Ltac zdiv := Z.to_euclidean_division_equations; lia.

Ltac b64_digits :=
  repeat match goal with
  | |- context [b64_val (b64_char ?z)] => destruct (b64_char_ok z) as (-> & _); [zdiv|]; cbn [mbind option_bind]
  | |- context [Ascii.eqb (b64_char ?z) "="] => destruct (b64_char_ok z) as (_ & -> & _); [zdiv|]
  end.

Lemma b64_roundtrip b : b64_decode (b64_encode b) = Some b.
Proof.
  induction b as [|x|x y|x y z b IH] using bytes_ind3; [done|..]; pose proof (Z_of_byte_range x); cbn [b64_encode b64_decode].
  - b64_digits. cbn [Ascii.eqb String.eqb Bool.eqb andb]. f_equal. f_equal. apply byte_of_Z_of. zdiv.
  - pose proof (Z_of_byte_range y). b64_digits. cbn [Ascii.eqb String.eqb Bool.eqb andb].
    f_equal. f_equal; [|f_equal]; apply byte_of_Z_of; zdiv.
  - pose proof (Z_of_byte_range y). pose proof (Z_of_byte_range z). b64_digits. rewrite IH. cbn [mbind option_bind].
    f_equal. f_equal; [|f_equal; [|f_equal]]; apply byte_of_Z_of; zdiv.
Qed.

Lemma b64_encode_ascii b : utf8_ok 0 (b64_encode b) = true.
Proof.
  assert (forall z s, (0 <= z < 64)%Z -> utf8_ok 0 (String (b64_char z) s) = utf8_ok 0 s) as Hc.
  { intros z s Hz. destruct (b64_char_ok z Hz) as (_ & _ & Ha). cbn [utf8_ok]. by rewrite Ha. }
  induction b as [|x|x y|x y z b IH] using bytes_ind3; [done|..]; pose proof (Z_of_byte_range x); cbn [b64_encode].
  - by rewrite !Hc by zdiv.
  - pose proof (Z_of_byte_range y). by rewrite !Hc by zdiv.
  - pose proof (Z_of_byte_range y). pose proof (Z_of_byte_range z). by rewrite !Hc by zdiv.
Qed.

(** ** What the encoder does to objects *)

Lemma coerced_obj (fs : list (string * option json)) :
  forallb (fun ko => utf8_ok 0 (fst ko)) fs = true ->
  coerced (obj fs) = obj (map (fun ko => (fst ko, option_map coerced (snd ko))) fs).
Proof.
  unfold obj. intros Hok. cbn [coerced]. f_equal. induction fs as [|[k o] fs IH]; [done|]. cbn [forallb fst] in Hok.
  apply andb_true_iff in Hok as [Hk Hok]. destruct o as [j|]; cbn [map obj_members option_map fst snd]; rewrite IH by done; [|done].
  by rewrite (to_utf8_valid k).
Qed.

Lemma to_utf8_empty s : String.eqb (to_utf8 s) "" = String.eqb s "".
Proof. destruct s as [|c s]; [done|]. unfold to_utf8. cbn [coerce]. destruct (is_ascii c); [done|]. by destruct (utf8_more c s). Qed.

Lemma coerced_o_str s : option_map coerced (o_str s) = o_str (to_utf8 s).
Proof. unfold o_str. rewrite to_utf8_empty. by destruct (String.eqb s ""). Qed.

(** ** The codec *)

Definition status_json (s : Status) : json := obj [("message", o_str (st_Message s)); ("reason", o_str (st_Reason s))].

Definition patch_json (p : option bytes) : option json :=
  match p with Some (x :: b) => Some (JStr (b64_encode (x :: b))) | _ => None end.

Definition response_json (r : AdmissionResponse) : json :=
  obj [("uid", e_str (ar_UID r)); ("allowed", Some (JBool (ar_Allowed r))); ("status", status_json <$> ar_Result r);
       ("patch", patch_json (ar_Patch r))].

Definition request_json (uid : string) : json := obj [("uid", e_str uid)].

Definition review_json (v : AdmissionReview string) : json :=
  obj [("kind", o_str (rv_TypeMeta v).1); ("apiVersion", o_str (rv_TypeMeta v).2);
       ("request", request_json <$> rv_Request v); ("response", response_json <$> rv_Response v)].

(** A pointer field: nil when absent or null. *)
Definition u_ptr {A} (f : json -> result A) (o : option json) : result (option A) :=
  match o with None | Some JNull => Ok None | Some j => Some <$> f j end.

Definition status_of (j : json) : result Status :=
  l ← u_obj j; msg ← u_str (get_member "message" l); reason ← u_str (get_member "reason" l);
  Ok {| st_Message := msg; st_Reason := reason |}.

Definition bytes_value (j : json) : result bytes :=
  s ← u_str (Some j);
  match b64_decode s with Some b => Ok b | None => Err (Enew "illegal base64 data") end.

Definition response_of (j : json) : result AdmissionResponse :=
  l ← u_obj j; uid ← u_str (get_member "uid" l); allowed ← u_bool (get_member "allowed" l);
  status ← u_ptr status_of (get_member "status" l); patch ← u_ptr bytes_value (get_member "patch" l);
  Ok {| ar_UID := uid; ar_Allowed := allowed; ar_Result := status; ar_Patch := patch |}.

Definition review_of (j : json) : result (AdmissionReview string) :=
  l ← u_obj j; kind ← u_str (get_member "kind" l); version ← u_str (get_member "apiVersion" l);
  request ← u_ptr (fun r => rl ← u_obj r; u_str (get_member "uid" rl)) (get_member "request" l);
  response ← u_ptr response_of (get_member "response" l);
  Ok {| rv_TypeMeta := (kind, version); rv_Request := request; rv_Response := response |}.

#[global] Instance codec : ReviewCodec string := {
  request_UID := id;
  review_unmarshal := review_of;
  review_marshal v := Ok (bytes_of (marshal (review_json v)))
}.

Lemma status_of_json s : status_of (status_json s) = Ok s.
Proof. unfold status_of, status_json. cbn [u_obj obj mbind result_bind]. read_fields. rewrite !u_str_o. by destruct s. Qed.

Lemma response_of_json r : response_of (response_json r) = Ok {| ar_UID := ar_UID r; ar_Allowed := ar_Allowed r;
  ar_Result := ar_Result r; ar_Patch := sent_patch (ar_Patch r) |}.
Proof.
  unfold response_of, response_json. cbn [u_obj obj mbind result_bind]. read_fields. rewrite u_str_e. cbn [u_bool mbind result_bind].
  assert (u_ptr status_of (status_json <$> ar_Result r) = Ok (ar_Result r)) as ->.
  { destruct (ar_Result r) as [s|]; [|done]. change (Some <$> status_of (status_json s) = Ok (Some s)). by rewrite status_of_json. }
  assert (u_ptr bytes_value (patch_json (ar_Patch r)) = Ok (sent_patch (ar_Patch r))) as ->; [|done].
  destruct (ar_Patch r) as [[|x b]|]; [done| |done]. unfold patch_json, u_ptr, bytes_value. cbn [u_str mbind result_bind].
  by rewrite b64_roundtrip.
Qed.

Lemma coerced_status s : coerced (status_json s) = status_json (sent_status s).
Proof. unfold status_json. rewrite coerced_obj by done. cbn [map fst snd]. by rewrite !coerced_o_str. Qed.

Lemma coerced_response r : coerced (response_json r) = response_json {| ar_UID := to_utf8 (ar_UID r); ar_Allowed := ar_Allowed r;
  ar_Result := sent_status <$> ar_Result r; ar_Patch := ar_Patch r |}.
Proof.
  unfold response_json. rewrite coerced_obj by done. cbn [map fst snd ar_UID ar_Allowed ar_Result ar_Patch].
  assert (option_map coerced (status_json <$> ar_Result r) = status_json <$> (sent_status <$> ar_Result r)) as ->.
  { destruct (ar_Result r) as [s|]; [|done]. exact (f_equal Some (coerced_status s)). }
  assert (option_map coerced (patch_json (ar_Patch r)) = patch_json (ar_Patch r)) as ->; [|done].
  destruct (ar_Patch r) as [[|x b]|]; [done| |done]. unfold patch_json. cbn [option_map coerced].
  by rewrite to_utf8_valid by apply b64_encode_ascii.
Qed.

(** Nothing in a review is a number. *)
Lemma nums_ok_obj fs : Forall (fun ko => match snd ko with Some j => nums_ok j = true | None => True end) fs -> nums_ok (obj fs) = true.
Proof.
  unfold obj. cbn [nums_ok]. induction 1 as [|[k [j|]] fs Hj HF IH]; [done| |exact IH]. cbn in *. by rewrite Hj, IH.
Qed.

Lemma json_nums_review v : nums_ok (review_json v) = true.
Proof.
  assert (forall s, match o_str s with Some j => nums_ok j = true | None => True end) as Hs
    by (intros s; unfold o_str; by destruct (String.eqb s "")).
  apply nums_ok_obj. repeat constructor; cbn [snd]; [apply Hs..| |].
  - by destruct (rv_Request v).
  - destruct (rv_Response v) as [r|]; [|done]. cbn [fmap option_fmap option_map]. apply nums_ok_obj. repeat constructor; cbn [snd].
    + destruct (ar_Result r); [|done]. cbn [fmap option_fmap option_map]. apply nums_ok_obj. repeat constructor; apply Hs.
    + by destruct (ar_Patch r) as [[]|].
Qed.

#[global] Instance codec_ok : ReviewCodecOk string.
Proof.
  intros [[kind version] request response] b. cbn [rv_Request rv_TypeMeta rv_Response fst snd]. intros -> [= <-].
  eexists. rewrite string_of_bytes_of. unfold marshal. rewrite <- (sapp_nil_r (render _ _ _)). split.
  - apply decode_first_render; [|done]. apply json_nums_review.
  - cbn [review_unmarshal codec]. unfold review_json. cbn [rv_Request rv_TypeMeta rv_Response fst snd]. rewrite coerced_obj by done.
    cbn [map fst snd fmap option_fmap option_map]. rewrite !coerced_o_str. unfold review_of. cbn [u_obj obj mbind result_bind].
    read_fields. rewrite !u_str_o. cbn [mbind result_bind]. destruct response as [r|]; [|done].
    change (option_map coerced (response_json <$> Some r)) with (Some (coerced (response_json r))). rewrite coerced_response.
    set (r' := {| ar_UID := _ |}). change (u_ptr response_of (Some (response_json r'))) with (Some <$> response_of (response_json r')).
    by rewrite response_of_json.
Qed.

(** ** A denied request *)

Definition request_body : reader :=
  [(bytes_of (marshal (review_json {| rv_TypeMeta := ("AdmissionReview", "v1"); rv_Request := Some "u-1"; rv_Response := None |})), None)].

(** Denies everything, in text that is not all UTF-8, and counts its calls. *)
Definition deny_all : Handler (Request := string) (St := nat) :=
  fun review calls => (Some (Deny ("not today" +:+ String "255" "")), review, S calls).

Definition denied : result ResponseWriter * nat := Serve w_fresh request_body 0 deny_all 0.

